(* ===== verification/_CoqProject ===== *)
-Q . S2P
Prelude.v
GoStrings.v
GoHash.v
Kube.v
Api.v
Queue.v
QueueLog.v
UpgradeQueue.v
BackupQueue.v
Constants.v
Conditions.v
Events.v
InstanceConfig.v
InstanceAddons.v
Effects.v
QueueSystem.v
QueueDrain.v
KubeRef.v
Cluster.v
QueueWork.v
BackupSpec.v
Status.v
UpgradeScript.v
Workload.v
BackupScript.v
BackupJob.v
BackupController.v
UpgradeJob.v
UpgradeController.v
UpgradeSystem.v
UpgradeProgress.v
BackupSystem.v
BackupProgress.v
InstanceGate.v
InstanceController.v
InstanceFailure.v
InstanceProgress.v
InstanceSteady.v
SystemProgress.v
SystemSteady.v
AddonSpec.v
AddonState.v
AddonJob.v
AddonController.v
AddonProgress.v
AddonRollout.v
AddonDeletion.v
Schema.v
Access.v
Security.v
Findings.v
Manager.v
