(* ===== verification/Prelude.v ===== *)
(** * Verification of the Odoo Kubernetes operator

    The operator (src/) runs Odoo on Kubernetes. It watches four resources of its own: an
    OdooInstance (one Odoo deployment), an OdooAddon (a git repository of modules for an instance),
    an OdooUpgrade (one [odoo -u] or [-i] run) and an OdooBackup (a dump, once or on a schedule).
    Each has a controller whose [Reconcile] is called again and again with the key of one object: a
    pass reads the cluster, decides, writes, and asks to be called later. The controllers meet in the
    API server only: the instance controller creates OdooUpgrades and waits for their phase, and
    mounts the modules that addons report in their status.

    ** The parts

    Language and library:
    - [Prelude]: errors, results, machine integers, tactics, generic lemmas.
    - [GoStrings], [GoHash]: the functions of the Go standard library the operator calls
      (strings, UTF-8, quoting, sorting, path cleaning, SHA-256, FNV, JSON of string lists),
      executable, with their lemmas.
    - [Kube], [KubeRef]: the Kubernetes objects cut down to the fields the operator uses; the
      functions of apimachinery and controller-runtime as a class [KubeLib] with classes of laws;
      one implementation of them, which shows that the laws can hold and runs the witnesses.
    - [Effects]: a reconciler is a [prog], a tree of API calls with a branch for every possible
      answer; [execs] are its executions, [wp] the logic of the theorems about them.

    Data and rules:
    - [Api] (api/v1/*_types.go, conditions.go), [Constants] (constants.go): the four resources.
    - [Schema]: the validation markers of api/v1, as the API server enforces them.
    - [Conditions], [Status] (conditions.go), [Events] (events.go): what a status says.

    The instance (odooinstance_*.go):
    - [InstanceConfig]: the text of odoo.conf.
    - [InstanceAddons]: ready addons, mount paths, the hashes that decide on a rollout.
    - [Workload]: pod templates, probes, volumes, affinity, the cron pod.
    - [InstanceGate]: the gates (initialise the database first; upgrade it before new modules).
    - [InstanceController]: the reconciler; [InstanceFailure]: how its pass fails.
    - [InstanceProgress]: its passes bring the instance to Ready; [InstanceSteady]: a pass after a
      pass changes nothing.

    Upgrades and backups (odooupgrade_*.go, odoobackup_*.go):
    - [UpgradeScript], [UpgradeJob], [UpgradeController]; [BackupSpec], [BackupScript],
      [BackupJob], [BackupController]: validation, scripts, Jobs, reconcilers.
    - [Queue], [UpgradeQueue], [BackupQueue]: one run of an instance at a time, as an interface
      ([QueueItem]) with its specification, and the two loops that implement it.
    - [QueueLog], [QueueSystem]: what that gives with stale caches and concurrent passes, for any
      controller that keeps the promises of the class [QueueController]: no overlap but for the
      pairs [may_overlap] names (a name used before, or an object created later that comes first by
      creation time and name); [UpgradeSystem], [BackupSystem]: the two controllers keep them, and two
      upgrades created in the same second can overlap.
    - [QueueDrain]: why such a queue gets to its end, for any controller that is a [Worker];
      [QueueWork]: what a pass has to do for that when the objects run Jobs ([turned]);
      [UpgradeProgress], [BackupProgress]: the passes of the two controllers do it, and scheduled
      backups get their CronJobs.

    Addons (odooaddon_*.go):
    - [AddonSpec], [AddonState], [AddonJob], [AddonController]: validation and webhook, the sync
      state machine, scripts and Jobs, the reconciler with its finalizer.
    - [AddonProgress]: a pass is a move of a small machine, and the moves lead to Synced;
      [AddonDeletion]: the passes let go of an addon that is deleted.

    The whole operator:
    - [Cluster]: the objects of a namespace behind an API server that accepts calls, on which the
      progress theorems run the programs; [SystemProgress]: the instance and the upgrade controller
      on one cluster, [SystemSteady]: that they come to rest; [AddonRollout]: these two and the addon
      controller, from a git commit to the pods.
    - [Access]: the watches of the four controllers and the role they run under.
    - [Manager] (cmd/main.go): flags, options, and the steps up to the start.
    - [Security]: the pods of all controllers together. [Findings]: what the code does where its
      documentation says something else.

    ** What is shown

    - Safety of the reconcilers, for every answer of the API server (stale reads, conflicts, lost
      objects, failures): no pod runs on a database that is not ready, and no new revision before its
      upgrade ([reconcileOdooInstance_rollout]); a status write never revives a finished run and
      always has its reason in the pass ([upgradeReconcile_writes], [backupReconcile_writes],
      [addonReconcile_status]); what is created and deleted, and after which reads
      ([reconcileOdooInstance_footprint], [upgradeReconcile_creates], [backupReconcile_creates],
      [addonReconcile_jobs], [addonReconcile_finalizer]); an instance that cannot be reconciled says
      why, and its pods are not touched ([instancePass_failure]).
    - Progress, on a cluster that answers: the commit an addon is synced to reaches the pods of its
      instance, after the upgrade for it ([addon_gets_rolled_out]). An instance gets Ready from the third pass on, whatever it
      waits for ([instance_gets_ready]), also when the upgrades it waits for are run by the upgrade
      controller, behind others in the queue ([operator_brings_instance_up]); every upgrade of a
      namespace whose instance exists is finished after three rounds of passes per upgrade
      ([upgrades_get_finished]), and every such backup is done or has its CronJob ([backups_get_done]); from any state of its status and Job, an
      addon gets synced and stays so ([addon_gets_synced]), and a deleted one loses the finalizer whatever its Jobs
      do, if its name leaves room for the name of the cleanup Job ([addon_gets_deleted]). The passes on an instance come to rest: one after another
      changes no object unless something else did ([instance_pass_idempotent]), and neither do the passes
      of both controllers together, once the instance is up ([operator_comes_to_rest]).
    - The queues as systems of many passes: mutual exclusion of all pairs the queue can tell apart,
      refinement of the abstract [lifecycle], and a bound on the number of phase changes.
    - Types: what the instance controller creates is admitted by the schema and accepted by the
      upgrade controller; what the schema admits, the validation of backups decides on exactly.
    - Permissions and wiring: every call is within the role, on kinds the controller watches.
    - Pure parts: contracts of the decisions, round trips of texts the operator prints and others
      read (odoo.conf, shell words, sync reports), injectivity of hashed texts, bounds.
    - Security: paths stay below their root, credentials stay in Secrets and off plain HTTP, pods are
      hardened and read the Secrets they need and no other, and a Service selects the pods of its own instance only.

    ** Choices

    - A pass is one program. What the cluster does between two calls is in the answers, which are
      arbitrary: nothing is assumed of them unless a theorem says so. A write is known to have
      happened only through its answer.
    - The systems of [QueueSystem] assume of the API server: a resourceVersion names one stored
      version, and a status write to another version is refused; a new object has a new uid; names,
      uids and creation times of an object do not change; the status belongs to the controller.
      Nothing is assumed of the order of creation times, and a name may be used again. That users
      keep the spec is the schema's rule ([Schema.upgrade_update_outside],
      [Schema.backup_update_outside]).
    - Safety is proved for all answers of the server, progress for a server that answers: [Cluster.api]
      stores every write to an object that exists (or to a free name). The deletion of an addon runs on
      a server that refuses Jobs whose names are too long as well ([AddonDeletion.limiting]). The environment is a hypothesis there (Jobs end, Deployments get
      their replicas, nobody else takes the names of the objects), with a cluster that satisfies it.
    - Integers are [Z], with the range of int32 and int64 written out where the code can leave it.
      Times are [Z] (nanoseconds), absent times [None], and Go's nil maps and slices are empty ones
      where the code does not tell them apart.
    - An in-place change of [instance] is a new value that is returned next to the result, on the
      error paths as well. A nil dereference is an outcome of the model, shown not to occur.
    - Recursion is structural, except for UTF-8 decoding, whose fuel is the length of the text
      ([runes_go]); [RetryOnConflict] repeats its body a bounded number of times, whatever the bound.
      Every program returns ([run_total]).

    ** Not modelled

    - What a shell or Odoo does with a script (the texts are modelled, and how a shell splits
      a command line into words), git, S3 and PostgreSQL.
    - The parsing of the command line, logging, metrics, TLS, leader election, the work queue and its
      back-off: the controller runtime calls [Reconcile] and acts on its result.
    - The registration of types and of the webhook with the runtime, JSON tags, printer columns.
    - zz_generated.deepcopy.go: a copy of a value is the value.
    - test/, hack/, config/ other than config/rbac/role.yaml. *)

From stdpp Require Export base tactics list gmap strings sorting numbers pretty.
From Stdlib Require Export ZArith NArith Ascii.

(** ** Go errors

    [error] is the type of the non-nil error values the operator builds or receives.
    [ErrorString] is [errors.New] and [fmt.Errorf] without a wrapped error, [WrapError] is
    [fmt.Errorf] with the verb for a wrapped error (its full text and the wrapped error),
    [ReasonError] is the operator's own [reasonError], and [StatusError] is an error value the
    Kubernetes client returns: the code tells the API reasons apart, and the text is opaque. *)
Inductive api_code :=
  | CodeNotFound | CodeAlreadyExists | CodeConflict | CodeInvalid | CodeOther.

Inductive error :=
  | ErrorString (msg : string)
  | WrapError (msg : string) (err : error)
  | ReasonError (reason : string) (err : error)
  | StatusError (code : api_code) (msg : string).

#[export] Instance api_code_eq_dec : EqDecision api_code.
Proof. solve_decision. Defined.
#[export] Instance error_eq_dec : EqDecision error.
Proof. solve_decision. Defined.

(** ** Results: a value or an error, as a Go function returning [(T, error)] *)
Inductive res (A : Type) : Type :=
  | Ok (a : A)
  | Err (e : error).
Arguments Ok {A} a.
Arguments Err {A} e.

#[export] Instance res_ret : MRet res := λ A a, Ok a.
#[export] Instance res_bind : MBind res := λ A B f m,
  match m with Ok a => f a | Err e => Err e end.

Definition is_Ok {A} (r : res A) : bool := match r with Ok _ => true | Err _ => false end.

#[export] Instance res_eq_dec `{EqDecision A} : EqDecision (res A).
Proof. solve_decision. Defined.

#[export] Instance Ok_inj A : Inj (=) (=) (@Ok A).
Proof. by intros ?? [=]. Qed.

Lemma res_bind_Ok {A B} (m : res A) (f : A → res B) (b : B) :
  m ≫= f = Ok b ↔ ∃ a, m = Ok a ∧ f a = Ok b.
Proof. destruct m; naive_solver. Qed.

(** ** Machine integers: Go's int32 and int64 as [Z] with their range written out *)
Definition int64_min : Z := -(2 ^ 63).
Definition int64_max : Z := 2 ^ 63 - 1.
Definition wrap64 (z : Z) : Z := (z + 2 ^ 63) `mod` 2 ^ 64 - 2 ^ 63.
Definition in_int64 (z : Z) : Prop := (int64_min ≤ z ≤ int64_max)%Z.
Definition in_int32 (z : Z) : Prop := (-(2 ^ 31) ≤ z < 2 ^ 31)%Z.

Lemma wrap64_small z : in_int64 z → wrap64 z = z.
Proof.
  unfold in_int64, int64_min, int64_max, wrap64. intros.
  rewrite Z.mod_small; lia.
Qed.

(** ** Proof automation *)

(** The hint database of the development: closed by each file with its own lemmas. *)
Create HintDb operator discriminated.
#[export] Hint Resolve res_bind_Ok : operator.

(** Splits every conditional or match of the goal or of a hypothesis, keeping the equations. *)
Ltac split_cases :=
  repeat (case_match; try done; simplify_eq/=).

(** Turns boolean tests into the propositions they decide. *)
Ltac to_prop :=
  repeat match goal with
  | H : _ && _ = true |- _ => apply andb_true_iff in H as [? ?]
  | H : _ || _ = false |- _ => apply orb_false_iff in H as [? ?]
  | H : negb _ = true |- _ => apply negb_true_iff in H
  | H : negb _ = false |- _ => apply negb_false_iff in H
  | H : bool_decide _ = true |- _ => apply bool_decide_eq_true in H
  | H : bool_decide _ = false |- _ => apply bool_decide_eq_false in H
  end.

(** ** Lists *)

Lemma merge_sort_perm {A} (R : relation A) `{!RelDecision R, !Total R, !Transitive R,
    !AntiSymm (=) R} (l1 l2 : list A) :
  l1 ≡ₚ l2 → merge_sort R l1 = merge_sort R l2.
Proof.
  intros Hp. apply (Sorted_unique R).
  - apply Sorted_merge_sort, _.
  - apply Sorted_merge_sort, _.
  - by rewrite !merge_sort_Permutation.
Qed.

Lemma merge_sort_sorted_id {A} (R : relation A) `{!RelDecision R, !Total R, !Transitive R,
    !AntiSymm (=) R} (l : list A) :
  Sorted R l → merge_sort R l = l.
Proof.
  intros Hs. apply (Sorted_unique R); [apply Sorted_merge_sort, _|done|].
  apply merge_sort_Permutation.
Qed.
