(* ===== verification/GoStrings.v ===== *)
(** * Go strings: the parts of [strings], [strconv], [unicode/utf8], [slices], [path/filepath]
    and [fmt] the operator uses

    A Go string is a sequence of bytes, here Rocq's [string] (each [ascii] is one byte). Names
    follow the Go functions. The multi-character separators of the Go functions are restricted
    to the ones the operator passes (single bytes). *)
From S2P Require Export Prelude.

#[global] Arguments String.append !_ _ / : simpl nomatch.

(** ** Bytes *)
Definition nl_byte : ascii := "010"%char.
Definition cr_byte : ascii := "013"%char.
Definition dq_byte : ascii := "034"%char.
Definition sq_byte : ascii := "039"%char.
Definition bs_byte : ascii := "092"%char.

Definition str1 (c : ascii) : string := String c EmptyString.
Definition nl : string := str1 nl_byte.
Definition dq : string := str1 dq_byte.
Definition sq : string := str1 sq_byte.

(** Source text with double quotes is written with a backquote in their place ([raw] puts the
    double quotes back): the Go sources never use a backquote inside a script. *)
Fixpoint raw (s : string) : string :=
  match s with
  | EmptyString => EmptyString
  | String c s => String (if Ascii.eqb c "096"%char then dq_byte else c) (raw s)
  end.

Fixpoint bytes (s : string) : list ascii :=
  match s with EmptyString => [] | String c s => c :: bytes s end.

Fixpoint of_bytes (l : list ascii) : string :=
  match l with [] => EmptyString | c :: l => String c (of_bytes l) end.

Abbreviation len := String.length.

(** [concat l] is the [+] of a list of strings. *)
Definition concat (l : list string) : string := foldr String.append "" l.

(** ** Slices of strings: [s[:n]] and [s[n:]], defined for [n <= len(s)] (Go panics beyond) *)
Fixpoint str_take (n : nat) (s : string) : string :=
  match n, s with
  | S n, String c s => String c (str_take n s)
  | _, _ => EmptyString
  end.

Fixpoint str_drop (n : nat) (s : string) : string :=
  match n, s with
  | S n, String _ s => str_drop n s
  | _, _ => s
  end.

(** ** Prefixes, suffixes and search *)
Fixpoint HasPrefix (s p : string) : bool :=
  match p, s with
  | EmptyString, _ => true
  | String c p, String d s => Ascii.eqb c d && HasPrefix s p
  | _, _ => false
  end.

Definition HasSuffix (s p : string) : bool :=
  (len p <=? len s)%nat && String.eqb (str_drop (len s - len p) s) p.

Fixpoint Contains (s sub : string) : bool :=
  HasPrefix s sub || match s with EmptyString => false | String _ s => Contains s sub end.

Fixpoint all_bytes (p : ascii → bool) (s : string) : bool :=
  match s with EmptyString => true | String c s => p c && all_bytes p s end.

Definition any_byte (p : ascii → bool) (s : string) : bool := negb (all_bytes (λ c, negb (p c)) s).

Definition has_byte (c : ascii) (s : string) : bool := any_byte (Ascii.eqb c) s.

(** [strings.ContainsAny(s, chars)] for a set of ASCII characters. *)
Definition ContainsAny (s chars : string) : bool := any_byte (λ c, has_byte c chars) s.

(** [strings.IndexByte], [None] for -1. *)
Fixpoint IndexByte (s : string) (c : ascii) : option nat :=
  match s with
  | EmptyString => None
  | String d s => if Ascii.eqb d c then Some 0 else S <$> IndexByte s c
  end.

Definition CutPrefix (s p : string) : option string :=
  if HasPrefix s p then Some (str_drop (len p) s) else None.

Definition TrimSuffix (s p : string) : string :=
  if HasSuffix s p then str_take (len s - len p) s else s.

(** ** Reversal, used to trim on the right *)
Definition str_rev (s : string) : string := of_bytes (reverse (bytes s)).

Fixpoint TrimLeftFunc (p : ascii → bool) (s : string) : string :=
  match s with
  | EmptyString => EmptyString
  | String c s' => if p c then TrimLeftFunc p s' else s
  end.

Definition TrimRightFunc (p : ascii → bool) (s : string) : string :=
  str_rev (TrimLeftFunc p (str_rev s)).

(** [strings.Trim(s, cutset)] and [strings.TrimRight(s, cutset)] for an ASCII cutset. *)
Definition TrimRight (s cutset : string) : string := TrimRightFunc (λ c, has_byte c cutset) s.
Definition Trim (s cutset : string) : string :=
  TrimRight (TrimLeftFunc (λ c, has_byte c cutset) s) cutset.

(** ** Split and join *)

(** [strings.Split(s, sep)] for a one-byte separator: one element more than separators. *)
Fixpoint Split (s : string) (sep : ascii) : list string :=
  match s with
  | EmptyString => [EmptyString]
  | String c s =>
      if Ascii.eqb c sep then EmptyString :: Split s sep
      else match Split s sep with
           | [] => [str1 c]
           | x :: l => String c x :: l
           end
  end.

(** [strings.Join(l, sep)]. *)
Fixpoint Join (l : list string) (sep : string) : string :=
  match l with
  | [] => EmptyString
  | [x] => x
  | x :: l => x +:+ sep +:+ Join l sep
  end.

(** [strings.ReplaceAll(s, old, new)] for a one-byte [old]. *)
Fixpoint ReplaceAll (s : string) (old : ascii) (new : string) : string :=
  match s with
  | EmptyString => EmptyString
  | String c s => if Ascii.eqb c old then new +:+ ReplaceAll s old new
                  else String c (ReplaceAll s old new)
  end.

(** ** Character classes of the operator's regular expressions *)
Definition byte_in (lo hi c : ascii) : bool :=
  ((N_of_ascii lo <=? N_of_ascii c) && (N_of_ascii c <=? N_of_ascii hi))%N.
Definition is_lower (c : ascii) : bool := byte_in "a" "z" c.
Definition is_upper (c : ascii) : bool := byte_in "A" "Z" c.
Definition is_digit (c : ascii) : bool := byte_in "0" "9" c.
Definition is_alnum (c : ascii) : bool := is_lower c || is_upper c || is_digit c.
Definition is_lower_hex (c : ascii) : bool := is_digit c || byte_in "a" "f" c.

(** A match of [^class+$]: at least one byte and every byte in the class. Go's regexps read
    UTF-8, and no class of the operator holds a non-ASCII rune, so the byte view is exact. *)
Definition matches_plus (class : ascii → bool) (s : string) : bool :=
  (0 <? len s)%nat && all_bytes class s.

(** ** Sorting: [slices.Sort], [slices.Sorted] and [slices.Compact] on strings *)
Definition sort_strings (l : list string) : list string := merge_sort String.le l.

Fixpoint Compact (l : list string) : list string :=
  match l with
  | [] => []
  | x :: l' => match l' with
               | [] => [x]
               | y :: _ => if String.eqb x y then Compact l' else x :: Compact l'
               end
  end.

(** Go's [<] on strings: byte-wise lexicographic order. *)
Definition str_lt (a b : string) : bool := String.ltb a b.

(** ** Numbers: [strconv.Itoa] and the decimal verb *)
Definition Itoa (z : Z) : string := pretty z.

(** Lowercase hexadecimal digits, most significant first, exactly [n] of them. *)
Definition hex_digit (d : N) : ascii :=
  ascii_of_N (if (d <? 10)%N then 48 + d else 87 + d).

Fixpoint hex_fixed (n : nat) (x : N) (acc : string) : string :=
  match n with
  | O => acc
  | S n => hex_fixed n (x / 16) (String (hex_digit (x mod 16)) acc)
  end.

(** [hex.EncodeToString]. *)
Fixpoint hex_encode (s : string) : string :=
  match s with
  | EmptyString => EmptyString
  | String c s => hex_fixed 2 (N_of_ascii c) (hex_encode s)
  end.

(** ** UTF-8 *)

(** The continuation byte [c] within [lo..hi], as its six payload bits. *)
Definition cont_byte (lo hi : N) (c : ascii) : option N :=
  let x := N_of_ascii c in
  if ((lo <=? x) && (x <=? hi))%N then Some (x mod 64)%N else None.

(** [utf8.DecodeRuneInString]: the first rune and its width, [None] for an invalid encoding
    (where Go returns RuneError with width 1). *)
Definition decode_rune (s : string) : option (N * nat) :=
  match s with
  | EmptyString => None
  | String c0 t =>
      let b0 := N_of_ascii c0 in
      let two lo hi :=
        match t with
        | String c1 _ => x1 ← cont_byte lo hi c1; Some ((b0 mod 32) * 64 + x1, 2)%N
        | _ => None
        end in
      let three lo hi :=
        match t with
        | String c1 (String c2 _) =>
            x1 ← cont_byte lo hi c1; x2 ← cont_byte 128 191 c2;
            Some (((b0 mod 16) * 64 + x1) * 64 + x2, 3)%N
        | _ => None
        end in
      let four lo hi :=
        match t with
        | String c1 (String c2 (String c3 _)) =>
            x1 ← cont_byte lo hi c1; x2 ← cont_byte 128 191 c2; x3 ← cont_byte 128 191 c3;
            Some ((((b0 mod 8) * 64 + x1) * 64 + x2) * 64 + x3, 4)%N
        | _ => None
        end in
      let conv (r : option (N * N)) : option (N * nat) := (λ p, (p.1, N.to_nat p.2)) <$> r in
      if (b0 <? 128)%N then Some (b0, 1)
      else if (b0 <? 194)%N then None
      else if (b0 <? 224)%N then conv (two 128 191)%N
      else if (b0 =? 224)%N then conv (three 160 191)%N
      else if (b0 =? 237)%N then conv (three 128 159)%N
      else if (b0 <? 240)%N then conv (three 128 191)%N
      else if (b0 =? 240)%N then conv (four 144 191)%N
      else if (b0 <? 244)%N then conv (four 128 191)%N
      else if (b0 =? 244)%N then conv (four 128 143)%N
      else None
  end.

(** A string cut into its runes: each piece is one valid encoding (with its rune) or one
    invalid byte. Go's [range] loop and [DecodeLastRuneInString] see the same pieces, because
    a lead byte never continues an encoding. *)
Fixpoint runes_go (fuel : nat) (s : string) : list (option N * string) :=
  match fuel, s with
  | S fuel, String c t =>
      match decode_rune s with
      | Some (r, w) => (Some r, str_take w s) :: runes_go fuel (str_drop w s)
      | None => (None, str1 c) :: runes_go fuel t
      end
  | _, _ => []
  end.
Definition runes (s : string) : list (option N * string) := runes_go (len s) s.
Definition unrunes (l : list (option N * string)) : string := concat (l.*2).

(** [unicode.IsSpace]. *)
Definition IsSpace (r : N) : bool :=
  ((9 <=? r) && (r <=? 13) || (r =? 32) || (r =? 133) || (r =? 160) || (r =? 5760) ||
   (8192 <=? r) && (r <=? 8202) || (r =? 8232) || (r =? 8233) || (r =? 8239) ||
   (r =? 8287) || (r =? 12288))%N.
Definition space_piece (p : option N * string) : bool :=
  match p.1 with Some r => IsSpace r | None => false end.

Fixpoint drop_while {A} (f : A → bool) (l : list A) : list A :=
  match l with [] => [] | x :: l' => if f x then drop_while f l' else l end.
Definition drop_while_right {A} (f : A → bool) (l : list A) : list A :=
  reverse (drop_while f (reverse l)).

(** [strings.TrimSpace]. *)
Definition TrimSpace (s : string) : string :=
  unrunes (drop_while_right space_piece (drop_while space_piece (runes s))).

(** [strings.Fields]. *)
Fixpoint fields_go (cur : string) (l : list (option N * string)) : list string :=
  match l with
  | [] => if String.eqb cur "" then [] else [cur]
  | p :: l =>
      if space_piece p
      then if String.eqb cur "" then fields_go "" l else cur :: fields_go "" l
      else fields_go (cur +:+ p.2) l
  end.
Definition Fields (s : string) : list string := fields_go "" (runes s).

(** [strings.ToValidUTF8(s, t)] for the empty replacement. *)
Definition ToValidUTF8 (s : string) : string :=
  unrunes (filter (λ p, is_Some p.1) (runes s)).

Definition valid_utf8 (s : string) : bool :=
  forallb (λ p : option N * string, bool_decide (is_Some p.1)) (runes s).

(** ** Quoting: [strconv.Quote], the quoted verb of [fmt]

    [IsPrint] of a rune above U+00FF comes from Go's Unicode tables, which are a parameter. *)
Class Unicode := { print_table : N → bool }.

(** A concrete table for the witnesses: no rune above U+00FF is printable. *)
Definition latin1 : Unicode := {| print_table := λ _, false |}.

Section Quote.
Context `{Unicode}.

Definition IsPrint (r : N) : bool :=
  if (r <=? 255)%N
  then ((32 <=? r) && (r <? 127) || (161 <=? r) && negb (r =? 173))%N
  else print_table r.

Definition esc (c : ascii) : string := String bs_byte (str1 c).

Definition quote_piece (p : option N * string) : string :=
  match p with
  | (None, String c _) => esc "x" +:+ hex_fixed 2 (N_of_ascii c) ""
  | (None, EmptyString) => ""
  | (Some r, enc) =>
      if (r =? 34)%N then esc dq_byte
      else if (r =? 92)%N then esc bs_byte
      else if IsPrint r then enc
      else if (r =? 7)%N then esc "a"
      else if (r =? 8)%N then esc "b"
      else if (r =? 12)%N then esc "f"
      else if (r =? 10)%N then esc "n"
      else if (r =? 13)%N then esc "r"
      else if (r =? 9)%N then esc "t"
      else if (r =? 11)%N then esc "v"
      else if ((r <? 32) || (r =? 127))%N then esc "x" +:+ hex_fixed 2 r ""
      else if (r <? 65536)%N then esc "u" +:+ hex_fixed 4 r ""
      else esc "U" +:+ hex_fixed 8 r ""
  end.

Definition Quote (s : string) : string := dq +:+ concat (quote_piece <$> runes s) +:+ dq.
End Quote.

(** ** [filepath.Join(base, elem)] on Unix, for a rooted [base] *)
Fixpoint clean_go (acc : list string) (segs : list string) : list string :=
  match segs with
  | [] => reverse acc
  | seg :: segs =>
      if String.eqb seg "" || String.eqb seg "." then clean_go acc segs
      else if String.eqb seg ".." then clean_go (tail acc) segs
      else clean_go (seg :: acc) segs
  end.
Definition JoinRooted (base elem : string) : string :=
  "/" +:+ Join (clean_go [] (Split (base +:+ "/" +:+ elem) "/")) "/".

(** ** First lemmas *)
Lemma len_app (a b : string) : len (a +:+ b) = len a + len b.
Proof. induction a as [|c a IH]; [done|]. cbn. by rewrite IH. Qed.

Lemma app_nil_r_str (s : string) : s +:+ "" = s.
Proof. induction s as [|c s IH]; [done|]. cbn. by rewrite IH. Qed.

Lemma app_assoc_str (a b c : string) : (a +:+ b) +:+ c = a +:+ b +:+ c.
Proof. induction a as [|x a IH]; [done|]. cbn. by rewrite IH. Qed.

Lemma len_str_take n s : len (str_take n s) = min n (len s).
Proof. revert s. induction n as [|n IH]; intros [|c s]; cbn; auto. Qed.

Lemma str_take_drop n s : str_take n s +:+ str_drop n s = s.
Proof. revert s. induction n as [|n IH]; intros [|c s]; cbn; auto. by rewrite IH. Qed.

Lemma all_bytes_app p a b : all_bytes p (a +:+ b) = all_bytes p a && all_bytes p b.
Proof. induction a as [|c a IH]; [done|]. cbn. by rewrite IH, andb_assoc. Qed.

(** *** Bytes of a string *)
Lemma all_bytes_impl p q s :
  (∀ c, p c = true → q c = true) → all_bytes p s = true → all_bytes q s = true.
Proof. intros Hpq. induction s as [|c s IH]; [done|]. cbn. rewrite !andb_true_iff. naive_solver. Qed.

Lemma all_bytes_Forall p s : all_bytes p s = true ↔ Forall (λ c, p c = true) (bytes s).
Proof.
  induction s as [|c s IH]; cbn; [split; [by constructor|done]|].
  by rewrite andb_true_iff, IH, Forall_cons.
Qed.

Lemma has_byte_nil c : has_byte c "" = false.
Proof. done. Qed.

Lemma has_byte_cons c d s : has_byte c (String d s) = Ascii.eqb c d || has_byte c s.
Proof. unfold has_byte, any_byte. cbn. by rewrite negb_andb, negb_involutive. Qed.

Lemma has_byte_app c a b : has_byte c (a +:+ b) = has_byte c a || has_byte c b.
Proof. unfold has_byte, any_byte. by rewrite all_bytes_app, negb_andb. Qed.

Lemma concat_cons x l : concat (x :: l) = x +:+ concat l.
Proof. done. Qed.

Lemma concat_app l1 l2 : concat (l1 ++ l2) = concat l1 +:+ concat l2.
Proof.
  induction l1 as [|x l1 IH]; [done|]. cbn [app].
  by rewrite !concat_cons, IH, app_assoc_str.
Qed.

Lemma has_byte_concat c l : has_byte c (concat l) = existsb (has_byte c) l.
Proof. induction l as [|x l IH]; [done|]. cbn [existsb]. by rewrite concat_cons, has_byte_app, IH. Qed.

Lemma all_bytes_no_byte p c s : all_bytes p s = true → p c = false → has_byte c s = false.
Proof.
  intros Hs Hc. induction s as [|d s IH]; [done|]. cbn in Hs. to_prop.
  rewrite has_byte_cons, IH by done. rewrite orb_false_r.
  destruct (Ascii.eqb_spec c d); congruence.
Qed.

Lemma ContainsAny_has s chars c :
  ContainsAny s chars = false → has_byte c chars = true → has_byte c s = false.
Proof.
  unfold ContainsAny, any_byte. rewrite negb_false_iff. intros Hs Hc.
  eapply all_bytes_no_byte; [exact Hs|]. cbn. by rewrite Hc.
Qed.

(** *** Split and join *)
Lemma Split_nosep s sep : has_byte sep s = false → Split s sep = [s].
Proof.
  induction s as [|c s IH]; [done|]. rewrite has_byte_cons, orb_false_iff. cbn.
  rewrite Ascii.eqb_sym. intros [-> Hs]. by rewrite IH.
Qed.

Lemma Split_app_sep a b sep :
  has_byte sep a = false → Split (a +:+ String sep b) sep = a :: Split b sep.
Proof.
  induction a as [|c a IH]; cbn; [by rewrite Ascii.eqb_refl|].
  rewrite has_byte_cons, orb_false_iff, Ascii.eqb_sym. intros [-> Ha]. by rewrite IH.
Qed.

Lemma Split_app a b sep :
  Split (a +:+ String sep b) sep = Split a sep ++ Split b sep.
Proof.
  induction a as [|c a IH]; cbn; [by rewrite Ascii.eqb_refl|].
  destruct (Ascii.eqb c sep); [by rewrite IH|]. rewrite IH.
  destruct (Split a sep) eqn:Ha; [|done]. exfalso. revert Ha.
  destruct a as [|d a]; cbn; [done|]. destruct (Ascii.eqb d sep); [done|]. by case_match.
Qed.

Lemma Split_nonempty s sep : Split s sep ≠ [].
Proof. destruct s as [|c s]; cbn; [done|]. destruct (Ascii.eqb c sep); [done|]. by case_match. Qed.

Lemma Join_Split s sep : Join (Split s sep) (str1 sep) = s.
Proof.
  induction s as [|c s IH]; [done|]. cbn. pose proof (Split_nonempty s sep) as Hne.
  destruct (Ascii.eqb_spec c sep) as [->|].
  - destruct (Split s sep) as [|x l]; [done|]. cbn. f_equal. exact IH.
  - destruct (Split s sep) as [|x [|y l]]; [done|..]; cbn in *; by rewrite <-IH.
Qed.

Lemma Split_Join l sep :
  l ≠ [] → Forall (λ s, has_byte sep s = false) l → Split (Join l (str1 sep)) sep = l.
Proof.
  intros Hne Hl. induction Hl as [|x l Hx Hl IH]; [done|].
  destruct l as [|y l]; [by apply Split_nosep|].
  change (Join (x :: y :: l) (str1 sep)) with (x +:+ String sep (Join (y :: l) (str1 sep))).
  by rewrite Split_app_sep, IH.
Qed.

Lemma Join_inj l1 l2 sep :
  l1 ≠ [] → l2 ≠ [] → Forall (λ s, has_byte sep s = false) l1 →
  Forall (λ s, has_byte sep s = false) l2 →
  Join l1 (str1 sep) = Join l2 (str1 sep) → l1 = l2.
Proof. intros. rewrite <-(Split_Join l1 sep), <-(Split_Join l2 sep) by done. congruence. Qed.

(** Text made of terminated lines splits back into its lines. *)
Lemma Split_lines l sep :
  Forall (λ s, has_byte sep s = false) l →
  Split (concat ((λ s, s +:+ str1 sep) <$> l)) sep = l ++ [""].
Proof.
  induction 1 as [|x l Hx Hl IH]; [done|]. rewrite fmap_cons, concat_cons, app_assoc_str.
  cbn [str1 String.append]. rewrite Split_app_sep by done. by rewrite IH.
Qed.

(** *** Cutting at a byte *)
Lemma IndexByte_app a b c : has_byte c a = false → IndexByte (a +:+ String c b) c = Some (len a).
Proof.
  induction a as [|d a IH]; cbn; [by rewrite Ascii.eqb_refl|].
  rewrite has_byte_cons, orb_false_iff, Ascii.eqb_sym. intros [-> Ha]. by rewrite IH.
Qed.

Lemma str_take_app a b : str_take (len a) (a +:+ b) = a.
Proof. induction a as [|c a IH]; cbn; [by destruct b|]. by rewrite IH. Qed.

Lemma str_drop_app a b : str_drop (len a) (a +:+ b) = b.
Proof. induction a as [|c a IH]; cbn; [by destruct b|]. done. Qed.

Lemma app_inj_len a b x y : len a = len x → a +:+ b = x +:+ y → a = x ∧ b = y.
Proof.
  intros Hl Heq. split.
  - by rewrite <-(str_take_app a b), <-(str_take_app x y), Hl, Heq.
  - by rewrite <-(str_drop_app a b), <-(str_drop_app x y), Hl, Heq.
Qed.

(** *** Sorting *)
Lemma sort_strings_perm_eq l1 l2 : l1 ≡ₚ l2 → sort_strings l1 = sort_strings l2.
Proof. intros. by apply (merge_sort_perm String.le). Qed.

Lemma sort_strings_perm l : sort_strings l ≡ₚ l.
Proof. apply merge_sort_Permutation. Qed.

Lemma elem_of_sort_strings x l : x ∈ sort_strings l ↔ x ∈ l.
Proof. by rewrite sort_strings_perm. Qed.

(** *** ASCII text: one rune per byte, and trimming *)
Definition ascii_byte (c : ascii) : bool := (N_of_ascii c <? 128)%N.
Definition ascii_piece (c : ascii) : option N * string := (Some (N_of_ascii c), str1 c).
Definition space_byte (c : ascii) : bool := space_piece (ascii_piece c).

Lemma runes_go_ascii fuel s :
  len s ≤ fuel → all_bytes ascii_byte s = true → runes_go fuel s = ascii_piece <$> bytes s.
Proof.
  revert fuel. induction s as [|c s IH]; intros [|fuel] Hl Hs; cbn in Hl; [done|done|lia|].
  cbn in Hs. apply andb_true_iff in Hs as [Hc Hs].
  cbn [runes_go decode_rune]. unfold ascii_byte in Hc. rewrite Hc. cbn.
  by rewrite IH by (done || lia).
Qed.

Lemma runes_ascii s : all_bytes ascii_byte s = true → runes s = ascii_piece <$> bytes s.
Proof. by apply runes_go_ascii. Qed.

Lemma unrunes_ascii l : unrunes (ascii_piece <$> l) = of_bytes l.
Proof.
  unfold unrunes. induction l as [|c l IH]; [done|]. rewrite !fmap_cons, concat_cons, IH. done.
Qed.

Lemma of_bytes_bytes s : of_bytes (bytes s) = s.
Proof. induction s as [|c s IH]; cbn; congruence. Qed.

Lemma bytes_app a b : bytes (a +:+ b) = bytes a ++ bytes b.
Proof. induction a as [|c a IH]; cbn; congruence. Qed.

(** Text that neither starts nor ends with a blank is trimmed already. *)
Lemma drop_while_space a l :
  space_byte a = false → drop_while space_piece (ascii_piece <$> a :: l) = ascii_piece <$> a :: l.
Proof.
  intros Ha. rewrite fmap_cons.
  change (drop_while space_piece (ascii_piece a :: (ascii_piece <$> l))) with
    (if space_byte a then drop_while space_piece (ascii_piece <$> l)
     else ascii_piece a :: (ascii_piece <$> l)).
  by rewrite Ha.
Qed.

Lemma TrimSpace_id s a b m m' :
  all_bytes ascii_byte s = true → s = str1 a +:+ m → space_byte a = false →
  s = m' +:+ str1 b → space_byte b = false → TrimSpace s = s.
Proof.
  intros Hs Hsa Ha Hsb Hb. unfold TrimSpace. rewrite runes_ascii by done.
  assert (bytes s = a :: bytes m) as Hbs by (by rewrite Hsa).
  assert (reverse (bytes s) = b :: reverse (bytes m')) as Hrev by (by rewrite Hsb, bytes_app, reverse_app).
  rewrite Hbs, drop_while_space, <-Hbs by done. unfold drop_while_right.
  rewrite <-fmap_reverse, Hrev, drop_while_space, <-Hrev, fmap_reverse by done.
  by rewrite reverse_involutive, unrunes_ascii, of_bytes_bytes.
Qed.

Lemma str_snoc s : s ≠ "" → ∃ m b, s = m +:+ str1 b.
Proof.
  intros Hs. destruct s as [|c s]; [done|]. clear Hs. revert c.
  induction s as [|d s IH]; intros c; [by exists "", c|].
  destruct (IH d) as (m & b & Heq). exists (String c m), b. cbn. by rewrite Heq.
Qed.

(** The same for text whose first byte and whose tail are made of word bytes. *)
Lemma TrimSpace_word (word : ascii → bool) a m w :
  (∀ c, word c = true → ascii_byte c = true ∧ space_byte c = false) →
  word a = true → all_bytes ascii_byte m = true → w ≠ "" → all_bytes word w = true →
  TrimSpace (String a m +:+ w) = String a m +:+ w.
Proof.
  intros Hword Ha Hm Hw Hww. destruct (str_snoc w Hw) as (w' & b & ->).
  rewrite all_bytes_app in Hww. apply andb_true_iff in Hww as [Hw' Hb].
  cbn in Hb. rewrite andb_true_r in Hb. destruct (Hword a Ha), (Hword b Hb).
  eapply (TrimSpace_id _ a b (m +:+ w' +:+ str1 b) (String a m +:+ w')); [|done|done| |done].
  - rewrite !all_bytes_app. cbn.
    rewrite Hm, (all_bytes_impl word ascii_byte w'); [|by intros c [??]%Hword|done].
    by repeat match goal with H : ascii_byte _ = true |- _ => rewrite H; clear H end.
  - by rewrite app_assoc_str.
Qed.

Lemma TrimSpace_nil : TrimSpace "" = "".
Proof. done. Qed.
