(* ===== verification/GoHash.v ===== *)
(** * Go hashes and encodings: [crypto/sha256], [hash/fnv] (FNV-1a, 32 bits) and
    [encoding/json] of a slice of strings, executable; and the bounded names the controllers build
    from a text and its hash *)
From S2P Require Export GoStrings.

Open Scope N_scope.

(** ** 32-bit words *)
Definition w32 (x : N) : N := x mod 2 ^ 32.
Definition add32 (x y : N) : N := w32 (x + y).
Definition rotr (n x : N) : N := N.lor (N.shiftr x n) (w32 (N.shiftl x (32 - n))).

(** ** SHA-256 (FIPS 180-4) *)
Module SHA256.

(** The constants are the first 32 bits of the fractional parts of the cube roots (round
    constants) and the square roots (initial value) of the first primes. *)
Definition is_prime (n : N) : bool :=
  forallb (λ d, negb (n mod N.of_nat d =? 0)) (seq 2 (N.to_nat n - 2)).
Definition primes (below : nat) : list N :=
  List.filter is_prime (N.of_nat <$> seq 2 (below - 2)).

Fixpoint cube_root (bits : nat) (n r : N) : N :=
  match bits with
  | O => r
  | S bits =>
      let r' := r + 2 ^ N.of_nat bits in
      cube_root bits n (if r' * r' * r' <=? n then r' else r)
  end.

Definition round_constants : list N :=
  Eval vm_compute in (λ p, cube_root 36 (p * 2 ^ 96) 0 mod 2 ^ 32) <$> primes 312.
Definition initial_value : list N :=
  Eval vm_compute in (λ p, N.sqrt (p * 2 ^ 64) mod 2 ^ 32) <$> primes 20.

Definition sigma0 (x : N) : N := N.lxor (N.lxor (rotr 7 x) (rotr 18 x)) (N.shiftr x 3).
Definition sigma1 (x : N) : N := N.lxor (N.lxor (rotr 17 x) (rotr 19 x)) (N.shiftr x 10).
Definition Sigma0 (x : N) : N := N.lxor (N.lxor (rotr 2 x) (rotr 13 x)) (rotr 22 x).
Definition Sigma1 (x : N) : N := N.lxor (N.lxor (rotr 6 x) (rotr 11 x)) (rotr 25 x).
Definition Ch (x y z : N) : N := N.lxor (N.land x y) (N.land (N.lxor x 0xffffffff) z).
Definition Maj (x y z : N) : N := N.lxor (N.lxor (N.land x y) (N.land x z)) (N.land y z).

(** The message schedule, newest word first. *)
Fixpoint expand (n : nat) (w : list N) : list N :=
  match n with
  | O => w
  | S n =>
      expand n (add32 (add32 (sigma1 (nth 1 w 0)) (nth 6 w 0))
                      (add32 (sigma0 (nth 14 w 0)) (nth 15 w 0)) :: w)
  end.

Definition round (st : list N) (kw : N * N) : list N :=
  match st with
  | [a; b; c; d; e; f; g; h] =>
      let t1 := add32 (add32 (add32 h (Sigma1 e)) (add32 (Ch e f g) kw.1)) kw.2 in
      let t2 := add32 (Sigma0 a) (Maj a b c) in
      [add32 t1 t2; a; b; c; add32 d t1; e; f; g]
  | _ => st
  end.

Definition compress (h : list N) (block : list N) : list N :=
  zip_with add32 h (foldl round h (zip round_constants (reverse (expand 48 (reverse block))))).

Fixpoint be_words (l : list N) : list N :=
  match l with
  | a :: b :: c :: d :: l => ((a * 256 + b) * 256 + c) * 256 + d :: be_words l
  | _ => []
  end.

Fixpoint blocks (fuel : nat) (l : list N) : list (list N) :=
  match fuel, l with
  | S fuel, _ :: _ => take 16 l :: blocks fuel (drop 16 l)
  | _, _ => []
  end.

Fixpoint be_bytes (n : nat) (x : N) (acc : list N) : list N :=
  match n with O => acc | S n => be_bytes n (x / 256) (x mod 256 :: acc) end.

Definition pad (msg : list N) : list N :=
  let n := length msg in
  msg ++ [0x80] ++ repeat 0 (Nat.modulo (119 - Nat.modulo n 64) 64) ++ be_bytes 8 (8 * N.of_nat n) [].

Definition sum (msg : list N) : list N :=
  let ws := be_words (pad msg) in
  foldl compress initial_value (blocks (length ws) ws).

End SHA256.

(** [hex.EncodeToString(sha256.Sum256([]byte(data))[:])]. *)
Definition sha256Hex (data : string) : string :=
  concat ((λ w, hex_fixed 8 w "") <$> SHA256.sum (N_of_ascii <$> bytes data)).

Example sha256Hex_abc :
  sha256Hex "abc" = "ba7816bf8f01cfea414140de5dae2223b00361a396177a9cb410ff61f20015ad".
Proof. vm_compute. reflexivity. Qed.

Example sha256Hex_two_blocks :
  sha256Hex "abcdbcdecdefdefgefghfghighijhijkijkljklmklmnlmnomnopnopq"
  = "248d6a61d20638b8e5c026930c3e6039a33ce45964ff2167f6ecedd419db06c1".
Proof. vm_compute. reflexivity. Qed.

(** ** FNV-1a, 32 bits: [fnv.New32a] *)
Definition fnv32a (data : string) : N :=
  foldl (λ h c, w32 (N.lxor h (N_of_ascii c) * 16777619)) 2166136261 (bytes data).

Example fnv32a_foobar : fnv32a "foobar" = 0xbf9cf968.
Proof. vm_compute. reflexivity. Qed.

(** ** [json.Marshal] of a [[]string] *)
Definition json_piece (p : option N * string) : string :=
  match p with
  | (None, _) => String bs_byte "ufffd"
  | (Some r, enc) =>
      if (r =? 34) || (r =? 92) then String bs_byte enc
      else if r =? 8 then String bs_byte "b"
      else if r =? 12 then String bs_byte "f"
      else if r =? 10 then String bs_byte "n"
      else if r =? 13 then String bs_byte "r"
      else if r =? 9 then String bs_byte "t"
      else if (r <? 32) || (r =? 38) || (r =? 60) || (r =? 62)
      then String bs_byte ("u00" +:+ hex_fixed 2 r "")
      else if r =? 8232 then String bs_byte "u2028"
      else if r =? 8233 then String bs_byte "u2029"
      else enc
  end.

Definition json_string (s : string) : string := dq +:+ concat (json_piece <$> runes s) +:+ dq.

Definition json_strings (l : list string) : string :=
  "[" +:+ Join (json_string <$> l) "," +:+ "]".

Close Scope N_scope.

(** The digest is 64 hexadecimal digits, whatever the input. *)
Lemma len_hex_fixed n x acc : len (hex_fixed n x acc) = n + len acc.
Proof. revert x acc. induction n as [|n IH]; intros x acc; [done|]. cbn -[N.div N.modulo]. rewrite IH. cbn. lia. Qed.

(** ** Bounded names

    The scheme the upgrade and backup names share: a short hash of the base replaces what does not
    fit. *)
Definition bounded_name (fallback base suffix : string) (maxLen : nat) : string :=
  let full := base +:+ suffix in
  if (len full <=? maxLen)%nat then full
  else
    let hash := hex_fixed 8 (fnv32a base) "" in
    let keep := (maxLen - len suffix - 1 - len hash)%nat in
    let prefix := Trim (str_take keep base) "-." in
    let prefix := if String.eqb prefix "" then fallback else prefix in
    prefix +:+ "-" +:+ hash +:+ suffix.

Lemma len_str_rev s : len (str_rev s) = len s.
Proof.
  unfold str_rev. assert (∀ l, len (of_bytes l) = length l) as Hof by (induction l; cbn; auto).
  assert (length (bytes s) = len s) as Hb by (induction s; cbn; auto).
  by rewrite Hof, length_reverse.
Qed.

Lemma len_TrimLeftFunc p s : (len (TrimLeftFunc p s) ≤ len s)%nat.
Proof. induction s as [|c s IH]; cbn; [done|]. destruct (p c); cbn; lia. Qed.

Lemma len_Trim s cut : (len (Trim s cut) ≤ len s)%nat.
Proof.
  unfold Trim, TrimRight, TrimRightFunc. rewrite len_str_rev.
  etrans; [apply len_TrimLeftFunc|]. rewrite len_str_rev. apply len_TrimLeftFunc.
Qed.

Lemma bounded_name_spec fallback base suffix maxLen :
  (len fallback ≤ 7)%nat → (len suffix + 16 ≤ maxLen)%nat →
  (len (bounded_name fallback base suffix maxLen) ≤ maxLen)%nat ∧
  (∃ p, bounded_name fallback base suffix maxLen = p +:+ suffix ∧ (p = base ∨ (8 < len p)%nat)) ∧
  ((len base + len suffix ≤ maxLen)%nat → bounded_name fallback base suffix maxLen = base +:+ suffix).
Proof.
  intros Hfb Hroom. unfold bounded_name. rewrite len_app.
  destruct (Nat.leb_spec (len base + len suffix) maxLen) as [Hle|Hgt].
  { split_and!; [by rewrite len_app|by exists base; auto|done]. }
  set (pre := if String.eqb _ "" then fallback else _).
  rewrite !len_app, len_hex_fixed. cbn [len].
  assert (len pre ≤ maxLen - len suffix - 9)%nat as Hpre.
  { subst pre. destruct (String.eqb _ ""); [lia|].
    etrans; [apply len_Trim|]. rewrite len_str_take, len_hex_fixed. cbn [len]. lia. }
  split_and!; [lia| |lia].
  exists (pre +:+ "-" +:+ hex_fixed 8 (fnv32a base) ""). split.
  - by rewrite !app_assoc_str.
  - right. rewrite !len_app, len_hex_fixed. cbn [len]. lia.
Qed.
