(* ===== verification/Kube.v ===== *)
(** * Kubernetes objects and the library functions the operator calls

    The object types are the Kubernetes API types cut down to the fields the operator reads or
    writes. The functions of [apimachinery] and [controller-runtime] it calls are not under
    [src/]: they are the fields of the class [KubeLib], and what the operator relies on is stated
    as separate classes of laws ([ConditionLaws], [OwnerLaws], [FinalizerLaws], [ErrorLaws],
    [EqualityLaws]). A theorem names the laws it needs. *)
From S2P Require Export GoStrings.

Open Scope Z_scope.

(** ** Times and durations, in nanoseconds *)
Abbreviation Time := Z (only parsing).
Definition Second : Z := 1000000000.
Definition Minute : Z := 60 * Second.

(** [t.Sub(u)]: saturates to the int64 range. *)
Definition time_Sub (t u : Time) : Z := Z.max int64_min (Z.min int64_max (t - u)).

(** ** Object metadata *)
Record OwnerReference := { owner_UID : string; owner_Controller : bool }.

Record ObjectMeta := {
  m_Name : string;
  m_Namespace : string;
  m_UID : string;
  m_ResourceVersion : string;
  m_Generation : Z;
  m_CreationTimestamp : Time;
  m_DeletionTimestamp : option Time;
  m_Labels : gmap string string;
  m_Annotations : gmap string string;
  m_OwnerReferences : list OwnerReference;
  m_Finalizers : list string
}.

(** The metadata of an object literal: a name and a namespace, everything else zero. *)
Definition newMeta (name namespace : string) : ObjectMeta :=
  {| m_Name := name; m_Namespace := namespace; m_UID := ""; m_ResourceVersion := "";
     m_Generation := 0; m_CreationTimestamp := 0; m_DeletionTimestamp := None; m_Labels := ∅;
     m_Annotations := ∅; m_OwnerReferences := []; m_Finalizers := [] |}.

Definition with_labels (labels annotations : gmap string string) (m : ObjectMeta) : ObjectMeta :=
  {| m_Name := m_Name m; m_Namespace := m_Namespace m; m_UID := m_UID m;
     m_ResourceVersion := m_ResourceVersion m; m_Generation := m_Generation m;
     m_CreationTimestamp := m_CreationTimestamp m; m_DeletionTimestamp := m_DeletionTimestamp m;
     m_Labels := labels; m_Annotations := annotations;
     m_OwnerReferences := m_OwnerReferences m; m_Finalizers := m_Finalizers m |}.

Definition with_owners (owners : list OwnerReference) (m : ObjectMeta) : ObjectMeta :=
  {| m_Name := m_Name m; m_Namespace := m_Namespace m; m_UID := m_UID m;
     m_ResourceVersion := m_ResourceVersion m; m_Generation := m_Generation m;
     m_CreationTimestamp := m_CreationTimestamp m; m_DeletionTimestamp := m_DeletionTimestamp m;
     m_Labels := m_Labels m; m_Annotations := m_Annotations m;
     m_OwnerReferences := owners; m_Finalizers := m_Finalizers m |}.

Record NamespacedName := { nn_Namespace : string; nn_Name : string }.
Definition objectKey (m : ObjectMeta) : NamespacedName :=
  {| nn_Namespace := m_Namespace m; nn_Name := m_Name m |}.

(** ** Status conditions *)
Record Condition := {
  c_Type : string;
  c_Status : string;
  c_ObservedGeneration : Z;
  c_LastTransitionTime : Time;
  c_Reason : string;
  c_Message : string
}.

(** ** Pods *)
Abbreviation Quantity := string (only parsing).

Record SecretKeySelector := { sk_Name : string; sk_Key : string; sk_Optional : option bool }.
Record EnvVar := { ev_Name : string; ev_Value : string; ev_ValueFrom : option SecretKeySelector }.
Record VolumeMount := { vm_Name : string; vm_MountPath : string; vm_SubPath : string; vm_ReadOnly : bool }.

Inductive VolumeSource :=
  | VConfigMap (name : string) (defaultMode : option Z)
  | VClaim (claimName : string) (readOnly : bool)
  | VEmptyDir (medium : string) (sizeLimit : option Quantity)
  | VSecret (secretName : string) (defaultMode : option Z).
Record Volume := { vol_Name : string; vol_Source : VolumeSource }.

Abbreviation ResourceList := (gmap string Quantity).
Record ResourceRequirements := { rr_Requests : option ResourceList; rr_Limits : option ResourceList }.

Record SecurityContext := {
  sc_AllowPrivilegeEscalation : option bool;
  sc_ReadOnlyRootFilesystem : option bool;
  sc_RunAsNonRoot : option bool;
  sc_CapabilitiesDrop : list string
}.

Record PodSecurityContext := {
  psc_RunAsNonRoot : option bool;
  psc_RunAsUser : option Z;
  psc_RunAsGroup : option Z;
  psc_FSGroup : option Z;
  psc_SeccompProfile : string
}.

Record Probe := {
  pr_Path : string; pr_Port : Z; pr_Scheme : string;
  pr_PeriodSeconds : Z; pr_TimeoutSeconds : Z; pr_SuccessThreshold : Z; pr_FailureThreshold : Z
}.
Record ContainerPort := { cp_Name : string; cp_ContainerPort : Z; cp_Protocol : string }.

Record Container := {
  ct_Name : string;
  ct_Image : string;
  ct_Command : list string;
  ct_Args : list string;
  ct_Ports : list ContainerPort;
  ct_Env : list EnvVar;
  ct_Resources : ResourceRequirements;
  ct_VolumeMounts : list VolumeMount;
  ct_StartupProbe : option Probe;
  ct_ReadinessProbe : option Probe;
  ct_LivenessProbe : option Probe;
  ct_SecurityContext : option SecurityContext;
  ct_TerminationMessagePath : string;
  ct_TerminationMessagePolicy : string
}.

(** A required pod affinity term: the label selector and the topology key. *)
Record PodAffinityTerm := { pat_MatchLabels : gmap string string; pat_TopologyKey : string }.

Record PodSpec := {
  ps_InitContainers : list Container;
  ps_Containers : list Container;
  ps_Volumes : list Volume;
  ps_RestartPolicy : string;
  ps_AutomountServiceAccountToken : option bool;
  ps_TerminationGracePeriodSeconds : option Z;
  ps_DNSPolicy : string;
  ps_SchedulerName : string;
  ps_SecurityContext : option PodSecurityContext;
  ps_Affinity : option (list PodAffinityTerm);
  ps_NodeSelector : gmap string string
}.

Record PodTemplateSpec := {
  pt_Labels : gmap string string;
  pt_Annotations : gmap string string;
  pt_Spec : PodSpec
}.

(** ** Workloads *)
Inductive DeploymentStrategy :=
  | Recreate
  | RollingUpdate (maxUnavailable maxSurge : Z).

Record Deployment := {
  dep_Meta : ObjectMeta;
  dep_Replicas : option Z;
  dep_Selector : option (gmap string string);
  dep_Strategy : DeploymentStrategy;
  dep_Template : PodTemplateSpec;
  dep_StatusReplicas : Z;
  dep_StatusReadyReplicas : Z
}.

Record JobCondition := { jc_Type : string; jc_Status : string; jc_Reason : string; jc_Message : string }.

Record JobSpec := {
  js_BackoffLimit : option Z;
  js_ActiveDeadlineSeconds : option Z;
  js_TTLSecondsAfterFinished : option Z;
  js_Template : PodTemplateSpec
}.

Record JobStatus := {
  jst_Succeeded : Z;
  jst_Failed : Z;
  jst_Conditions : list JobCondition;
  jst_CompletionTime : option Time
}.
Definition noJobStatus : JobStatus :=
  {| jst_Succeeded := 0; jst_Failed := 0; jst_Conditions := []; jst_CompletionTime := None |}.

Record Job := { job_Meta : ObjectMeta; job_Spec : JobSpec; job_Status : JobStatus }.

Record CronJobSpec := {
  cj_Schedule : string;
  cj_StartingDeadlineSeconds : option Z;
  cj_ConcurrencyPolicy : string;
  cj_Suspend : option bool;
  cj_SuccessfulJobsHistoryLimit : option Z;
  cj_FailedJobsHistoryLimit : option Z;
  cj_JobLabels : gmap string string;
  cj_JobSpec : JobSpec
}.
Record CronJobStatus := { cjs_LastScheduleTime : option Time; cjs_LastSuccessfulTime : option Time }.
Record CronJob := { cron_Meta : ObjectMeta; cron_Spec : CronJobSpec; cron_Status : CronJobStatus }.

Record Pod := { pod_Meta : ObjectMeta; pod_Phase : string; pod_NodeName : string }.

(** ** Storage, configuration and networking *)
Record PersistentVolumeClaim := {
  pvc_Meta : ObjectMeta;
  pvc_AccessModes : list string;
  pvc_StorageRequest : Quantity;
  pvc_StorageClassName : option string;
  pvc_Phase : string
}.
Record Secret := { sec_Meta : ObjectMeta; sec_Data : gmap string string }.
Record ConfigMap := { cm_Meta : ObjectMeta; cm_Data : gmap string string }.
Record ServicePort := { sp_Name : string; sp_Port : Z; sp_TargetPort : Z; sp_Protocol : string }.
Record Service := {
  svc_Meta : ObjectMeta;
  svc_Type : string;
  svc_Selector : gmap string string;
  svc_Ports : list ServicePort
}.
Record PodDisruptionBudget := {
  pdb_Meta : ObjectMeta;
  pdb_MinAvailable : option Z;
  pdb_MaxUnavailable : option Z;
  pdb_Selector : option (gmap string string)
}.

(** ** Library constants *)
Definition ReadWriteOnce : string := "ReadWriteOnce".
Definition ReadWriteMany : string := "ReadWriteMany".
Definition EventTypeNormal : string := "Normal".
Definition EventTypeWarning : string := "Warning".
Definition JobComplete : string := "Complete".
Definition JobFailed : string := "Failed".
Definition ConditionTrue : string := "True".
Definition ConditionFalse : string := "False".
Definition ConditionUnknown : string := "Unknown".
Definition PodRunning : string := "Running".
Definition ClaimBound : string := "Bound".
Definition ResourceCPU : string := "cpu".
Definition ResourceMemory : string := "memory".
Definition ResourceStorage : string := "storage".
Definition RestartPolicyNever : string := "Never".
Definition RestartPolicyAlways : string := "Always".
Definition DNSClusterFirst : string := "ClusterFirst".
Definition DefaultSchedulerName : string := "default-scheduler".
Definition SeccompProfileTypeRuntimeDefault : string := "RuntimeDefault".
Definition TerminationMessagePathDefault : string := "/dev/termination-log".
Definition TerminationMessageReadFile : string := "File".
Definition TerminationMessageFallbackToLogsOnError : string := "FallbackToLogsOnError".
Definition StorageMediumMemory : string := "Memory".
Definition ProtocolTCP : string := "TCP".
Definition URISchemeHTTP : string := "HTTP".
Definition ServiceTypeClusterIP : string := "ClusterIP".
Definition LabelHostname : string := "kubernetes.io/hostname".
Definition ForbidConcurrent : string := "Forbid".

(** A composite literal leaves the fields it does not name zero. *)
Definition noResources : ResourceRequirements := {| rr_Requests := None; rr_Limits := None |}.
Definition noContainer : Container :=
  {| ct_Name := ""; ct_Image := ""; ct_Command := []; ct_Args := []; ct_Ports := []; ct_Env := [];
     ct_Resources := noResources; ct_VolumeMounts := []; ct_StartupProbe := None;
     ct_ReadinessProbe := None; ct_LivenessProbe := None; ct_SecurityContext := None;
     ct_TerminationMessagePath := ""; ct_TerminationMessagePolicy := "" |}.
Definition readOnlyMount (name path : string) : VolumeMount :=
  {| vm_Name := name; vm_MountPath := path; vm_SubPath := ""; vm_ReadOnly := true |}.
Definition mount (name path : string) : VolumeMount :=
  {| vm_Name := name; vm_MountPath := path; vm_SubPath := ""; vm_ReadOnly := false |}.
Definition envValue (name value : string) : EnvVar :=
  {| ev_Name := name; ev_Value := value; ev_ValueFrom := None |}.
Definition envFrom (name secret key : string) (optional : option bool) : EnvVar :=
  {| ev_Name := name; ev_Value := "";
     ev_ValueFrom := Some {| sk_Name := secret; sk_Key := key; sk_Optional := optional |} |}.
Definition job_with_meta (m : ObjectMeta) (j : Job) : Job :=
  {| job_Meta := m; job_Spec := job_Spec j; job_Status := job_Status j |}.

(** ** What the pod specs of the operator must satisfy

    A container that cannot gain privileges or write its root filesystem, every mount of it a
    volume of the pod. *)
Definition container_hardened (c : Container) : bool :=
  match ct_SecurityContext c with
  | Some sc =>
      bool_decide (sc_AllowPrivilegeEscalation sc = Some false) &&
      bool_decide (sc_ReadOnlyRootFilesystem sc = Some true) &&
      bool_decide (sc_CapabilitiesDrop sc = ["ALL"])
  | None => false
  end.

Definition mounts_volumes (ps : PodSpec) (c : Container) : bool :=
  forallb (λ m, bool_decide (vm_Name m ∈ vol_Name <$> ps_Volumes ps)) (ct_VolumeMounts c).

Definition pod_hardened (ps : PodSpec) : bool :=
  forallb (λ c, container_hardened c && mounts_volumes ps c)
    (ps_InitContainers ps ++ ps_Containers ps) &&
  bool_decide (ps_AutomountServiceAccountToken ps = Some false) &&
  bool_decide (NoDup (vol_Name <$> ps_Volumes ps)) &&
  match ps_SecurityContext ps with
  | Some psc =>
      bool_decide (psc_RunAsNonRoot psc = Some true) &&
      bool_decide (psc_SeccompProfile psc = SeccompProfileTypeRuntimeDefault) &&
      match psc_RunAsUser psc with Some uid => negb (uid =? 0) | None => false end
  | None => false
  end.

(** A read of an absent key of a Go map gives the empty string. *)
Definition map_get (m : gmap string string) (k : string) : string := default "" (m !! k).

(** A label selector picks a pod whose labels contain it. *)
Definition selects (selector labels : gmap string string) : Prop := selector ⊆ labels.

(** ** The library functions

    [SetStatusCondition] takes the clock it reads as its first argument; [SetControllerReference]
    gives the controlled object's new metadata. *)
Class KubeLib := {
  ParseQuantity : string → res Quantity;
  MustParse : string → Quantity;
  QuantitySign : Quantity → Z;
  FindStatusCondition : list Condition → string → option Condition;
  SetStatusCondition : Time → list Condition → Condition → list Condition;
  RemoveStatusCondition : list Condition → string → list Condition;
  IsControlledBy : ObjectMeta → ObjectMeta → bool;
  SetControllerReference : ObjectMeta → ObjectMeta → res ObjectMeta;
  ContainsFinalizer : ObjectMeta → string → bool;
  AddFinalizer : ObjectMeta → string → ObjectMeta;
  RemoveFinalizer : ObjectMeta → string → ObjectMeta;
  IsNotFound : error → bool;
  IsAlreadyExists : error → bool;
  IsConflict : error → bool;
  IsInvalid : error → bool;
  SemanticDeepEqual : ∀ {A : Type} `{EqDecision A}, A → A → bool;
  MarshalJobSpec : JobSpec → string
}.

(** The text of an error value: the operator's own wrappers pass it through. *)
Fixpoint error_text (e : error) : string :=
  match e with
  | ErrorString msg | WrapError msg _ | StatusError _ msg => msg
  | ReasonError _ e => error_text e
  end.

(** ** Laws *)

(** [apimachinery]'s condition helpers: a list of conditions is a map keyed by the type. *)
Class ConditionLaws `{KubeLib} := {
  find_set_eq now cs c :
    ∃ c', FindStatusCondition (SetStatusCondition now cs c) (c_Type c) = Some c' ∧
      c_Type c' = c_Type c ∧ c_Status c' = c_Status c ∧ c_Reason c' = c_Reason c ∧
      c_Message c' = c_Message c ∧ c_ObservedGeneration c' = c_ObservedGeneration c ∧
      (∀ o, FindStatusCondition cs (c_Type c) = Some o → c_Status o = c_Status c →
         c_LastTransitionTime c' = c_LastTransitionTime o);
  find_set_ne now cs c t :
    t ≠ c_Type c → FindStatusCondition (SetStatusCondition now cs c) t = FindStatusCondition cs t;
  set_same now cs c o :
    FindStatusCondition cs (c_Type c) = Some o →
    c_Status o = c_Status c → c_Reason o = c_Reason c → c_Message o = c_Message c →
    c_ObservedGeneration o = c_ObservedGeneration c → SetStatusCondition now cs c = cs;
  find_nil t : FindStatusCondition [] t = None;
  find_remove_eq cs t : FindStatusCondition (RemoveStatusCondition cs t) t = None;
  find_remove_ne cs t t' :
    t ≠ t' → FindStatusCondition (RemoveStatusCondition cs t) t' = FindStatusCondition cs t';
  remove_absent cs t : FindStatusCondition cs t = None → RemoveStatusCondition cs t = cs
}.

(** Finalizers: removing one changes nothing else, and it is gone. *)
Class FinalizerLaws `{KubeLib} := {
  remove_finalizer m f : ContainsFinalizer (RemoveFinalizer m f) f = false;
  remove_finalizer_keeps m f : RemoveFinalizer m f = {| m_Name := m_Name m; m_Namespace := m_Namespace m; m_UID := m_UID m;
    m_ResourceVersion := m_ResourceVersion m; m_Generation := m_Generation m;
    m_CreationTimestamp := m_CreationTimestamp m; m_DeletionTimestamp := m_DeletionTimestamp m;
    m_Labels := m_Labels m; m_Annotations := m_Annotations m; m_OwnerReferences := m_OwnerReferences m;
    m_Finalizers := m_Finalizers (RemoveFinalizer m f) |}
}.

(** Owner references: [SetControllerReference] makes the owner the controller, keeps the rest of
    the metadata, and accepts an object of the owner's namespace that has no owner, or has this one
    as its controller already; owner references it has set it leaves as they are; who controls an
    object is read from its owner references. *)
Class OwnerLaws `{KubeLib} := {
  set_controller_ref owner m m' :
    SetControllerReference owner m = Ok m' →
    IsControlledBy m' owner = true ∧
    m' = with_owners (m_OwnerReferences m') m ∧
    (∃ r, r ∈ m_OwnerReferences m' ∧ owner_UID r = m_UID owner);
  set_controller_new owner m :
    m_Namespace m = m_Namespace owner → m_OwnerReferences m = [] →
    is_Ok (SetControllerReference owner m) = true;
  set_controller_own owner m :
    m_Namespace m = m_Namespace owner → IsControlledBy m owner = true →
    is_Ok (SetControllerReference owner m) = true;
  set_controller_again owner m m' x :
    SetControllerReference owner m = Ok m' → m_OwnerReferences x = m_OwnerReferences m' →
    m_Namespace x = m_Namespace m' → SetControllerReference owner x = Ok x;
  controlled_refs owner m m' :
    m_OwnerReferences m = m_OwnerReferences m' → IsControlledBy m owner = IsControlledBy m' owner
}.

(** Errors of the client: the code of an API error, also when it is wrapped. *)
Class ErrorLaws `{KubeLib} := {
  IsNotFound_spec c msg : IsNotFound (StatusError c msg) = bool_decide (c = CodeNotFound);
  IsAlreadyExists_spec c msg :
    IsAlreadyExists (StatusError c msg) = bool_decide (c = CodeAlreadyExists);
  IsConflict_spec c msg : IsConflict (StatusError c msg) = bool_decide (c = CodeConflict);
  IsInvalid_spec c msg : IsInvalid (StatusError c msg) = bool_decide (c = CodeInvalid);
  IsConflict_wrap msg e : IsConflict (WrapError msg e) = IsConflict e;
  IsConflict_string msg : IsConflict (ErrorString msg) = false
}.

(** [equality.Semantic.DeepEqual] on the operator's statuses, which hold no pointer that
    distinguishes two equal values. *)
Class EqualityLaws `{KubeLib} := {
  deep_equal {A : Type} `{EqDecision A} (a b : A) : SemanticDeepEqual a b = bool_decide (a = b)
}.

Close Scope Z_scope.
