(* ===== verification/Api.v ===== *)
(** * The operator's API types (api/v1)

    One record per Go struct with the fields in the source's order; a pointer field is an
    [option]. A field name carries a prefix for its struct ([ad_] OdooAddonSpec, [ads_] its status,
    [is_] OdooInstanceSpec, [ist_] its status, [us_]/[ust_] OdooUpgrade, [bs_]/[bst_] OdooBackup). *)
From S2P Require Export Kube.

Open Scope Z_scope.

Record LocalSecretRef := { lsr_Name : string }.
Record OdooInstanceRef := { ref_Name : string; ref_Namespace : string }.

(** ** OdooAddon *)
Record OdooAddonSpec := {
  ad_GitUrl : string;
  ad_GitRef : string;
  ad_GitSecretRef : option LocalSecretRef;
  ad_AddonPath : string;
  ad_SingleAddon : bool;
  ad_ModuleName : string;
  ad_InstanceRef : OdooInstanceRef;
  ad_ReadOnly : bool
}.

Record OdooAddonStatus := {
  ads_Ready : bool;
  ads_Phase : string;
  ads_ClonedCommit : string;
  ads_LastSyncTime : option Time;
  ads_Modules : list string;
  ads_Message : string;
  ads_Conditions : list Condition
}.

Record OdooAddon := { ad_Meta : ObjectMeta; ad_Spec : OdooAddonSpec; ad_Status : OdooAddonStatus }.

(** ** OdooBackup *)
Definition BackupPhasePending : string := "Pending".
Definition BackupPhaseRunning : string := "Running".
Definition BackupPhaseSucceeded : string := "Succeeded".
Definition BackupPhaseFailed : string := "Failed".
Definition BackupPhaseScheduled : string := "Scheduled".

Record BackupPVCDestination := { bp_ClaimName : string; bp_SubPath : string }.
Record BackupS3Destination := {
  s3_Bucket : string;
  s3_Prefix : string;
  s3_Endpoint : string;
  s3_Region : string;
  s3_CredentialsSecret : string;
  s3_ForcePathStyle : bool
}.
Record BackupDestination := {
  bd_PVC : option BackupPVCDestination;
  bd_S3 : option BackupS3Destination
}.

Record OdooBackupSpec := {
  bs_InstanceRef : OdooInstanceRef;
  bs_Database : string;
  bs_IncludeFilestore : option bool;
  bs_Destination : BackupDestination;
  bs_Retention : option Z;
  bs_ScratchSize : string;
  bs_TimeoutSeconds : option Z;
  bs_Schedule : string;
  bs_Suspend : bool
}.

Record OdooBackupStatus := {
  bst_Phase : string;
  bst_JobName : string;
  bst_CronJobName : string;
  bst_StartTime : option Time;
  bst_CompletionTime : option Time;
  bst_LastScheduleTime : option Time;
  bst_LastSuccessfulTime : option Time;
  bst_LastBackup : string;
  bst_Message : string;
  bst_ObservedGeneration : Z;
  bst_Conditions : list Condition
}.

Record OdooBackup := { bk_Meta : ObjectMeta; bk_Spec : OdooBackupSpec; bk_Status : OdooBackupStatus }.

(** ** OdooInstance *)
Record AddonVolumeSpec := {
  av_StorageClass : option string;
  av_Size : string;
  av_AccessMode : string
}.
Record DataVolumeSpec := {
  dv_StorageClass : option string;
  dv_Size : string;
  dv_AccessMode : string;
  dv_RetainOnDelete : option bool
}.
Record PostgresSpec := {
  pg_Host : string;
  pg_Port : Z;
  pg_Database : string;
  pg_User : string;
  pg_PasswordSecret : string
}.
Record UpgradeSpec := { usp_Modules : list string; usp_TimeoutSeconds : option Z }.
Record InitializeSpec := {
  ini_Modules : list string;
  ini_WithDemo : bool;
  ini_AdminUserPasswordSecret : string;
  ini_TimeoutSeconds : option Z
}.
Record CronSpec := {
  cr_Enabled : bool;
  cr_MaxCronThreads : option Z;
  cr_Resources : option ResourceRequirements
}.

Record OdooInstanceSpec := {
  is_Image : string;
  is_Replicas : Z;
  is_Version : string;
  is_Edition : string;
  is_Addons : AddonVolumeSpec;
  is_Data : DataVolumeSpec;
  is_Postgres : PostgresSpec;
  is_Config : gmap string string;
  is_Resources : ResourceRequirements;
  is_AdminPasswordSecret : string;
  is_Upgrade : option UpgradeSpec;
  is_Initialize : option InitializeSpec;
  is_Cron : option CronSpec
}.

Record OdooInstanceStatus := {
  ist_Ready : bool;
  ist_Phase : string;
  ist_AddonPaths : list string;
  ist_ObservedGeneration : Z;
  ist_Conditions : list Condition;
  ist_Message : string;
  ist_Initialized : bool;
  ist_InitUpgrade : string;
  ist_AppliedAddonsHash : string;
  ist_ActiveUpgrade : string
}.

Record OdooInstance := {
  in_Meta : ObjectMeta;
  in_Spec : OdooInstanceSpec;
  in_Status : OdooInstanceStatus
}.

(** ** OdooUpgrade *)
Definition UpgradePhasePending : string := "Pending".
Definition UpgradePhaseRunning : string := "Running".
Definition UpgradePhaseSucceeded : string := "Succeeded".
Definition UpgradePhaseFailed : string := "Failed".

Record OdooUpgradeSpec := {
  us_InstanceRef : OdooInstanceRef;
  us_Modules : list string;
  us_InstallModules : list string;
  us_Database : string;
  us_TimeoutSeconds : option Z;
  us_WithDemo : bool;
  us_AdminUserPasswordSecret : string
}.

Record OdooUpgradeStatus := {
  ust_Phase : string;
  ust_JobName : string;
  ust_Message : string;
  ust_StartTime : option Time;
  ust_CompletionTime : option Time;
  ust_ObservedGeneration : Z;
  ust_Conditions : list Condition
}.

Record OdooUpgrade := { up_Meta : ObjectMeta; up_Spec : OdooUpgradeSpec; up_Status : OdooUpgradeStatus }.

(** ** Zero values *)
Definition noUpgradeStatus : OdooUpgradeStatus :=
  {| ust_Phase := ""; ust_JobName := ""; ust_Message := ""; ust_StartTime := None;
     ust_CompletionTime := None; ust_ObservedGeneration := 0; ust_Conditions := [] |}.

(** ** Condition types and reasons (api/v1/conditions.go) *)
Definition ConditionTypeReady : string := "Ready".
Definition ConditionTypeProgressing : string := "Progressing".
Definition ConditionTypeDegraded : string := "Degraded".
Definition ConditionTypeSucceeded : string := "Succeeded".
Definition ConditionTypeCronReady : string := "CronReady".

Definition ReasonAllReplicasReady : string := "AllReplicasReady".
Definition ReasonDeploymentNotReady : string := "DeploymentNotReady".
Definition ReasonReconciling : string := "Reconciling".
Definition ReasonReconciled : string := "Reconciled".
Definition ReasonAsExpected : string := "AsExpected".
Definition ReasonReconcileError : string := "ReconcileError".
Definition ReasonUpgrading : string := "Upgrading".
Definition ReasonUpgradeFailed : string := "UpgradeFailed".
Definition ReasonMissingSecret : string := "MissingSecret".
Definition ReasonInvalidConfig : string := "InvalidConfig".
Definition ReasonInitializing : string := "Initializing".
Definition ReasonInitializationFailed : string := "InitializationFailed".
Definition ReasonCronRunning : string := "CronRunning".
Definition ReasonCronNotReady : string := "CronNotReady".
Definition ReasonCronPending : string := "CronPending".
Definition ReasonSynced : string := "Synced".
Definition ReasonSyncing : string := "Syncing".
Definition ReasonPending : string := "Pending".
Definition ReasonInstanceNotFound : string := "InstanceNotFound".
Definition ReasonVolumeNotBound : string := "VolumeNotBound".
Definition ReasonSyncFailed : string := "SyncFailed".
Definition ReasonInvalidSpec : string := "InvalidSpec".
Definition ReasonModuleConflict : string := "ModuleConflict".
Definition ReasonJobConflict : string := "JobConflict".
Definition ReasonRunning : string := "Running".
Definition ReasonComplete : string := "Complete".
Definition ReasonJobFailed : string := "JobFailed".
Definition ReasonScheduled : string := "Scheduled".
Definition ReasonCronJobRejected : string := "CronJobRejected".

(** ** Decidable equality of the statuses (they are compared before a write) *)
#[export] Instance Condition_eq_dec : EqDecision Condition.
Proof. solve_decision. Defined.
#[export] Instance OdooAddonStatus_eq_dec : EqDecision OdooAddonStatus.
Proof. solve_decision. Defined.
#[export] Instance OdooBackupStatus_eq_dec : EqDecision OdooBackupStatus.
Proof. solve_decision. Defined.
#[export] Instance OdooUpgradeStatus_eq_dec : EqDecision OdooUpgradeStatus.
Proof. solve_decision. Defined.
#[export] Instance OdooInstanceStatus_eq_dec : EqDecision OdooInstanceStatus.
Proof. solve_decision. Defined.

Close Scope Z_scope.
