(* ===== verification/Queue.v ===== *)
(** * The start queue: an interface for objects that run one at a time per instance

    [QueueItem] is what the two queues of the operator (OdooUpgrade, one-shot OdooBackup) read of
    an object. [decide_start] is the specification of a queue decision; its theorems (at most one
    waiting object may start, some waiting object always may) are proved once here, against the
    interface, and the files [UpgradeQueue] and [BackupQueue] show that the code of each queue
    computes this decision. *)
From S2P Require Export Api.

Open Scope Z_scope.

Class QueueItem (A : Type) := {
  qi_name : A → string;
  qi_created : A → Time;
  qi_group : A → string;
  qi_phase : A → string;
  qi_ignored : A → bool
}.

(** What a queue answers: whether the candidate may start, and otherwise who blocks it. *)
Record decision := { may_start : bool; blocked_by : string }.

(** ** The order of [<] on Go strings *)
Lemma str_lt_spec a b : str_lt a b = true ↔ String.compare a b = Lt.
Proof. unfold str_lt, String.ltb. destruct (String.compare a b); naive_solver. Qed.

Lemma str_lt_not_le a b : str_lt a b = true ↔ ¬ String.le b a.
Proof.
  rewrite str_lt_spec. unfold String.le, String.leb.
  rewrite (String.compare_antisym b a). destruct (String.compare a b); cbn; naive_solver.
Qed.

Lemma str_lt_irrefl a : str_lt a a = false.
Proof. apply not_true_iff_false. rewrite str_lt_not_le. naive_solver. Qed.

Lemma str_lt_trans a b c : str_lt a b = true → str_lt b c = true → str_lt a c = true.
Proof.
  rewrite !str_lt_not_le. intros Hab Hbc Hca.
  destruct (total String.le b c) as [H|H]; [|done].
  apply Hab. by trans c.
Qed.

Lemma str_lt_total a b : a ≠ b → str_lt a b = true ∨ str_lt b a = true.
Proof.
  rewrite !str_lt_not_le. intros Hne.
  destruct (decide (String.le a b)) as [H1|H1]; [|by right].
  destruct (decide (String.le b a)) as [H2|H2]; [|by left].
  destruct Hne. by apply (anti_symm String.le).
Qed.

Section Queue.
Context `{QueueItem A}.

(** Creation time first, ties broken by name. *)
Definition older (a b : A) : bool :=
  if negb (qi_created a =? qi_created b) then qi_created a <? qi_created b
  else str_lt (qi_name a) (qi_name b).

Definition sibling (o c : A) : Prop :=
  qi_name o ≠ qi_name c ∧ qi_group o = qi_group c ∧ qi_ignored o = false.

#[export] Instance sibling_dec o c : Decision (sibling o c) := _.

Definition running (o : A) : Prop := qi_phase o = "Running".
Definition waiting (o : A) : Prop := qi_phase o = "" ∨ qi_phase o = "Pending".

Definition blocks (o c : A) : Prop := sibling o c ∧ (running o ∨ waiting o ∧ older o c = true).

Definition blocksb (o c : A) : bool :=
  negb (String.eqb (qi_name o) (qi_name c)) && String.eqb (qi_group o) (qi_group c) &&
  negb (qi_ignored o) &&
  (String.eqb (qi_phase o) "Running" ||
   (String.eqb (qi_phase o) "" || String.eqb (qi_phase o) "Pending") && older o c).

Lemma blocksb_spec o c : blocksb o c = true ↔ blocks o c.
Proof.
  unfold blocksb, blocks, sibling, running, waiting.
  rewrite !andb_true_iff, !orb_true_iff, !andb_true_iff, !orb_true_iff, !negb_true_iff,
    !String.eqb_eq, String.eqb_neq. tauto.
Qed.

(** The first object of the list that blocks the candidate decides. *)
Fixpoint decide_start (c : A) (all : list A) : decision :=
  match all with
  | [] => {| may_start := true; blocked_by := "" |}
  | o :: all =>
      if blocksb o c then {| may_start := false; blocked_by := qi_name o |}
      else decide_start c all
  end.

Lemma decide_start_true c all :
  may_start (decide_start c all) = true ↔ ∀ o, o ∈ all → ¬ blocks o c.
Proof.
  induction all as [|o all IH]; cbn; [set_solver|].
  destruct (blocksb o c) eqn:Hb; cbn.
  - apply blocksb_spec in Hb. set_solver.
  - apply not_true_iff_false in Hb. rewrite blocksb_spec in Hb. set_solver.
Qed.

Lemma decide_start_blocker c all :
  may_start (decide_start c all) = false →
  ∃ o, o ∈ all ∧ blocks o c ∧ blocked_by (decide_start c all) = qi_name o.
Proof.
  induction all as [|o all IH]; cbn; [done|].
  destruct (blocksb o c) eqn:Hb; cbn.
  - intros _. exists o. apply blocksb_spec in Hb. set_solver.
  - intros (o' & ? & ? & ?)%IH. exists o'. set_solver.
Qed.

Lemma decide_start_free c all :
  may_start (decide_start c all) = true → blocked_by (decide_start c all) = "".
Proof. induction all as [|o all IH]; cbn; [done|]. by destruct (blocksb o c). Qed.

(** [older] is a strict total order on objects with distinct names. *)
Lemma older_irrefl a : older a a = false.
Proof. unfold older. by rewrite Z.eqb_refl, str_lt_irrefl. Qed.

Lemma older_trans a b c : older a b = true → older b c = true → older a c = true.
Proof.
  unfold older. intros H1 H2.
  destruct (Z.eqb_spec (qi_created a) (qi_created b)),
    (Z.eqb_spec (qi_created b) (qi_created c)),
    (Z.eqb_spec (qi_created a) (qi_created c)); cbn in *;
    rewrite ?Z.ltb_lt in *; try lia; eauto using str_lt_trans.
Qed.

Lemma older_total a b : qi_name a ≠ qi_name b → older a b = true ∨ older b a = true.
Proof.
  intros Hne. unfold older.
  destruct (Z.eqb_spec (qi_created a) (qi_created b)) as [He|He];
    destruct (Z.eqb_spec (qi_created b) (qi_created a)); try lia; cbn.
  - by apply str_lt_total.
  - rewrite !Z.ltb_lt. lia.
Qed.

Lemma older_asym a b : older a b = true → older b a = false.
Proof.
  intros Hab. apply not_true_iff_false. intros Hba.
  pose proof (older_trans _ _ _ Hab Hba) as Haa. by rewrite older_irrefl in Haa.
Qed.

(** Objects neither of which is older compare alike with everything else. *)
Lemma older_le_trans a b c : older b a = false → older b c = true → older a c = true.
Proof.
  unfold older. intros H1 H2.
  destruct (Z.eqb_spec (qi_created b) (qi_created a)),
    (Z.eqb_spec (qi_created b) (qi_created c)),
    (Z.eqb_spec (qi_created a) (qi_created c)); cbn in *;
    rewrite ?Z.ltb_lt, ?Z.ltb_ge in *; try lia.
  destruct (decide (qi_name a = qi_name b)) as [He|He]; [by rewrite He|].
  destruct (str_lt_total _ _ He); [eauto using str_lt_trans|congruence].
Qed.

Lemma sibling_sym a b :
  qi_ignored a = false → qi_ignored b = false → sibling a b → sibling b a.
Proof. unfold sibling. naive_solver. Qed.

(** Two waiting objects of one group are never both allowed to start. *)
Lemma waiting_exclusive a b all :
  a ∈ all → b ∈ all → sibling a b → sibling b a → waiting a → waiting b →
  may_start (decide_start a all) = true → may_start (decide_start b all) = true → False.
Proof.
  rewrite !decide_start_true. intros Ha Hb Hsab Hsba Hwa Hwb Hsa Hsb.
  destruct (older_total a b) as [Ho|Ho]; [apply Hsab|..].
  - apply (Hsb a); [done|]. unfold blocks. auto.
  - apply (Hsa b); [done|]. unfold blocks. auto.
Qed.

(** The oldest object of a non-empty list. *)
Fixpoint oldest (a : A) (l : list A) : A :=
  match l with [] => a | b :: l => oldest (if older b a then b else a) l end.

Lemma oldest_elem a l : oldest a l ∈ a :: l.
Proof.
  revert a. induction l as [|b l IH]; intros a; cbn; [set_solver|].
  specialize (IH (if older b a then b else a)). case_match; set_solver.
Qed.

Lemma oldest_le a l o : o ∈ a :: l → older o (oldest a l) = false.
Proof.
  revert a o. induction l as [|b l IH]; intros a o Ho; cbn.
  { apply list_elem_of_singleton in Ho as ->. apply older_irrefl. }
  assert (o = a ∨ o = b ∨ o ∈ l) as Hcases by set_solver. clear Ho.
  destruct (older b a) eqn:Hba.
  - destruct Hcases as [->|Hob]; [|apply IH; set_solver].
    apply not_true_iff_false. intros Hoa.
    assert (older b (oldest b l) = true) by eauto using older_trans.
    rewrite (IH b b (list_elem_of_here _ _)) in *. done.
  - destruct Hcases as [->|[->|Hol]]; [apply IH; set_solver| |apply IH; set_solver].
    apply not_true_iff_false. intros Hbm.
    pose proof (IH a a (list_elem_of_here _ _)) as Ham.
    by rewrite (older_le_trans a b _ Hba Hbm) in Ham.
Qed.

(** When nothing of the group runs and something waits, some waiting object may start. *)
Lemma waiting_progress (all : list A) (c : A) :
  (∀ o, o ∈ all → qi_group o = qi_group c → qi_ignored o = false → ¬ running o) →
  c ∈ all → waiting c → qi_ignored c = false →
  ∃ w, w ∈ all ∧ waiting w ∧ qi_group w = qi_group c ∧ qi_ignored w = false ∧
    may_start (decide_start w all) = true.
Proof.
  intros Hrun Hc Hw Hig.
  set (P := λ o, waiting o ∧ qi_group o = qi_group c ∧ qi_ignored o = false).
  assert (∀ o, Decision (P o)) by (intros; unfold P, waiting; apply _).
  set (ws := filter P all).
  assert (c ∈ ws) as Hcws by (apply list_elem_of_filter; unfold P; auto).
  destruct ws as [|a l] eqn:Hws; [set_solver|].
  pose proof (oldest_elem a l) as Hin. rewrite <-Hws in Hin.
  apply list_elem_of_filter in Hin as [(Hw' & Hg & Hi) Hall].
  exists (oldest a l). split_and!; try done.
  apply decide_start_true. intros o Ho [(Hne & Hgo & Hio) [Hr|[Hwo Hold]]].
  - apply (Hrun o); [done|congruence|done..].
  - assert (o ∈ ws) as Hos by (apply list_elem_of_filter; unfold P; split; [split_and!|]; congruence).
    rewrite Hws in Hos. by rewrite (oldest_le a l o Hos) in Hold.
Qed.
End Queue.

#[export] Hint Resolve older_irrefl older_asym older_total : operator.

Close Scope Z_scope.
