(* ===== verification/QueueLog.v ===== *)
(** * Why the start queues work with a stale cache

    The queue decisions read a cache that lags behind the API server. This file explains, for any
    [QueueItem], why two siblings still never run at once: [log] is the sequence of all changes
    the server accepted, a cache shows a prefix of it, and an object that runs holds a [ticket], a
    prefix in which it was older than every sibling that had not finished. Two tickets say that the
    object created later is the older one by its creation time and name ([tickets_exclusive]); a
    start decision on a prefix gives one ([ticket_new]). Nothing is assumed of the order in which the
    server stamps creation times, nor that a name is used once: [may_overlap] names the pairs of
    objects for which the queue promises nothing. *)
From S2P Require Export Queue.

Inductive change (A : Type) := Put (a : A) | Remove (name : string).
Arguments Put {A} a.
Arguments Remove {A} name.

Section Log.
Context `{QueueItem A}.
Implicit Types (a b c o x y : A) (log : list (change A)).

(** ** The state after some changes *)
Definition apply_change (m : gmap string A) (ch : change A) : gmap string A :=
  match ch with Put a => <[qi_name a := a]> m | Remove n => delete n m end.
Definition replay log : gmap string A := foldl apply_change ∅ log.
Definition snapshot log (i : nat) : gmap string A := replay (take i log).

(** Two objects of the queue of one group. *)
Definition rival a b : Prop :=
  qi_name a ≠ qi_name b ∧ qi_group a = qi_group b ∧ qi_ignored a = false ∧ qi_ignored b = false.

Definition finished a : Prop := qi_phase a = "Succeeded" ∨ qi_phase a = "Failed".
Definition active a : Prop := ¬ finished a.

(** The phases an object of the queue can have. *)
Definition typed a : Prop := qi_ignored a = false → finished a ∨ running a ∨ waiting a.

Lemma running_active a : running a → active a.
Proof. unfold running, active, finished. intros ->. naive_solver. Qed.
Lemma waiting_active a : waiting a → active a.
Proof. unfold waiting, active, finished. intros [-> | ->] []; done. Qed.

Lemma running_not_waiting a : running a → waiting a → False.
Proof. unfold running, waiting. intros -> [?|?]; done. Qed.
Lemma finished_idle a : finished a → (running a → False) ∧ (waiting a → False).
Proof. unfold finished, running, waiting. intros [-> | ->]; split; [done|by intros []|done|by intros []]. Qed.

(** ** Snapshots *)
Lemma replay_snoc log ch : replay (log ++ [ch]) = apply_change (replay log) ch.
Proof. unfold replay. by rewrite foldl_app. Qed.

Lemma snapshot_now log : snapshot log (length log) = replay log.
Proof. unfold snapshot. by rewrite firstn_all. Qed.

Lemma snapshot_nil i n : snapshot [] i !! n = None.
Proof. unfold snapshot. rewrite take_nil. apply lookup_empty. Qed.

Lemma snapshot_app log l i : i ≤ length log → snapshot (log ++ l) i = snapshot log i.
Proof. intros. unfold snapshot. by rewrite take_app_le. Qed.

(** A position in a longer log is one of the shorter log, or the new end. *)
Lemma snoc_position log ch i :
  i ≤ length (log ++ [ch]) → i ≤ length log ∨ i = length (log ++ [ch]).
Proof. rewrite length_app. cbn. lia. Qed.

Lemma replay_elem log n a : replay log !! n = Some a → Put a ∈ log ∧ qi_name a = n.
Proof.
  induction log as [|ch log IH] using rev_ind; [by unfold replay; cbn; rewrite lookup_empty|].
  rewrite replay_snoc. destruct ch as [b|m]; cbn.
  - intros [[<- ->]|[Hne Ha]]%lookup_insert_Some; [set_solver|]. destruct (IH Ha). set_solver.
  - intros [_ Ha]%lookup_delete_Some. destruct (IH Ha). set_solver.
Qed.

Lemma elem_take log i ch : ch ∈ take i log → ch ∈ log.
Proof. intros Hin. eapply elem_of_submseteq; [exact Hin|]. apply sublist_submseteq, sublist_take. Qed.

Lemma snapshot_elem log i n a : snapshot log i !! n = Some a → Put a ∈ log ∧ qi_name a = n.
Proof. intros [Ha%elem_take ?]%replay_elem. done. Qed.

Lemma put_cases log n ch b :
  replay (log ++ [ch]) !! n = Some b →
  (ch = Put b ∧ qi_name b = n) ∨ replay log !! n = Some b.
Proof.
  rewrite replay_snoc. destruct ch as [p|m]; cbn.
  - intros [[<- ->]|[_ Hb]]%lookup_insert_Some; auto.
  - intros [_ Hb]%lookup_delete_Some. auto.
Qed.

Lemma elem_snoc_put log ch b : Put b ∈ log ++ [ch] → Put b ∈ log ∨ ch = Put b.
Proof. intros [?|Hx]%elem_of_app; [by left|]. apply list_elem_of_singleton in Hx. auto. Qed.

Context (uid version : A → string).

(** The fields that never change while an object lives; the group is fixed for an object that
    takes part in the queue. *)
Definition same a b : Prop :=
  qi_name a = qi_name b ∧ uid a = uid b ∧ qi_created a = qi_created b ∧
  qi_ignored a = qi_ignored b ∧ (qi_ignored a = false → qi_group a = qi_group b).

(** A name that stood for two objects, one after the other. *)
Definition reused log (n : string) : Prop :=
  ∃ a b, Put a ∈ log ∧ Put b ∈ log ∧ qi_name a = n ∧ qi_name b = n ∧ uid a ≠ uid b.

Definition objects_of log : list A := omap (λ ch, match ch with Put a => Some a | Remove _ => None end) log.
Lemma objects_of_elem log a : a ∈ objects_of log ↔ Put a ∈ log.
Proof. unfold objects_of. rewrite list_elem_of_omap. split; [by intros ([b|] & ? & [= ->])|by exists (Put a)]. Qed.

#[export] Instance reused_dec log n : Decision (reused log n).
Proof.
  destruct (decide (Exists (λ a, Exists (λ b, qi_name a = n ∧ qi_name b = n ∧ uid a ≠ uid b) (objects_of log))
    (objects_of log))) as [He|He]; [left|right]; setoid_rewrite Exists_exists in He.
  - destruct He as (a & Ha%objects_of_elem & (b & Hb%objects_of_elem & ? & ? & ?)%Exists_exists). by exists a, b.
  - intros (a & b & Ha%objects_of_elem & Hb%objects_of_elem & ?). apply He. exists a. split; [done|].
    apply Exists_exists. by exists b.
Defined.

(** A name that stood for an object of the queue and for one outside it. *)
Definition switched log (n : string) : Prop :=
  ∃ a b, Put a ∈ log ∧ Put b ∈ log ∧ qi_name a = n ∧ qi_name b = n ∧
    qi_ignored a = false ∧ qi_ignored b = true.

(** The log knew [a] when it did not know [b] yet. *)
Definition created_before log a b : Prop :=
  ∃ i, (∃ c, Put c ∈ take i log ∧ uid c = uid a) ∧ ∀ c, Put c ∈ take i log → uid c ≠ uid b.

(** [b] was created after [a] and comes before it in the queue: in the same second with a smaller
    name, or after the clock of the server was set back. *)
Definition overtakes log b a : Prop := created_before log a b ∧ older b a = true.

(** The objects of which the queue does not say that they run one after the other. *)
Definition may_overlap log (n m : string) : Prop :=
  reused log n ∨ reused log m ∨
  ∃ a b, Put a ∈ log ∧ Put b ∈ log ∧ qi_name a = n ∧ qi_name b = m ∧
    (overtakes log b a ∨ overtakes log a b).

(** ** What the server accepts

    A changed object gets a new version, keeps its identity, and a finished one in the queue keeps
    its phase; a new object has a new uid and no phase yet. *)
Definition change_ok log (ch : change A) : Prop :=
  match ch with
  | Put a =>
      (∀ b, Put b ∈ log → version b ≠ version a) ∧ (typed a ∨ switched log (qi_name a)) ∧
      match replay log !! qi_name a with
      | Some b => same b a ∧ (qi_ignored b = false → active b ∨ qi_phase a = qi_phase b)
      | None => qi_phase a = "" ∧ ∀ b, Put b ∈ log → uid b ≠ uid a
      end
  | Remove _ => True
  end.

Inductive log_ok : list (change A) → Prop :=
  | log_nil : log_ok []
  | log_snoc log ch : log_ok log → change_ok log ch → log_ok (log ++ [ch]).

#[local] Instance same_equiv : Equivalence same.
Proof.
  split; unfold same.
  - done.
  - intros a b (? & ? & ? & Hi & Hg). rewrite Hi in Hg. split_and!; try done. intros. by rewrite Hg.
  - intros a b c (? & ? & ? & Hi & Hg) (? & ? & ? & Hi' & Hg'). rewrite <-Hi in Hg'.
    split_and!; try congruence. intros Hn. by rewrite Hg, Hg'.
Qed.

Lemma older_same a a' b b' : same a a' → same b b' → older a b = older a' b'.
Proof. intros (Hn & _ & Hc & _) (Hn' & _ & Hc' & _). unfold older. by rewrite Hn, Hc, Hn', Hc'. Qed.

Lemma rival_same a a' b b' : same a a' → same b b' → rival a b → rival a' b'.
Proof. unfold same, rival. intros. naive_solver congruence. Qed.

Lemma rival_sym a b : rival a b → rival b a.
Proof. unfold rival. naive_solver. Qed.

(** ** Identity *)
Lemma same_uid log a b : log_ok log → Put a ∈ log → Put b ∈ log → uid a = uid b → same a b.
Proof.
  intros Hlog. revert a b. induction Hlog as [|log ch Hlog IH Hch]; intros a b; [set_solver|].
  assert (∀ p q, ch = Put p → Put q ∈ log → uid q = uid p → same q p) as Hnew.
  { intros p q -> Hq Hu. destruct Hch as (_ & _ & Hch).
    destruct (replay log !! qi_name p) as [b'|] eqn:Hb'.
    - destruct Hch as [Hs _]. etrans; [|exact Hs]. apply IH; [done|by apply replay_elem in Hb' as []|].
      destruct Hs as (_ & -> & _). done.
    - destruct Hch as [_ Hch]. by destruct (Hch q Hq Hu). }
  intros [Ha| ->]%elem_snoc_put [Hb|Hb]%elem_snoc_put Hu.
  - by apply IH.
  - by eapply Hnew.
  - symmetry. by eapply Hnew.
  - by simplify_eq.
Qed.

(** ** Longer logs *)
Lemma elem_app_put log l a : Put a ∈ log → Put a ∈ log ++ l.
Proof. intros. apply elem_of_app. by left. Qed.
#[local] Hint Resolve elem_app_put : core.

Lemma reused_app log l n : reused log n → reused (log ++ l) n.
Proof. intros (a & b & ? & ? & ?). exists a, b. auto. Qed.
Lemma switched_app log l n : switched log n → switched (log ++ l) n.
Proof. intros (a & b & ? & ? & ?). exists a, b. auto. Qed.
Lemma created_before_app log l a b : created_before log a b → created_before (log ++ l) a b.
Proof.
  intros (i & Ha & Hb). exists (i `min` length log). by rewrite take_app_le, <-take_take, firstn_all by lia.
Qed.
Lemma overtakes_app log l a b : overtakes log a b → overtakes (log ++ l) a b.
Proof. intros []. split; [by apply created_before_app|done]. Qed.
Lemma may_overlap_app log l n m : may_overlap log n m → may_overlap (log ++ l) n m.
Proof.
  intros [?|[?|(a & b & ? & ? & ? & ? & Ho)]]; [by left; apply reused_app|by right; left; apply reused_app|].
  right. right. exists a, b. split_and!; auto. destruct Ho; auto using overtakes_app.
Qed.
Lemma may_overlap_sym log n m : may_overlap log n m → may_overlap log m n.
Proof. unfold may_overlap. intros [?|[?|(a & b & ? & ? & ? & ? & Ho)]]; [auto..|]. right. right. exists b, a. tauto. Qed.

(** An object keeps its place, in the queue or outside it. *)
Lemma switched_reused log n : log_ok log → switched log n → reused log n.
Proof.
  intros Hlog (a & b & Ha & Hb & Hna & Hnb & Hia & Hib). exists a, b. split_and!; try done. intros Hu.
  destruct (same_uid log a b Hlog Ha Hb Hu) as (_ & _ & _ & Hi & _). congruence.
Qed.

Lemma log_typed log a : log_ok log → Put a ∈ log → typed a ∨ switched log (qi_name a).
Proof.
  induction 1 as [|log ch Hlog IH Hch]; [set_solver|].
  intros [Ha| ->]%elem_snoc_put; [destruct (IH Ha)|destruct Hch as (_ & [|] & _)]; auto using switched_app.
Qed.

Lemma same_version log a b :
  log_ok log → Put a ∈ log → Put b ∈ log → version a = version b → a = b.
Proof.
  intros Hlog. induction Hlog as [|log ch Hlog IH Hch]; [set_solver|].
  intros [Ha| ->]%elem_snoc_put [Hb|Hb]%elem_snoc_put Hv; [by apply IH|..].
  - subst. destruct Hch as [Hf _]. by destruct (Hf a Ha).
  - destruct Hch as [Hf _]. by destruct (Hf b Hb).
  - by simplify_eq.
Qed.

(** ** Time

    An object that is there at two positions is there in between, and does not become active
    again; one that was deleted does not come back. *)
Lemma persists log i k j n a b :
  log_ok log → i ≤ k → k ≤ j → j ≤ length log →
  snapshot log i !! n = Some a → snapshot log j !! n = Some b → uid a = uid b →
  ∃ c, snapshot log k !! n = Some c ∧ same a c ∧ (qi_ignored a = false → active b → active c).
Proof.
  intros Hlog. revert i k j a b. induction Hlog as [|log ch Hlog IH Hch]; intros i k j a b Hik Hkj Hj Ha Hb Hu.
  { by rewrite snapshot_nil in Ha. }
  assert (log_ok (log ++ [ch])) as Hlog' by by constructor.
  assert (k = j → ∃ c, snapshot (log ++ [ch]) k !! n = Some c ∧ same a c ∧
    (qi_ignored a = false → active b → active c)) as Htriv.
  { intros ->. exists b. split_and!; [done| |done].
    apply (same_uid (log ++ [ch])); [done|by apply snapshot_elem in Ha as []|by apply snapshot_elem in Hb as []|done]. }
  destruct (decide (k = j)) as [|Hne]; [auto|]. clear Htriv.
  assert (k ≤ length log) as Hk by (rewrite length_app in Hj; cbn in Hj; lia).
  rewrite snapshot_app in Ha |- * by lia.
  destruct (snoc_position _ _ _ Hj) as [Hj'| ->].
  { rewrite snapshot_app in Hb by done. by apply (IH i k j a b). }
  rewrite snapshot_now in Hb. assert (Hn := Hb). apply put_cases in Hn as [[-> Hn]|Hn].
  - destruct Hch as (_ & _ & Hch). rewrite Hn in Hch. destruct (replay log !! n) as [b'|] eqn:Hb'.
    + destruct Hch as [Hs Hp]. rewrite <-snapshot_now in Hb'.
      destruct (IH i k (length log) a b') as (c & Hc & Hsc & Hact); try done.
      { destruct Hs as (_ & -> & _). done. }
      exists c. split_and!; [done|done|]. intros Hi Hb1. apply Hact; [done|].
      assert (same a b') as (_ & _ & _ & Hi' & _).
      { apply (same_uid log); [done|by eapply snapshot_elem|by apply snapshot_elem in Hb' as []|].
        destruct Hs as (_ & -> & _). done. }
      destruct Hp as [|Hp]; [congruence|done|]. unfold active, finished in *. by rewrite <-Hp.
    + destruct Hch as [_ Hch]. destruct (Hch a); [by apply snapshot_elem in Ha as []|done].
  - rewrite <-snapshot_now in Hn. by apply (IH i k (length log) a b).
Qed.

Lemma not_back log i n c a :
  log_ok log → Put c ∈ take i log → replay log !! n = Some a → uid c = uid a →
  ∃ b, snapshot log i !! n = Some b ∧ uid b = uid a.
Proof.
  intros Hlog Hc Ha Hu. revert a Ha Hu. induction Hlog as [|log ch Hlog IH Hch]; intros a Ha Hu.
  { rewrite take_nil in Hc. set_solver. }
  destruct (decide (i ≤ length log)) as [Hi|Hi].
  2: { unfold snapshot. rewrite take_ge by (rewrite length_app; cbn; lia). eauto. }
  rewrite take_app_le in Hc by done. rewrite snapshot_app by done.
  apply put_cases in Ha as [[-> Hn]|Ha]; [|by apply IH].
  destruct Hch as (_ & _ & Hch). rewrite Hn in Hch. destruct (replay log !! n) as [b'|] eqn:Hb'.
  - destruct Hch as [(_ & Hub & _) _]. destruct (IH Hc b') as (b & ? & ?); [done|congruence|].
    exists b. split; [done|congruence].
  - destruct Hch as [_ Hch]. destruct (Hch c); [|congruence]. by apply (elem_take log i).
Qed.

(** ** Tickets *)
Record ticket_at log (j : nat) y : Prop := {
  ticket_position : j ≤ length log;
  ticket_live : ∃ a, snapshot log j !! qi_name y = Some a ∧ same a y;
  ticket_oldest n o :
    snapshot log j !! n = Some o → rival o y → active o → ¬ reused log n → older y o = true
}.
Definition ticket log y : Prop := ∃ j, ticket_at log j y.

(** Every object that runs holds a ticket, unless its name was used before. *)
Definition ticketed log : Prop :=
  ∀ n y, replay log !! n = Some y → running y → qi_ignored y = false → reused log n ∨ ticket log y.

Lemma ticket_app log l y : ticket log y → ticket (log ++ l) y.
Proof.
  intros (j & [Hj Ha Hall]). exists j. split; rewrite ?snapshot_app by done; [rewrite length_app; lia|done|].
  intros n o Ho Hr Hact Hn. apply (Hall n o Ho Hr Hact).
  intros ?. by apply Hn, reused_app.
Qed.

Lemma ticket_same log y y' : same y y' → ticket log y → ticket log y'.
Proof.
  intros Hyy (j & [Hj (a & Ha & Hs) Hall]). exists j. assert (Hn := Hyy). destruct Hn as [Hn _].
  split; [done|exists a; rewrite <-Hn; split; [done|by trans y]|].
  intros n o Ho Hsib Hact Hnew. rewrite <-(older_same y y' o o) by done.
  eapply Hall; try done. by apply (rival_same o o y' y); [|symmetry|].
Qed.

(** What the earlier ticket says of an object that is live now: it was there, and still active. *)
Lemma ticket_oldest_now log j n y z a :
  log_ok log → j ≤ length log → snapshot log j !! n = Some a →
  replay log !! qi_name z = Some z → active z → rival z y → uid a = uid z → n = qi_name z → ¬ reused log n →
  (∀ m o, snapshot log j !! m = Some o → rival o y → active o → ¬ reused log m → older y o = true) →
  older y z = true.
Proof.
  intros Hlog Hj Ha Hz Hact Hsib Hu -> Hnew Hall. rewrite <-snapshot_now in Hz.
  destruct (persists log j j (length log) (qi_name z) a z) as (c & Hc & _ & Hc2); try done.
  assert (same c z) as Hs.
  { apply (same_uid log); [done|by apply snapshot_elem in Hc as []|by apply snapshot_elem in Hz as []|].
    by simplify_eq. }
  rewrite <-(older_same y y c z) by done.
  assert (rival c y) as Hr by by apply (rival_same z c y y).
  eapply Hall; [exact Hc|exact Hr| |done]. apply Hc2; [|done]. simplify_eq. apply Hr.
Qed.

Lemma tickets_ordered log y1 y2 j1 j2 :
  log_ok log → replay log !! qi_name y1 = Some y1 → replay log !! qi_name y2 = Some y2 →
  ¬ reused log (qi_name y1) → ¬ reused log (qi_name y2) →
  active y1 → active y2 → rival y1 y2 →
  j1 ≤ j2 → ticket_at log j1 y1 → ticket_at log j2 y2 → overtakes log y2 y1.
Proof.
  intros Hlog Hy1 Hy2 Hn1 Hn2 Hr1 Hr2 Hriv Hj12 [Hj1 (a1 & Ha1 & Hs1) Hall1] [Hj2 _ Hall2].
  assert (older y2 y1 = true) as H21.
  { assert (Hy := Hy1). rewrite <-snapshot_now in Hy.
    destruct (persists log j1 j2 (length log) (qi_name y1) a1 y1) as (c & Hc & Hsc & _); try done.
    { apply Hs1. }
    apply (ticket_oldest_now log j2 (qi_name y1) y2 y1 c); try done.
    destruct Hsc as (_ & <- & _). apply Hs1. }
  split; [|done]. exists j1. split.
  { exists a1. split; [by apply replay_elem in Ha1 as []|apply Hs1]. }
  intros c Hc Hu. destruct (not_back log j1 (qi_name y2) c y2) as (b & Hb & Hub); [done..|].
  assert (older y1 y2 = true) as H12; [|by rewrite (older_asym _ _ H12) in H21].
  by eapply (ticket_oldest_now log j1); eauto using rival_sym.
Qed.

(** Two siblings with tickets that are active at once were not created in the order of the queue. *)
Lemma tickets_exclusive log n1 n2 y1 y2 :
  log_ok log → replay log !! n1 = Some y1 → replay log !! n2 = Some y2 →
  ¬ reused log n1 → ¬ reused log n2 →
  active y1 → active y2 → rival y1 y2 → ticket log y1 → ticket log y2 →
  overtakes log y2 y1 ∨ overtakes log y1 y2.
Proof.
  intros Hlog Hy1 Hy2 Hu1 Hu2 Hr1 Hr2 Hriv (j1 & Ht1) (j2 & Ht2).
  assert (qi_name y1 = n1 ∧ qi_name y2 = n2) as [<- <-] by (split; by eapply replay_elem).
  destruct (decide (j1 ≤ j2)).
  - left. by eapply (tickets_ordered log y1 y2 j1 j2).
  - right. eapply (tickets_ordered log y2 y1 j2 j1); try done; [by apply rival_sym|lia].
Qed.

(** A start decision on a snapshot, for an object read from that snapshot or an older one, is a
    ticket for the object while it lives. *)
Lemma ticket_new log i0 i1 n u x all :
  log_ok log → i0 ≤ i1 → i1 ≤ length log →
  snapshot log i0 !! n = Some u → replay log !! n = Some x → uid u = uid x →
  (∀ m o, snapshot log i1 !! m = Some o → o ∈ all) →
  may_start (decide_start u all) = true → ticket log x.
Proof.
  intros Hlog Hi Hi1 Hu Hx Hux Hall Hmay. rewrite <-snapshot_now in Hx.
  destruct (persists log i0 i1 (length log) n u x) as (c & Hc & Hsc & _); try done.
  assert (same u x) as Hsux.
  { apply (same_uid log); [done|by apply snapshot_elem in Hu as []|by apply snapshot_elem in Hx as []|done]. }
  apply snapshot_elem in Hx as [_ Hn]. subst n.
  exists i1. split; [done|exists c; split; [done|by trans u; [symmetry|]]|].
  intros m o Ho Hsib Hact Hnew. rewrite <-(older_same u x o o) by done.
  assert (rival o u) as Hr by by apply (rival_same o o x u).
  assert (sibling o u) as Hsou by (unfold rival, sibling in *; naive_solver).
  pose proof (proj1 (decide_start_true u all) Hmay o (Hall m o Ho)) as Hnb.
  unfold blocks in Hnb. destruct (older_total o u) as [Hold|]; [apply Hsou| |done].
  exfalso. apply Hnb. apply snapshot_elem in Ho as [Ho <-].
  destruct (log_typed log o Hlog Ho) as [Ht|Hsw]; [|by destruct Hnew; apply switched_reused].
  destruct (Ht (proj1 (proj2 (proj2 Hr)))) as [|[|]]; [done|auto..].
Qed.
End Log.
