(* ===== verification/UpgradeQueue.v ===== *)
(** * The upgrade queue (internal/controller/odooupgrade_queue.go)

    The loop of [upgradeDecideStart] as the code has it, and its theorems through the queue
    interface of [Queue]. *)
From S2P Require Export Queue.

Open Scope Z_scope.

(** [upgradeQueueDecision] *)
Record upgradeQueueDecision := { uq_MayStart : bool; uq_BlockedBy : string }.

(** Orders upgrades by creation time, breaking ties by name. *)
Definition upgradeOlder (a b : OdooUpgrade) : bool :=
  if negb (m_CreationTimestamp (up_Meta a) =? m_CreationTimestamp (up_Meta b))
  then m_CreationTimestamp (up_Meta a) <? m_CreationTimestamp (up_Meta b)
  else str_lt (m_Name (up_Meta a)) (m_Name (up_Meta b)).

(** The body of the loop over [all], from the first remaining element. *)
Fixpoint upgradeDecideLoop (candidate : OdooUpgrade) (instance : string)
    (all : list OdooUpgrade) : upgradeQueueDecision :=
  match all with
  | [] => {| uq_MayStart := true; uq_BlockedBy := "" |}
  | other :: rest =>
      if String.eqb (m_Name (up_Meta other)) (m_Name (up_Meta candidate)) ||
         negb (String.eqb (ref_Name (us_InstanceRef (up_Spec other))) instance)
      then upgradeDecideLoop candidate instance rest
      else
        let phase := ust_Phase (up_Status other) in
        if String.eqb phase UpgradePhaseRunning
        then {| uq_MayStart := false; uq_BlockedBy := m_Name (up_Meta other) |}
        else if String.eqb phase "" || String.eqb phase UpgradePhasePending then
          if upgradeOlder other candidate
          then {| uq_MayStart := false; uq_BlockedBy := m_Name (up_Meta other) |}
          else upgradeDecideLoop candidate instance rest
        else upgradeDecideLoop candidate instance rest
  end.

Definition upgradeDecideStart (candidate : OdooUpgrade) (all : list OdooUpgrade) : upgradeQueueDecision :=
  upgradeDecideLoop candidate (ref_Name (us_InstanceRef (up_Spec candidate))) all.

(** ** The queue interface *)
#[export] Instance upgrade_item : QueueItem OdooUpgrade := {
  qi_name u := m_Name (up_Meta u);
  qi_created u := m_CreationTimestamp (up_Meta u);
  qi_group u := ref_Name (us_InstanceRef (up_Spec u));
  qi_phase u := ust_Phase (up_Status u);
  qi_ignored _ := false
}.

Lemma upgradeDecideStart_decides c all :
  uq_MayStart (upgradeDecideStart c all) = may_start (decide_start c all) ∧
  uq_BlockedBy (upgradeDecideStart c all) = blocked_by (decide_start c all).
Proof.
  unfold upgradeDecideStart. induction all as [|o all IH]; [done|].
  cbn [upgradeDecideLoop decide_start]. unfold blocksb. cbn [qi_name qi_group qi_ignored qi_phase upgrade_item].
  change (upgradeOlder o c) with (older o c).
  destruct (String.eqb (m_Name _) _); [exact IH|].
  destruct (String.eqb (ref_Name _) _); [|exact IH].
  unfold UpgradePhaseRunning, UpgradePhasePending.
  destruct (String.eqb (ust_Phase _) "Running"); [done|].
  destruct (String.eqb (ust_Phase _) "" || String.eqb (ust_Phase _) "Pending"); [|exact IH].
  by destruct (older o c).
Qed.

(** [upgradeDecideStart] through the propositions of the interface. *)
Lemma upgradeDecideStart_may c all :
  uq_MayStart (upgradeDecideStart c all) = true ↔ ∀ o, o ∈ all → ¬ blocks o c.
Proof. rewrite (proj1 (upgradeDecideStart_decides c all)). apply decide_start_true. Qed.

(** ** Properties *)

(** Functional specification of the upgrade queue. The candidate may start exactly when no
    other upgrade of the same instance is Running and none that waits (no phase yet, or Pending)
    is older by creation time and then name; terminal upgrades and upgrades of other instances
    never block. When it may not start, the decision names an upgrade that does block it. *)
Theorem upgradeDecideStart_spec c all :
  (uq_MayStart (upgradeDecideStart c all) = true ↔
   ∀ o, o ∈ all → m_Name (up_Meta o) ≠ m_Name (up_Meta c) →
     ref_Name (us_InstanceRef (up_Spec o)) = ref_Name (us_InstanceRef (up_Spec c)) →
     ust_Phase (up_Status o) ≠ UpgradePhaseRunning ∧
     (ust_Phase (up_Status o) = "" ∨ ust_Phase (up_Status o) = UpgradePhasePending →
      upgradeOlder o c = false)) ∧
  (uq_MayStart (upgradeDecideStart c all) = false →
   ∃ o, o ∈ all ∧ blocks o c ∧ uq_BlockedBy (upgradeDecideStart c all) = m_Name (up_Meta o)).
Proof.
  split.
  - rewrite upgradeDecideStart_may. unfold blocks, sibling, running, waiting.
    cbn [qi_name qi_group qi_phase qi_ignored upgrade_item]. change (older ?a ?b) with (upgradeOlder a b).
    unfold UpgradePhaseRunning, UpgradePhasePending. split; intros Hall o Ho.
    + intros Hne Hg. specialize (Hall o Ho). destruct (upgradeOlder o c); naive_solver.
    + intros ((Hne & Hg & _) & Hb). specialize (Hall o Ho Hne Hg). naive_solver congruence.
  - rewrite (proj1 (upgradeDecideStart_decides c all)), (proj2 (upgradeDecideStart_decides c all)).
    intros (o & ? & ? & ->)%decide_start_blocker. by exists o.
Qed.

(** Mutual exclusion of the upgrade queue. Two different waiting upgrades of one instance,
    judged against the same list, are never both allowed to start. *)
Theorem upgradeDecideStart_exclusive a b all :
  a ∈ all → b ∈ all → m_Name (up_Meta a) ≠ m_Name (up_Meta b) →
  ref_Name (us_InstanceRef (up_Spec a)) = ref_Name (us_InstanceRef (up_Spec b)) →
  waiting a → waiting b →
  ¬ (uq_MayStart (upgradeDecideStart a all) = true ∧ uq_MayStart (upgradeDecideStart b all) = true).
Proof.
  intros Ha Hb Hne Hg Hwa Hwb. rewrite !(proj1 (upgradeDecideStart_decides _ _)). intros [??].
  eapply (waiting_exclusive a b); unfold sibling; cbn; eauto.
Qed.

(** Progress of the upgrade queue. When no upgrade of the instance is Running and some
    upgrade of it waits, one of the waiting upgrades is allowed to start: the queue never
    deadlocks. *)
Theorem upgradeDecideStart_progress c all :
  (∀ o, o ∈ all → ref_Name (us_InstanceRef (up_Spec o)) = ref_Name (us_InstanceRef (up_Spec c)) →
     ust_Phase (up_Status o) ≠ UpgradePhaseRunning) →
  c ∈ all → waiting c →
  ∃ w, w ∈ all ∧ waiting w ∧
    ref_Name (us_InstanceRef (up_Spec w)) = ref_Name (us_InstanceRef (up_Spec c)) ∧
    uq_MayStart (upgradeDecideStart w all) = true.
Proof.
  intros Hrun Hc Hw. destruct (waiting_progress all c) as (w & ? & ? & ? & ? & ?);
    [by intros o ? ? _; apply Hrun|done..|].
  exists w. by rewrite (proj1 (upgradeDecideStart_decides _ _)).
Qed.

(** *** Witnesses *)
Definition queue_upgrade (name instance phase : string) (created : Time) : OdooUpgrade :=
  {| up_Meta := {| m_Name := name; m_Namespace := "shop"; m_UID := name; m_ResourceVersion := "1";
       m_Generation := 1; m_CreationTimestamp := created; m_DeletionTimestamp := None; m_Labels := ∅;
       m_Annotations := ∅; m_OwnerReferences := []; m_Finalizers := [] |};
     up_Spec := {| us_InstanceRef := {| ref_Name := instance; ref_Namespace := "" |};
       us_Modules := ["sale"]; us_InstallModules := []; us_Database := "";
       us_TimeoutSeconds := None; us_WithDemo := false; us_AdminUserPasswordSecret := "" |};
     up_Status := {| ust_Phase := phase; ust_JobName := ""; ust_Message := ""; ust_StartTime := None;
       ust_CompletionTime := None; ust_ObservedGeneration := 0; ust_Conditions := [] |} |}.

Definition queue_upgrades : list OdooUpgrade :=
  [queue_upgrade "b" "shop" "Pending" 10; queue_upgrade "a" "shop" "" 10;
   queue_upgrade "c" "shop" "Succeeded" 1; queue_upgrade "d" "other" "Running" 1].

Lemma upgradeDecideStart_spec_witness :
  uq_MayStart (upgradeDecideStart (queue_upgrade "b" "shop" "Pending" 10) queue_upgrades) = false ∧
  ∃ o, o ∈ queue_upgrades ∧ blocks o (queue_upgrade "b" "shop" "Pending" 10) ∧
    uq_BlockedBy (upgradeDecideStart (queue_upgrade "b" "shop" "Pending" 10) queue_upgrades) = m_Name (up_Meta o).
Proof. split; [done|]. by apply upgradeDecideStart_spec. Defined.

Lemma upgradeDecideStart_exclusive_witness :
  ¬ (uq_MayStart (upgradeDecideStart (queue_upgrade "b" "shop" "Pending" 10) queue_upgrades) = true ∧
     uq_MayStart (upgradeDecideStart (queue_upgrade "a" "shop" "" 10) queue_upgrades) = true).
Proof.
  apply upgradeDecideStart_exclusive; [|by repeat constructor|done|done|by right|by left].
  by constructor.
Defined.

Lemma upgradeDecideStart_progress_witness :
  ∃ w, w ∈ queue_upgrades ∧ waiting w ∧ ref_Name (us_InstanceRef (up_Spec w)) = "shop" ∧
    uq_MayStart (upgradeDecideStart w queue_upgrades) = true.
Proof.
  apply (upgradeDecideStart_progress (queue_upgrade "b" "shop" "Pending" 10));
    [|by constructor|by right].
  apply (Forall_forall (λ o, ref_Name (us_InstanceRef (up_Spec o)) = "shop" →
    ust_Phase (up_Status o) ≠ UpgradePhaseRunning)). by repeat constructor.
Defined.

Close Scope Z_scope.
