(* ===== verification/BackupQueue.v ===== *)
(** * The backup queue (internal/controller/odoobackup_queue.go)

    One-shot backups of an instance run one at a time; scheduled backups (a non-empty
    [spec.schedule]) are not part of the queue. *)
From S2P Require Export Queue.

Open Scope Z_scope.

(** [backupQueueDecision] *)
Record backupQueueDecision := { bq_MayStart : bool; bq_BlockedBy : string }.

(** Orders backups by creation time, breaking ties by name. *)
Definition backupOlder (a b : OdooBackup) : bool :=
  if negb (m_CreationTimestamp (bk_Meta a) =? m_CreationTimestamp (bk_Meta b))
  then m_CreationTimestamp (bk_Meta a) <? m_CreationTimestamp (bk_Meta b)
  else str_lt (m_Name (bk_Meta a)) (m_Name (bk_Meta b)).

(** The body of the loop over [all], from the first remaining element. *)
Fixpoint backupDecideLoop (candidate : OdooBackup) (instance : string)
    (all : list OdooBackup) : backupQueueDecision :=
  match all with
  | [] => {| bq_MayStart := true; bq_BlockedBy := "" |}
  | other :: rest =>
      if String.eqb (m_Name (bk_Meta other)) (m_Name (bk_Meta candidate)) ||
         negb (String.eqb (ref_Name (bs_InstanceRef (bk_Spec other))) instance) ||
         negb (String.eqb (bs_Schedule (bk_Spec other)) "")
      then backupDecideLoop candidate instance rest
      else
        let phase := bst_Phase (bk_Status other) in
        if String.eqb phase BackupPhaseRunning
        then {| bq_MayStart := false; bq_BlockedBy := m_Name (bk_Meta other) |}
        else if String.eqb phase "" || String.eqb phase BackupPhasePending then
          if backupOlder other candidate
          then {| bq_MayStart := false; bq_BlockedBy := m_Name (bk_Meta other) |}
          else backupDecideLoop candidate instance rest
        else backupDecideLoop candidate instance rest
  end.

Definition backupDecideStart (candidate : OdooBackup) (all : list OdooBackup) : backupQueueDecision :=
  backupDecideLoop candidate (ref_Name (bs_InstanceRef (bk_Spec candidate))) all.

(** ** The queue interface *)
#[export] Instance backup_item : QueueItem OdooBackup := {
  qi_name b := m_Name (bk_Meta b);
  qi_created b := m_CreationTimestamp (bk_Meta b);
  qi_group b := ref_Name (bs_InstanceRef (bk_Spec b));
  qi_phase b := bst_Phase (bk_Status b);
  qi_ignored b := negb (String.eqb (bs_Schedule (bk_Spec b)) "")
}.

(** The loop computes the interface's decision, the reported blocker included. *)
Lemma backupDecideStart_decides c all :
  bq_MayStart (backupDecideStart c all) = may_start (decide_start c all) ∧
  bq_BlockedBy (backupDecideStart c all) = blocked_by (decide_start c all).
Proof.
  unfold backupDecideStart. induction all as [|o all IH]; [done|].
  cbn [backupDecideLoop decide_start]. unfold blocksb.
  cbn [qi_name qi_group qi_ignored qi_phase backup_item].
  change (backupOlder o c) with (older o c).
  destruct (String.eqb (m_Name _) _); [exact IH|].
  destruct (String.eqb (ref_Name _) _); [|exact IH].
  destruct (String.eqb (bs_Schedule _) ""); [|exact IH].
  unfold BackupPhaseRunning, BackupPhasePending.
  destruct (String.eqb (bst_Phase _) "Running"); [done|].
  destruct (String.eqb (bst_Phase _) "" || String.eqb (bst_Phase _) "Pending"); [|exact IH].
  by destruct (older o c).
Qed.

Lemma backupDecideStart_may c all :
  bq_MayStart (backupDecideStart c all) = true ↔ ∀ o, o ∈ all → ¬ blocks o c.
Proof. rewrite (proj1 (backupDecideStart_decides c all)). apply decide_start_true. Qed.

(** ** Properties *)
Definition oneshot (b : OdooBackup) : Prop := bs_Schedule (bk_Spec b) = "".

Lemma oneshot_ignored b : oneshot b ↔ qi_ignored b = false.
Proof. unfold oneshot. cbn. rewrite negb_false_iff, String.eqb_eq. done. Qed.

(** Functional specification of the backup queue. A one-shot backup may start exactly when
    no other one-shot backup of the same instance is Running and none that waits is older;
    scheduled backups never block, whatever their phase. When it may not start, the decision
    names a backup that blocks it. *)
Lemma backupDecideStart_spec c all :
  (bq_MayStart (backupDecideStart c all) = true ↔
   ∀ o, o ∈ all → m_Name (bk_Meta o) ≠ m_Name (bk_Meta c) →
     ref_Name (bs_InstanceRef (bk_Spec o)) = ref_Name (bs_InstanceRef (bk_Spec c)) → oneshot o →
     bst_Phase (bk_Status o) ≠ BackupPhaseRunning ∧
     (bst_Phase (bk_Status o) = "" ∨ bst_Phase (bk_Status o) = BackupPhasePending →
      backupOlder o c = false)) ∧
  (bq_MayStart (backupDecideStart c all) = false →
   ∃ o, o ∈ all ∧ blocks o c ∧ bq_BlockedBy (backupDecideStart c all) = m_Name (bk_Meta o)).
Proof.
  split.
  - rewrite backupDecideStart_may. unfold blocks, sibling, running, waiting.
    setoid_rewrite <-oneshot_ignored. cbn [qi_name qi_group qi_phase backup_item].
    change (older ?a ?b) with (backupOlder a b).
    unfold BackupPhaseRunning, BackupPhasePending. split; intros Hall o Ho.
    + intros Hne Hg Hs. specialize (Hall o Ho). destruct (backupOlder o c); naive_solver.
    + intros ((Hne & Hg & Hs) & Hb). specialize (Hall o Ho Hne Hg Hs). naive_solver congruence.
  - rewrite (proj1 (backupDecideStart_decides c all)), (proj2 (backupDecideStart_decides c all)).
    intros (o & ? & ? & ->)%decide_start_blocker. by exists o.
Qed.

(** One-shot backups of an instance run one at a time and always get their turn. Two
    different waiting one-shot backups of one instance, judged against the same list, are never
    both allowed to start; and when none of the instance is Running, one of the waiting ones is
    allowed to start. *)
Theorem backupDecideStart_one_at_a_time a all :
  a ∈ all → waiting a → oneshot a →
  (∀ b, b ∈ all → m_Name (bk_Meta a) ≠ m_Name (bk_Meta b) →
     ref_Name (bs_InstanceRef (bk_Spec a)) = ref_Name (bs_InstanceRef (bk_Spec b)) →
     waiting b → oneshot b →
     ¬ (bq_MayStart (backupDecideStart a all) = true ∧
        bq_MayStart (backupDecideStart b all) = true)) ∧
  ((∀ o, o ∈ all → ref_Name (bs_InstanceRef (bk_Spec o)) = ref_Name (bs_InstanceRef (bk_Spec a)) →
      bst_Phase (bk_Status o) ≠ BackupPhaseRunning) →
   ∃ w, w ∈ all ∧ waiting w ∧
     ref_Name (bs_InstanceRef (bk_Spec w)) = ref_Name (bs_InstanceRef (bk_Spec a)) ∧
     bq_MayStart (backupDecideStart w all) = true).
Proof.
  intros Ha Hwa Hsa%oneshot_ignored. split.
  - intros b Hb Hne Hg Hwb Hsb%oneshot_ignored.
    rewrite !(proj1 (backupDecideStart_decides _ _)). intros [??].
    eapply (waiting_exclusive a b); unfold sibling; eauto.
  - intros Hrun. destruct (waiting_progress all a) as (w & ? & ? & ? & ? & ?);
    [by intros o ? ? _; apply Hrun|done..|].
    exists w. by rewrite (proj1 (backupDecideStart_decides _ _)).
Qed.

(** *** Witnesses *)
Definition queue_backup (name schedule phase : string) (created : Time) : OdooBackup :=
  {| bk_Meta := {| m_Name := name; m_Namespace := "shop"; m_UID := name; m_ResourceVersion := "1";
       m_Generation := 1; m_CreationTimestamp := created; m_DeletionTimestamp := None; m_Labels := ∅;
       m_Annotations := ∅; m_OwnerReferences := []; m_Finalizers := [] |};
     bk_Spec := {| bs_InstanceRef := {| ref_Name := "shop"; ref_Namespace := "" |};
       bs_Database := ""; bs_IncludeFilestore := None;
       bs_Destination := {| bd_PVC := Some {| bp_ClaimName := "backups"; bp_SubPath := "" |};
                            bd_S3 := None |};
       bs_Retention := None; bs_ScratchSize := ""; bs_TimeoutSeconds := None;
       bs_Schedule := schedule; bs_Suspend := false |};
     bk_Status := {| bst_Phase := phase; bst_JobName := ""; bst_CronJobName := "";
       bst_StartTime := None; bst_CompletionTime := None; bst_LastScheduleTime := None;
       bst_LastSuccessfulTime := None; bst_LastBackup := ""; bst_Message := "";
       bst_ObservedGeneration := 0; bst_Conditions := [] |} |}.

Definition queue_backups : list OdooBackup :=
  [queue_backup "nightly" "0 3 * * *" "Running" 1; queue_backup "b" "" "Pending" 10;
   queue_backup "a" "" "" 10].

Lemma backupDecideStart_spec_witness :
  ∃ o, o ∈ queue_backups ∧ blocks o (queue_backup "b" "" "Pending" 10) ∧
    bq_BlockedBy (backupDecideStart (queue_backup "b" "" "Pending" 10) queue_backups) = m_Name (bk_Meta o).
Proof. by apply backupDecideStart_spec. Defined.

Lemma backupDecideStart_one_at_a_time_witness :
  ¬ (bq_MayStart (backupDecideStart (queue_backup "b" "" "Pending" 10) queue_backups) = true ∧
     bq_MayStart (backupDecideStart (queue_backup "a" "" "" 10) queue_backups) = true).
Proof.
  apply backupDecideStart_one_at_a_time; [by repeat constructor|by right|done|by repeat constructor
    |done|done|by left|done].
Defined.

Close Scope Z_scope.
