(* ===== verification/Constants.v ===== *)
(** * Names, labels and intervals of the controllers

    The constants of internal/controller that more than one component uses: constants.go,
    odooinstance_constants.go, and the phases and intervals of the addon, instance and upgrade
    controllers. Durations are in nanoseconds, as in Go. *)
From S2P Require Export Api.

Open Scope Z_scope.

(** ** constants.go *)
Definition labelApp : string := "app".
Definition labelInstance : string := "instance".
Definition appOdoo : string := "odoo".
Definition volumeAddons : string := "addons".
Definition volumeData : string := "data".
Definition volumeConfig : string := "odoo-config".

(** ** odooinstance_constants.go *)
Definition labelAppName : string := "app.kubernetes.io/name".
Definition labelAppInstance : string := "app.kubernetes.io/instance".
Definition labelManagedBy : string := "app.kubernetes.io/managed-by".
Definition managedByOperator : string := "odoo-k8-operator".
Definition annotationConfigHash : string := "odoo.operator.io/config-hash".
Definition annotationSecretsHash : string := "odoo.operator.io/secrets-hash".
Definition annotationAddonsHash : string := "odoo.operator.io/addons-hash".
Definition secretKeyPassword : string := "password".
Definition envPGPassword : string := "PGPASSWORD".
Definition envDBPassword : string := "DB_PASSWORD".
Definition envPGSSLMode : string := "PGSSLMODE".
Definition envAdminPasswd : string := "ODOO_ADMIN_PASSWD".
Definition sslModeRequire : string := "require".
Definition portOdoo : Z := 8069.
Definition portLongpolling : Z := 8072.
Definition portNameOdoo : string := "odoo".
Definition portNameLongpolling : string := "longpolling".
Definition healthPath : string := "/web/health".
Definition volumeTmp : string := "tmp".
Definition mountPathTmp : string := "/tmp".
Definition mountPathConfig : string := "/etc/odoo".
Definition mountPathData : string := "/var/lib/odoo".
Definition confFileName : string := "odoo.conf".
Definition odooConfPath : string := mountPathConfig +:+ "/" +:+ confFileName.
Definition containerRenderConfig : string := "render-config".
Definition volumeRendered : string := "odoo-rendered".
Definition mountPathRendered : string := "/run/odoo-conf".
Definition renderedConfPath : string := mountPathRendered +:+ "/" +:+ confFileName.
Definition renderedSizeLimit : string := "1Mi".
Definition renderRequestCPU : string := "10m".
Definition renderRequestMemory : string := "16Mi".
Definition renderLimitCPU : string := "100m".
Definition renderLimitMemory : string := "64Mi".
Definition confKeyAddonsPath : string := "addons_path".
Definition confKeyProxyMode : string := "proxy_mode".
Definition confKeyListDB : string := "list_db".
Definition confKeyMaxCronThreads : string := "max_cron_threads".
Definition valueNoCronThreads : string := "0".
Definition valueTrue : string := "True".
Definition valueFalse : string := "False".
Definition suffixConfigMap : string := "-config".
Definition suffixAddonsPVC : string := "-addons".
Definition suffixDataPVC : string := "-data".
Definition defaultAddonsSize : string := "10Gi".
Definition defaultDataSize : string := "5Gi".
Definition odooUID : Z := 100.
Definition terminationGraceSecs : Z := 60.

(** ** odooaddon_controller.go *)
Definition finalizerOdooAddon : string := "odoo.operator.io/addon-finalizer".
Definition addonsMountPath : string := "/mnt/odoo/addons".
Definition phaseFailed : string := "Failed".
Definition phasePending : string := "Pending".
Definition phaseSynced : string := "Synced".
Definition phaseSyncing : string := "Syncing".
Definition resyncInterval : Z := 5 * Minute.
Definition failureBackoff : Z := 30 * Second.
Definition pendingRequeue : Z := 10 * Second.
Definition addonCleanupRequeue : Z := 5 * Second.
Definition cleanupTimeout : Z := 3 * Minute.
Definition batchControllerUIDLabel : string := "batch.kubernetes.io/controller-uid".
Definition addonLogTailBytes : nat := 2000.
Definition addonLogReadLimit : N := 2 ^ 20.
Definition addonMsgLogHeader : string := nl +:+ "--- last log lines ---" +:+ nl.

(** ** odooinstance_controller.go *)
Definition finalizerOdooInstance : string := "odoo.operator.io/instance-finalizer".
Definition defaultOdooImage : string := "odoo:19.0".
Definition phaseCreating : string := "Creating".
Definition phaseRunning : string := "Running".
Definition phaseFailing : string := "Failed".

(** ** odooinstance_gate.go *)
Definition gatePhaseUpgrading : string := "Upgrading".
Definition gatePhaseUpgradeFailed : string := "UpgradeFailed".
Definition gateLabelInstance : string := "odoo.operator.io/instance".
Definition gateUpgradeInfix : string := "-upg-".
Definition gateHashPrefixLen : nat := 8.
Definition gateMaxNameLen : nat := 63.
Definition gateFailedRequeue : Z := 60 * Second.

(** ** odooinstance_init.go *)
Definition phaseInitializing : string := "Initializing".
Definition phaseInitFailed : string := "InitializationFailed".
Definition initUpgradeSuffix : string := "-init".
Definition initFailedRequeue : Z := 60 * Second.
Definition initMsgFailedDefault : string := "initialisation failed".

(** ** odooaddon_state.go *)
Definition addonStaleJobRequeue : Z := 2 * Second.
Definition addonCreateRequeue : Z := 5 * Second.
Definition addonAwaitRequeue : Z := 30 * Second.
Definition addonMsgJobConflict : string := "job name conflict".

(** ** odooupgrade_job.go: the odoo command line *)
Definition upgradeAllModules : string := "all".
Definition upgradeFlagDB : string := "-d".
Definition upgradeFlagUpdate : string := "-u".
Definition upgradeFlagInstall : string := "-i".
Definition upgradeFlagStop : string := "--stop-after-init".
Definition upgradeFlagNoHTTP : string := "--no-http".
Definition upgradeFlagConfig : string := "--config".
Definition upgradeFlagNoDemo : string := "--without-demo=True".
Definition upgradeSubcmdShell : string := "shell".
Definition upgradeShellPath : string := "/bin/sh".
Definition upgradeShellFlag : string := "-c".

Close Scope Z_scope.
