(* ===== verification/Conditions.v ===== *)
(** * Status conditions (internal/controller/conditions.go)

    The pure maps from reconciler facts to conditions, and [setConditions], which merges them
    into a status through the library's [SetStatusCondition]. *)
From S2P Require Export Constants.

Open Scope Z_scope.

(** ** Facts *)
Record statusEvent := {
  se_Type : string;
  se_Reason : string;
  se_Action : string;
  se_Message : string;
  se_RelatedUpgrade : string
}.

Record instanceCondFacts := {
  f_Phase : string;
  f_DeploymentFound : bool;
  f_ReadyReplicas : Z;
  f_DesiredReplicas : Z;
  f_ActiveUpgrade : string;
  f_UpgradeMessage : string;
  f_InitUpgrade : string;
  f_InitMessage : string;
  f_ErrReason : string;
  f_ErrMessage : string
}.

(** [cronOutcome] (odooinstance_cron.go) *)
Record cronOutcome := {
  cron_enabled : bool;
  cron_deployFound : bool;
  cron_held : bool;
  cron_replicas : Z;
  cron_ready : Z;
  cron_events : list statusEvent
}.

(** ** Building and merging conditions *)
Definition condTrue : string := ConditionTrue.
Definition condFalse : string := ConditionFalse.
Definition condUnknown : string := ConditionUnknown.
Definition shortIDLen : nat := 12.

Definition newCondition (condType status reason message : string) : Condition :=
  {| c_Type := condType; c_Status := status; c_ObservedGeneration := 0; c_LastTransitionTime := 0;
     c_Reason := reason; c_Message := message |}.

(** [c.ObservedGeneration = gen] *)
Definition stamp (gen : Z) (c : Condition) : Condition :=
  {| c_Type := c_Type c; c_Status := c_Status c; c_ObservedGeneration := gen;
     c_LastTransitionTime := c_LastTransitionTime c; c_Reason := c_Reason c;
     c_Message := c_Message c |}.

Definition setConditions `{KubeLib} (now : Time) (conds : list Condition) (gen : Z)
    (want : list Condition) : list Condition :=
  foldl (λ cs c, SetStatusCondition now cs (stamp gen c)) conds want.

(** [withReason] on a non-nil error; a nil error stays nil. *)
Definition withReason {A} (reason : string) (r : res A) : res A :=
  match r with Ok a => Ok a | Err e => Err (ReasonError reason e) end.

(** [errors.As(err, &re)] for [reasonError]: the first one of the unwrap chain. *)
Fixpoint as_reason (e : error) : option string :=
  match e with
  | ReasonError reason _ => Some reason
  | WrapError _ e => as_reason e
  | ErrorString _ | StatusError _ _ => None
  end.

Definition reconcileErrorReason (err : error) : string :=
  match as_reason err with Some reason => reason | None => ReasonReconcileError end.

Definition shortID (id : string) : string :=
  if (shortIDLen <? len id)%nat then str_take shortIDLen id else id.

Section Conditions.
Context `{Unicode}.

Definition cond_healthy : Condition :=
  newCondition ConditionTypeDegraded condFalse ReasonAsExpected "no reconcile errors".

Definition cond_replicas (f : instanceCondFacts) : string :=
  Itoa (f_ReadyReplicas f) +:+ "/" +:+ Itoa (f_DesiredReplicas f) +:+ " replicas ready".

(** The closure [readyCond]. *)
Definition readyCond (f : instanceCondFacts) : Condition :=
  if f_DeploymentFound f && (f_DesiredReplicas f <=? f_ReadyReplicas f)
  then newCondition ConditionTypeReady condTrue ReasonAllReplicasReady (cond_replicas f)
  else newCondition ConditionTypeReady condFalse ReasonDeploymentNotReady
         (if negb (f_DeploymentFound f) then "Deployment not created yet"
          else "waiting for pods: " +:+ cond_replicas f).

Definition instanceConditions (f : instanceCondFacts) : list Condition :=
  if negb (String.eqb (f_ErrMessage f) "") then
    let reason := if String.eqb (f_ErrReason f) "" then ReasonReconcileError else f_ErrReason f in
    [ newCondition ConditionTypeReady condFalse reason (f_ErrMessage f);
      newCondition ConditionTypeProgressing condFalse ReasonReconcileError
        "reconcile stopped by an error; it is retried";
      newCondition ConditionTypeDegraded condTrue reason (f_ErrMessage f) ]
  else if String.eqb (f_Phase f) phaseRunning then
    [ newCondition ConditionTypeReady condTrue ReasonAllReplicasReady (cond_replicas f);
      newCondition ConditionTypeProgressing condFalse ReasonReconciled "no rollout in progress";
      cond_healthy ]
  else if String.eqb (f_Phase f) gatePhaseUpgrading then
    [ readyCond f;
      newCondition ConditionTypeProgressing condTrue ReasonUpgrading
        ("OdooUpgrade " +:+ Quote (f_ActiveUpgrade f) +:+
         " is running; pods stay on the previous addons revision");
      cond_healthy ]
  else if String.eqb (f_Phase f) phaseInitializing then
    [ newCondition ConditionTypeReady condFalse ReasonInitializing
        ("OdooUpgrade " +:+ Quote (f_InitUpgrade f) +:+
         " is initialising the database; pods stay at 0 replicas");
      newCondition ConditionTypeProgressing condTrue ReasonInitializing
        "database initialisation is running";
      cond_healthy ]
  else if String.eqb (f_Phase f) phaseInitFailed then
    let detail := if String.eqb (f_InitMessage f) "" then initMsgFailedDefault else f_InitMessage f in
    let msg := "OdooUpgrade " +:+ Quote (f_InitUpgrade f) +:+
               " failed; pods stay at 0 replicas: " +:+ detail in
    [ newCondition ConditionTypeReady condFalse ReasonInitializationFailed msg;
      newCondition ConditionTypeProgressing condFalse ReasonInitializationFailed
        "initialisation stopped; delete the failed OdooUpgrade to retry";
      newCondition ConditionTypeDegraded condTrue ReasonInitializationFailed msg ]
  else if String.eqb (f_Phase f) gatePhaseUpgradeFailed then
    let msg0 := "OdooUpgrade " +:+ Quote (f_ActiveUpgrade f) +:+
                " failed; pods stay on the previous addons revision" in
    let msg := if String.eqb (f_UpgradeMessage f) "" then msg0
               else msg0 +:+ ": " +:+ f_UpgradeMessage f in
    [ newCondition ConditionTypeReady condFalse ReasonUpgradeFailed msg;
      newCondition ConditionTypeProgressing condFalse ReasonUpgradeFailed
        "rollout held until the upgrade is fixed";
      newCondition ConditionTypeDegraded condTrue ReasonUpgradeFailed msg ]
  else
    [ readyCond f;
      newCondition ConditionTypeProgressing condTrue ReasonReconciling "rolling out the Deployment";
      cond_healthy ].

Definition cronCondition (cron : cronOutcome) : Condition :=
  if negb (cron_deployFound cron) then
    newCondition ConditionTypeCronReady condFalse ReasonCronPending "cron Deployment not created yet"
  else if (cron_replicas cron =? 0) && cron_held cron then
    newCondition ConditionTypeCronReady condFalse ReasonCronPending
      "no cron pod yet; pods stay at 0 replicas while the database is initialised"
  else if cron_replicas cron =? 0 then
    newCondition ConditionTypeCronReady condFalse ReasonCronPending
      "no cron pod yet; with ReadWriteOnce volumes it starts once a web pod runs on the same node"
  else if cron_ready cron <? 1 then
    newCondition ConditionTypeCronReady condFalse ReasonCronNotReady
      ("cron pod not ready: " +:+ Itoa (cron_ready cron) +:+ "/" +:+ Itoa (cron_replicas cron) +:+
       " replicas ready")
  else newCondition ConditionTypeCronReady condTrue ReasonCronRunning "cron pod ready".

(** ** Reading conditions back *)
Definition instanceSummary `{KubeLib} (conds : list Condition) : string :=
  let ready :=
    match FindStatusCondition conds ConditionTypeReady with
    | Some c => if negb (String.eqb (c_Status c) condTrue) then c_Message c else ""
    | None => ""
    end in
  match FindStatusCondition conds ConditionTypeDegraded with
  | Some c => if String.eqb (c_Status c) condTrue then c_Message c else ready
  | None => ready
  end.

Definition keptReasonMessage `{KubeLib} (conds : list Condition) : string * string :=
  match FindStatusCondition conds ConditionTypeReady with
  | None => ("", "")
  | Some c => (c_Reason c, c_Message c)
  end.

Definition addonModuleConflictMarker : string := "is already provided by addon".

Definition addonFailureReason (logs : string) : string :=
  if Contains logs addonModuleConflictMarker then ReasonModuleConflict else ReasonSyncFailed.

Definition cond_no_sync_errors : Condition :=
  newCondition ConditionTypeDegraded condFalse ReasonAsExpected "no sync errors".

Definition addonConditions (st : OdooAddonStatus) (reason msg : string) : list Condition :=
  if String.eqb (ads_Phase st) phaseSynced then
    [ newCondition ConditionTypeReady condTrue ReasonSynced
        ("synced commit " +:+ shortID (ads_ClonedCommit st) +:+ " with " +:+
         Itoa (Z.of_nat (length (ads_Modules st))) +:+ " module(s)");
      newCondition ConditionTypeProgressing condFalse ReasonSynced "no sync in progress";
      cond_no_sync_errors ]
  else if String.eqb (ads_Phase st) phaseSyncing then
    [ newCondition ConditionTypeReady condFalse ReasonSyncing "waiting for the sync Job";
      newCondition ConditionTypeProgressing condTrue ReasonSyncing "sync Job is running";
      cond_no_sync_errors ]
  else if String.eqb (ads_Phase st) phaseFailed then
    let reason := if String.eqb reason "" then ReasonSyncFailed else reason in
    let msg := if String.eqb msg "" then ads_Message st else msg in
    [ newCondition ConditionTypeReady condFalse reason msg;
      newCondition ConditionTypeProgressing condFalse reason "not syncing; the operator retries";
      newCondition ConditionTypeDegraded condTrue reason msg ]
  else if String.eqb (ads_Phase st) phasePending then
    let reason := if String.eqb reason "" then ReasonPending else reason in
    let msg := if String.eqb msg "" then "waiting for the instance" else msg in
    [ newCondition ConditionTypeReady condFalse reason msg;
      newCondition ConditionTypeProgressing condFalse ReasonPending msg;
      cond_no_sync_errors ]
  else
    [ newCondition ConditionTypeReady condFalse ReasonPending "not reconciled yet";
      newCondition ConditionTypeProgressing condFalse ReasonPending "not reconciled yet";
      cond_no_sync_errors ].

Definition upgradeConditions (st : OdooUpgradeStatus) (reason : string) : list Condition :=
  if String.eqb (ust_Phase st) UpgradePhaseSucceeded then
    [ newCondition ConditionTypeSucceeded condTrue ReasonComplete "upgrade Job completed";
      newCondition ConditionTypeProgressing condFalse ReasonComplete "upgrade finished" ]
  else if String.eqb (ust_Phase st) UpgradePhaseRunning then
    let msg := "upgrade Job " +:+ ust_JobName st +:+ " is running" in
    [ newCondition ConditionTypeSucceeded condUnknown ReasonRunning msg;
      newCondition ConditionTypeProgressing condTrue ReasonRunning msg ]
  else if String.eqb (ust_Phase st) UpgradePhaseFailed then
    let reason := if String.eqb reason "" then ReasonJobFailed else reason in
    let msg := if String.eqb (ust_Message st) "" then "upgrade failed" else ust_Message st in
    [ newCondition ConditionTypeSucceeded condFalse reason msg;
      newCondition ConditionTypeProgressing condFalse reason "upgrade stopped" ]
  else
    let reason := if String.eqb reason "" then ReasonPending else reason in
    let msg := if String.eqb (ust_Message st) "" then "waiting to start" else ust_Message st in
    [ newCondition ConditionTypeSucceeded condUnknown reason msg;
      newCondition ConditionTypeProgressing condFalse ReasonPending msg ].
End Conditions.

(** ** Merging conditions *)
Section Merging.
Context `{ConditionLaws}.

Lemma setConditions_other now cs gen want t :
  t ∉ c_Type <$> want → FindStatusCondition (setConditions now cs gen want) t = FindStatusCondition cs t.
Proof.
  revert cs. induction want as [|c want IH]; intros cs Ht; [done|].
  rewrite fmap_cons, not_elem_of_cons in Ht. destruct Ht as [Ht Hts].
  unfold setConditions. cbn [foldl]. fold (setConditions now (SetStatusCondition now cs (stamp gen c)) gen want).
  rewrite IH by done. by apply find_set_ne.
Qed.

Lemma setConditions_wanted now cs gen want c :
  NoDup (c_Type <$> want) → c ∈ want →
  ∃ c', FindStatusCondition (setConditions now cs gen want) (c_Type c) = Some c' ∧
    c_Status c' = c_Status c ∧ c_Reason c' = c_Reason c ∧ c_Message c' = c_Message c ∧
    c_ObservedGeneration c' = gen ∧
    (∀ o, FindStatusCondition cs (c_Type c) = Some o → c_Status o = c_Status c →
       c_LastTransitionTime c' = c_LastTransitionTime o).
Proof.
  revert cs. induction want as [|x want IH]; intros cs Hn Hc; [by apply elem_of_nil in Hc|].
  rewrite fmap_cons in Hn. apply NoDup_cons in Hn as [Hx Hn]. unfold setConditions. cbn [foldl].
  fold (setConditions now (SetStatusCondition now cs (stamp gen x)) gen want).
  apply elem_of_cons in Hc as [->|Hc].
  - rewrite setConditions_other by done.
    destruct (find_set_eq now cs (stamp gen x)) as (c' & Hf & _ & Hs & Hr & Hm & Hg & Ht).
    exists c'. split_and!; try done; try (by apply Ht).
  - destruct (IH (SetStatusCondition now cs (stamp gen x)) Hn Hc) as (c' & Hf & ? & ? & ? & ? & Ht).
    exists c'. split_and!; try done. intros o Ho. apply Ht.
    rewrite find_set_ne; [done|]. intros Heq. apply Hx. cbn in Heq. rewrite <-Heq.
    by apply list_elem_of_fmap_2.
Qed.

(** Conditions that already say what is wanted stay as they are. *)
Lemma setConditions_same now cs gen want :
  Forall (λ c, ∃ o, FindStatusCondition cs (c_Type c) = Some o ∧ c_Status o = c_Status c ∧
    c_Reason o = c_Reason c ∧ c_Message o = c_Message c ∧ c_ObservedGeneration o = gen) want →
  setConditions now cs gen want = cs.
Proof.
  induction 1 as [|c want (o & Ho & Hs & Hr & Hm & Hg) _ IH]; [done|].
  unfold setConditions. cbn [foldl]. by rewrite (set_same now cs (stamp gen c) o).
Qed.

Lemma setConditions_again now later cs gen want :
  NoDup (c_Type <$> want) →
  setConditions later (setConditions now cs gen want) gen want = setConditions now cs gen want.
Proof.
  intros Hn. apply setConditions_same, Forall_forall. intros c Hc.
  destruct (setConditions_wanted now cs gen want c Hn Hc) as (c' & ? & ? & ? & ? & ? & _).
  exists c'. by split_and!.
Qed.
End Merging.

Close Scope Z_scope.
