(* ===== verification/Events.v ===== *)
(** * Events for status transitions (internal/controller/events.go)

    The transition functions compare the status before and after a write. [emitEvents] is in
    [Effects], where the recorder is. *)
From S2P Require Export Conditions.

Open Scope Z_scope.

Definition eventReasonReconcileFailed : string := "ReconcileFailed".
Definition eventReasonRolledOut : string := "RolledOut".
Definition eventReasonUpgradeStarted : string := "UpgradeStarted".
Definition eventReasonUpgradeOK : string := "UpgradeSucceeded".
Definition eventReasonUpgradeFailed : string := "UpgradeFailed".
Definition eventReasonSyncStarted : string := "SyncStarted".
Definition eventReasonSyncSucceeded : string := "SyncSucceeded".
Definition eventReasonSyncFailed : string := "SyncFailed".
Definition eventReasonModuleConflict : string := "ModuleConflict".
Definition eventReasonCleanupFailed : string := "CleanupFailed".
Definition eventReasonCleanupTimeout : string := "CleanupTimeout".
Definition eventReasonStarted : string := "Started".
Definition eventReasonSucceeded : string := "Succeeded".
Definition eventReasonFailed : string := "Failed".
Definition eventReasonInitialized : string := "Initialized".
Definition eventReasonInitFailed : string := "InitializationFailed".
Definition eventReasonInitSkipped : string := "InitializationSkipped".
Definition eventActionReconcile : string := "Reconcile".
Definition eventActionSync : string := "Sync".
Definition eventActionCleanup : string := "Cleanup".
Definition eventActionUpgrade : string := "Upgrade".
Definition eventActionInit : string := "Initialize".
Definition eventNoteMax : nat := 1024.

Definition mkEvent (typ reason action message related : string) : statusEvent :=
  {| se_Type := typ; se_Reason := reason; se_Action := action; se_Message := message;
     se_RelatedUpgrade := related |}.

Section Events.
Context `{Unicode} `{KubeLib}.

Definition newlyTrue (before after : list Condition) (typ : string) : option Condition :=
  match FindStatusCondition after typ with
  | None => None
  | Some a =>
      if negb (String.eqb (c_Status a) ConditionTrue) then None
      else match FindStatusCondition before typ with
           | Some b =>
               if String.eqb (c_Status b) ConditionTrue && String.eqb (c_Reason b) (c_Reason a) &&
                  String.eqb (c_Message b) (c_Message a)
               then None else Some a
           | None => Some a
           end
  end.

Definition instanceEvents (before after : OdooInstanceStatus) (succeededUpgrade : string)
    : list statusEvent :=
  match newlyTrue (ist_Conditions before) (ist_Conditions after) ConditionTypeDegraded with
  | Some c =>
      if String.eqb (c_Reason c) ReasonUpgradeFailed then
        [mkEvent EventTypeWarning eventReasonUpgradeFailed eventActionUpgrade (c_Message c)
           (ist_ActiveUpgrade after)]
      else if String.eqb (c_Reason c) ReasonInitializationFailed then
        [mkEvent EventTypeWarning eventReasonInitFailed eventActionInit (c_Message c)
           (ist_InitUpgrade after)]
      else [mkEvent EventTypeWarning eventReasonReconcileFailed eventActionReconcile (c_Message c) ""]
  | None => []
  end ++
  (if negb (String.eqb (ist_ActiveUpgrade after) "") &&
      negb (String.eqb (ist_ActiveUpgrade after) (ist_ActiveUpgrade before))
   then [mkEvent EventTypeNormal eventReasonUpgradeStarted eventActionUpgrade
           ("OdooUpgrade " +:+ Quote (ist_ActiveUpgrade after) +:+
            " started; pods stay on the previous addons revision") (ist_ActiveUpgrade after)]
   else []) ++
  (if negb (String.eqb succeededUpgrade "")
   then [mkEvent EventTypeNormal eventReasonUpgradeOK eventActionUpgrade
           ("OdooUpgrade " +:+ Quote succeededUpgrade +:+
            " succeeded; rolling out the new addons revision") succeededUpgrade]
   else []) ++
  (if negb (String.eqb (ist_AppliedAddonsHash after) "") &&
      negb (String.eqb (ist_AppliedAddonsHash after) (ist_AppliedAddonsHash before))
   then [mkEvent EventTypeNormal eventReasonRolledOut eventActionReconcile
           ("pods rolled out with addons revision " +:+ shortID (ist_AppliedAddonsHash after)) ""]
   else []).

Definition addonEvents (before after : OdooAddonStatus) : list statusEvent :=
  (if String.eqb (ads_Phase after) phaseSyncing && negb (String.eqb (ads_Phase before) phaseSyncing)
   then [mkEvent EventTypeNormal eventReasonSyncStarted eventActionSync "sync Job started" ""]
   else []) ++
  (if String.eqb (ads_Phase after) phaseSynced &&
      (negb (String.eqb (ads_Phase before) phaseSynced) ||
       negb (String.eqb (ads_ClonedCommit before) (ads_ClonedCommit after)))
   then
     let modules := match ads_Modules after with
                    | [] => "none reported" | _ => Join (ads_Modules after) ", " end in
     [mkEvent EventTypeNormal eventReasonSyncSucceeded eventActionSync
        ("synced commit " +:+ shortID (ads_ClonedCommit after) +:+ "; modules: " +:+ modules) ""]
   else []) ++
  match newlyTrue (ads_Conditions before) (ads_Conditions after) ConditionTypeDegraded with
  | Some c =>
      if String.eqb (c_Reason c) ReasonModuleConflict
      then [mkEvent EventTypeWarning eventReasonModuleConflict eventActionSync (c_Message c) ""]
      else [mkEvent EventTypeWarning eventReasonSyncFailed eventActionSync
              (c_Reason c +:+ ": " +:+ c_Message c) ""]
  | None => []
  end.

Definition upgradeEvents (before after : OdooUpgradeStatus) : list statusEvent :=
  (if String.eqb (ust_Phase after) UpgradePhaseRunning &&
      negb (String.eqb (ust_Phase before) UpgradePhaseRunning)
   then [mkEvent EventTypeNormal eventReasonStarted eventActionUpgrade
           ("upgrade Job " +:+ ust_JobName after +:+ " started") ""]
   else []) ++
  (if String.eqb (ust_Phase after) UpgradePhaseSucceeded &&
      negb (String.eqb (ust_Phase before) UpgradePhaseSucceeded)
   then [mkEvent EventTypeNormal eventReasonSucceeded eventActionUpgrade "upgrade Job completed" ""]
   else []) ++
  (if String.eqb (ust_Phase after) UpgradePhaseFailed &&
      negb (String.eqb (ust_Phase before) UpgradePhaseFailed)
   then
     let msg := if String.eqb (ust_Message after) "" then "upgrade failed" else ust_Message after in
     [mkEvent EventTypeWarning eventReasonFailed eventActionUpgrade msg ""]
   else []).
End Events.

(** [clipEventNote] *)
Definition clipEventNote (s : string) : string :=
  if (len s <=? eventNoteMax)%nat then s
  else ToValidUTF8 (str_take (eventNoteMax - 3) s) +:+ "...".

Close Scope Z_scope.
