(* ===== verification/InstanceConfig.v ===== *)
(** * odoo.conf (internal/controller/odooinstance_config.go)

    [renderOdooConf] merges the operator's defaults, [spec.config] and the database settings and
    prints one line per key in sorted order. The theorems read the text back. *)
From S2P Require Export Constants.

Open Scope Z_scope.

Definition blockedConfigKeys (key : string) : bool :=
  String.eqb key "admin_passwd" || String.eqb key "db_password" || String.eqb key "dbfilter".

Definition defaultPostgresPort : Z := 5432.

Definition odooConfDefaults : gmap string string :=
  list_to_map [(confKeyAddonsPath, addonsMountPath); (confKeyProxyMode, valueTrue);
               (confKeyListDB, valueFalse)].

(** [slices.Sorted(maps.Keys(m))] *)
Definition sorted_keys {A} (m : gmap string A) : list string := sort_strings (map_to_list m).*1.

Section Config.
Context `{Unicode}.

Definition checkConfValue (key value : string) : res unit :=
  if ContainsAny value (nl +:+ str1 cr_byte)
  then Err (ErrorString ("config value for key " +:+ Quote key +:+ " contains illegal newline characters"))
  else Ok tt.

(** The loop over the sorted keys of [spec.config]. *)
Fixpoint conf_user (config : gmap string string) (keys : list string)
    (merged : gmap string string) : res (gmap string string) :=
  match keys with
  | [] => Ok merged
  | key :: keys =>
      let value := default "" (config !! key) in
      if blockedConfigKeys key then
        Err (ErrorString ("config key " +:+ Quote key +:+ " is not permitted in spec.config"))
      else if String.eqb key "" || ContainsAny key ("=[]" +:+ nl +:+ str1 cr_byte) then
        Err (ErrorString ("config key " +:+ Quote key +:+ " contains illegal characters"))
      else
        checkConfValue key value ≫= λ _,
        conf_user config keys (<[key := value]> merged)
  end.

(** The block that forces the cron workers of the web pods to zero. *)
Definition conf_cron (spec : OdooInstanceSpec) (merged : gmap string string)
    : res (gmap string string) :=
  match is_Cron spec with
  | Some cron =>
      if cr_Enabled cron then
        match is_Config spec !! confKeyMaxCronThreads with
        | Some _ =>
            Err (ErrorString ("config key " +:+ Quote confKeyMaxCronThreads +:+
              " cannot be set in spec.config while spec.cron.enabled is true; " +:+
              "the cron Deployment sets the cron workers through spec.cron.maxCronThreads"))
        | None => Ok (<[confKeyMaxCronThreads := valueNoCronThreads]> merged)
        end
      else Ok merged
  | None => Ok merged
  end.

Definition dbSettings (spec : OdooInstanceSpec) : list (string * string) :=
  let dbPort := if pg_Port (is_Postgres spec) =? 0 then defaultPostgresPort
                else pg_Port (is_Postgres spec) in
  [("db_host", pg_Host (is_Postgres spec));
   ("db_port", Itoa dbPort);
   ("db_name", pg_Database (is_Postgres spec));
   ("db_user", pg_User (is_Postgres spec));
   ("db_sslmode", sslModeRequire)].

Fixpoint conf_db (pairs : list (string * string)) (merged : gmap string string)
    : res (gmap string string) :=
  match pairs with
  | [] => Ok merged
  | (key, value) :: pairs =>
      checkConfValue key value ≫= λ _, conf_db pairs (<[key := value]> merged)
  end.

Definition conf_line (merged : gmap string string) (key : string) : string :=
  key +:+ " = " +:+ default "" (merged !! key) +:+ nl.

Definition conf_merged (spec : OdooInstanceSpec) : res (gmap string string) :=
  conf_user (is_Config spec) (sorted_keys (is_Config spec)) odooConfDefaults ≫= λ merged,
  conf_cron spec merged ≫= λ merged,
  if negb (String.eqb (pg_Database (is_Postgres spec)) "")
  then conf_db (dbSettings spec) merged else Ok merged.

Definition renderOdooConf (spec : OdooInstanceSpec) : res string :=
  conf_merged spec ≫= λ merged,
  Ok ("[options]" +:+ nl +:+ concat (conf_line merged <$> sorted_keys merged)).
End Config.

(** ** Specification: which settings the file holds, and when there is a file *)
Definition newline_free (value : string) : bool := negb (ContainsAny value (nl +:+ str1 cr_byte)).

Definition conf_entry_ok (key value : string) : bool :=
  negb (blockedConfigKeys key) &&
  negb (String.eqb key "" || ContainsAny key ("=[]" +:+ nl +:+ str1 cr_byte)) &&
  newline_free value.

Definition cron_on (spec : OdooInstanceSpec) : bool :=
  match is_Cron spec with Some cron => cr_Enabled cron | None => false end.
Definition has_db (spec : OdooInstanceSpec) : bool :=
  negb (String.eqb (pg_Database (is_Postgres spec)) "").

(** The settings in order of precedence: database, cron, user, defaults. *)
Definition conf_settings (spec : OdooInstanceSpec) : gmap string string :=
  (if has_db spec then list_to_map (dbSettings spec) else ∅) ∪
  ((if cron_on spec then {[confKeyMaxCronThreads := valueNoCronThreads]} else ∅) ∪
   (is_Config spec ∪ odooConfDefaults)).

Definition conf_valid (spec : OdooInstanceSpec) : Prop :=
  map_Forall (λ k v, conf_entry_ok k v = true) (is_Config spec) ∧
  (cron_on spec = true → is_Config spec !! confKeyMaxCronThreads = None) ∧
  (has_db spec = true → Forall (λ kv, newline_free kv.2 = true) (dbSettings spec)).

(** The text read back: one pair per line after the section header, cut at the first [=]. *)
Definition read_conf_line (line : string) : string * string :=
  match IndexByte line "=" with
  | Some i => (str_take (i - 1) line, str_drop (i + 2) line)
  | None => (line, "")
  end.
Definition read_conf (text : string) : list (string * string) :=
  read_conf_line <$> removelast (tail (Split text nl_byte)).

(** ** Sorted keys *)
Lemma elem_of_sorted_keys {A} (m : gmap string A) k : k ∈ sorted_keys m ↔ is_Some (m !! k).
Proof.
  unfold sorted_keys. rewrite elem_of_sort_strings, list_elem_of_fmap. split.
  - intros ([k' v] & -> & ?%elem_of_map_to_list). by exists v.
  - intros [v ?]. exists (k, v). split; [done|]. by apply elem_of_map_to_list.
Qed.

Lemma NoDup_sorted_keys {A} (m : gmap string A) : NoDup (sorted_keys m).
Proof. unfold sorted_keys. rewrite sort_strings_perm. apply NoDup_fst_map_to_list. Qed.

(** The keys with their values, in any order, make the map again. *)
Lemma sorted_keys_map (m : gmap string string) :
  list_to_map ((λ k, (k, default "" (m !! k))) <$> sorted_keys m) = m.
Proof.
  apply map_eq. intros k. destruct (m !! k) as [v|] eqn:Hk.
  - apply elem_of_list_to_map_1'.
    + intros v' (k' & ? & ?)%list_elem_of_fmap. simplify_eq. by rewrite Hk.
    + apply list_elem_of_fmap. exists k. rewrite Hk. split; [done|]. by apply elem_of_sorted_keys.
  - apply not_elem_of_list_to_map_1. rewrite <-list_fmap_compose.
    intros (k' & -> & Hin)%list_elem_of_fmap. apply elem_of_sorted_keys in Hin as [? Hs].
    cbn in Hk, Hs. congruence.
Qed.

Section ConfigLemmas.
Context `{Unicode}.

Lemma checkConfValue_ok key value u : checkConfValue key value = Ok u ↔ newline_free value = true.
Proof. unfold checkConfValue, newline_free. destruct u. case_match; naive_solver. Qed.

Lemma conf_user_ok config keys merged m :
  conf_user config keys merged = Ok m ↔
  Forall (λ k, conf_entry_ok k (default "" (config !! k)) = true) keys ∧
  m = foldl (λ m k, <[k := default "" (config !! k)]> m) merged keys.
Proof.
  revert merged. induction keys as [|k keys IH]; intros merged; cbn [conf_user foldl].
  { rewrite Forall_nil. naive_solver. }
  rewrite Forall_cons. unfold conf_entry_ok at 1.
  destruct (blockedConfigKeys k); cbn [negb andb]; [naive_solver|].
  destruct (_ || _); cbn [negb andb]; [naive_solver|].
  rewrite res_bind_Ok. split.
  - intros (u & ?%checkConfValue_ok & Hu). apply IH in Hu. naive_solver.
  - intros [[? ?] ->]. exists tt. rewrite checkConfValue_ok, IH. naive_solver.
Qed.

Lemma foldl_insert_lookup (config : gmap string string) keys (merged : gmap string string) k :
  foldl (λ m k, <[k := default "" (config !! k)]> m) merged keys !! k =
  if decide (k ∈ keys) then Some (default "" (config !! k)) else merged !! k.
Proof.
  revert merged. induction keys as [|k' keys IH]; intros merged; cbn [foldl].
  { by rewrite decide_False by set_solver. }
  rewrite IH. destruct (decide (k ∈ keys)) as [Hin|Hin].
  - by rewrite decide_True by (by apply list_elem_of_further).
  - destruct (decide (k = k')) as [->|].
    + rewrite lookup_insert_eq. by rewrite decide_True by (apply list_elem_of_here).
    + rewrite lookup_insert_ne by done. rewrite decide_False; [done|].
      rewrite elem_of_cons. naive_solver.
Qed.

Lemma conf_user_map config merged m :
  conf_user config (sorted_keys config) merged = Ok m ↔
  map_Forall (λ k v, conf_entry_ok k v = true) config ∧ m = config ∪ merged.
Proof.
  rewrite conf_user_ok, Forall_forall. split; intros [Hok ->]; split.
  - intros k v Hk. specialize (Hok k). rewrite elem_of_sorted_keys, Hk in Hok. eauto.
  - apply map_eq. intros k. rewrite foldl_insert_lookup, lookup_union.
    destruct (config !! k) eqn:Hk; cbn.
    + rewrite decide_True by (apply elem_of_sorted_keys; eauto). by destruct (merged !! k).
    + rewrite decide_False by (rewrite elem_of_sorted_keys, Hk; intros [? [=]]).
      by destruct (merged !! k).
  - intros k [v Hk]%elem_of_sorted_keys. rewrite Hk. by apply Hok.
  - apply map_eq. intros k. rewrite foldl_insert_lookup, lookup_union.
    destruct (config !! k) eqn:Hk; cbn.
    + rewrite decide_True by (apply elem_of_sorted_keys; eauto). by destruct (merged !! k).
    + rewrite decide_False by (rewrite elem_of_sorted_keys, Hk; intros [? [=]]).
      by destruct (merged !! k).
Qed.

Lemma conf_cron_ok spec merged m :
  conf_cron spec merged = Ok m ↔
  (cron_on spec = true → is_Config spec !! confKeyMaxCronThreads = None) ∧
  m = (if cron_on spec then {[confKeyMaxCronThreads := valueNoCronThreads]} else ∅) ∪ merged.
Proof.
  unfold conf_cron, cron_on.
  destruct (is_Cron spec) as [cron|]; [destruct (cr_Enabled cron)|]; cbn iota.
  - rewrite <-insert_union_singleton_l. destruct (is_Config spec !! _); naive_solver.
  - rewrite (left_id_L ∅ (∪)). naive_solver.
  - rewrite (left_id_L ∅ (∪)). naive_solver.
Qed.

Lemma conf_db_ok pairs merged m :
  NoDup pairs.*1 →
  conf_db pairs merged = Ok m ↔
  Forall (λ kv, newline_free kv.2 = true) pairs ∧ m = list_to_map pairs ∪ merged.
Proof.
  revert merged. induction pairs as [|[k v] pairs IH]; intros merged Hnd; cbn [conf_db].
  { rewrite list_to_map_nil, (left_id_L ∅ (∪)), Forall_nil. naive_solver. }
  rewrite fmap_cons in Hnd. apply NoDup_cons in Hnd as [Hk Hnd].
  rewrite res_bind_Ok, Forall_cons. cbn [fst snd] in *.
  assert (list_to_map pairs ∪ <[k:=v]> merged = <[k:=v]> (list_to_map pairs ∪ merged)) as Heq.
  { rewrite insert_union_r; [done|]. by apply not_elem_of_list_to_map_1. }
  rewrite list_to_map_cons. cbn [fst snd]. split.
  - intros (u & ?%checkConfValue_ok & Hu). apply IH in Hu as [? ->]; [|done].
    rewrite Heq, insert_union_l. naive_solver.
  - intros [[? ?] ->]. exists tt. rewrite checkConfValue_ok, IH by done.
    rewrite Heq, insert_union_l. naive_solver.
Qed.

Lemma dbSettings_NoDup spec : NoDup (dbSettings spec).*1.
Proof. cbn. apply (bool_decide_unpack _). by vm_compute. Qed.

Lemma conf_merged_ok spec m :
  conf_merged spec = Ok m ↔ conf_valid spec ∧ m = conf_settings spec.
Proof.
  unfold conf_merged, conf_valid, conf_settings. fold (has_db spec).
  rewrite res_bind_Ok. setoid_rewrite conf_user_map. setoid_rewrite res_bind_Ok.
  setoid_rewrite conf_cron_ok. destruct (has_db spec); cbn iota.
  - setoid_rewrite (conf_db_ok _ _ _ (dbSettings_NoDup spec)). naive_solver.
  - rewrite (left_id_L ∅ (∪)). naive_solver.
Qed.
(** *** Every setting fits on its line *)
Definition conf_pair_ok (k v : string) : Prop :=
  has_byte "=" k = false ∧ has_byte nl_byte k = false ∧ has_byte nl_byte v = false.

Lemma newline_free_nl v : newline_free v = true → has_byte nl_byte v = false.
Proof. unfold newline_free. intros ?%negb_true_iff. by eapply ContainsAny_has. Qed.

Lemma conf_entry_pair k v : conf_entry_ok k v = true → conf_pair_ok k v.
Proof.
  unfold conf_entry_ok. intros ?. to_prop. split_and!.
  - by eapply ContainsAny_has.
  - by eapply ContainsAny_has.
  - by apply newline_free_nl.
Qed.

Lemma conf_settings_pairs spec :
  conf_valid spec → map_Forall conf_pair_ok (conf_settings spec).
Proof.
  intros (Huser & _ & Hdb). unfold conf_settings. repeat apply map_Forall_union_2.
  - destruct (has_db spec); [|apply map_Forall_empty].
    intros k v Hkv%elem_of_list_to_map_2. apply Forall_forall with (x := (k, v)) in Hdb; [|done..].
    assert (Forall (λ kv : string * string, conf_pair_ok kv.1 "") (dbSettings spec)) as Hks
      by by repeat constructor.
    rewrite Forall_forall in Hks. destruct (Hks _ Hkv) as (? & ? & _).
    split_and!; [done..|]. by apply newline_free_nl.
  - destruct (cron_on spec); [|apply map_Forall_empty]. by apply map_Forall_singleton.
  - eapply map_Forall_impl; [exact Huser|]. intros k v. apply conf_entry_pair.
  - apply (bool_decide_unpack _). by vm_compute.
Qed.

Lemma read_conf_line_pair k v :
  has_byte "=" k = false → read_conf_line (k +:+ " = " +:+ v) = (k, v).
Proof.
  intros Hk. unfold read_conf_line.
  assert (k +:+ " = " +:+ v = (k +:+ " ") +:+ String "=" (" " +:+ v)) as Heq
    by by rewrite app_assoc_str.
  rewrite Heq, IndexByte_app by by rewrite has_byte_app, Hk.
  rewrite <-Heq, len_app. cbn [len]. rewrite Nat.add_sub. f_equal; [apply str_take_app|].
  replace (len k + 1 + 2)%nat with (len (k +:+ " = ")) by (rewrite len_app; cbn [len]; lia).
  rewrite <-app_assoc_str. apply str_drop_app.
Qed.

Lemma read_conf_text (m : gmap string string) :
  map_Forall conf_pair_ok m →
  read_conf ("[options]" +:+ nl +:+ concat (conf_line m <$> sorted_keys m)) =
  (λ k, (k, default "" (m !! k))) <$> sorted_keys m.
Proof.
  intros Hm. unfold read_conf.
  pose proof (Split_app_sep "[options]" (concat (conf_line m <$> sorted_keys m)) nl_byte eq_refl)
    as Hsplit.
  change nl with (str1 nl_byte).
  change (str1 nl_byte +:+ concat (conf_line m <$> sorted_keys m))
    with (String nl_byte (concat (conf_line m <$> sorted_keys m))).
  rewrite Hsplit. clear Hsplit. cbn [tail].
  rewrite (list_fmap_ext (conf_line m)
    ((λ s, s +:+ str1 nl_byte) ∘ (λ k, k +:+ " = " +:+ default "" (m !! k)))) by
    (intros; unfold conf_line; cbn; by rewrite !app_assoc_str).
  rewrite list_fmap_compose, Split_lines, removelast_last.
  - rewrite <-list_fmap_compose. apply list_fmap_ext. intros i k Hk%list_elem_of_lookup_2.
    apply elem_of_sorted_keys in Hk as [v Hk]. cbn. rewrite Hk. cbn.
    apply read_conf_line_pair. by apply Hm in Hk as [? _].
  - apply Forall_fmap, Forall_forall. intros k [v Hk]%elem_of_sorted_keys. unfold compose. rewrite Hk.
    apply Hm in Hk as (_ & Hnk & Hnv). cbn [default from_option id].
    by rewrite !has_byte_app, Hnk, Hnv.
Qed.

Lemma conf_settings_blocked spec k :
  conf_valid spec → blockedConfigKeys k = true → conf_settings spec !! k = None.
Proof.
  intros (Huser & _ & _) Hk. unfold conf_settings.
  assert (odooConfDefaults !! k = None ∧ ((list_to_map (dbSettings spec) : gmap _ _) !! k = None)
    ∧ k ≠ confKeyMaxCronThreads) as (Hd & Hdb & Hc).
  { unfold blockedConfigKeys in Hk.
    destruct (String.eqb_spec k "admin_passwd") as [->|]; [done|].
    destruct (String.eqb_spec k "db_password") as [->|]; [done|].
    by destruct (String.eqb_spec k "dbfilter") as [->|]. }
  rewrite !lookup_union_None. split_and!; [by destruct (has_db spec)| | |done].
  - destruct (cron_on spec); [|done]. by apply lookup_singleton_ne.
  - destruct (is_Config spec !! k) as [v|] eqn:Hv; [|done].
    apply Huser in Hv. unfold conf_entry_ok in Hv. by rewrite Hk in Hv.
Qed.
End ConfigLemmas.

(** ** Properties *)

(** C38: odoo.conf round trip. Whenever [renderOdooConf] gives a text, reading the text line by
    line (cutting each line at its first [=]) gives back exactly the settings the spec asks for,
    once each and in sorted key order: the database settings, then the cron override, then
    [spec.config], then the operator's defaults, in this precedence. No key or value of the user
    spills into another line, and no key of [blockedConfigKeys] appears. *)
Theorem renderOdooConf_roundtrip `{Unicode} spec text :
  renderOdooConf spec = Ok text →
  (list_to_map (read_conf text) : gmap string string) = conf_settings spec ∧
  (read_conf text).*1 = sorted_keys (conf_settings spec) ∧
  ∀ k, blockedConfigKeys k = true → k ∉ (read_conf text).*1.
Proof.
  unfold renderOdooConf. intros (m & [Hv ->]%conf_merged_ok & <-%(inj Ok))%res_bind_Ok.
  rewrite read_conf_text by by apply conf_settings_pairs.
  rewrite <-list_fmap_compose. change (fst ∘ _) with (λ k : string, k). rewrite list_fmap_id.
  split_and!; [apply sorted_keys_map|done|].
  intros k Hk [v Hin]%elem_of_sorted_keys. by rewrite conf_settings_blocked in Hin.
Qed.

(** Acceptance of [spec.config]. [renderOdooConf] gives a text exactly when every user key
    is non-empty, not operator-owned and free of [=], brackets and line breaks, every value is on
    one line, [max_cron_threads] is not set by the user while cron is enabled, and the database
    settings are on one line; in every other case the reconcile gets an error, never a partial
    file. *)
Theorem renderOdooConf_accepts `{Unicode} spec :
  (∃ text, renderOdooConf spec = Ok text) ↔ conf_valid spec.
Proof.
  unfold renderOdooConf. setoid_rewrite res_bind_Ok. setoid_rewrite conf_merged_ok. naive_solver.
Qed.

Definition conf_example : OdooInstanceSpec :=
  {| is_Image := "odoo:19.0"; is_Replicas := 1; is_Version := "19.0"; is_Edition := "community";
     is_Addons := {| av_StorageClass := None; av_Size := ""; av_AccessMode := "" |};
     is_Data := {| dv_StorageClass := None; dv_Size := ""; dv_AccessMode := "";
                   dv_RetainOnDelete := None |};
     is_Postgres := {| pg_Host := "pg"; pg_Port := 0; pg_Database := "shop"; pg_User := "odoo";
                       pg_PasswordSecret := "pgpw" |};
     is_Config := list_to_map [("workers", "4"); ("list_db", "True")];
     is_Resources := {| rr_Requests := None; rr_Limits := None |};
     is_AdminPasswordSecret := "admin"; is_Upgrade := None; is_Initialize := None;
     is_Cron := Some {| cr_Enabled := true; cr_MaxCronThreads := None; cr_Resources := None |} |}.

Definition conf_example_text : string :=
  Join ["[options]"; "addons_path = /mnt/odoo/addons"; "db_host = pg"; "db_name = shop";
        "db_port = 5432"; "db_sslmode = require"; "db_user = odoo"; "list_db = True";
        "max_cron_threads = 0"; "proxy_mode = True"; "workers = 4"; ""] nl.

Lemma renderOdooConf_roundtrip_witness :
  read_conf conf_example_text !! 3%nat = Some ("db_port", "5432") ∧
  (list_to_map (read_conf conf_example_text) : gmap string string) = conf_settings conf_example.
Proof.
  split; [by vm_compute|].
  apply (renderOdooConf_roundtrip (H := latin1) conf_example conf_example_text).
  by vm_compute.
Defined.

Close Scope Z_scope.
