(* ===== verification/InstanceAddons.v ===== *)
(** * Ready addons and rollout hashes (odooinstance_addons.go, odooinstance_hash.go)

    Which addons an instance uses, the paths they are mounted at, and the fingerprints stamped on
    the pod template. The theorems say that a fingerprint depends on nothing but the data it is
    meant to cover, and changes with it unless SHA-256 collides. *)
From S2P Require Export GoHash Constants InstanceConfig.

Open Scope Z_scope.

(** ** odooinstance_addons.go *)

(** [filterReadyAddons] *)
Fixpoint filterReadyAddons (all : list OdooAddon) (instanceName : string) : list OdooAddon :=
  match all with
  | [] => []
  | a :: all =>
      if String.eqb (ref_Name (ad_InstanceRef (ad_Spec a))) instanceName && ads_Ready (ad_Status a)
      then a :: filterReadyAddons all instanceName
      else filterReadyAddons all instanceName
  end.

Definition addonModules (addon : OdooAddon) : list string :=
  if (0 <? length (ads_Modules (ad_Status addon)))%nat then ads_Modules (ad_Status addon)
  else if negb (String.eqb (ad_ModuleName (ad_Spec addon)) "") then [ad_ModuleName (ad_Spec addon)]
  else [m_Name (ad_Meta addon)].

Definition addonMountPaths (addons : list OdooAddon) : list string :=
  Compact (sort_strings (addons ≫= λ a, JoinRooted addonsMountPath <$> addonModules a)).

(** The body of the loop of [addonRevisions]. *)
Definition addonRevision (a : OdooAddon) : string :=
  let rev := m_Name (ad_Meta a) +:+ "=" +:+ ads_ClonedCommit (ad_Status a) in
  if (0 <? length (ads_Modules (ad_Status a)))%nat
  then rev +:+ " modules=" +:+ Join (sort_strings (ads_Modules (ad_Status a))) ","
  else rev.

Definition addonRevisions (addons : list OdooAddon) : list string :=
  sort_strings (addonRevision <$> addons).

Definition addonsHash (addons : list OdooAddon) : string :=
  sha256Hex (Join (addonRevisions addons) nl).

(** ** odooinstance_hash.go *)
Record rolloutHashes := { rh_config : string; rh_secrets : string; rh_addons : string }.

Definition configHash (conf : string) : string := sha256Hex conf.

(** The inner loop of [secretsHash]: one secret. *)
Definition secret_text (secret : Secret) : string :=
  concat ((λ key, key +:+ "=" +:+ hex_encode (default "" (sec_Data secret !! key)) +:+ nl)
            <$> sorted_keys (sec_Data secret)) +:+ "---" +:+ nl.

Definition secretsHash (secrets : list Secret) : string :=
  sha256Hex (concat (secret_text <$> secrets)).

(** ** Ready addons *)
Lemma filterReadyAddons_elem a all name :
  a ∈ filterReadyAddons all name ↔
  a ∈ all ∧ ref_Name (ad_InstanceRef (ad_Spec a)) = name ∧ ads_Ready (ad_Status a) = true.
Proof.
  induction all as [|b all IH]; cbn; [set_solver|].
  destruct (String.eqb_spec (ref_Name (ad_InstanceRef (ad_Spec b))) name) as [He|He];
    destruct (ads_Ready (ad_Status b)) eqn:Hr; cbn [andb]; rewrite ?elem_of_cons, IH;
    naive_solver congruence.
Qed.

(** ** Module paths *)
Lemma Compact_sorted l :
  Sorted String.le l → StronglySorted String.le (Compact l) ∧ NoDup (Compact l) ∧
  (∀ x, x ∈ Compact l ↔ x ∈ l).
Proof.
  intros Hs. apply Sorted_StronglySorted in Hs; [|apply _].
  induction Hs as [|x l Hs IH Hall]; [split_and!; [constructor|constructor|done]|].
  destruct IH as (IHs & IHn & IHe). destruct l as [|y l]; cbn [Compact].
  { split_and!; [repeat constructor|apply NoDup_singleton|done]. }
  destruct (String.eqb_spec x y) as [->|Hne].
  - split_and!; [done..|]. intros z. rewrite IHe, !elem_of_cons. tauto.
  - split_and!.
    + constructor; [done|]. apply Forall_forall. intros z Hz%IHe. by eapply Forall_forall in Hall.
    + constructor; [|done]. rewrite IHe, elem_of_cons. intros [->|Hin]; [done|].
      apply Hne. apply (anti_symm String.le).
      * by inversion Hall.
      * inversion Hs as [|?? _ Hy]; subst. by eapply Forall_forall in Hy.
    + intros z. rewrite !elem_of_cons, IHe, elem_of_cons. tauto.
Qed.

Lemma addonMountPaths_elem addons p :
  p ∈ addonMountPaths addons ↔
  ∃ a m, a ∈ addons ∧ m ∈ addonModules a ∧ p = JoinRooted addonsMountPath m.
Proof.
  unfold addonMountPaths. destruct (Compact_sorted (sort_strings (addons ≫=
    λ a, JoinRooted addonsMountPath <$> addonModules a))) as (_ & _ & He).
  { apply Sorted_merge_sort, _. }
  rewrite He, elem_of_sort_strings. rewrite list_elem_of_bind. setoid_rewrite list_elem_of_fmap.
  naive_solver.
Qed.

(** ** Hexadecimal text determines the bytes *)
Lemma hex_fixed_app n x acc : hex_fixed n x acc = hex_fixed n x "" +:+ acc.
Proof.
  revert x acc. induction n as [|n IH]; intros x acc; [done|]. cbn -[N.div N.modulo].
  rewrite IH, (IH _ (String _ "")), app_assoc_str. done.
Qed.

Lemma hex_byte_inj c d :
  hex_fixed 2 (N_of_ascii c) "" = hex_fixed 2 (N_of_ascii d) "" → c = d.
Proof.
  intros Hcd.
  assert (∀ c, default 0%N ((λ i, N.of_nat i) <$>
    List.find (λ i, String.eqb (hex_fixed 2 (N.of_nat i) "") (hex_fixed 2 (N_of_ascii c) ""))
      (seq 0 256)) = N_of_ascii c) as Hdec by (intros [[] [] [] [] [] [] [] []]; by vm_compute).
  rewrite <-(ascii_N_embedding c), <-(ascii_N_embedding d), <-(Hdec c), <-(Hdec d).
  by rewrite Hcd.
Qed.

Lemma hex_encode_inj s t : hex_encode s = hex_encode t → s = t.
Proof.
  revert t. induction s as [|c s IH]; intros [|d t]; cbn [hex_encode]; [done|..].
  - intros Heq%(f_equal len). rewrite len_hex_fixed in Heq. done.
  - intros Heq%(f_equal len). rewrite len_hex_fixed in Heq. done.
  - rewrite (hex_fixed_app _ _ (hex_encode s)), (hex_fixed_app _ _ (hex_encode t)).
    intros [->%hex_byte_inj ->%IH]%app_inj_len; [done|]. by rewrite !len_hex_fixed.
Qed.

(** ** Reading the fingerprinted text back *)

(** What an addon contributes to the rollout: its name, its commit and its set of modules. *)
Definition revision_data (a : OdooAddon) : string * string * list string :=
  (m_Name (ad_Meta a), ads_ClonedCommit (ad_Status a), sort_strings (ads_Modules (ad_Status a))).

Definition parse_revision (s : string) : string * string * list string :=
  match IndexByte s "=" with
  | Some i =>
      let rest := str_drop (i + 1) s in
      match IndexByte rest " " with
      | Some j => (str_take i s, str_take j rest, Split (str_drop (j + 9) rest) ",")
      | None => (str_take i s, rest, [])
      end
  | None => (s, "", [])
  end.

(** Names, commits and module names as the API server and the sync admit them: no separator of
    the text occurs in them. *)
Definition addon_plain (a : OdooAddon) : Prop :=
  has_byte "=" (m_Name (ad_Meta a)) = false ∧ has_byte nl_byte (m_Name (ad_Meta a)) = false ∧
  has_byte " " (ads_ClonedCommit (ad_Status a)) = false ∧
  has_byte nl_byte (ads_ClonedCommit (ad_Status a)) = false ∧
  Forall (λ m, has_byte "," m = false ∧ has_byte nl_byte m = false) (ads_Modules (ad_Status a)).

Lemma IndexByte_none s c : has_byte c s = false → IndexByte s c = None.
Proof.
  induction s as [|d s IH]; [done|]. rewrite has_byte_cons, orb_false_iff, Ascii.eqb_sym. cbn.
  intros [-> Hs]. by rewrite IH.
Qed.

Lemma has_byte_Join c l :
  has_byte c (Join l ",") = true → c = ","%char ∨ Exists (λ s, has_byte c s = true) l.
Proof.
  induction l as [|x l IH]; [done|]. destruct l as [|y l]; [auto|].
  change (Join (x :: y :: l) ",") with (x +:+ String "," (Join (y :: l) ",")).
  rewrite has_byte_app, has_byte_cons, !orb_true_iff, Ascii.eqb_eq. naive_solver.
Qed.

Lemma str_drop_S_app a c b : str_drop (len a + 1) (a +:+ String c b) = b.
Proof. induction a as [|d a IH]; cbn; [by destruct b|]. done. Qed.

Lemma parse_addonRevision a : addon_plain a → parse_revision (addonRevision a) = revision_data a.
Proof.
  intros (Hn & _ & Hc & _ & Hm). unfold addonRevision, revision_data, parse_revision. cbn zeta.
  set (mods := ads_Modules (ad_Status a)) in *. set (n := m_Name (ad_Meta a)) in *.
  set (c := ads_ClonedCommit (ad_Status a)) in *.
  destruct (0 <? length mods)%nat eqn:Hl.
  - change (n +:+ "=" +:+ c) with (n +:+ String "=" c). rewrite app_assoc_str.
    change (String "=" c +:+ " modules=" +:+ Join (sort_strings mods) ",")
      with (String "=" (c +:+ String " " ("modules=" +:+ Join (sort_strings mods) ","))).
    rewrite IndexByte_app, str_take_app, str_drop_S_app by done.
    rewrite (IndexByte_app c), str_take_app by done.
    change (c +:+ String " " ("modules=" +:+ Join (sort_strings mods) ","))
      with (c +:+ " modules=" +:+ Join (sort_strings mods) ",").
    rewrite <-app_assoc_str. replace (len c + 9)%nat with (len (c +:+ " modules="))
      by by rewrite len_app.
    rewrite str_drop_app, (Split_Join _ ","); [done| |].
    + intros Hnil%(f_equal length). unfold sort_strings in Hnil.
      rewrite merge_sort_Permutation in Hnil. cbn in Hnil. rewrite Hnil in Hl. done.
    + rewrite sort_strings_perm. by eapply Forall_impl; [exact Hm|]; intros ? [].
  - change (n +:+ "=" +:+ c) with (n +:+ String "=" c).
    rewrite IndexByte_app, str_take_app, str_drop_S_app by done.
    rewrite IndexByte_none by done. destruct mods; done.
Qed.

Lemma addonRevision_line a :
  addon_plain a → has_byte nl_byte (addonRevision a) = false ∧ addonRevision a ≠ "".
Proof.
  intros (_ & Hn & _ & Hc & Hm). unfold addonRevision.
  assert (has_byte nl_byte (Join (sort_strings (ads_Modules (ad_Status a))) ",") = false) as Hj.
  { apply not_true_iff_false. intros [?|Hex]%has_byte_Join; [done|].
    apply Exists_exists in Hex as (m & Hin & Hb). rewrite elem_of_sort_strings in Hin.
    eapply Forall_forall in Hm as [_ Hm]; [|exact Hin]. congruence. }
  split.
  - destruct (0 <? _)%nat; by rewrite !has_byte_app, Hn, Hc, ?Hj.
  - destruct (m_Name (ad_Meta a)); by destruct (0 <? _)%nat.
Qed.

(** The text before hashing determines the revisions. *)
Lemma addonRevisions_text_inj l1 l2 :
  Forall addon_plain l1 → Forall addon_plain l2 →
  Join (addonRevisions l1) nl = Join (addonRevisions l2) nl → addonRevisions l1 = addonRevisions l2.
Proof.
  assert (∀ l, Forall addon_plain l →
    Forall (λ s, has_byte nl_byte s = false ∧ s ≠ "") (addonRevisions l)) as Hlines.
  { intros l Hl. unfold addonRevisions. rewrite sort_strings_perm, Forall_fmap.
    eapply Forall_impl; [exact Hl|]. apply addonRevision_line. }
  intros H1%Hlines H2%Hlines Heq.
  assert (∀ x l, x ≠ "" → "" ≠ Join (x :: l) nl) as Hnz by by intros [|??] [|??].
  destruct (addonRevisions l1) as [|x1 r1], (addonRevisions l2) as [|x2 r2]; [done|..].
  - inversion H2 as [|?? []]. by destruct (Hnz x2 r2).
  - inversion H1 as [|?? []]. by destruct (Hnz x1 r1).
  - apply (Join_inj _ _ nl_byte); [done..| | |done];
      (eapply Forall_impl; [eassumption|]; by intros ? []).
Qed.

(** *** The text of the secrets *)
Definition secret_lines (secret : Secret) : list string :=
  (λ key, key +:+ "=" +:+ hex_encode (default "" (sec_Data secret !! key)))
    <$> sorted_keys (sec_Data secret).

Definition secret_plain (s : Secret) : Prop :=
  map_Forall (λ k _, has_byte "=" k = false ∧ has_byte nl_byte k = false) (sec_Data s).

Lemma hex_encode_no_nl s : has_byte nl_byte (hex_encode s) = false.
Proof.
  induction s as [|c s IH]; [done|]. cbn [hex_encode].
  rewrite hex_fixed_app, has_byte_app, IH, orb_false_r.
  by destruct c as [[] [] [] [] [] [] [] []]; vm_compute.
Qed.

Lemma secret_text_lines secrets :
  concat (secret_text <$> secrets) =
  concat ((λ s, s +:+ str1 nl_byte) <$> (secrets ≫= λ s, secret_lines s ++ ["---"])).
Proof.
  induction secrets as [|s secrets IH]; [done|].
  rewrite fmap_cons, concat_cons, IH, bind_cons, !fmap_app, !concat_app. f_equal.
  unfold secret_text, secret_lines. rewrite <-list_fmap_compose. f_equal.
  f_equal. apply list_fmap_ext. intros ? k _. unfold compose, nl. by rewrite !app_assoc_str.
Qed.

(** Lists ended by a mark that does not occur in them can be cut out of their concatenation. *)
Lemma marked_lists_inj {A} (mark : A) (l1 l2 : list (list A)) :
  Forall (λ l, mark ∉ l) l1 → Forall (λ l, mark ∉ l) l2 →
  (l1 ≫= λ l, l ++ [mark]) = (l2 ≫= λ l, l ++ [mark]) → l1 = l2.
Proof.
  intros H1. revert l2. induction H1 as [|x l1 Hx H1 IH]; intros l2 H2.
  { destruct l2 as [|y l2]; [done|]. rewrite bind_cons. by destruct y. }
  destruct l2 as [|y l2].
  { rewrite bind_cons. by destruct x. }
  apply Forall_cons in H2 as [Hy H2]. rewrite !bind_cons, <-!app_assoc. cbn [app].
  assert (∀ x y (r1 r2 : list A), mark ∉ x → mark ∉ y →
    x ++ mark :: r1 = y ++ mark :: r2 → x = y ∧ r1 = r2) as Hcut.
  { clear. induction x as [|a x IH]; intros [|b y] r1 r2 Hx Hy [=]; subst.
    - done.
    - by rewrite elem_of_cons in Hy; destruct Hy; left.
    - by rewrite elem_of_cons in Hx; destruct Hx; left.
    - rewrite elem_of_cons in Hx, Hy. destruct (IH y r1 r2) as [-> ->]; naive_solver. }
  intros [-> Hr]%Hcut; [|done..]. by rewrite (IH l2 H2 Hr).
Qed.

Lemma secret_lines_plain s :
  secret_plain s →
  "---" ∉ secret_lines s ∧ Forall (λ l, has_byte nl_byte l = false) (secret_lines s).
Proof.
  intros Hs. unfold secret_lines. split.
  - intros (k & Hk & _)%list_elem_of_fmap.
    apply (f_equal (has_byte "=")) in Hk. rewrite !has_byte_app in Hk. cbn in Hk.
    by rewrite orb_true_r in Hk.
  - apply Forall_fmap, Forall_forall. intros k [v Hk]%elem_of_sorted_keys. unfold compose.
    by rewrite !has_byte_app, (proj2 (Hs _ _ Hk)), hex_encode_no_nl.
Qed.

Lemma secret_lines_inj s1 s2 :
  secret_plain s1 → secret_plain s2 → secret_lines s1 = secret_lines s2 → sec_Data s1 = sec_Data s2.
Proof.
  set (cut := λ line, match IndexByte line "=" with
                      | Some i => (str_take i line, str_drop (i + 1) line) | None => (line, "") end).
  assert (∀ s, secret_plain s →
    (list_to_map (cut <$> secret_lines s) : gmap string string) = hex_encode <$> sec_Data s) as Hcut.
  { intros s Hs. rewrite <-(sorted_keys_map (hex_encode <$> sec_Data s)). f_equal.
    assert (sorted_keys (hex_encode <$> sec_Data s) = sorted_keys (sec_Data s)) as ->.
    { unfold sorted_keys. rewrite map_to_list_fmap, <-list_fmap_compose.
      by rewrite (list_fmap_ext (fst ∘ prod_map id hex_encode) fst). }
    unfold secret_lines. rewrite <-list_fmap_compose. apply list_fmap_ext.
    intros ? k Hk%list_elem_of_lookup_2. apply elem_of_sorted_keys in Hk as [v Hk].
    unfold compose, cut. rewrite lookup_fmap, Hk. cbn [default from_option id fmap option_fmap option_map].
    change (k +:+ "=" +:+ hex_encode v) with (k +:+ String "=" (hex_encode v)).
    by rewrite IndexByte_app, str_take_app, str_drop_S_app by apply (Hs _ _ Hk). }
  intros H1 H2 Heq. apply (f_equal (λ l, list_to_map (cut <$> l) : gmap string string)) in Heq.
  rewrite !Hcut in Heq by done. apply (map_fmap_inj hex_encode); [|done].
  intros ??. apply hex_encode_inj.
Qed.

Lemma secrets_text_inj l1 l2 :
  Forall secret_plain l1 → Forall secret_plain l2 →
  concat (secret_text <$> l1) = concat (secret_text <$> l2) → sec_Data <$> l1 = sec_Data <$> l2.
Proof.
  intros H1 H2. rewrite !secret_text_lines. intros Heq%(f_equal (λ t, Split t nl_byte)).
  assert (∀ l, Forall secret_plain l →
    Forall (λ s, has_byte nl_byte s = false) (l ≫= λ s, secret_lines s ++ ["---"]) ∧
    Forall (λ ls, "---" ∉ ls) (secret_lines <$> l)) as Hwf.
  { intros l Hl. split.
    - apply Forall_forall. intros x (s & Hx & Hin)%list_elem_of_bind.
      eapply Forall_forall in Hl; [|exact Hin]. apply secret_lines_plain in Hl as [_ Hl].
      apply elem_of_app in Hx as [Hx| ->%list_elem_of_singleton]; [|done].
      by eapply Forall_forall in Hl.
    - apply Forall_fmap. eapply Forall_impl; [exact Hl|]. by intros s [? _]%secret_lines_plain. }
  destruct (Hwf l1 H1) as [Hn1 Hm1], (Hwf l2 H2) as [Hn2 Hm2].
  rewrite !Split_lines in Heq by done. apply app_inv_tail in Heq.
  assert (∀ l, (l ≫= λ s, secret_lines s ++ ["---"]) = ((secret_lines <$> l) ≫= λ ls, ls ++ ["---"]))
    as Hb by (induction l as [|? l IHl]; [done|]; by rewrite fmap_cons, !bind_cons, IHl).
  rewrite !Hb in Heq. apply marked_lists_inj in Heq; [|done..]. clear -H1 H2 Heq.
  revert l2 H2 Heq. induction H1 as [|s l1 Hs H1 IH]; intros [|t l2] H2 [=]; [done|].
  apply Forall_cons in H2 as [Ht H2]. cbn. f_equal; [by apply secret_lines_inj|by apply IH].
Qed.

(** ** What the revision depends on *)
#[export] Instance filterReadyAddons_perm : Proper ((≡ₚ) ==> (=) ==> (≡ₚ)) filterReadyAddons.
Proof.
  intros l l' Hp name ? <-. induction Hp as [|a l l' _ IH|a b l|? ? ? _ IH1 _ IH2]; cbn;
    [done|by destruct (_ && _); rewrite ?IH|by repeat destruct (_ && _); try apply Permutation_swap|by rewrite IH1].
Qed.

Lemma addonsHash_revisions l l' : addonRevision <$> l ≡ₚ addonRevision <$> l' → addonsHash l = addonsHash l'.
Proof. intros Hp. unfold addonsHash, addonRevisions. by rewrite (sort_strings_perm_eq _ _ Hp). Qed.
Lemma addonMountPaths_modules l l' : addonModules <$> l ≡ₚ addonModules <$> l' → addonMountPaths l = addonMountPaths l'.
Proof.
  intros Hp. unfold addonMountPaths. f_equal. apply sort_strings_perm_eq.
  assert (∀ l, (l ≫= λ a, JoinRooted addonsMountPath <$> addonModules a) =
    (addonModules <$> l) ≫= λ ms, JoinRooted addonsMountPath <$> ms) as Hb
    by (intros l0; induction l0 as [|a l0 IH]; [done|]; by rewrite fmap_cons, !bind_cons, IH).
  by rewrite !Hb, Hp.
Qed.

(** The instance makes the same of both. *)
Definition same_revision (a b : OdooAddon) : Prop :=
  ref_Name (ad_InstanceRef (ad_Spec b)) = ref_Name (ad_InstanceRef (ad_Spec a)) ∧
  ads_Ready (ad_Status b) = ads_Ready (ad_Status a) ∧
  addonRevision b = addonRevision a ∧ addonModules b = addonModules a.

(** Another status of an addon, with the same commit and modules, leaves the revision as it is. *)
Lemma revision_kept (m : gmap string OdooAddon) n a b name :
  m !! n = Some a → same_revision a b →
  addonsHash (filterReadyAddons (map_to_list (<[n := b]> m)).*2 name) = addonsHash (filterReadyAddons (map_to_list m).*2 name) ∧
  addonMountPaths (filterReadyAddons (map_to_list (<[n := b]> m)).*2 name) =
    addonMountPaths (filterReadyAddons (map_to_list m).*2 name).
Proof.
  intros Ha (Href & Hready & Hrev & Hmods). set (rest := map_to_list (delete n m)).
  assert ((map_to_list m).*2 ≡ₚ a :: rest.*2) as Hm.
  { rewrite <-(map_to_list_delete m n a Ha). done. }
  assert ((map_to_list (<[n := b]> m)).*2 ≡ₚ b :: rest.*2) as Hm'.
  { unfold rest. rewrite <-(delete_insert_eq m n b). rewrite <-(map_to_list_delete _ n b) by apply lookup_insert_eq. done. }
  split; [apply addonsHash_revisions|apply addonMountPaths_modules]; rewrite Hm, Hm'; cbn [filterReadyAddons];
    rewrite Href, Hready; destruct (_ && _); rewrite ?fmap_cons, ?Hrev, ?Hmods; done.
Qed.

(** ** Properties *)

(** C40: the addons fingerprint. It does not depend on the order in which the API server lists the
    addons; and two sets of addons (with names, commits and modules free of the separators) that
    get the same fingerprint agree on every addon's name, commit and module set, unless the two
    texts are a SHA-256 collision. So a re-sync to a new commit, or a changed module set, rolls the
    pods, and a mere re-listing does not. *)
Theorem addonsHash_faithful l1 l2 :
  (l1 ≡ₚ l2 → addonsHash l1 = addonsHash l2) ∧
  (Forall addon_plain l1 → Forall addon_plain l2 → addonsHash l1 = addonsHash l2 →
   revision_data <$> l1 ≡ₚ revision_data <$> l2 ∨
   (Join (addonRevisions l1) nl ≠ Join (addonRevisions l2) nl ∧
    sha256Hex (Join (addonRevisions l1) nl) = sha256Hex (Join (addonRevisions l2) nl))).
Proof.
  split.
  - intros Hp. unfold addonsHash, addonRevisions.
    by rewrite (sort_strings_perm_eq (addonRevision <$> l1) (addonRevision <$> l2)) by by rewrite Hp.
  - intros H1 H2 Hh. unfold addonsHash in Hh.
    destruct (decide (Join (addonRevisions l1) nl = Join (addonRevisions l2) nl)) as [Heq|];
      [left|by right].
    apply addonRevisions_text_inj in Heq; [|done..].
    assert (∀ l, Forall addon_plain l →
      revision_data <$> l ≡ₚ parse_revision <$> addonRevisions l) as Hback.
    { intros l Hl. unfold addonRevisions. rewrite sort_strings_perm, <-list_fmap_compose.
      rewrite (Forall_fmap_ext_1 revision_data (parse_revision ∘ addonRevision) l); [done|].
      eapply Forall_impl; [exact Hl|]. intros a Ha. symmetry. by apply parse_addonRevision. }
    by rewrite (Hback l1), (Hback l2), Heq.
Qed.

(** The secrets fingerprint. Two lists of Secrets (with keys the API server admits) that get
    the same fingerprint hold the same data, Secret by Secret and key by key, unless the two texts
    are a SHA-256 collision; and the fingerprint reads nothing of a Secret but its data. So a
    changed password rolls the pods and a changed label does not. *)
Theorem secretsHash_faithful l1 l2 :
  (sec_Data <$> l1 = sec_Data <$> l2 → secretsHash l1 = secretsHash l2) ∧
  (Forall secret_plain l1 → Forall secret_plain l2 → secretsHash l1 = secretsHash l2 →
   sec_Data <$> l1 = sec_Data <$> l2 ∨
   (concat (secret_text <$> l1) ≠ concat (secret_text <$> l2) ∧
    sha256Hex (concat (secret_text <$> l1)) = sha256Hex (concat (secret_text <$> l2)))).
Proof.
  split.
  - intros Heq. unfold secretsHash. f_equal. f_equal. revert l2 Heq.
    induction l1 as [|s l1 IH]; intros [|t l2] Heq; [done..|].
    rewrite !fmap_cons in Heq. injection Heq as Hst Hl. cbn. f_equal; [|by apply IH].
    unfold secret_text. by rewrite Hst.
  - intros H1 H2 Hh. unfold secretsHash in Hh.
    destruct (decide (concat (secret_text <$> l1) = concat (secret_text <$> l2))) as [Heq|];
      [left|by right].
    by apply secrets_text_inj.
Qed.

(** Module paths. The paths an instance mounts are sorted and without duplicates, and they are
    exactly one path directly under the addons volume for every module of every given addon, when
    module names are plain path segments (as the sync admits them). *)
Theorem addonMountPaths_spec addons :
  (∀ a m, a ∈ addons → m ∈ addonModules a → has_byte "/" m = false ∧ m ∉ [""; "."; ".."]) →
  StronglySorted String.le (addonMountPaths addons) ∧ NoDup (addonMountPaths addons) ∧
  ∀ p, p ∈ addonMountPaths addons ↔
    ∃ a m, a ∈ addons ∧ m ∈ addonModules a ∧ p = addonsMountPath +:+ "/" +:+ m.
Proof.
  intros Hm. assert (∀ m, has_byte "/" m = false → m ∉ [""; "."; ".."] →
    JoinRooted addonsMountPath m = addonsMountPath +:+ "/" +:+ m) as Hjoin.
  { intros m Hs Hd. unfold JoinRooted.
    change (addonsMountPath +:+ "/" +:+ m) with
      ("" +:+ String "/" ("mnt" +:+ String "/" ("odoo" +:+ String "/" ("addons" +:+ String "/" m)))).
    rewrite !Split_app_sep, Split_nosep by done. rewrite !not_elem_of_cons in Hd.
    destruct Hd as (H1%String.eqb_neq & H2%String.eqb_neq & H3%String.eqb_neq & _).
    cbn. by rewrite H1, H2, H3. }
  split_and!.
  - apply Compact_sorted, Sorted_merge_sort, _.
  - apply Compact_sorted, Sorted_merge_sort, _.
  - intros p. rewrite addonMountPaths_elem. split; intros (a & m & Ha & Hin & ->);
      exists a, m; (split_and!; [done..|]); destruct (Hm a m Ha Hin); by rewrite Hjoin.
Qed.

(** *** Witnesses *)
Definition example_addon (name commit : string) (modules : list string) : OdooAddon :=
  {| ad_Meta := newMeta name "shop";
     ad_Spec := {| ad_GitUrl := "https://git.example/a.git"; ad_GitRef := "main";
       ad_GitSecretRef := None; ad_AddonPath := ""; ad_SingleAddon := false; ad_ModuleName := "";
       ad_InstanceRef := {| ref_Name := "shop"; ref_Namespace := "" |}; ad_ReadOnly := true |};
     ad_Status := {| ads_Ready := true; ads_Phase := "Synced"; ads_ClonedCommit := commit;
       ads_LastSyncTime := None; ads_Modules := modules; ads_Message := ""; ads_Conditions := [] |} |}.

Definition example_addons : list OdooAddon :=
  [example_addon "web" "0123abcd" ["web_x"; "web_a"]; example_addon "legacy" "9f" []].

Lemma addonsHash_faithful_witness :
  addonsHash example_addons = addonsHash (reverse example_addons) ∧
  addonRevisions example_addons = ["legacy=9f"; "web=0123abcd modules=web_a,web_x"].
Proof.
  split; [|by vm_compute].
  apply (addonsHash_faithful example_addons). by rewrite reverse_Permutation.
Defined.

Lemma secretsHash_faithful_witness :
  secretsHash [{| sec_Meta := newMeta "a" "shop"; sec_Data := {["password" := "x"]} |}] =
  secretsHash [{| sec_Meta := newMeta "b" "shop"; sec_Data := {["password" := "x"]} |}].
Proof. by apply secretsHash_faithful. Defined.

Lemma addonMountPaths_spec_witness :
  NoDup (addonMountPaths example_addons) ∧
  addonMountPaths example_addons =
    ["/mnt/odoo/addons/legacy"; "/mnt/odoo/addons/web_a"; "/mnt/odoo/addons/web_x"].
Proof.
  split; [|by vm_compute].
  apply (addonMountPaths_spec example_addons).
  assert (Forall (λ a, Forall (λ m, has_byte "/" m = false ∧ m ∉ [""; "."; ".."]) (addonModules a))
    example_addons) as Hall by (apply (bool_decide_unpack _); by vm_compute).
  intros a m Ha Hm. rewrite Forall_forall in Hall. specialize (Hall a Ha).
  rewrite Forall_forall in Hall. by apply Hall.
Defined.

Close Scope Z_scope.
