(* ===== verification/Effects.v ===== *)
(** * Effects: the API server as seen by a reconciler

    A reconciler is a [prog]: a tree of calls to the API server (and the clock, the log endpoint
    and the event recorder), with one branch per possible answer. The answers are not modelled by
    a function: a theorem about a reconciler quantifies over all of them ([execs]), so it holds
    for a stale cache, a conflict or a failing call as well.

    [wp] is the logic the theorems use: it checks a condition on every call ([may]) with the
    history of earlier calls and answers at hand, and a condition on the result.
    [execs_allowed] and [execs_result] turn it into statements about executions. *)
From S2P Require Export Events.

Open Scope Z_scope.

(** ** Kinds and their objects *)
Inductive kind :=
  | KDeployment | KJob | KCronJob | KPod | KPVC | KSecret | KConfigMap | KService | KPDB
  | KAddon | KBackup | KInstance | KUpgrade.

Definition obj (k : kind) : Type :=
  match k with
  | KDeployment => Deployment
  | KJob => Job
  | KCronJob => CronJob
  | KPod => Pod
  | KPVC => PersistentVolumeClaim
  | KSecret => Secret
  | KConfigMap => ConfigMap
  | KService => Service
  | KPDB => PodDisruptionBudget
  | KAddon => OdooAddon
  | KBackup => OdooBackup
  | KInstance => OdooInstance
  | KUpgrade => OdooUpgrade
  end.

Definition obj_meta (k : kind) : obj k → ObjectMeta :=
  match k return obj k → ObjectMeta with
  | KDeployment => dep_Meta
  | KJob => job_Meta
  | KCronJob => cron_Meta
  | KPod => pod_Meta
  | KPVC => pvc_Meta
  | KSecret => sec_Meta
  | KConfigMap => cm_Meta
  | KService => svc_Meta
  | KPDB => pdb_Meta
  | KAddon => ad_Meta
  | KBackup => bk_Meta
  | KInstance => in_Meta
  | KUpgrade => up_Meta
  end.

(** [controllerutil.OperationResult] *)
Inductive OperationResult := OperationResultNone | OperationResultCreated | OperationResultUpdated.

(** [client.DeleteOptions]: background propagation and the UID precondition. *)
Record DeleteOptions := { do_Background : bool; do_UID : string }.

(** ** Calls and answers

    [OpCreateOrUpdate] is [controllerutil.CreateOrUpdate] with its mutate function (the closure
    over the object); the answer is the object as the server stored it. [OpPodLogs] is the text
    of the log stream. *)
Inductive op :=
  | OpGet (k : kind) (key : NamespacedName)
  | OpList (k : kind) (namespace : string) (labels : gmap string string)
  | OpCreate (k : kind) (o : obj k)
  | OpUpdate (k : kind) (o : obj k)
  | OpStatusUpdate (k : kind) (o : obj k)
  | OpPatch (k : kind) (original o : obj k)
  | OpDelete (k : kind) (o : obj k) (opts : option DeleteOptions)
  | OpCreateOrUpdate (k : kind) (key : NamespacedName) (mutate : obj k → res (obj k))
  | OpNow
  | OpPodLogs (namespace pod container : string) (tailLines : option Z)
  | OpEvent (regarding : ObjectMeta) (related : option NamespacedName) (ev : statusEvent).

Definition answer (o : op) : Type :=
  match o with
  | OpGet k _ => res (obj k)
  | OpList k _ _ => res (list (obj k))
  | OpCreate k _ | OpUpdate k _ | OpStatusUpdate k _ | OpPatch k _ _ => res (obj k)
  | OpDelete _ _ _ => res unit
  | OpCreateOrUpdate k _ _ => res (obj k * OperationResult)
  | OpNow => Time
  | OpPodLogs _ _ _ _ => res string
  | OpEvent _ _ _ => unit
  end.

(** ** Programs *)
Inductive prog (A : Type) : Type :=
  | Ret (a : A)
  | Do (o : op) (k : answer o → prog A).
Arguments Ret {A} a.
Arguments Do {A} o k.

Fixpoint prog_bind {A B} (p : prog A) (f : A → prog B) : prog B :=
  match p with
  | Ret a => f a
  | Do o k => Do o (λ r, prog_bind (k r) f)
  end.

Definition call (o : op) : prog (answer o) := Do o Ret.

Definition get (k : kind) (key : NamespacedName) : prog (res (obj k)) := call (OpGet k key).
Definition list_objects (k : kind) (namespace : string) (labels : gmap string string)
  : prog (res (list (obj k))) := call (OpList k namespace labels).
Definition create (k : kind) (o : obj k) : prog (res (obj k)) := call (OpCreate k o).
Definition update (k : kind) (o : obj k) : prog (res (obj k)) := call (OpUpdate k o).
Definition updateStatus (k : kind) (o : obj k) : prog (res (obj k)) := call (OpStatusUpdate k o).
Definition deleteObject (k : kind) (o : obj k) (opts : option DeleteOptions) : prog (res unit) :=
  call (OpDelete k o opts).
Definition Now : prog Time := call OpNow.

(** A Go call that returns an error value: [let?] returns early on an error, [let*] keeps it. *)
Declare Scope prog_scope.
Delimit Scope prog_scope with prog.
Notation "'let*' x := p 'in' q" := (prog_bind p (λ x, q))
  (at level 200, x binder, p at level 100, q at level 200, right associativity) : prog_scope.
Definition try_bind {A B} (p : prog (res A)) (f : A → prog (res B)) : prog (res B) :=
  prog_bind p (λ r, match r with Ok a => f a | Err e => Ret (Err e) end).
Notation "'let?' x := p 'in' q" := (try_bind p (λ x, q))
  (at level 200, x binder, p at level 100, q at level 200, right associativity) : prog_scope.
Open Scope prog_scope.

(** [return nil] and [return err] *)
Definition ok {A} (a : A) : prog (res A) := Ret (Ok a).
Definition fail {A} (e : error) : prog (res A) := Ret (Err e).

(** [ctrl.Result] *)
Record Result := { RequeueAfter : Z }.
Definition noResult : Result := {| RequeueAfter := 0 |}.
Definition requeue (d : Z) : Result := {| RequeueAfter := d |}.

(** [client.IgnoreNotFound] *)
Definition IgnoreNotFound `{KubeLib} (r : res unit) : res unit :=
  match r with Ok u => Ok u | Err e => if IsNotFound e then Ok tt else Err e end.

(** [err != nil && !IsAlreadyExists(err)] after a create. *)
Definition IgnoreAlreadyExists `{KubeLib} {A} (r : res A) : res unit :=
  match r with Ok _ => Ok tt | Err e => if IsAlreadyExists e then Ok tt else Err e end.

(** [return result, err] *)
Definition with_result {A} (result : A) (p : prog (res unit)) : prog (res A) :=
  let? _ := p in ok result.

(** The fields of the reconcilers that the operator configures: whether there is an event
    recorder, and whether there is a clientset to read pod logs with. *)
Record Reconciler := { rec_Recorder : bool; rec_Clientset : bool }.

(** [io.ReadAll(io.LimitReader(stream, n))] *)
Fixpoint LimitRead (n : N) (s : string) : string :=
  match s with
  | EmptyString => EmptyString
  | String c s => if (n =? 0)%N then EmptyString else String c (LimitRead (n - 1) s)
  end.

(** The pod with the latest creation time, the first of several. *)
Fixpoint newest_pod (newest : Pod) (pods : list Pod) : Pod :=
  match pods with
  | [] => newest
  | p :: pods =>
      newest_pod (if m_CreationTimestamp (pod_Meta newest) <? m_CreationTimestamp (pod_Meta p)
                  then p else newest) pods
  end.

(** The node of the first running pod. *)
Fixpoint running_node (pods : list Pod) : string :=
  match pods with
  | [] => ""
  | p :: pods =>
      if String.eqb (pod_Phase p) PodRunning && negb (String.eqb (pod_NodeName p) "")
      then pod_NodeName p else running_node pods
  end.

(** ** Executions *)
Definition event : Type := { o : op & answer o }.
Definition did (o : op) (r : answer o) : event := existT o r.

(** [execs p h h' a]: with history [h] (newest call first), [p] can run to the result [a] and
    leave the history [h']. Every answer is possible. *)
Inductive execs {A} : prog A → list event → list event → A → Prop :=
  | exec_ret a h : execs (Ret a) h h a
  | exec_do o k r h h' a : execs (k r) (did o r :: h) h' a → execs (Do o k) h h' a.

(** Running a program against a server with state [S]. *)
Fixpoint run {S A} (server : S → ∀ o : op, answer o * S) (s : S) (p : prog A) (h : list event)
    : A * S * list event :=
  match p with
  | Ret a => (a, s, h)
  | Do o k => let '(r, s) := server s o in run server s (k r) (did o r :: h)
  end.

Lemma run_execs {S A} (server : S → ∀ o : op, answer o * S) (s : S) (p : prog A) h :
  execs p h (run server s p h).2 (run server s p h).1.1.
Proof.
  revert s h. induction p as [a|o k IH]; intros s h; cbn; [constructor|].
  destruct (server s o) as [r s']. econstructor. apply IH.
Qed.

(** A program always returns: against any server there is a result. *)
Lemma run_total {S A} (server : S → ∀ o : op, answer o * S) (s : S) (p : prog A) :
  ∃ h a, execs p [] h a.
Proof. eexists _, _. apply (run_execs server s). Qed.

(** ** The effect of a program on a server *)
Section Effect.
Context {S : Type} (server : S → ∀ o : op, answer o * S).

(** The result and the state the server is left in. *)
Definition effect {A} (s : S) (p : prog A) : A * S := (run server s p []).1.

Lemma run_history {A} (p : prog A) s h h' : (run server s p h).1 = (run server s p h').1.
Proof.
  revert s h h'. induction p as [a|o k IH]; intros s h h'; cbn; [done|].
  destruct (server s o) as [x s']. apply IH.
Qed.

Lemma effect_do {A} s o (k : answer o → prog A) :
  effect s (Do o k) = effect (server s o).2 (k (server s o).1).
Proof. unfold effect. cbn. destruct (server s o) as [x s']. apply run_history. Qed.

Lemma effect_bind {A B} s (p : prog A) (f : A → prog B) :
  effect s (prog_bind p f) = effect (effect s p).2 (f (effect s p).1).
Proof.
  revert s. induction p as [a|o k IH]; intros s; [done|].
  cbn [prog_bind]. by rewrite !effect_do, IH.
Qed.

Lemma effect_try {A B} s (p : prog (res A)) (f : A → prog (res B)) a s' :
  effect s p = (Ok a, s') → effect s (try_bind p f) = effect s' (f a).
Proof. intros Hp. unfold try_bind. by rewrite effect_bind, Hp. Qed.
End Effect.

(** ** Weakest preconditions *)
Fixpoint wp {A} (may : list event → op → Prop) (h : list event) (p : prog A)
    (Q : list event → A → Prop) : Prop :=
  match p with
  | Ret a => Q h a
  | Do o k => may h o ∧ ∀ r, wp may (did o r :: h) (k r) Q
  end.

Lemma wp_bind {A B} may h (p : prog A) (f : A → prog B) Q :
  wp may h p (λ h a, wp may h (f a) Q) → wp may h (prog_bind p f) Q.
Proof. revert h. induction p as [a|o k IH]; cbn; naive_solver. Qed.

Lemma wp_mono {A} may h (p : prog A) (Q Q' : list event → A → Prop) :
  wp may h p Q → (∀ h a, Q h a → Q' h a) → wp may h p Q'.
Proof. intros Hp HQ. revert h Hp. induction p as [a|o k IH]; cbn; naive_solver. Qed.

(** A condition on the calls alone holds from any history. *)
Lemma wp_forget {A} may (f : op → Prop) h h' (p : prog A) Q :
  (∀ h o, may h o → f o) → wp may h p Q → wp (λ _, f) h' p (λ _ _, True).
Proof. intros Hf. revert h h'. induction p as [a|o k IH]; cbn; naive_solver. Qed.

Lemma wp_try {A B} may h (p : prog (res A)) (f : A → prog (res B)) Q :
  wp may h p (λ h r, match r with Ok a => wp may h (f a) Q | Err e => Q h (Err e) end) →
  wp may h (try_bind p f) Q.
Proof. intros Hp. apply wp_bind. eapply wp_mono; [exact Hp|]. by intros ? [a|e]. Qed.

Lemma execs_extends {A} (p : prog A) h h' a : execs p h h' a → ∃ t, h' = t ++ h.
Proof.
  induction 1 as [a h|o k r h h' a He (t & ->)]; [by exists []|].
  exists (t ++ [did o r]). by rewrite <-app_assoc.
Qed.

(** Every call the program makes satisfies [may], judged with the history before it. *)
Lemma execs_allowed {A} may h0 (p : prog A) Q h h' a :
  wp may h0 p Q → execs p h0 h' a → h' = h ++ h0 →
  ∀ post pre e, h = post ++ e :: pre → may (pre ++ h0) (projT1 e).
Proof.
  intros Hwp He. revert h Hwp. induction He as [a h0|o k r h0 h' a He IH]; intros h Hwp Hh.
  - intros post pre e ->. apply (f_equal length) in Hh. rewrite !length_app in Hh. cbn in Hh. lia.
  - destruct Hwp as [Hmay Hwp]. destruct (execs_extends _ _ _ _ He) as (t & ->).
    assert (h = t ++ [did o r]) as ->.
    { apply (app_inv_tail h0). rewrite <-Hh, <-app_assoc. done. }
    intros post pre e Hpe. destruct pre as [|x pre] using rev_ind.
    + apply app_inj_tail in Hpe as [_ <-]. done.
    + clear IHpre. rewrite app_comm_cons, app_assoc in Hpe. apply app_inj_tail in Hpe as [-> <-].
      rewrite <-app_assoc. cbn. by eapply IH.
Qed.

Lemma execs_result {A} may h0 (p : prog A) Q h' a : wp may h0 p Q → execs p h0 h' a → Q h' a.
Proof. intros Hwp He. revert Hwp. induction He; cbn; naive_solver. Qed.

(** [tr] is the trace of an execution from the empty history, newest call first. *)
Lemma trace_allowed {A} may (p : prog A) tr a post pre o r :
  wp may [] p (λ _ _, True) → execs p [] tr a → tr = post ++ did o r :: pre → may pre o.
Proof.
  intros Hwp He Htr. rewrite <-(app_nil_r pre). change o with (projT1 (did o r)).
  apply (execs_allowed may [] p _ tr tr a Hwp He) with post; [by rewrite app_nil_r|exact Htr].
Qed.

(** The calls of a trace that [f] picks, each with the history before it. *)
Fixpoint calls_of {B} (f : op → option B) (tr : list event) : list (B * list event) :=
  match tr with
  | [] => []
  | e :: before =>
      match f (projT1 e) with
      | Some b => (b, before) :: calls_of f before
      | None => calls_of f before
      end
  end.

Lemma calls_of_elem {B} (f : op → option B) tr b before :
  (b, before) ∈ calls_of f tr → ∃ after o r, tr = after ++ did o r :: before ∧ f o = Some b.
Proof.
  induction tr as [|[o r] tr IH]; cbn; [set_solver|].
  destruct (f o) eqn:Ho.
  - intros [[= -> ->]|Hin]%elem_of_cons; [by exists [], o, r|].
    destruct (IH Hin) as (t & o' & r' & -> & ?). by exists (did o r :: t), o', r'.
  - intros Hin. destruct (IH Hin) as (t & o' & r' & -> & ?). by exists (did o r :: t), o', r'.
Qed.

(** The theorems about reconcilers have this form: what a program may do, for every trace. *)
Lemma calls_allowed {A B} may (p : prog A) tr a (f : op → option B) (P : list event → B → Prop) :
  wp may [] p (λ _ _, True) → execs p [] tr a →
  (∀ h o b, f o = Some b → may h o → P h b) →
  Forall (λ c, P c.2 c.1) (calls_of f tr).
Proof.
  intros Hwp He HP. apply Forall_forall. intros [b before] Hin.
  apply calls_of_elem in Hin as (t & o & r & Htr & Ho). apply (HP _ _ _ Ho).
  by eapply trace_allowed.
Qed.

(** ** Emitting events ([emitEvents]: [recorder] is false for a nil recorder) *)
Fixpoint emitEvents (recorder : bool) (regarding : ObjectMeta) (evs : list statusEvent) : prog unit :=
  match evs with
  | [] => Ret tt
  | e :: evs =>
      if negb recorder then Ret tt
      else
        let related := if negb (String.eqb (se_RelatedUpgrade e) "")
                       then Some {| nn_Namespace := m_Namespace regarding; nn_Name := se_RelatedUpgrade e |}
                       else None in
        let* _ := call (OpEvent regarding related
          (mkEvent (se_Type e) (se_Reason e) (se_Action e) (clipEventNote (se_Message e)) "")) in
        emitEvents recorder regarding evs
  end.

Lemma wp_emitEvents may h rec m evs (Q : list event → unit → Prop) :
  (∀ h rel e, may h (OpEvent m rel e)) →
  (∀ h', (∀ e, e ∈ h → e ∈ h') → Q h' tt) → wp may h (emitEvents rec m evs) Q.
Proof.
  intros Hmay. revert h. induction evs as [|e evs IH]; intros h HQ; cbn; [by apply HQ|].
  destruct rec; cbn; [|by apply HQ]. split; [done|]. intros r. apply IH.
  intros h' Hh'. apply HQ. intros e' He'. apply Hh'. by apply list_elem_of_further.
Qed.

Lemma effect_emitEvents {S} (server : S → ∀ o : op, answer o * S) rec m evs s :
  (∀ rel e, (server s (OpEvent m rel e)).2 = s) → effect server s (emitEvents rec m evs) = (tt, s).
Proof.
  intros Hev. induction evs as [|e evs IH]; [done|]. cbn [emitEvents]. destruct rec; [|done]. cbn [negb].
  rewrite effect_bind. unfold call. rewrite effect_do, Hev. exact IH.
Qed.

(** ** Retrying on a conflict

    [retry.RetryOnConflict(retry.DefaultRetry, fn)] calls [fn] again while it fails with a
    conflict, a bounded number of times, and returns the last error. It is library code: a
    parameter, with this behaviour as its law. *)
Fixpoint retry_conflict `{KubeLib} {A} (n : nat) (fn : prog (res A)) : prog (res A) :=
  let* r := fn in
  match r, n with
  | Err e, S n => if IsConflict e then retry_conflict n fn else Ret (Err e)
  | r, _ => Ret r
  end.

Class RetryLib := { RetryOnConflict : ∀ {A : Type}, prog (res A) → prog (res A) }.
Class RetryLaws `{KubeLib} `{RetryLib} := {
  retry_law {A : Type} (fn : prog (res A)) : ∃ n, RetryOnConflict fn = retry_conflict n fn
}.

(** An attempt that succeeds is not retried. *)
Lemma effect_retry `{RetryLaws} {S A} (server : S → ∀ o : op, answer o * S) s (fn : prog (res A)) a s' :
  effect server s fn = (Ok a, s') → effect server s (RetryOnConflict fn) = (Ok a, s').
Proof. intros Hfn. destruct (retry_law fn) as [n ->]. destruct n; cbn; by rewrite effect_bind, Hfn. Qed.

(** An attempt that is fine from every history (with [I]) is fine when it is retried. *)
Lemma wp_retry `{RetryLaws} {A} may (I : list event → Prop) h (fn : prog (res A))
    (Q : list event → res A → Prop) :
  (∀ h, I h → wp may h fn (λ h r, Q h r ∧ I h)) → I h → wp may h (RetryOnConflict fn) Q.
Proof.
  intros Hfn Hh. destruct (retry_law fn) as [n ->]. revert h Hh.
  induction n as [|n IH]; intros h Hh; cbn; apply wp_bind; (eapply wp_mono; [by apply Hfn|]);
    intros h' [a|e] [HQ HI]; cbn; [done..|].
  destruct (IsConflict e); [by apply IH|done].
Qed.

(** ** Facts about histories

    [happened h o r]: the call was made and got this answer. *)
Definition happened (h : list event) (o : op) (r : answer o) : Prop := did o r ∈ h.

Lemma happened_here h o r : happened (did o r :: h) o r.
Proof. by left. Qed.
Lemma happened_mono h h' o r : h ⊆ h' → happened h o r → happened h' o r.
Proof. unfold happened. set_solver. Qed.

#[export] Hint Resolve happened_here : operator.

(** The key of a pass, or that of the object read under it. *)
Definition read_key (k : kind) (key : NamespacedName) (h : list event) (x : NamespacedName) : Prop :=
  x = key ∨ ∃ o : obj k, happened h (OpGet k key) (Ok o) ∧ x = objectKey (obj_meta k o).

Lemma read_key_mono k key h h' x : h ⊆ h' → read_key k key h x → read_key k key h' x.
Proof. intros Hsub [?|(o & ? & ?)]; [by left|right; exists o; eauto using happened_mono]. Qed.

(** The objects of the namespace were listed after the object was read under the key. *)
Definition listed (k : kind) (key : NamespacedName) (h : list event) (o : obj k) (all : list (obj k)) : Prop :=
  ∃ l h', h = l ++ did (OpList k (m_Namespace (obj_meta k o)) ∅) (Ok all) :: h' ∧
    happened h' (OpGet k key) (Ok o).

Lemma listed_mono k key l h o all : listed k key h o all → listed k key (l ++ h) o all.
Proof. intros (l' & h' & -> & ?). exists (l ++ l'), h'. by rewrite <-app_assoc. Qed.

Lemma listed_read k key h o all : listed k key h o all → happened h (OpGet k key) (Ok o).
Proof. intros (l & h' & -> & ?). eapply happened_mono; [|done]. set_solver. Qed.

(** Every call of a history was allowed when it was made. *)
Definition history_ok (may : list event → op → Prop) (h : list event) : Prop :=
  ∀ l o r h', h = l ++ did o r :: h' → may h' o.

Lemma history_ok_nil may : history_ok may [].
Proof. by intros [] o r h'. Qed.

Lemma history_ok_cons may h o r : history_ok may h → may h o → history_ok may (did o r :: h).
Proof.
  intros Hh Ho l o' r' h' Heq. destruct l as [|e l].
  - pose proof (f_equal tail Heq) as Ht. pose proof (f_equal (fmap projT1) Heq) as Hf.
    cbn in Ht, Hf. injection Hf as Hf _. by subst.
  - apply (f_equal tail) in Heq. cbn in Heq. by eapply Hh.
Qed.

Lemma history_ok_happened may h o r :
  history_ok may h → happened h o r → ∃ l h', h = l ++ did o r :: h' ∧ may h' o.
Proof. intros Hh (l & h' & ->)%list_elem_of_split. exists l, h'. eauto. Qed.

(** Calls that only read, and events: they change nothing on the server. *)
Definition reads (o : op) : Prop :=
  match o with
  | OpGet _ _ | OpList _ _ _ | OpNow | OpPodLogs _ _ _ _ | OpEvent _ _ _ => True
  | _ => False
  end.

(** One step of [wp] at a call, and at the usual combinators. *)
Lemma wp_call may h o (Q : list event → answer o → Prop) :
  may h o → (∀ r, Q (did o r :: h) r) → wp may h (call o) Q.
Proof. intros ??. by split. Qed.

Lemma wp_call_bind {B} may h o (f : answer o → prog B) (Q : list event → B → Prop) :
  may h o → (∀ r, wp may (did o r :: h) (f r) Q) → wp may h (prog_bind (call o) f) Q.
Proof. intros ??. by split. Qed.

(** Unfolds the wrappers around [call]. *)
Ltac wp_calls :=
  unfold with_result, ok, fail, try_bind, get, list_objects, create, update, updateStatus, deleteObject, Now in *;
  cbn [prog_bind call].

(** Steps over the calls at the head of a program, naming nothing; [tac] proves that the call is
    allowed. *)
Ltac wp_go tac :=
  repeat (lazymatch goal with
  | |- wp _ _ (Do _ _) _ => split; [tac|]; let r := fresh "r" in intros r
  | |- wp _ _ (Ret _) _ => cbn [wp]
  | |- wp _ _ (match ?x with _ => _ end) _ => destruct x eqn:?
  end; cbn [prog_bind call]).

(** The kind and metadata of a deleted object. *)
Definition deletion (o : op) : option (kind * ObjectMeta) :=
  match o with OpDelete k o _ => Some (k, obj_meta k o) | _ => None end.

(** A stretch of history with no read of an object of kind [k]. *)
Definition unread (k : kind) (l : list event) : Prop := ∀ key r, did (OpGet k key) r ∉ l.

Lemma unread_nil k : unread k [].
Proof. intros ??. apply not_elem_of_nil. Qed.

Lemma unread_cons k o a l :
  match o with OpGet _ _ => False | _ => True end → unread k l → unread k (did o a :: l).
Proof.
  intros Ho Hl key x Hx. apply elem_of_cons in Hx as [Heq|Hx]; [|by eapply Hl].
  apply (f_equal projT1) in Heq. cbn in Heq. by subst.
Qed.

(** The history only grows. *)
Lemma wp_extend {A} may h (p : prog A) (Q : list event → A → Prop) :
  wp may h p (λ _ _, True) → (∀ h' a, h ⊆ h' → Q h' a) → wp may h p Q.
Proof.
  intros Hp HQ. assert (∀ h', h ⊆ h' → wp may h' p (λ _ _, True) → wp may h' p Q) as Hgen;
    [|by apply Hgen].
  clear Hp. induction p as [a|o k IH]; cbn; intros h' Hh'; [by intros _; apply HQ|].
  intros [Ho Hk]. split; [done|]. intros x. apply IH; [set_solver|apply Hk].
Qed.

(** A program that only reads can be put in front of any program. *)
Lemma wp_reads_bind_app {A B} may h (p : prog A) (f : A → prog B) (Q : list event → B → Prop) :
  (∀ h o, reads o → may h o) →
  wp (λ _ o, reads o) h p (λ _ _, True) → (∀ l a, wp may (l ++ h) (f a) Q) →
  wp may h (prog_bind p f) Q.
Proof.
  intros Hmay Hp Hf. assert (∀ l, wp (λ _ o, reads o) (l ++ h) p (λ _ _, True) →
    wp may (l ++ h) (prog_bind p f) Q) as Hgen; [|by apply (Hgen [])].
  clear Hp. induction p as [a|o k IH]; cbn; intros l; [by intros _; apply Hf|].
  intros [Ho Hk]. split; [by apply Hmay|]. intros x. apply (IH x (did o x :: l)), Hk.
Qed.

Lemma wp_reads_bind {A B} may h (p : prog A) (f : A → prog B) (Q : list event → B → Prop) :
  (∀ h o, reads o → may h o) →
  wp (λ _ o, reads o) h p (λ _ _, True) → (∀ h' a, h ⊆ h' → wp may h' (f a) Q) →
  wp may h (prog_bind p f) Q.
Proof. intros Hmay Hp Hf. apply wp_reads_bind_app; [done..|]. intros. apply Hf. set_solver. Qed.

Close Scope Z_scope.
