(* ===== verification/QueueSystem.v ===== *)
(** * Many passes of a queue controller at once

    Any number of passes of a controller run against one API server, each with a cache that lags
    behind in its own way, while users create, change and delete objects, passes are cut short and
    answers are lost. [QueueController] states what the system needs of one pass; under it two
    rivals run at once only when the one created later comes first in the queue or a name was used
    again ([system_exclusive]), and every step of the system is a step of the abstract [lifecycle]
    or changes no phase ([system_refines]). *)
From S2P Require Export QueueLog Effects.

(** ** The interface: what one pass promises

    [qc_may] is the condition on the calls of a pass; what it must imply is [write_law]: a status
    write goes to the object of the pass, as last read, changes only its status, gives a phase of
    queue (unless a read of the same name showed an object outside the queue), leaves a finished
    object alone, and starts an object only after a start decision on a list made after reading it. *)
Definition started (k : kind) `{QueueItem (obj k)} (key : NamespacedName) (h : list event) : Prop :=
  ∃ u all, listed k key h u all ∧ may_start (decide_start u all) = true.

Record write_law (k : kind) `{QueueItem (obj k)} (key : NamespacedName) (h : list event) (v cur : obj k)
    : Prop := {
  law_meta : obj_meta k v = obj_meta k cur;
  law_fixed : qi_group v = qi_group cur ∧ qi_ignored v = qi_ignored cur;
  law_phase : qi_ignored cur = false →
    qi_phase v = qi_phase cur ∨
    (active cur ∧
     ((qi_phase v ∈ ["Pending"; "Running"; "Succeeded"; "Failed"] ∧
       (qi_phase v = "Pending" → qi_phase cur ≠ "Running") ∧
       (qi_phase v = "Running" → started k key h)) ∨
      ∃ b, happened h (OpGet k key) (Ok b) ∧ qi_ignored b = true))
}.

Class QueueController (k : kind) `{QueueItem (obj k)} := {
  qc_pass : NamespacedName → prog (res Result);
  qc_may : NamespacedName → list event → op → Prop;
  qc_allowed key : wp (qc_may key) [] (qc_pass key) (λ _ _, True);
  qc_name o : qi_name o = m_Name (obj_meta k o);
  qc_created o : qi_created o = m_CreationTimestamp (obj_meta k o);
  qc_write key h v :
    history_ok (qc_may key) h → qc_may key h (OpStatusUpdate k v) →
    ∃ x cur, happened h (OpGet k x) (Ok cur) ∧ read_key k key h x ∧ write_law k key h v cur
}.

(** ** The abstract lifecycle

    What a queue promises to its users: each object of the queue has a group and a phase, a finished
    phase is final, and an object starts only when no other object of its group runs, save for the
    pairs of names in [overlap]. For a name in [stray], which changed between the queue and what the
    queue ignores, nothing is said of the phase. *)
Inductive life_label := Created | Deleted | Moved | Silent | Stray.
#[export] Instance life_label_eq_dec : EqDecision life_label.
Proof. solve_decision. Defined.

Abbreviation phases := (gmap string (string * string)).

Section Lifecycle.
Context (stray : string → Prop) (overlap : string → string → Prop).

Inductive lifecycle : life_label → phases → phases → Prop :=
  | life_create m n g : m !! n = None → lifecycle Created m (<[n := (g, "")]> m)
  | life_delete m n : lifecycle Deleted m (delete n m)
  | life_move m n g p q :
      m !! n = Some (g, p) → p ∈ [""; "Pending"; "Running"] → q ≠ p →
      q ∈ ["Pending"; "Running"; "Succeeded"; "Failed"] →
      (q = "Pending" → p ≠ "Running") →
      (q = "Running" → ∀ n', n' ≠ n → m !! n' = Some (g, "Running") → overlap n' n) →
      lifecycle Moved m (<[n := (g, q)]> m)
  | life_silent m : lifecycle Silent m m
  | life_stray m n g p q : stray n → m !! n = Some (g, p) → lifecycle Stray m (<[n := (g, q)]> m).

Inductive lifecycle_run : list life_label → phases → phases → Prop :=
  | run_nil m : lifecycle_run [] m m
  | run_cons l ls m1 m2 m3 :
      lifecycle l m1 m2 → lifecycle_run ls m2 m3 → lifecycle_run (l :: ls) m1 m3.
End Lifecycle.

(** More excuses allow more. *)
Lemma lifecycle_mono (S S' : string → Prop) (O O' : string → string → Prop) l m m' :
  (∀ n, S n → S' n) → (∀ n n', O n n' → O' n n') → lifecycle S O l m m' → lifecycle S' O' l m m'.
Proof.
  intros HS HO [? n g ?|? n|? n g p q ? ? ? ? ? Hrun|?|? n g p q ? ?];
    [by constructor|by constructor| |by constructor|].
  - apply life_move with p; try done. intros Hq n' Hne Hn'. by apply HO, Hrun.
  - apply life_stray with p; auto.
Qed.

Lemma lifecycle_run_mono (S S' : string → Prop) (O O' : string → string → Prop) ls m m' :
  (∀ n, S n → S' n) → (∀ n n', O n n' → O' n n') → lifecycle_run S O ls m m' → lifecycle_run S' O' ls m m'.
Proof. intros HS HO. induction 1; econstructor; [by eapply lifecycle_mono|done]. Qed.

Definition occurrences (l : life_label) (ls : list life_label) : nat :=
  length (filter (λ x, x = l) ls).

(** How often the phase of an object can still change. *)
Definition rank (p : string) : nat :=
  if String.eqb p "" then 3 else if String.eqb p "Pending" then 2
  else if String.eqb p "Running" then 1 else 0.
Definition work (m : phases) : nat := map_fold (λ _ gp n, rank gp.2 + n) 0 m.

Lemma work_insert m n gp : m !! n = None → work (<[n := gp]> m) = rank gp.2 + work m.
Proof. intros. apply (map_fold_insert_L (λ _ gp n, rank gp.2 + n)); [intros; lia|done]. Qed.
Lemma work_delete m n gp : m !! n = Some gp → work m = rank gp.2 + work (delete n m).
Proof. intros. apply (map_fold_delete_L (λ _ gp n, rank gp.2 + n)); [intros; lia|done]. Qed.
Lemma work_update m n gp gp' :
  m !! n = Some gp → work (<[n := gp']> m) + rank gp.2 = work m + rank gp'.2.
Proof.
  intros Hn. rewrite <-insert_delete_eq, work_insert, (work_delete m n gp) by (done || apply lookup_delete_eq).
  lia.
Qed.

(** Between two creations only so many phase changes fit. *)
Lemma lifecycle_work O l m m' :
  lifecycle (λ _, False) O l m m' →
  work m' + (if decide (l = Moved) then 1 else 0) ≤ work m + (if decide (l = Created) then 3 else 0).
Proof.
  destruct 1 as [m n g Hn|m n|m n g p q Hn Hp Hne Hq Hpr _|m|m n g p q []]; repeat case_decide; try done; cbn.
  - rewrite work_insert by done. cbn. lia.
  - destruct (m !! n) as [gp|] eqn:Hn; [|rewrite delete_id by done; lia].
    rewrite (work_delete m n gp) by done. lia.
  - pose proof (work_update m n (g, p) (g, q) Hn) as Hw. cbn in Hw.
    assert (rank q < rank p); [|lia]. set_unfold in Hp. set_unfold in Hq.
    destruct_or? Hp; destruct_or? Hq; subst; try done; try (unfold rank; cbn; lia).
    by destruct (Hpr eq_refl).
Qed.

Lemma lifecycle_settles O ls m m' :
  lifecycle_run (λ _, False) O ls m m' → work m' + occurrences Moved ls ≤ work m + 3 * occurrences Created ls.
Proof.
  induction 1 as [m|l ls m1 m2 m3 Hl _ IH]; [cbn; lia|].
  apply lifecycle_work in Hl. unfold occurrences in *. rewrite !filter_cons.
  destruct l; repeat case_decide; cbn; simplify_eq; lia.
Qed.

Lemma work_bound m : work m ≤ 3 * size m.
Proof.
  induction m as [|n gp m Hn IH] using map_ind; [done|].
  rewrite work_insert, map_size_insert_None by done. unfold rank. repeat case_match; lia.
Qed.

Section System.
Context (k : kind) `{QueueController k} (ns : string).
Implicit Types (log : list (change (obj k))) (o u v cur : obj k).

Definition uid_of o : string := m_UID (obj_meta k o).
Definition version_of o : string := m_ResourceVersion (obj_meta k o).

Abbreviation log_ok := (log_ok uid_of version_of).
Abbreviation same := (same uid_of).
Abbreviation ticketed := (ticketed uid_of).
Abbreviation ticket := (ticket uid_of).
Abbreviation reused := (reused uid_of).
Abbreviation may_overlap := (may_overlap uid_of).

(** A pass under way: the newest change its cache has seen, its key, its history and the rest of
    its program. The object of the key may be deleted and created again while the pass runs. *)
Record thread := {
  th_seen : nat;
  th_key : NamespacedName;
  th_hist : list event;
  th_prog : prog (res Result)
}.

Record system := { sys_log : list (change (obj k)); sys_threads : list thread }.

(** What the cache answers at the change [i]: reads of other kinds and failures are not limited. *)
Record answered log (i : nat) (e : event) : Prop := {
  answered_get x u : e = did (OpGet k x) (Ok u) → nn_Namespace x = ns →
    snapshot log i !! nn_Name x = Some u;
  answered_list all : e = did (OpList k ns ∅) (Ok all) →
    ∀ o, o ∈ all ↔ ∃ n, snapshot log i !! n = Some o
}.

(** The server accepts the status [v]: the object it holds has the version of [v]; what it stores
    is that object with the phase of [v] and a version of its own. *)
Record stored log v u : Prop := {
  stored_cur : ∃ cur, replay log !! qi_name v = Some cur ∧ version_of cur = version_of v ∧
    same cur u ∧ qi_group u = qi_group cur;
  stored_phase : qi_phase u = qi_phase v;
  stored_namespace : m_Namespace (obj_meta k u) = ns;
  stored_version b : Put b ∈ log → version_of b ≠ version_of u
}.

(** A change by someone else: the status of an object is the controller's. *)
Definition outside log (ch : change (obj k)) : Prop :=
  change_ok uid_of version_of log ch ∧
  match ch with
  | Put a => m_Namespace (obj_meta k a) = ns ∧
             ∀ b, replay log !! qi_name a = Some b → qi_phase a = qi_phase b
  | Remove _ => True
  end.

Definition advance (t : thread) (i : nat) (e : event) (p : prog (res Result)) : thread :=
  {| th_seen := i; th_key := th_key t; th_hist := e :: th_hist t; th_prog := p |}.

Definition new_thread (i : nat) (key : NamespacedName) : thread :=
  {| th_seen := i; th_key := key; th_hist := []; th_prog := qc_pass key |}.

(** One step: someone changes an object, a pass starts, a pass makes a call, a status write of a
    pass is accepted (whatever answer the pass gets), a pass ends or is cut short. *)
Inductive step : system → system → Prop :=
  | step_outside log ths ch :
      outside log ch →
      step {| sys_log := log; sys_threads := ths |} {| sys_log := log ++ [ch]; sys_threads := ths |}
  | step_start log ths i key :
      i ≤ length log → nn_Namespace key = ns →
      step {| sys_log := log; sys_threads := ths |}
           {| sys_log := log; sys_threads := new_thread i key :: ths |}
  | step_call log l1 l2 t i x c a :
      th_prog t = Do x c → th_seen t ≤ i → i ≤ length log →
      answered log i (did x a) →
      step {| sys_log := log; sys_threads := l1 ++ t :: l2 |}
           {| sys_log := log; sys_threads := l1 ++ advance t i (did x a) (c a) :: l2 |}
  | step_write log l1 l2 t v c a u :
      th_prog t = Do (OpStatusUpdate k v) c → stored log v u →
      step {| sys_log := log; sys_threads := l1 ++ t :: l2 |}
           {| sys_log := log ++ [Put u];
              sys_threads := l1 ++ advance t (th_seen t) (did (OpStatusUpdate k v) a) (c a) :: l2 |}
  | step_stop log l1 l2 t :
      step {| sys_log := log; sys_threads := l1 ++ t :: l2 |}
           {| sys_log := log; sys_threads := l1 ++ l2 |}.

Definition initial : system := {| sys_log := []; sys_threads := [] |}.
Definition reachable (s : system) : Prop := rtc step initial s.

(** ** Histories and the cache *)
Fixpoint seen_ok log (i : nat) (h : list event) : Prop :=
  match h with
  | [] => True
  | e :: h => ∃ j, j ≤ i ∧ answered log j e ∧ seen_ok log j h
  end.

Lemma seen_weaken log i i' h : i ≤ i' → seen_ok log i h → seen_ok log i' h.
Proof. destruct h as [|e h]; [done|]. intros Hi (j & Hj & ?). exists j. split; [lia|done]. Qed.

Lemma seen_suffix log i l h :
  seen_ok log i (l ++ h) → seen_ok log i h.
Proof.
  revert i. induction l as [|e l IH]; intros i; [done|]. intros (j & Hj & _ & Hl).
  eapply seen_weaken; [exact Hj|]. by apply IH.
Qed.

Lemma seen_happened log i h x r :
  seen_ok log i h → happened h x r → ∃ j, j ≤ i ∧ answered log j (did x r).
Proof.
  intros Hseen (l & h' & ->)%list_elem_of_split. apply seen_suffix in Hseen as (j & Hj & Ha & _). eauto.
Qed.

Lemma answered_app log l i e :
  i ≤ length log → answered log i e → answered (log ++ l) i e.
Proof. intros Hi [Hg Hl]. split; by rewrite snapshot_app. Qed.

Lemma seen_app log l i h :
  i ≤ length log → seen_ok log i h → seen_ok (log ++ l) i h.
Proof.
  revert i. induction h as [|e h IH]; intros i Hi; [done|]. intros (j & Hj & Ha & Hh). exists j.
  split_and!; [done|apply answered_app; [lia|done]|apply IH; [lia|done]].
Qed.

Lemma written_answered log i v a : answered log i (did (OpStatusUpdate k v) a).
Proof. split; intros; match goal with E : _ = _ |- _ => apply (f_equal projT1) in E end; done. Qed.

(** ** The invariant *)
Record thread_ok log (t : thread) : Prop := {
  to_seen : th_seen t ≤ length log;
  to_namespace : nn_Namespace (th_key t) = ns;
  to_reads : seen_ok log (th_seen t) (th_hist t);
  to_calls : history_ok (qc_may (th_key t)) (th_hist t);
  to_prog : wp (qc_may (th_key t)) (th_hist t) (th_prog t) (λ _ _, True)
}.

Record system_ok (s : system) : Prop := {
  so_log : log_ok (sys_log s);
  so_namespace o : Put o ∈ sys_log s → m_Namespace (obj_meta k o) = ns;
  so_tickets : ticketed (sys_log s);
  so_threads : Forall (thread_ok (sys_log s)) (sys_threads s)
}.

Lemma thread_ok_app log l t : thread_ok log t → thread_ok (log ++ l) t.
Proof. intros []. split; [rewrite length_app; lia|done|by apply seen_app|done|done]. Qed.

Lemma thread_ok_call log t i x c a :
  thread_ok log t → th_prog t = Do x c → th_seen t ≤ i → i ≤ length log →
  answered log i (did x a) → thread_ok log (advance t i (did x a) (c a)).
Proof.
  intros [Hs Hn Hr Hc Hp] Hprog Hi Hlen Hans. rewrite Hprog in Hp. destruct Hp as [Hmay Hp].
  split; cbn; [done|done| |by apply history_ok_cons|apply Hp].
  exists i. split_and!; [done|done|]. by eapply seen_weaken.
Qed.

(** What a pass has read under a key of the namespace: an object of the log, the one of the pass. *)
Lemma read_own log t x u :
  system_ok {| sys_log := log; sys_threads := [] |} → thread_ok log t →
  happened (th_hist t) (OpGet k x) (Ok u) → read_key k (th_key t) (th_hist t) x →
  ∃ j, j ≤ th_seen t ∧ snapshot log j !! nn_Name (th_key t) = Some u.
Proof.
  intros Hok [Hs Hn Hr _ _] Hget Hkey.
  assert (∀ o, happened (th_hist t) (OpGet k (th_key t)) (Ok o) → objectKey (obj_meta k o) = th_key t) as Hself.
  { intros o Ho. destruct (seen_happened _ _ _ _ _ Hr Ho) as (j & Hj & [Hans _]).
    pose proof (Hans _ _ eq_refl Hn) as Ha. apply snapshot_elem in Ha as [Hin Hname].
    apply (so_namespace _ Hok) in Hin. rewrite qc_name in Hname. unfold objectKey.
    rewrite Hin, Hname. destruct (th_key t) as [n0 n1]. cbn in Hn. by subst. }
  assert (x = th_key t) as -> by (destruct Hkey as [|(o & Ho & ->)]; [done|by apply Hself]).
  destruct (seen_happened _ _ _ _ _ Hr Hget) as (j & Hj & [Hans _]).
  pose proof (Hans _ _ eq_refl Hn). exists j. auto.
Qed.
(** ** An accepted write *)
Section Write.
Context (log : list (change (obj k))) (t : thread) (v : obj k) (c : answer (OpStatusUpdate k v) → prog (res Result)).
Context (u : obj k).
Context (Hok : system_ok {| sys_log := log; sys_threads := [] |}) (Ht : thread_ok log t).
Context (Hprog : th_prog t = Do (OpStatusUpdate k v) c) (Hstored : stored log v u).

(** The stored object is the one the pass read, and the law holds of the write. *)
Lemma write_current :
  ∃ cur, replay log !! qi_name u = Some cur ∧ same cur u ∧ qi_group u = qi_group cur ∧
    nn_Name (th_key t) = qi_name u ∧ qi_phase u = qi_phase v ∧
    write_law k (th_key t) (th_hist t) v cur.
Proof.
  assert (Htok := Ht). destruct Htok as [Hs Hn Hr Hc Hp]. rewrite Hprog in Hp. destruct Hp as [Hmay _].
  destruct (qc_write _ _ _ Hc Hmay) as (x & cur & Hget & Hkey & Hlaw).
  destruct (read_own log t x cur Hok Ht Hget Hkey) as (j & Hj & Hsnap).
  destruct (stored_cur _ _ _ Hstored) as (cur' & Hcur' & Hver & Hsame & Hgroup).
  assert (cur' = cur) as ->.
  { apply (same_version uid_of version_of log); [apply Hok|by apply replay_elem in Hcur' as []|
      by apply snapshot_elem in Hsnap as []|].
    rewrite Hver. unfold version_of. by rewrite (law_meta _ _ _ _ _ Hlaw). }
  assert (qi_name v = qi_name u) as Hname.
  { destruct Hsame as [<- _]. rewrite !qc_name. by rewrite (law_meta _ _ _ _ _ Hlaw). }
  exists cur. rewrite <-Hname. split_and!; try done; [|by apply stored_phase with log].
  apply snapshot_elem in Hsnap as [_ <-]. rewrite Hname. apply Hsame.
Qed.

(** In the queue, the phase is kept, or an active object gets a phase of the queue, unless the pass
    read an object outside the queue under the same name. *)
Lemma write_phase cur :
  replay log !! qi_name u = Some cur → qi_ignored cur = false → nn_Name (th_key t) = qi_name u →
  write_law k (th_key t) (th_hist t) v cur →
  qi_phase v = qi_phase cur ∨
  (active cur ∧
   ((qi_phase v ∈ ["Pending"; "Running"; "Succeeded"; "Failed"] ∧
     (qi_phase v = "Pending" → qi_phase cur ≠ "Running") ∧
     (qi_phase v = "Running" → started k (th_key t) (th_hist t))) ∨
    switched log (qi_name u))).
Proof.
  intros Hcur Hi Hname Hlaw. destruct (law_phase _ _ _ _ _ Hlaw Hi) as [|[Hact [|(b & Hb & Hbi)]]]; [auto..|].
  destruct (read_own log t (th_key t) b Hok Ht Hb (or_introl eq_refl)) as (j & _ & Hsnap).
  apply snapshot_elem in Hsnap as [Hin Hn]. apply replay_elem in Hcur as [Hc Hnc].
  right. split; [done|]. right. exists cur, b. split_and!; congruence.
Qed.

(** A start decision of the pass is a ticket for its object, if the name stood for no other one. *)
Lemma write_ticket cur :
  replay log !! nn_Name (th_key t) = Some cur → started k (th_key t) (th_hist t) →
  reused log (nn_Name (th_key t)) ∨ ticket log cur.
Proof.
  intros Hcur (w & all & (l & h' & Hh & Hw) & Hmay). assert (Htok := Ht). destruct Htok as [Hs Hn Hr _ _].
  rewrite Hh in Hr. apply seen_suffix in Hr as (i1 & Hi1 & [_ Hlist] & Hr).
  destruct (seen_happened _ _ _ _ _ Hr Hw) as (i0 & Hi0 & [Hget _]).
  pose proof (Hget _ _ eq_refl Hn) as Hsnap. assert (Hin := Hsnap). apply snapshot_elem in Hin as [Hin Hnw].
  rewrite (so_namespace _ Hok _ Hin) in Hlist. specialize (Hlist _ eq_refl).
  destruct (decide (uid_of w = uid_of cur)) as [Huw|Huw].
  2: { left. exists w, cur. apply replay_elem in Hcur as [? ?]. split_and!; done. }
  right. apply (ticket_new uid_of version_of log i0 i1 (nn_Name (th_key t)) w cur all); try done; [apply Hok|lia|].
  intros m o Ho. apply Hlist. by exists m.
Qed.

Lemma write_change_ok : change_ok uid_of version_of log (Put u).
Proof.
  destruct write_current as (cur & Hcur & Hsame & Hgroup & Hname & Hphase & Hlaw).
  split; [by apply (stored_version _ _ _ Hstored)|].
  assert (qi_ignored cur = qi_ignored u) as Hig by apply Hsame.
  pose proof (write_phase cur Hcur) as Hp. rewrite Hig, <-Hphase in Hp. split.
  - destruct (qi_ignored u) eqn:Hi; [left; by intros ?; congruence|].
    assert (Hn := Hcur). apply replay_elem in Hn as [Hin Hn].
    destruct (log_typed uid_of version_of log cur (so_log _ Hok) Hin) as [Ht0|]; [|right; congruence].
    destruct (Hp eq_refl Hname Hlaw) as [Heq|(_ & [(Hq & _)|])]; [left; intros _..|by right].
    + specialize (Ht0 Hig). unfold finished, running, waiting in *. by rewrite Heq.
    + unfold finished, running, waiting. set_solver.
  - rewrite Hcur. split; [done|]. rewrite Hig. intros Hi.
    destruct (Hp Hi Hname Hlaw) as [|[]]; auto.
Qed.

Lemma write_ticketed : ticketed (log ++ [Put u]).
Proof.
  destruct write_current as (cur & Hcur & Hsame & Hgroup & Hname & Hphase & Hlaw).
  intros n y Hy Hrun Hi. apply put_cases in Hy as [[[= <-] Hn]|Hy].
  2: { destruct (so_tickets _ Hok n y Hy Hrun Hi); auto using ticket_app, reused_app. }
  assert (qi_ignored cur = false) as Hic by (destruct Hsame as (_ & _ & _ & -> & _); done).
  assert (reused log n ∨ ticket log cur) as [|Htk]; [|left; by apply reused_app|].
  - subst n. unfold running in Hrun. destruct (write_phase cur Hcur Hic Hname Hlaw) as [Hp|(_ & [(_ & _ & Hst)|Hsw])].
    + apply (so_tickets _ Hok _ _ Hcur); [|done]. unfold running. congruence.
    + rewrite <-Hname. apply write_ticket; [by rewrite Hname|]. apply Hst. congruence.
    + left. by apply switched_reused with version_of; [apply Hok|].
  - right. by apply ticket_app, (ticket_same uid_of version_of log cur).
Qed.
End Write.

(** ** The invariant holds of every reachable system *)
Lemma system_ok_threads log ths :
  system_ok {| sys_log := log; sys_threads := ths |} → system_ok {| sys_log := log; sys_threads := [] |}.
Proof. intros []. by split. Qed.

Lemma outside_ticketed log ch :
  system_ok {| sys_log := log; sys_threads := [] |} → outside log ch → ticketed (log ++ [ch]).
Proof.
  intros Hok [Hch Hout] n y Hy Hrun Hi.
  assert (reused log n ∨ ticket log y) as [|]; [|by left; apply reused_app|by right; apply ticket_app].
  apply put_cases in Hy as [[-> Hn]|Hy]; [|by apply (so_tickets _ Hok)]. subst n.
  destruct Hch as (_ & _ & Hch), Hout as [_ Hout].
  destruct (replay log !! qi_name y) as [b|] eqn:Hb.
  - destruct Hch as [Hsame _]. specialize (Hout b eq_refl).
    destruct (so_tickets _ Hok (qi_name y) b Hb) as [|Htk]; [unfold running in *; congruence| |by left|].
    + destruct Hsame as (_ & _ & _ & -> & _). done.
    + right. by apply (ticket_same uid_of version_of log b).
  - destruct Hch as [Hnew _]. unfold running in Hrun. congruence.
Qed.

Lemma system_ok_grow log ch ths :
  system_ok {| sys_log := log; sys_threads := ths |} → change_ok uid_of version_of log ch →
  match ch with Put a => m_Namespace (obj_meta k a) = ns | Remove _ => True end →
  ticketed (log ++ [ch]) → system_ok {| sys_log := log ++ [ch]; sys_threads := ths |}.
Proof.
  intros [Hl Hn _ Ht] Hch Hns Htick. split; cbn in *; [by constructor| |done|].
  - intros o [Ho| ->]%elem_snoc_put; [by apply Hn|done].
  - eapply Forall_impl; [exact Ht|]. intros t. apply thread_ok_app.
Qed.

Lemma step_ok s s' : system_ok s → step s s' → system_ok s'.
Proof.
  intros Hok Hstep. destruct Hstep as [log ths ch Hout|log ths i key Hi Hn|log l1 l2 t i x c a Hp Hs Hi Ha
    |log l1 l2 t v c a u Hp Hst|log l1 l2 t]; assert (Hok0 := system_ok_threads _ _ Hok).
  - apply system_ok_grow; [done|apply Hout| |by apply outside_ticketed].
    destruct Hout as [_ Hout]. by destruct ch; [destruct Hout|].
  - destruct Hok as [Hl Hns Ht Hths]. split; [done..|]. constructor; [|done].
    split; cbn; [done..|apply history_ok_nil|apply qc_allowed].
  - destruct Hok as [Hl Hns Ht Hths]. split; [done..|]. cbn in *.
    apply Forall_app in Hths as [H1 [Hth H2]%Forall_cons]. apply Forall_app. split; [done|].
    constructor; [|done]. by apply thread_ok_call.
  - assert (Forall (thread_ok log) (l1 ++ t :: l2)) as Hths by apply Hok.
    apply Forall_app in Hths as [H1 [Hth H2]%Forall_cons].
    apply system_ok_grow; [|by eapply write_change_ok|apply Hst|by eapply write_ticketed].
    split; [apply Hok..|]. apply Forall_app. split; [done|]. constructor; [|done].
    apply thread_ok_call; [done..|apply Hth|apply written_answered].
  - destruct Hok as [Hl Hns Ht Hths]. split; [done..|]. cbn in *.
    apply Forall_app in Hths as [H1 [_ H2]%Forall_cons]. by apply Forall_app.
Qed.

Lemma reachable_ok s : reachable s → system_ok s.
Proof.
  intros Hr. assert (system_ok initial) as Hinit.
  { split; cbn; [constructor|set_solver| |done]. intros n y Hy. by rewrite <-snapshot_now, snapshot_nil in Hy. }
  revert Hinit. unfold reachable in Hr. induction Hr as [|s1 s2 s3 Hstep _ IH]; [done|].
  intros Hok. apply IH. by eapply step_ok.
Qed.

(** ** Mutual exclusion

    Two rivals that run at once were not created in the order of the queue, or a name was used
    again. *)
Lemma ok_exclusive s n1 n2 y1 y2 :
  system_ok s → replay (sys_log s) !! n1 = Some y1 → replay (sys_log s) !! n2 = Some y2 →
  rival y1 y2 → running y1 → running y2 → may_overlap (sys_log s) n1 n2.
Proof.
  intros Hok H1 H2 Hr R1 R2.
  destruct (so_tickets _ Hok n1 y1 H1 R1) as [|T1]; [apply Hr|by left|].
  destruct (so_tickets _ Hok n2 y2 H2 R2) as [|T2]; [apply Hr|by right; left|].
  destruct (decide (reused (sys_log s) n1)); [by left|].
  destruct (decide (reused (sys_log s) n2)); [by right; left|].
  destruct (tickets_exclusive uid_of version_of (sys_log s) n1 n2 y1 y2) as [Ho|Ho]; auto using running_active; [apply Hok|..];
    right; right; exists y1, y2; pose proof (replay_elem _ _ _ H1); pose proof (replay_elem _ _ _ H2); tauto.
Qed.

Lemma system_exclusive s n1 n2 y1 y2 :
  reachable s → replay (sys_log s) !! n1 = Some y1 → replay (sys_log s) !! n2 = Some y2 →
  rival y1 y2 → running y1 → running y2 → may_overlap (sys_log s) n1 n2.
Proof. intros ?%reachable_ok. by apply ok_exclusive. Qed.

(** ** Refinement *)
Definition queue_view (o : obj k) : option (string * string) :=
  if qi_ignored o then None else Some (qi_group o, qi_phase o).
Definition phases_of (s : system) : phases := omap queue_view (replay (sys_log s)).

Lemma view_put log u b ths ths' :
  replay log !! qi_name u = Some b → same b u → qi_phase b = qi_phase u ∨ qi_ignored u = true →
  phases_of {| sys_log := log ++ [Put u]; sys_threads := ths |} =
  phases_of {| sys_log := log; sys_threads := ths' |}.
Proof.
  intros Hb Hsame Hp. unfold phases_of. cbn [sys_log]. rewrite replay_snoc. cbn [apply_change].
  apply map_eq. intros n. rewrite !lookup_omap.
  destruct (decide (n = qi_name u)) as [->|]; [|by rewrite lookup_insert_ne].
  rewrite lookup_insert_eq, Hb. cbn. unfold queue_view.
  destruct Hsame as (_ & _ & _ & Hi & Hg). rewrite Hi. rewrite Hi in Hg. destruct (qi_ignored u); [done|].
  rewrite Hg by done. destruct Hp as [->|]; done.
Qed.

(** A move of the lifecycle, with the excuses that a log gives. *)
Definition excused log : life_label → phases → phases → Prop := lifecycle (switched log) (may_overlap log).

Lemma excused_app log l lab m m' : excused log lab m m' → excused (log ++ l) lab m m'.
Proof. apply lifecycle_mono; intros; [by apply switched_app|by apply may_overlap_app]. Qed.

Lemma outside_refines log ch ths ths' :
  system_ok {| sys_log := log; sys_threads := [] |} → outside log ch →
  ∃ l, excused (log ++ [ch]) l (phases_of {| sys_log := log; sys_threads := ths |})
    (phases_of {| sys_log := log ++ [ch]; sys_threads := ths' |}).
Proof.
  intros Hok [Hch Hout]. destruct ch as [a|n].
  2: { exists Deleted. unfold phases_of. cbn [sys_log]. rewrite replay_snoc. cbn [apply_change].
       rewrite omap_delete. constructor. }
  destruct Hch as (_ & _ & Hch), Hout as [_ Hout]. destruct (replay log !! qi_name a) as [b|] eqn:Hb.
  - exists Silent. destruct Hch as [Hsame _]. rewrite (view_put log a b ths' ths); [constructor|done|done|].
    left. symmetry. by apply Hout.
  - destruct Hch as [Hnew _]. unfold phases_of. cbn [sys_log]. rewrite replay_snoc. cbn [apply_change].
    assert (omap queue_view (replay log) !! qi_name a = None) as Hnone by by rewrite lookup_omap, Hb.
    rewrite omap_insert. unfold queue_view at 2. destruct (qi_ignored a).
    + exists Silent. rewrite delete_id by done. constructor.
    + exists Created. rewrite Hnew. by constructor.
Qed.

Lemma write_refines log t v c u ths ths' :
  system_ok {| sys_log := log; sys_threads := [] |} → thread_ok log t →
  th_prog t = Do (OpStatusUpdate k v) c → stored log v u →
  ∃ l, excused (log ++ [Put u]) l (phases_of {| sys_log := log; sys_threads := ths |})
    (phases_of {| sys_log := log ++ [Put u]; sys_threads := ths' |}).
Proof.
  intros Hok Ht Hprog Hst.
  destruct (write_current log t v c u Hok Ht Hprog Hst) as (cur & Hcur & Hsame & Hgroup & Hname & Hphase & Hlaw).
  destruct (decide (qi_phase cur = qi_phase u ∨ qi_ignored u = true)) as [Hsilent|Hmove].
  { exists Silent. rewrite (view_put log u cur ths' ths) by done. constructor. }
  assert (qi_ignored u = false) as Hiu by (destruct (qi_ignored u); naive_solver).
  assert (qi_ignored cur = false) as Hic by (destruct Hsame as (_ & _ & _ & -> & _); done).
  assert (Hin := Hcur). apply replay_elem in Hin as [Hin Hnc].
  set (m := phases_of _). assert (m !! qi_name u = Some (qi_group u, qi_phase cur)) as Hm.
  { unfold m, phases_of. rewrite lookup_omap. cbn [sys_log]. rewrite Hcur. cbn. unfold queue_view. by rewrite Hic, Hgroup. }
  assert (phases_of {| sys_log := log ++ [Put u]; sys_threads := ths' |} =
    <[qi_name u := (qi_group u, qi_phase u)]> m) as ->.
  { unfold m, phases_of. cbn [sys_log]. rewrite replay_snoc. cbn [apply_change].
    apply omap_insert_Some. unfold queue_view. by rewrite Hiu. }
  assert (switched log (qi_name u) → ∃ l, excused (log ++ [Put u]) l m (<[qi_name u := (qi_group u, qi_phase u)]> m)) as Hstray.
  { intros Hsw. exists Stray. apply life_stray with (qi_phase cur); [by apply switched_app|done]. }
  destruct (write_phase log t v u Hok Ht cur Hcur Hic Hname Hlaw) as [|(Hact & [(Hq & Hpend & Hrun)|])]; [naive_solver congruence| |by auto].
  destruct (log_typed uid_of version_of log cur (so_log _ Hok) Hin) as [Htyped|]; [|rewrite Hnc in *; by auto].
  exists Moved. rewrite Hphase. apply life_move with (qi_phase cur); [done| | |done|done|].
  - unfold active, running, waiting in *. destruct (Htyped Hic) as [|[|[]]]; set_solver.
  - intros Heq. apply Hmove. left. congruence.
  - intros Hr n' Hne Hother. apply lookup_omap_Some in Hother as (y & Hy & Hlook).
    unfold queue_view in Hy. destruct (qi_ignored y) eqn:Hiy; [done|]. injection Hy as Hg Hyr.
    apply replay_elem in Hlook as Hn. destruct Hn as [_ Hn].
    apply (ok_exclusive {| sys_log := log ++ [Put u]; sys_threads := [] |} n' (qi_name u) y u).
    + apply system_ok_grow; [done|by eapply write_change_ok|apply Hst|by eapply write_ticketed].
    + cbn [sys_log]. rewrite replay_snoc. cbn [apply_change]. by rewrite lookup_insert_ne.
    + cbn [sys_log]. rewrite replay_snoc. cbn [apply_change]. by rewrite lookup_insert_eq.
    + unfold rival. split_and!; congruence.
    + done.
    + unfold running. congruence.
Qed.

(** Every step of the system is a step of the lifecycle. *)
Lemma step_refines s s' :
  system_ok s → step s s' → ∃ l, excused (sys_log s') l (phases_of s) (phases_of s').
Proof.
  intros Hok Hstep. destruct Hstep as [log ths ch Hout|log ths i key Hi Hn|log l1 l2 t i x c a Hp Hs Hi Ha
    |log l1 l2 t v c a u Hp Hst|log l1 l2 t]; assert (Hok0 := system_ok_threads _ _ Hok).
  - by apply outside_refines.
  - exists Silent. constructor.
  - exists Silent. constructor.
  - assert (Forall (thread_ok log) (l1 ++ t :: l2)) as Hths by apply Hok.
    apply Forall_app in Hths as [_ [Hth _]%Forall_cons]. by eapply write_refines.
  - exists Silent. constructor.
Qed.

Lemma step_grows s s' : step s s' → ∃ l, sys_log s' = sys_log s ++ l.
Proof. destruct 1; cbn; (by exists []; rewrite app_nil_r) || eauto. Qed.
Lemma steps_grow s s' : rtc step s s' → ∃ l, sys_log s' = sys_log s ++ l.
Proof.
  induction 1 as [s|s1 s2 s3 (l & Hl)%step_grows _ (l' & Hl')]; [by exists []; rewrite app_nil_r|].
  exists (l ++ l'). by rewrite Hl', Hl, app_assoc.
Qed.

Lemma system_refines s s' :
  reachable s → rtc step s s' →
  ∃ ls, lifecycle_run (switched (sys_log s')) (may_overlap (sys_log s')) ls (phases_of s) (phases_of s').
Proof.
  intros Hr%reachable_ok Hsteps. induction Hsteps as [s|s1 s2 s3 Hstep Hsteps IH].
  - exists []. constructor.
  - destruct (step_refines s1 s2 Hr Hstep) as (l & Hl).
    destruct IH as (ls & Hls); [by eapply step_ok|]. exists (l :: ls). econstructor; [|exact Hls].
    destruct (steps_grow s2 s3 Hsteps) as (l' & ->). by apply excused_app.
Qed.
(** ** Settling

    When the queue ignores no object, only so many steps of a run without creations change a phase;
    the others remove objects or change nothing the queue reads. *)
Section Settle.
Definition no_creation (s s' : system) : Prop :=
  ∀ n, phases_of s !! n = None → phases_of s' !! n = None.
Definition phase_changes (f : nat → system) (n : nat) : nat :=
  length (filter (λ i, ¬ phases_of (f (S i)) ⊆ phases_of (f i)) (seq 0 n)).

Context (Hall : ∀ o, qi_ignored o = false).

Lemma never_switched log n : ¬ switched log n.
Proof. intros (a & b & _ & _ & _ & _ & _ & Hb). by rewrite Hall in Hb. Qed.

Lemma step_work s s' :
  system_ok s → step s s' → no_creation s s' →
  work (phases_of s') + (if decide (phases_of s' ⊆ phases_of s) then 0 else 1) ≤ work (phases_of s).
Proof.
  intros Hok Hstep Hno. destruct (step_refines s s' Hok Hstep) as (l & Hl).
  apply (lifecycle_mono _ (λ _, False) _ (may_overlap (sys_log s'))) in Hl; [|intros n; apply never_switched|done].
  pose proof (lifecycle_work _ _ _ _ Hl) as Hw. unfold no_creation in Hno. revert Hno Hw.
  destruct Hl as [m n g Hn|m n|m n g p q Hn|m|m n g p q []]; intros Hno Hw.
  - specialize (Hno n Hn). by rewrite lookup_insert_eq in Hno.
  - rewrite decide_True by apply delete_subseteq. repeat case_decide; try done; lia.
  - rewrite decide_True in Hw by done. case_decide; repeat case_decide; try done; lia.
  - rewrite decide_True by done. lia.
Qed.

Lemma system_settles f n :
  reachable (f 0) → (∀ i, step (f i) (f (S i))) → (∀ i, no_creation (f i) (f (S i))) →
  work (phases_of (f n)) + phase_changes f n ≤ work (phases_of (f 0)).
Proof.
  intros Hr Hstep Hno. assert (∀ i, system_ok (f i)) as Hok.
  { intros i. induction i as [|i IH]; [by apply reachable_ok|by eapply step_ok]. }
  induction n as [|n IH]; [unfold phase_changes; cbn; lia|].
  pose proof (step_work _ _ (Hok n) (Hstep n) (Hno n)) as Hw. unfold phase_changes in *.
  rewrite seq_S, filter_app, length_app. cbn [plus]. rewrite filter_cons, filter_nil.
  repeat case_decide; cbn [length]; try done; lia.
Qed.
End Settle.

(** A creation by someone else, from its parts. *)
Lemma outside_create log a :
  replay log !! qi_name a = None → m_Namespace (obj_meta k a) = ns → qi_phase a = "" →
  (∀ b, Put b ∈ log → version_of b ≠ version_of a ∧ uid_of b ≠ uid_of a) → outside log (Put a).
Proof.
  intros Hnew Hns Hp Hall. unfold outside, change_ok. rewrite Hnew. split_and!; [|..|done|done].
  - intros b Hb. by apply Hall.
  - left. intros _. right; right. by left.
  - done.
  - intros b Hb. by apply Hall.
Qed.

(** A change of the spec that keeps the identity and the status. *)
Lemma outside_update log old new :
  log_ok log → replay log !! qi_name new = Some old → same old new → qi_phase new = qi_phase old →
  m_Namespace (obj_meta k new) = ns → (∀ b, Put b ∈ log → version_of b ≠ version_of new) →
  outside log (Put new).
Proof.
  intros Hlog Hold Hsame Hp Hns Hv. unfold outside, change_ok. rewrite Hold. split_and!; [done|..|done|].
  - apply replay_elem in Hold as [Hold _]. pose proof (log_typed uid_of version_of log old Hlog Hold) as Ht.
    destruct Hsame as (Hn & _ & _ & Hi & _). unfold typed, finished, running, waiting in *.
    by rewrite Hp, <-Hi, <-Hn.
  - done.
  - intros _. by right.
  - intros b [= <-]. done.
Qed.

(** ** Playing a pass

    To show that a state is reachable: a pass alone, whose cache does not move, answered by one
    function, up to its first status write. *)
Section Play.
Context (status_write : op → option (obj k)) (server : ∀ x : op, answer x).
Context (Hwrite : ∀ x v, status_write x = Some v → x = OpStatusUpdate k v).

Fixpoint first_write (p : prog (res Result)) : option (obj k) :=
  match p with
  | Ret _ => None
  | Do x c => match status_write x with Some v => Some v | None => first_write (c (server x)) end
  end.

(** What the function has to answer: the snapshot. *)
Lemma server_answered log i x :
  (∀ key' u, server (OpGet k key') = Ok u → nn_Namespace key' = ns → snapshot log i !! nn_Name key' = Some u) →
  (∀ all, server (OpList k ns ∅) = Ok all → ∀ o, o ∈ all ↔ ∃ n, snapshot log i !! n = Some o) →
  answered log i (did x (server x)).
Proof.
  intros Hget Hlist.
  assert (∀ x' r, did x (server x) = did x' r → server x' = r) as Hans.
  { intros x' r Heq. change (server (projT1 (did x' r)) = projT2 (did x' r)). by rewrite <-Heq. }
  split; intros; eauto.
Qed.

Lemma play log i key h p v :
  i ≤ length log → (∀ x, answered log i (did x (server x))) → first_write p = Some v →
  ∃ h' c,
    rtc step
      {| sys_log := log; sys_threads := [ {| th_seen := i; th_key := key; th_hist := h; th_prog := p |} ] |}
      {| sys_log := log; sys_threads := [ {| th_seen := i; th_key := key; th_hist := h';
         th_prog := Do (OpStatusUpdate k v) c |} ] |}.
Proof.
  intros Hi Hans. revert h. induction p as [a|x c IH]; intros h; [done|]. cbn.
  destruct (status_write x) as [w|] eqn:Hw.
  - intros [= ->]. apply Hwrite in Hw. subst x. exists h, c. done.
  - intros Hfirst. destruct (IH (server x) (did x (server x) :: h) Hfirst) as (h' & c' & Hrun).
    exists h', c'. eapply rtc_l; [|exact Hrun].
    by apply (step_call log [] [] {| th_seen := i; th_key := key; th_hist := h;
      th_prog := Do x c |} i x c (server x)).
Qed.

Lemma play_reachable log i key v u :
  reachable {| sys_log := log; sys_threads := [] |} → nn_Namespace key = ns → i ≤ length log →
  (∀ x, answered log i (did x (server x))) → first_write (qc_pass key) = Some v →
  stored log v u → reachable {| sys_log := log ++ [Put u]; sys_threads := [] |}.
Proof.
  unfold reachable. intros Hr Hns Hi Hans Hfirst Hst.
  destruct (play log i key [] _ v Hi Hans Hfirst) as (h' & c & Hrun).
  etrans; [exact Hr|]. eapply rtc_l; [by eapply (step_start log [] i key)|].
  etrans; [exact Hrun|]. eapply rtc_l.
  - by eapply (step_write log [] [] _ v c (server _) u).
  - eapply rtc_l; [apply (step_stop _ [] [])|done].
Qed.
End Play.
End System.
