(* ===== verification/QueueDrain.v ===== *)
(** * A queue drains

    Exclusion says that objects of one instance do not run together; this file says that all of them
    get their turn. [Worker] states what a pass does to the objects of a queue in a world that
    accepts its calls, and what resting between two rounds of passes does (the Jobs finish). Under it
    every object of a live group is finished after as many rounds as there are phase changes left
    ([drains]); a group that is not live (its instance does not exist) may wait for ever. *)
From S2P Require Export QueueSystem.

Section Drain.
Context {A W : Type} `{QueueItem A}.
Context (items : W → gmap string A) (pass : string → W → W) (rest : W → W).

(** The objects the queue looks at, in any order. *)
Definition members (w : W) : list A := (map_to_list (items w)).*2.

Lemma members_elem w a : a ∈ members w ↔ ∃ n, items w !! n = Some a.
Proof.
  unfold members. rewrite list_elem_of_fmap. split.
  - intros ([n b] & -> & Hin). exists n. by apply elem_of_map_to_list.
  - intros [n Hn]. exists (n, a). split; [done|]. by apply elem_of_map_to_list.
Qed.

(** What a queue decision reads of an object; the phase of one that is ignored does not matter. *)
Definition view (a : A) : string * Time * string * string * bool :=
  (qi_name a, qi_created a, qi_group a, if qi_ignored a then "" else qi_phase a, qi_ignored a).
(** Everything but the phase. *)
Definition kept (a b : A) : Prop :=
  qi_name b = qi_name a ∧ qi_created b = qi_created a ∧ qi_group b = qi_group a ∧
  qi_ignored b = qi_ignored a.

(** [ready w n]: the Job of the object [n], if that runs, is finished; [live w g]: objects of the
    group [g] may start. *)
Context (live : W → string → Prop) `{!∀ w g, Decision (live w g)}.

Class Worker (inv : W → Prop) (ready : W → string → Prop) : Prop := {
  wk_item w n a : inv w → items w !! n = Some a → qi_name a = n ∧ typed a;
  wk_inv n w : inv w → inv (pass n w);
  wk_other w n m : inv w → m ≠ n → items (pass n w) !! m = items w !! m;
  wk_other_ready w n m : inv w → m ≠ n → ready w m → ready (pass n w) m;
  wk_none w n : inv w → items w !! n = None → items (pass n w) !! n = None;
  wk_own w n a : inv w → items w !! n = Some a →
    ∃ b, items (pass n w) !! n = Some b ∧ kept a b ∧
      (qi_ignored a = false →
        (qi_phase b = qi_phase a ∨ rank (qi_phase b) < rank (qi_phase a)) ∧
        (running a → ready w n → finished b) ∧
        (live w (qi_group a) → waiting a → may_start (decide_start a (members w)) = true → ¬ waiting b) ∧
        (waiting a → running b → live w (qi_group a)));
  wk_live w n g : inv w → live (pass n w) g ↔ live w g;
  wk_rest_live w g : live (rest w) g ↔ live w g;
  wk_rest_inv w : inv w → inv (rest w);
  wk_rest_items w : items (rest w) = items w;
  wk_rest_ready w n : inv w → ready (rest w) n
}.

Context (inv : W → Prop) (ready : W → string → Prop) `{!Worker inv ready}.

(** A round: the Jobs finish, then each named object has a pass, in the given order; a name may
    come more than once, or be that of no object. *)
Definition sweep (names : list string) (w : W) : W := foldl (λ w n, pass n w) w names.
Definition rounds (names : list string) (n : nat) (w : W) : W := Nat.iter n (λ w, sweep names (rest w)) w.

(** All objects of the queue are among the names. *)
Definition covers (names : list string) (w : W) : Prop :=
  ∀ n a, items w !! n = Some a → qi_ignored a = false → n ∈ names.

(** Nothing runs, and what is live is finished. *)
Definition settled (w : W) : Prop :=
  ∀ n a, items w !! n = Some a → qi_ignored a = false → live w (qi_group a) ∨ running a → finished a.

Definition stage (a : A) : option (string * string) :=
  if qi_ignored a then None else Some (qi_group a, qi_phase a).
(** The phase changes that are left. *)
Definition remaining (w : W) : nat := work (omap stage (items w)).

Lemma remaining_bound w : remaining w ≤ 3 * size (items w).
Proof.
  unfold remaining. etrans; [apply work_bound|].
  assert (size (omap stage (items w)) ≤ size (items w)); [|lia].
  rewrite <-!(size_dom (D := gset string)). apply subseteq_size, dom_omap_subseteq.
Qed.

(** ** One pass *)
Definition views (w : W) : gmap string (string * Time * string * string * bool) := view <$> items w.

Lemma views_Some w w' n a :
  views w' = views w → items w !! n = Some a → ∃ b, items w' !! n = Some b ∧ view b = view a.
Proof.
  intros Hv Ha. assert (views w' !! n = Some (view a)) as Hb by (rewrite Hv; unfold views; by rewrite lookup_fmap, Ha).
  unfold views in Hb. apply lookup_fmap_Some in Hb as (b & ? & ?). eauto.
Qed.

(** A decision reads nothing but the views. *)
Lemma blocks_view o o' c c' : view o' = view o → view c' = view c → blocks o c → blocks o' c'.
Proof.
  intros [= Hn Ht Hg Hp Hi] [= Hn' Ht' Hg' _ _].
  unfold blocks, sibling, running, waiting, older. rewrite Hn, Ht, Hg, Hi, Hn', Ht', Hg'.
  intros [(? & ? & Hio) Hb]. rewrite Hi, Hio in Hp. by rewrite Hp.
Qed.

Lemma views_may_start w w' a b :
  views w' = views w → view b = view a →
  may_start (decide_start a (members w)) = true → may_start (decide_start b (members w')) = true.
Proof.
  intros Hv Hab. rewrite !decide_start_true. intros Hall o (n & Ho)%members_elem Hbl.
  destruct (views_Some w' w n o (eq_sym Hv) Ho) as (o' & Ho' & Hoo).
  apply (Hall o'); [apply members_elem; eauto|]. by eapply blocks_view; [..|exact Hbl].
Qed.

Lemma remaining_views w w' : views w' = views w → remaining w' = remaining w.
Proof.
  intros Hv. unfold remaining. f_equal. apply map_eq. intros n. rewrite !lookup_omap.
  pose proof (f_equal (lookup n) Hv) as Hn. unfold views in Hn. rewrite !lookup_fmap in Hn.
  destruct (items w' !! n) as [b|], (items w !! n) as [a|]; try done.
  apply (inj Some) in Hn as [= _ _ Hg Hp Hi]. cbn. unfold stage. rewrite Hi in *.
  destruct (qi_ignored a); [done|]. by rewrite Hg, Hp.
Qed.

(** A pass leaves all views as they were, or a phase change is used up. *)
Lemma pass_views w n : inv w → views (pass n w) = views w ∨ remaining (pass n w) < remaining w.
Proof.
  intros Hw. destruct (items w !! n) as [a|] eqn:Ha.
  2: { left. apply map_eq. intros m. unfold views. rewrite !lookup_fmap.
       destruct (decide (m = n)) as [->|]; [|by rewrite (wk_other w n m)]. by rewrite (wk_none w n), Ha. }
  destruct (wk_own w n a Hw Ha) as (b & Hb & (Hn & Ht & Hg & Hi) & Hrank).
  assert (items (pass n w) = <[n := b]> (items w)) as Heq.
  { apply map_eq. intros m. destruct (decide (m = n)) as [->|]; [by rewrite lookup_insert_eq|].
    by rewrite lookup_insert_ne, (wk_other w n m). }
  assert (view b = view a → views (pass n w) = views w) as Hsame.
  { intros Hv. unfold views. rewrite Heq, fmap_insert. apply insert_id. by rewrite lookup_fmap, Ha, Hv. }
  unfold view in Hsame. rewrite Hn, Ht, Hg, Hi in Hsame.
  destruct (qi_ignored a) eqn:Hia; [left; by apply Hsame|].
  destruct (Hrank eq_refl) as [[Hp|Hp] _]; [left; apply Hsame; by rewrite Hp|right].
  assert (stage a = Some (qi_group a, qi_phase a) ∧ stage b = Some (qi_group b, qi_phase b)) as [Hsa Hsb]
    by (unfold stage; by rewrite Hi, Hia).
  unfold remaining. rewrite Heq, omap_insert, Hsb.
  pose proof (work_update (omap stage (items w)) n (qi_group a, qi_phase a) (qi_group b, qi_phase b)) as Hw'.
  rewrite lookup_omap, Ha in Hw'. specialize (Hw' Hsa). cbn in Hw'. lia.
Qed.

(** ** A sweep *)
Lemma covers_pass names w n : inv w → covers names w → covers names (pass n w).
Proof.
  intros Hw Hc m b Hb Hib. destruct (decide (m = n)) as [->|Hne].
  2: { rewrite (wk_other w n m) in Hb by done. by eapply Hc. }
  destruct (items w !! n) as [a|] eqn:Ha; [|by rewrite (wk_none w n) in Hb].
  destruct (wk_own w n a Hw Ha) as (b' & Hb' & (_ & _ & _ & Hi) & _).
  rewrite Hb in Hb'. injection Hb' as <-. apply (Hc n a Ha). congruence.
Qed.

(** A sweep uses phase changes up, or leaves all views as they were and the Jobs of the objects
    outside it finished. *)
Lemma sweep_views names l w :
  inv w → covers names w →
  inv (sweep l w) ∧ covers names (sweep l w) ∧
  (remaining (sweep l w) < remaining w ∨
   (views (sweep l w) = views w ∧ ∀ m, m ∉ l → ready w m → ready (sweep l w) m)) ∧
  ∀ g, live (sweep l w) g ↔ live w g.
Proof.
  revert w. induction l as [|n l IH]; intros w Hw Hc; [by split_and!; auto|].
  destruct (IH (pass n w)) as (Hw' & Hc' & Hstep & Hlive); [by apply wk_inv|by apply covers_pass|].
  change (sweep (n :: l) w) with (sweep l (pass n w)). split; [done|]. split; [done|].
  split; [|intros g; by rewrite Hlive, wk_live].
  destruct (pass_views w n Hw) as [Hv|Hlt].
  - pose proof (remaining_views w (pass n w) Hv) as Hr.
    destruct Hstep as [?|[Hv' Hready]]; [left; lia|right]. split; [congruence|].
    intros m [Hne Hm]%not_elem_of_cons Hrm. apply Hready; [done|]. by apply wk_other_ready.
  - left. destruct Hstep as [?|[Hv' _]]; [lia|]. by rewrite (remaining_views (pass n w)).
Qed.

Lemma sweep_app l1 l2 w : sweep (l1 ++ l2) w = sweep l2 (sweep l1 w).
Proof. apply foldl_app. Qed.

Lemma settled_dec w :
  settled w ∨ ∃ n a, items w !! n = Some a ∧ qi_ignored a = false ∧ (live w (qi_group a) ∨ running a) ∧ active a.
Proof.
  destruct (decide (map_Forall (λ _ a, qi_ignored a = false → live w (qi_group a) ∨ qi_phase a = "Running" →
    qi_phase a = "Succeeded" ∨ qi_phase a = "Failed") (items w))) as [Hall|Hnot%map_not_Forall]; [by left|..].
  - right. destruct Hnot as (n & a & Ha & Hn). exists n, a. split; [done|].
    destruct (qi_ignored a); [by destruct Hn|]. split; [done|]. unfold active, finished.
    destruct (decide (live w (qi_group a) ∨ qi_phase a = "Running")); [split; [done|]; tauto|by destruct Hn].
  - intros ??. apply _.
Qed.

(** Some object that runs or may start. *)
Lemma sweep_turn w :
  inv w → ¬ settled w →
  ∃ n a, items w !! n = Some a ∧ qi_ignored a = false ∧
    (running a ∨ (live w (qi_group a) ∧ waiting a ∧ may_start (decide_start a (members w)) = true)).
Proof.
  intros Hw Hns. destruct (settled_dec w) as [|(n & a & Ha & Hi & Hl & Hact)]; [done|].
  destruct (wk_item w n a Hw Ha) as [_ Ht]. destruct (Ht Hi) as [|[Hr|Hwait]]; [done|by exists n, a; auto|].
  destruct Hl as [Hl|Hl]; [|by destruct (running_not_waiting a Hl Hwait)].
  destruct (decide (Exists (λ o, qi_group o = qi_group a ∧ qi_ignored o = false ∧ qi_phase o = "Running") (members w)))
    as [Hex|Hnex].
  - apply Exists_exists in Hex as (o & (m & Ho)%members_elem & Hg & Hio & Hro). exists m, o. rewrite Hg. split_and!; auto.
  - destruct (waiting_progress (members w) a) as (o & (m & Ho)%members_elem & ? & Hg & ? & ?); [| |done..|].
    + intros o Ho Hg Hio Hro. apply Hnex, Exists_exists. by exists o.
    + apply members_elem. eauto.
    + exists m, o. rewrite Hg. split_and!; auto.
Qed.

(** Some object of a world that has not settled moves in its turn. *)
Lemma sweep_progress names w :
  inv w → covers names w → (∀ n, ready w n) → ¬ settled w → remaining (sweep names w) < remaining w.
Proof.
  intros Hw Hc Hready Hns.
  destruct (sweep_turn w Hw Hns) as (n & a & Ha & Hi & Hturn).
  destruct (list_elem_of_split_l names n) as (l1 & l2 & -> & Hl1); [by apply (Hc n a Ha)|].
  rewrite sweep_app. change (sweep (n :: l2) ?x) with (sweep l2 (pass n x)).
  destruct (sweep_views (l1 ++ n :: l2) l1 w) as (Hw1 & Hc1 & Hstep & Hl1'); [done..|].
  set (w1 := sweep l1 w) in *.
  assert (remaining (pass n w1) < remaining w) as Hlt.
  { destruct (pass_views w1 n Hw1) as [Hv|Hlt].
    - destruct Hstep as [Hlt|[Hv1 Hr1]]; [by rewrite (remaining_views w1)|]. exfalso.
      destruct (views_Some w w1 n a Hv1 Ha) as (b & Hb & Hab). pose proof Hab as [= _ _ Hga Hpa Hib].
      rewrite Hib, Hi in Hpa. rewrite Hi in Hib.
      destruct (wk_own w1 n b Hw1 Hb) as (b' & Hb' & _ & Hown). destruct (Hown Hib) as (_ & Hrun & Hstart & _).
      destruct (views_Some w1 (pass n w1) n b Hv Hb) as (b'' & Hb'' & Hbb).
      rewrite Hb' in Hb''. injection Hb'' as <-. pose proof Hbb as [= _ _ _ Hp Hib'].
      rewrite Hib', Hib in Hp. unfold running, waiting, finished in *.
      destruct Hturn as [Hra|(Hl & Hwa & Hma)].
      + rewrite Hpa in Hrun. specialize (Hrun Hra (Hr1 n Hl1 (Hready n))). rewrite Hp, Hpa, Hra in Hrun.
        by destruct Hrun.
      + apply Hstart; [by rewrite Hga, Hl1'|by rewrite Hpa|by apply (views_may_start w w1 a b)|by rewrite Hp, Hpa].
    - destruct Hstep as [?|[Hv1 _]]; [lia|]. by rewrite <-(remaining_views w w1). }
  destruct (sweep_views (l1 ++ n :: l2) l2 (pass n w1)) as (_ & _ & [?|[Hv _]] & _);
    [by apply wk_inv|by apply covers_pass|lia|].
  by rewrite (remaining_views (pass n w1)).
Qed.

(** ** All rounds *)
(** Nothing is left to do in a world exactly when its objects are finished. *)
Lemma work_zero (m : gmap string (string * string)) : work m = 0 ↔ ∀ n gp, m !! n = Some gp → rank gp.2 = 0.
Proof.
  induction m as [|n gp m Hn IH] using map_ind; [by split|].
  rewrite work_insert by done. split.
  - intros Hz m' gp' [[-> ->]|[_ ?]]%lookup_insert_Some; [lia|]. apply (proj1 IH) with m'; [lia|done].
  - intros Hall. rewrite (proj2 IH); [|intros m' gp' Hm'; apply (Hall m'); by rewrite lookup_insert_ne by congruence].
    by rewrite (Hall n gp (lookup_insert_eq _ _ _)).
Qed.

Lemma rank_finished a : typed a → qi_ignored a = false → rank (qi_phase a) = 0 ↔ finished a.
Proof.
  unfold typed, finished, running, waiting, rank. intros Ht Hi. specialize (Ht Hi).
  destruct Ht as [[E|E]|[E|[E|E]]]; rewrite E; cbn; split; intros Hz; try done; try (by auto);
    by destruct Hz.
Qed.

Lemma remaining_settled w : inv w → remaining w = 0 → settled w.
Proof.
  intros Hw. unfold remaining. rewrite work_zero. intros Hz n a Ha Hi _.
  apply (rank_finished a (proj2 (wk_item w n a Hw Ha)) Hi).
  apply (Hz n (qi_group a, qi_phase a)). rewrite lookup_omap, Ha. cbn. unfold stage. by rewrite Hi.
Qed.

Lemma lower_waiting (a b : A) : typed a → qi_ignored a = false → running b → rank (qi_phase b) < rank (qi_phase a) → waiting a.
Proof.
  unfold typed, finished, running, waiting. intros Ht Hi -> Hr.
  destruct (Ht Hi) as [[E|E]|[E|[E|E]]]; rewrite E in Hr; cbn in Hr; first [lia|auto].
Qed.

(** What is settled stays so. *)
Lemma settled_pass w n : inv w → settled w → settled (pass n w).
Proof.
  intros Hw Hs m b Hb Hib. rewrite wk_live by done. intros Hl. destruct (decide (m = n)) as [->|Hne].
  2: { rewrite (wk_other w n m) in Hb by done. by apply (Hs m). }
  destruct (items w !! n) as [a|] eqn:Ha; [|by rewrite (wk_none w n) in Hb].
  destruct (wk_own w n a Hw Ha) as (b' & Hb' & (_ & _ & Hg & Hi) & Hown).
  rewrite Hb in Hb'. injection Hb' as <-. rewrite Hi in Hib. rewrite Hg in Hl.
  destruct (Hown Hib) as ([Hp|Hp] & _ & _ & Hwait).
  - assert (finished a) as Hf by (apply (Hs n a Ha Hib); unfold running in *; by rewrite <-Hp).
    unfold finished in *. by rewrite Hp.
  - exfalso. assert (live w (qi_group a)) as Hla by (destruct Hl as [|Hr]; [done|apply Hwait; [apply (lower_waiting a b); [by eapply wk_item|done..]|done]]).
    pose proof (Hs n a Ha Hib (or_introl Hla)) as Hf.
    apply (rank_finished a (proj2 (wk_item w n a Hw Ha)) Hib) in Hf. lia.
Qed.

Lemma settled_sweep l w : inv w → settled w → settled (sweep l w).
Proof.
  revert w. induction l as [|n l IH]; intros w Hw Hs; [done|].
  apply (IH (pass n w)); [by apply wk_inv|by apply settled_pass].
Qed.

Lemma settled_rest w : settled (rest w) ↔ settled w.
Proof. unfold settled. rewrite wk_rest_items. by setoid_rewrite wk_rest_live. Qed.

Lemma rest_covers names w : covers names w → covers names (rest w).
Proof. unfold covers. by rewrite wk_rest_items. Qed.
Lemma rest_remaining w : remaining (rest w) = remaining w.
Proof. unfold remaining. by rewrite wk_rest_items. Qed.

(** A round uses a phase change up, or everything was settled and stays so. *)
Lemma round_remaining names w :
  inv w → covers names w →
  inv (sweep names (rest w)) ∧ covers names (sweep names (rest w)) ∧
  (settled w → settled (sweep names (rest w))) ∧
  (¬ settled w → remaining (sweep names (rest w)) < remaining w).
Proof.
  intros Hw Hc. assert (inv (rest w)) as Hw' by by apply wk_rest_inv.
  assert (covers names (rest w)) as Hc' by by apply rest_covers.
  destruct (sweep_views names names (rest w)) as (? & ? & _); [done..|]. split_and!; [done..| |].
  - intros Hs. apply settled_sweep; [done|]. by apply settled_rest.
  - intros Hs. rewrite <-(rest_remaining w). apply sweep_progress; [done..|intros m; by apply wk_rest_ready|].
    by rewrite settled_rest.
Qed.

(** What the passes and the rests keep, the rounds keep. *)
Lemma rounds_keep (P : W → Prop) names w n :
  (∀ m w, inv w → P w → P (pass m w)) → (∀ w, inv w → P w → P (rest w)) →
  inv w → P w → inv (rounds names n w) ∧ P (rounds names n w).
Proof.
  intros Hpass Hrest Hw HP.
  assert (∀ l w, inv w ∧ P w → inv (sweep l w) ∧ P (sweep l w)) as Hsweep.
  { intros l. induction l as [|m l IH]; intros w' [Hw' HP']; [done|].
    change (sweep (m :: l) w') with (sweep l (pass m w')). apply IH. split; [by apply wk_inv|by apply Hpass]. }
  induction n as [|n [IHw IHP]]; [done|].
  change (rounds names (S n) w) with (sweep names (rest (rounds names n w))).
  apply Hsweep. split; [by apply wk_rest_inv|by apply Hrest].
Qed.

(** What a pass on one of the names reaches and the other passes keep, a round reaches. *)
Lemma rounds_reach (P Q : W → Prop) names w m n :
  (∀ m w, inv w → P w → P (pass m w)) → (∀ w, inv w → P w → P (rest w)) →
  (∀ w, inv w → P w → Q (pass m w)) → (∀ m w, inv w → P w → Q w → Q (pass m w)) →
  m ∈ names → n ≠ 0 → inv w → P w → Q (rounds names n w).
Proof.
  intros Hpass Hrest Hreach Hkeep Hm Hn Hw HP. destruct n as [|n]; [done|].
  destruct (rounds_keep P names w n Hpass Hrest Hw HP) as [Hw' HP'].
  change (rounds names (S n) w) with (sweep names (rest (rounds names n w))).
  assert (∀ (R : W → Prop), (∀ m w, inv w → R w → R (pass m w)) →
    ∀ l w, inv w → R w → inv (sweep l w) ∧ R (sweep l w)) as Hsweep.
  { intros R HR l. induction l as [|x l IH]; intros v Hv Hr; [done|].
    change (sweep (x :: l) v) with (sweep l (pass x v)). apply IH; [by apply wk_inv|by apply HR]. }
  apply list_elem_of_split in Hm as (l1 & l2 & ->). rewrite sweep_app.
  destruct (Hsweep P Hpass l1 (rest (rounds (l1 ++ m :: l2) n w))) as [Hv Hp]; [by apply wk_rest_inv|by apply Hrest|].
  change (sweep (m :: l2) ?x) with (sweep l2 (pass m x)).
  apply (Hsweep (λ v, P v ∧ Q v)); [|by apply wk_inv|by split; [apply Hpass|apply Hreach]].
  intros x v Hx [? ?]. split; [by apply Hpass|by apply Hkeep].
Qed.

(** However often a phase change is left to do: after that many rounds, everything is finished. *)
Lemma drains names w n :
  inv w → covers names w → remaining w ≤ n → settled (rounds names n w).
Proof.
  intros Hw Hc Hn.
  assert (inv (rounds names n w) ∧ covers names (rounds names n w) ∧
          (settled (rounds names n w) ∨ remaining (rounds names n w) + n ≤ remaining w)) as (Hw' & _ & [|Hr]).
  { clear Hn. induction n as [|n (IHw & IHc & IHr)]; [split_and!; [done..|right; cbn; lia]|].
    destruct (round_remaining names _ IHw IHc) as (? & ? & Hkeep & Hless).
    change (rounds names (S n) w) with (sweep names (rest (rounds names n w))). split_and!; [done..|].
    destruct (settled_dec (rounds names n w)) as [Hs|(m & a & Ha & Hi & Hl & Hact)]; [auto|].
    destruct IHr as [Hs|Hr]; [auto|]. right.
    assert (¬ settled (rounds names n w)) as Hns%Hless by (intros Hs; by apply Hact, (Hs m)). lia. }
  - done.
  - apply remaining_settled; [done|lia].
Qed.

Lemma drains_bound names w :
  inv w → covers names w → settled (rounds names (3 * size (items w)) w).
Proof. intros. apply drains; [done..|apply remaining_bound]. Qed.

End Drain.
