(* ===== verification/KubeRef.v ===== *)
(** * A reference implementation of the library functions

    Concrete functions for the parameters of [Kube] and [Effects], with the laws the theorems use,
    so that the laws are seen to be satisfiable and the witnesses can run the reconcilers. *)
From S2P Require Export Effects.

Open Scope Z_scope.

Fixpoint status_code (e : error) : option api_code :=
  match e with
  | ErrorString _ => None
  | WrapError _ e | ReasonError _ e => status_code e
  | StatusError c _ => Some c
  end.

Definition find_condition (cs : list Condition) (t : string) : option Condition :=
  List.find (λ c, String.eqb (c_Type c) t) cs.

Definition update_condition (now : Time) (o c : Condition) : Condition :=
  {| c_Type := c_Type c; c_Status := c_Status c; c_ObservedGeneration := c_ObservedGeneration c;
     c_LastTransitionTime :=
       if String.eqb (c_Status o) (c_Status c) then c_LastTransitionTime o
       else if c_LastTransitionTime c =? 0 then now else c_LastTransitionTime c;
     c_Reason := c_Reason c; c_Message := c_Message c |}.

Fixpoint set_condition (now : Time) (cs : list Condition) (c : Condition) : list Condition :=
  match cs with
  | [] => [ {| c_Type := c_Type c; c_Status := c_Status c;
               c_ObservedGeneration := c_ObservedGeneration c;
               c_LastTransitionTime :=
                 if c_LastTransitionTime c =? 0 then now else c_LastTransitionTime c;
               c_Reason := c_Reason c; c_Message := c_Message c |} ]
  | o :: cs => if String.eqb (c_Type o) (c_Type c) then update_condition now o c :: cs
               else o :: set_condition now cs c
  end.

Definition controller_uid (m : ObjectMeta) : option string :=
  owner_UID <$> List.find owner_Controller (m_OwnerReferences m).

Definition controlled_by (m owner : ObjectMeta) : bool :=
  match controller_uid m with Some uid => String.eqb uid (m_UID owner) | None => false end.

Definition set_controller (owner m : ObjectMeta) : res ObjectMeta :=
  match controller_uid m with
  | Some uid =>
      if String.eqb uid (m_UID owner) then Ok m
      else Err (ErrorString "object is already owned by another controller")
  | None =>
      Ok (with_owners ({| owner_UID := m_UID owner; owner_Controller := true |} ::
            List.filter (λ r, negb (String.eqb (owner_UID r) (m_UID owner))) (m_OwnerReferences m)) m)
  end.

Definition with_finalizers (fs : list string) (m : ObjectMeta) : ObjectMeta :=
  {| m_Name := m_Name m; m_Namespace := m_Namespace m; m_UID := m_UID m;
     m_ResourceVersion := m_ResourceVersion m; m_Generation := m_Generation m;
     m_CreationTimestamp := m_CreationTimestamp m; m_DeletionTimestamp := m_DeletionTimestamp m;
     m_Labels := m_Labels m; m_Annotations := m_Annotations m;
     m_OwnerReferences := m_OwnerReferences m; m_Finalizers := fs |}.

Definition has_code (c : api_code) (e : error) : bool := bool_decide (status_code e = Some c).

#[export] Instance kube_ref : KubeLib := {
  ParseQuantity s := if String.eqb s "" then Err (ErrorString "quantities must match the pattern") else Ok s;
  MustParse s := s;
  QuantitySign s := if HasPrefix s "-" then -1 else 1;
  FindStatusCondition := find_condition;
  SetStatusCondition := set_condition;
  RemoveStatusCondition cs t := List.filter (λ c, negb (String.eqb (c_Type c) t)) cs;
  IsControlledBy := controlled_by;
  SetControllerReference := set_controller;
  ContainsFinalizer m f := bool_decide (f ∈ m_Finalizers m);
  AddFinalizer m f := if bool_decide (f ∈ m_Finalizers m) then m
                      else with_finalizers (m_Finalizers m ++ [f]) m;
  RemoveFinalizer m f := with_finalizers (List.filter (λ x, negb (String.eqb x f)) (m_Finalizers m)) m;
  IsNotFound := has_code CodeNotFound;
  IsAlreadyExists := has_code CodeAlreadyExists;
  IsConflict := has_code CodeConflict;
  IsInvalid := has_code CodeInvalid;
  SemanticDeepEqual A _ a b := bool_decide (a = b);
  MarshalJobSpec js := Join (ps_Containers (pt_Spec (js_Template js)) ≫= λ c, ct_Command c ++ ct_Args c) " "
}.

#[export] Instance unicode_ref : Unicode := latin1.
#[export] Instance retry_ref : RetryLib := { RetryOnConflict A fn := retry_conflict 4 fn }.

(** ** The laws *)
Lemma find_set_condition_eq now cs c :
  find_condition (set_condition now cs c) (c_Type c) =
  Some (match find_condition cs (c_Type c) with
        | Some o => update_condition now o c
        | None => {| c_Type := c_Type c; c_Status := c_Status c;
                     c_ObservedGeneration := c_ObservedGeneration c;
                     c_LastTransitionTime :=
                       if c_LastTransitionTime c =? 0 then now else c_LastTransitionTime c;
                     c_Reason := c_Reason c; c_Message := c_Message c |}
        end).
Proof.
  unfold find_condition. induction cs as [|o cs IH]; cbn; [by rewrite String.eqb_refl|].
  destruct (String.eqb (c_Type o) (c_Type c)) eqn:Ht; cbn; [by rewrite String.eqb_refl|].
  by rewrite Ht.
Qed.

Lemma find_set_condition_ne now cs c t :
  t ≠ c_Type c → find_condition (set_condition now cs c) t = find_condition cs t.
Proof.
  intros Hne. assert (String.eqb (c_Type c) t = false) as Hc by (apply String.eqb_neq; congruence).
  unfold find_condition. induction cs as [|o cs IH]; cbn; [by rewrite Hc|].
  destruct (String.eqb_spec (c_Type o) (c_Type c)) as [Ht|]; cbn; [by rewrite Ht, Hc|by rewrite IH].
Qed.

Lemma set_condition_same now cs c o :
  find_condition cs (c_Type c) = Some o → c_Status o = c_Status c → c_Reason o = c_Reason c →
  c_Message o = c_Message c → c_ObservedGeneration o = c_ObservedGeneration c →
  set_condition now cs c = cs.
Proof.
  intros Hf H1 H2 H3 H4. unfold find_condition in Hf.
  induction cs as [|x cs IH]; cbn in *; [done|].
  destruct (String.eqb_spec (c_Type x) (c_Type c)) as [Ht|]; [|by rewrite IH].
  injection Hf as ->. f_equal. unfold update_condition.
  rewrite <-H1, <-H2, <-H3, <-H4, <-Ht, String.eqb_refl. by destruct o.
Qed.

#[export] Instance condition_laws_ref : ConditionLaws.
Proof.
  split; cbn [FindStatusCondition SetStatusCondition RemoveStatusCondition kube_ref].
  - intros now cs c. rewrite find_set_condition_eq.
    destruct (find_condition cs (c_Type c)) as [o|]; eexists; (split; [done|]); cbn;
      split_and!; try done.
    intros o' [= ->] ->. by rewrite String.eqb_refl.
  - apply find_set_condition_ne.
  - apply set_condition_same.
  - done.
  - intros cs t. unfold find_condition. induction cs as [|c cs IH]; cbn; [done|].
    destruct (String.eqb (c_Type c) t) eqn:Ht; cbn; [done|by rewrite Ht].
  - intros cs t t' Hne. unfold find_condition. induction cs as [|c cs IH]; cbn; [done|].
    destruct (String.eqb_spec (c_Type c) t) as [Ht|]; cbn; [|by rewrite IH].
    destruct (String.eqb_spec (c_Type c) t'); [congruence|done].
  - intros cs t. unfold find_condition. induction cs as [|c cs IH]; cbn; [done|].
    destruct (String.eqb (c_Type c) t); [done|]. intros Ht. cbn. by rewrite IH.
Qed.

#[export] Instance owner_laws_ref : OwnerLaws.
Proof.
  split; cbn.
  - intros owner m m'. unfold set_controller, controlled_by.
    destruct (controller_uid m) as [uid|] eqn:Hu; [destruct (String.eqb_spec uid (m_UID owner)) as [->|]|];
      intros [= <-].
    + rewrite Hu, String.eqb_refl. split_and!; [done|by destruct m|].
      unfold controller_uid in Hu. apply fmap_Some in Hu as (r & Hr & Huid).
      apply List.find_some in Hr as [Hr _]. exists r. split; [by apply list_elem_of_In|done].
    + unfold controller_uid. cbn. rewrite String.eqb_refl. split_and!; [done..|].
      eexists. split; [by left|done].
  - intros owner m _ Hm. unfold set_controller, controller_uid. by rewrite Hm.
  - intros owner m _. unfold set_controller, controlled_by.
    by destruct (controller_uid m); [destruct (String.eqb _ _)|].
  - intros owner m m' x Hm Hx _. unfold set_controller.
    assert (controller_uid x = controller_uid m') as -> by (unfold controller_uid; by rewrite Hx).
    revert Hm. unfold set_controller. destruct (controller_uid m) as [uid|] eqn:Hu.
    + destruct (String.eqb uid (m_UID owner)) eqn:He; [|done]. intros [= <-]. by rewrite Hu, He.
    + intros [= <-]. unfold controller_uid. cbn. by rewrite String.eqb_refl.
  - intros owner m m' Hm. unfold controlled_by, controller_uid. by rewrite Hm.
Qed.

#[export] Instance finalizer_laws_ref : FinalizerLaws.
Proof.
  split; cbn; [|done]. intros m f. apply bool_decide_eq_false. cbn. rewrite list_elem_of_In, filter_In.
  intros [_ Hf]. by rewrite String.eqb_refl in Hf.
Qed.

#[export] Instance error_laws_ref : ErrorLaws.
Proof.
  split; cbn; unfold has_code; cbn; intros; try apply bool_decide_ext; naive_solver.
Qed.

#[export] Instance equality_laws_ref : EqualityLaws.
Proof. by split. Qed.

#[export] Instance retry_laws_ref : RetryLaws.
Proof. split. intros A fn. by exists 4%nat. Qed.

(** ** A server that refuses everything, to be overridden call by call in the examples *)
Definition refuse (o : op) : answer o :=
  match o return answer o with
  | OpNow => 1000 * Second
  | OpEvent _ _ _ => tt
  | OpGet _ _ | OpList _ _ _ | OpCreate _ _ | OpUpdate _ _ | OpStatusUpdate _ _ | OpPatch _ _ _
  | OpDelete _ _ _ | OpCreateOrUpdate _ _ _ | OpPodLogs _ _ _ _ =>
      Err (StatusError CodeNotFound "not found")
  end.

Close Scope Z_scope.
