(* ===== verification/Cluster.v ===== *)
(** * A cluster that answers

    The safety theorems hold for every answer of the API server; the progress theorems need a server
    that answers. [api] is one: the objects of a namespace by kind and name, a server that accepts
    every call that makes sense (a create of a new name, a write of an object that exists), a clock
    and a log. A program runs on it with [effect]. *)
From S2P Require Export KubeRef.

#[export] Instance kind_eq_dec : EqDecision kind.
Proof. solve_decision. Defined.

Record cluster := { objects : ∀ k : kind, gmap string (obj k); clock : Time }.

Definition empty_cluster : cluster := {| objects := λ _, ∅; clock := 0 |}.

Definition put_objects (k : kind) (m : gmap string (obj k)) (w : cluster) : cluster :=
  {| objects := λ k', match decide (k = k') with
                      | left E => eq_rect k (λ k, gmap string (obj k)) m k' E
                      | right _ => objects w k'
                      end;
     clock := clock w |}.
Definition put (k : kind) (n : string) (o : obj k) (w : cluster) : cluster :=
  put_objects k (<[n := o]> (objects w k)) w.
Definition erase (k : kind) (n : string) (w : cluster) : cluster :=
  put_objects k (delete n (objects w k)) w.

Lemma put_objects_eq k m w : objects (put_objects k m w) k = m.
Proof. cbn. destruct (decide (k = k)) as [E|]; [|done]. by rewrite (proof_irrel E eq_refl). Qed.
Lemma put_objects_ne k m w k' : k' ≠ k → objects (put_objects k m w) k' = objects w k'.
Proof. intros Hne. cbn. by destruct (decide (k = k')). Qed.

(** [w'] has the objects of [w], but for those of the kinds [ks]. *)
Definition frame (ks : list kind) (w w' : cluster) : Prop := ∀ k, k ∉ ks → objects w' k = objects w k.

#[export] Instance frame_refl ks : Reflexive (frame ks).
Proof. by intros w k. Qed.
#[export] Instance frame_trans ks : Transitive (frame ks).
Proof. intros w1 w2 w3 H1 H2 k Hk. by rewrite H2, H1. Qed.
Lemma frame_at ks w w' k : frame ks w w' → bool_decide (k ∈ ks) = false → objects w' k = objects w k.
Proof. intros Hf Hk%bool_decide_eq_false. by apply Hf. Qed.
Lemma frame_weaken ks ks' w w' : ks ⊆ ks' → frame ks w w' → frame ks' w w'.
Proof. intros Hsub Hf k Hk. apply Hf. set_solver. Qed.
Lemma frame_sub ks ks' w w' : forallb (λ k, bool_decide (k ∈ ks')) ks = true → frame ks w w' → frame ks' w w'.
Proof.
  intros Hsub. apply frame_weaken. intros k Hk. rewrite forallb_forall in Hsub.
  apply list_elem_of_In in Hk. by apply Hsub, bool_decide_eq_true in Hk.
Qed.
Lemma frame_put k n o w : frame [k] w (put k n o w).
Proof. intros k' Hk'. apply put_objects_ne. set_solver. Qed.
Lemma frame_erase k n w : frame [k] w (erase k n w).
Proof. intros k' Hk'. apply put_objects_ne. set_solver. Qed.

(** [writes k n o w w']: the object [o] was stored, nothing else. *)
Definition writes (k : kind) (n : string) (o : obj k) (w w' : cluster) : Prop :=
  objects w' k = <[n := o]> (objects w k) ∧ frame [k] w w'.

Lemma writes_put k n o w : writes k n o w (put k n o w).
Proof. split; [apply put_objects_eq|apply frame_put]. Qed.
Lemma writes_same k n o w : objects w k !! n = Some o → writes k n o w w.
Proof. intros Ho. split; [by rewrite insert_id|done]. Qed.

(** ** The server *)
Definition found {A} (x : option A) : res A :=
  match x with Some a => Ok a | None => Err (StatusError CodeNotFound "not found") end.

Lemma missing_not_found `{ErrorLaws} msg : IsNotFound (StatusError CodeNotFound msg) = true.
Proof. by rewrite IsNotFound_spec, bool_decide_true. Qed.

(** The objects of a kind, and those with some labels. *)
Definition listing (k : kind) (w : cluster) : list (obj k) := (map_to_list (objects w k)).*2.
Definition labelled (k : kind) (labels : gmap string string) (w : cluster) : list (obj k) :=
  List.filter (λ o, bool_decide (labels ⊆ m_Labels (obj_meta k o))) (listing k w).

Lemma labelled_all k w : labelled k ∅ w = listing k w.
Proof.
  unfold labelled. induction (listing k w) as [|o l IH]; cbn; [done|].
  by rewrite bool_decide_true, IH by apply map_empty_subseteq.
Qed.

(** A status write keeps the metadata and the spec that the server holds. *)
Definition with_status (k : kind) : obj k → obj k → obj k :=
  match k return obj k → obj k → obj k with
  | KAddon => λ cur o, {| ad_Meta := ad_Meta cur; ad_Spec := ad_Spec cur; ad_Status := ad_Status o |}
  | KBackup => λ cur o, {| bk_Meta := bk_Meta cur; bk_Spec := bk_Spec cur; bk_Status := bk_Status o |}
  | KInstance => λ cur o, {| in_Meta := in_Meta cur; in_Spec := in_Spec cur; in_Status := in_Status o |}
  | KUpgrade => λ cur o, {| up_Meta := up_Meta cur; up_Spec := up_Spec cur; up_Status := up_Status o |}
  | _ => λ _ o, o
  end.

Definition noPodSpec : PodSpec :=
  {| ps_InitContainers := []; ps_Containers := []; ps_Volumes := []; ps_RestartPolicy := "";
     ps_AutomountServiceAccountToken := None; ps_TerminationGracePeriodSeconds := None; ps_DNSPolicy := "";
     ps_SchedulerName := ""; ps_SecurityContext := None; ps_Affinity := None; ps_NodeSelector := ∅ |}.

(** The object [CreateOrUpdate] starts from when there is none, for the kinds it is used with. *)
Definition blank (k : kind) (x : NamespacedName) : option (obj k) :=
  let m := newMeta (nn_Name x) (nn_Namespace x) in
  match k return option (obj k) with
  | KDeployment => Some {| dep_Meta := m; dep_Replicas := None; dep_Selector := None;
      dep_Strategy := Recreate;
      dep_Template := {| pt_Labels := ∅; pt_Annotations := ∅; pt_Spec := noPodSpec |};
      dep_StatusReplicas := 0; dep_StatusReadyReplicas := 0 |}
  | KConfigMap => Some {| cm_Meta := m; cm_Data := ∅ |}
  | KService => Some {| svc_Meta := m; svc_Type := ""; svc_Selector := ∅; svc_Ports := [] |}
  | KPDB => Some {| pdb_Meta := m; pdb_MinAvailable := None; pdb_MaxUnavailable := None; pdb_Selector := None |}
  | _ => None
  end.

Section Server.
Context (logs : string).

(** Writes to an object that exists. *)
Definition overwrite (k : kind) (o : obj k) (write : obj k → obj k) (w : cluster) : res (obj k) * cluster :=
  let n := m_Name (obj_meta k o) in
  match objects w k !! n with
  | Some cur => (Ok (write cur), put k n (write cur) w)
  | None => (Err (StatusError CodeNotFound "not found"), w)
  end.

Definition api (w : cluster) (o : op) : answer o * cluster :=
  match o return answer o * cluster with
  | OpGet k x => (found (A := obj k) (objects w k !! nn_Name x), w)
  | OpList k _ labels => (Ok (labelled k labels w), w)
  | OpCreate k o =>
      match objects w k !! m_Name (obj_meta k o) with
      | Some _ => (Err (StatusError CodeAlreadyExists "already exists"), w)
      | None => (Ok o, put k (m_Name (obj_meta k o)) o w)
      end
  | OpUpdate k o => overwrite k o (λ _, o) w
  | OpStatusUpdate k o => overwrite k o (λ cur, with_status k cur o) w
  | OpPatch k _ o => overwrite k o (λ _, o) w
  | OpDelete k o _ =>
      match objects w k !! m_Name (obj_meta k o) with
      | Some _ => (Ok tt, erase k (m_Name (obj_meta k o)) w)
      | None => (Err (StatusError CodeNotFound "not found"), w)
      end
  | OpCreateOrUpdate k x mutate =>
      let write o result := (Ok (o, result), put k (nn_Name x) o w) in
      match objects w k !! nn_Name x, blank k x with
      | Some cur, _ => match mutate cur with Ok o => write o OperationResultUpdated | Err e => (Err e, w) end
      | None, Some o => match mutate o with Ok o => write o OperationResultCreated | Err e => (Err e, w) end
      | None, None => (Err (ErrorString "no such kind"), w)
      end
  | OpNow => (clock w, w)
  | OpPodLogs _ _ _ _ => (Ok logs, w)
  | OpEvent _ _ _ => (tt, w)
  end.

Abbreviation effect := (effect api).

(** Programs that only read leave the cluster as it is. *)
Fixpoint reading {A} (p : prog A) : Prop :=
  match p with
  | Ret _ => True
  | Do o k => match o with OpGet _ _ | OpList _ _ _ | OpNow | OpPodLogs _ _ _ _ | OpEvent _ _ _ => True | _ => False end
              ∧ ∀ a, reading (k a)
  end.

Lemma effect_reading {A} (p : prog A) w : reading p → (effect w p).2 = w.
Proof.
  induction p as [a|o k IH] in w |- *; [done|]. intros [Ho Hk]. rewrite effect_do, IH by apply Hk. by destruct o.
Qed.

(** ** Invariants *)

(** The kind of the objects a call writes. *)
Definition written (o : op) : option kind :=
  match o with
  | OpCreate k _ | OpUpdate k _ | OpStatusUpdate k _ | OpPatch k _ _ | OpDelete k _ _ | OpCreateOrUpdate k _ _ => Some k
  | _ => None
  end.

Lemma api_frame w o :
  match written o with Some k => frame [k] w (api w o).2 | None => (api w o).2 = w end.
Proof.
  destruct o as [k x|k ns' l|k o|k o|k o|k o' o|k o opts|k x mutate| | |]; cbn [written api]; try done; unfold overwrite;
    repeat match goal with |- context [match ?e with _ => _ end] => destruct e end; cbn [snd];
    try done; first [apply frame_put|apply frame_erase].
Qed.

(** What the calls a program may make keep, the program keeps. *)
Lemma effect_invariant {A} (P : cluster → Prop) may h (p : prog A) Q w :
  wp may h p Q → (∀ h o w, may h o → P w → P (api w o).2) → P w → P (effect w p).2.
Proof.
  intros Hp Hmay. revert h w Hp. induction p as [a|o k IH]; intros h w Hp Hw; [done|].
  destruct Hp as [Ho Hk]. rewrite effect_do. eapply IH; [apply Hk|]. by eapply Hmay.
Qed.

(** Calls take no time. *)
Lemma effect_clock {A} (p : prog A) w : clock (effect w p).2 = clock w.
Proof.
  induction p as [a|o k IH] in w |- *; [done|]. rewrite effect_do, IH.
  destruct o as [k' x|k' ns' l|k' o|k' o|k' o|k' o o'|k' o opts|k' x mutate| | |]; cbn [api]; try done; unfold overwrite;
    by repeat match goal with |- context [match ?e with _ => _ end] => destruct e end.
Qed.

(** ** Calls *)
Lemma effect_get {B} w k x (f : res (obj k) → prog B) :
  effect w (prog_bind (get k x) f) = effect w (f (found (objects w k !! nn_Name x))).
Proof. unfold get, call. cbn [prog_bind]. by rewrite effect_do. Qed.

Lemma effect_list {B} w k ns labels (f : res (list (obj k)) → prog B) :
  effect w (prog_bind (list_objects k ns labels) f) = effect w (f (Ok (labelled k labels w))).
Proof. unfold list_objects, call. cbn [prog_bind]. by rewrite effect_do. Qed.

Lemma effect_now {B} w (f : Time → prog B) : effect w (prog_bind Now f) = effect w (f (clock w)).
Proof. unfold Now, call. cbn [prog_bind]. by rewrite effect_do. Qed.

Lemma effect_updateStatus {B} w k o cur (f : res (obj k) → prog B) :
  objects w k !! m_Name (obj_meta k o) = Some cur →
  effect w (prog_bind (updateStatus k o) f) =
    effect (put k (m_Name (obj_meta k o)) (with_status k cur o) w) (f (Ok (with_status k cur o))).
Proof. intros Ho. unfold updateStatus, call. cbn [prog_bind]. rewrite effect_do. cbn [api]. unfold overwrite. by rewrite Ho. Qed.

Lemma effect_create {B} w k o (f : res (obj k) → prog B) :
  objects w k !! m_Name (obj_meta k o) = None →
  effect w (prog_bind (create k o) f) = effect (put k (m_Name (obj_meta k o)) o w) (f (Ok o)).
Proof. intros Ho. unfold create, call. cbn [prog_bind]. rewrite effect_do. cbn [api]. by rewrite Ho. Qed.

Lemma effect_delete {B} w k o opts c (f : res unit → prog B) :
  objects w k !! m_Name (obj_meta k o) = Some c →
  effect w (prog_bind (deleteObject k o opts) f) = effect (erase k (m_Name (obj_meta k o)) w) (f (Ok tt)).
Proof. intros Ho. unfold deleteObject, call. cbn [prog_bind]. rewrite effect_do. cbn [api]. by rewrite Ho. Qed.

Lemma effect_update {B} w k o cur (f : res (obj k) → prog B) :
  objects w k !! m_Name (obj_meta k o) = Some cur →
  effect w (prog_bind (update k o) f) = effect (put k (m_Name (obj_meta k o)) o w) (f (Ok o)).
Proof. intros Ho. unfold update, call. cbn [prog_bind]. rewrite effect_do. cbn [api]. unfold overwrite. by rewrite Ho. Qed.

Lemma effect_events w rec m evs : effect w (emitEvents rec m evs) = (tt, w).
Proof. by apply effect_emitEvents. Qed.
End Server.
