(* ===== verification/QueueWork.v ===== *)
(** * Queues of Jobs on a cluster

    The two queues of the operator work alike: an object that may start gets a Job, a pass looks at
    that Job, and the phase follows it. [turned] says what one pass may make of a [Cluster]; when
    every pass does that and every Job ends, the passes are the [Worker] of [QueueDrain], so the
    queue of every instance that exists drains ([work_settles]) and what is accepted does not fail ([work_stays_on_course]). *)
From S2P Require Export QueueDrain Cluster.

(** What the queues of Jobs have in common: the Job of an object, when a Job ended and when it did
    not fail, the objects the controller accepts, and what its CronJobs keep to. *)
Class JobQueue (k : kind) := {
  jq_item :: QueueItem (obj k);
  jq_job : obj k → string;
  jq_ended : Job → Prop;
  jq_fine : Job → Prop;
  jq_accepted : cluster → obj k → Prop;
  jq_crons : gmap string CronJob → Prop;
  jq_kind : k ∉ [KJob; KCronJob; KInstance];
  jq_meta a b : with_status k a b = b → obj_meta k b = obj_meta k a;
  jq_kept a b : with_status k a b = b → kept a b;
  jq_accepted_same w w' a b :
    objects w' KInstance = objects w KInstance → with_status k a b = b → jq_accepted w a → jq_accepted w' b
}.

Definition jobs (w : cluster) : gmap string Job := objects w KJob.

Lemma get_job {B} logs w x (f : res Job → prog B) :
  effect (api logs) w (prog_bind (get KJob x) f) = effect (api logs) w (f (found (jobs w !! nn_Name x))).
Proof. exact (effect_get logs w KJob x f). Qed.

(** Between two rounds the Jobs end and time passes. *)
Definition rest_for (finish : Job → Job) (d : Z) (w : cluster) : cluster :=
  {| objects := objects (put_objects KJob (finish <$> jobs w) w); clock := (clock w + d)%Z |}.

Lemma rest_frame finish d w : frame [KJob] w (rest_for finish d w).
Proof. intros k Hk. apply put_objects_ne. set_solver. Qed.
Lemma rest_jobs finish d w : jobs (rest_for finish d w) = finish <$> jobs w.
Proof. exact (put_objects_eq KJob _ w). Qed.

Section Work.
Context (k : kind) `{!JobQueue k} (ns : string).

Definition queued (w : cluster) : gmap string (obj k) := objects w k.

(** [b] is [a] but for the status. *)
Definition same (a b : obj k) : Prop := with_status k a b = b.
(** ... and the status agrees on what the queue reads. *)
Definition alike (a b : obj k) : Prop := same a b ∧ qi_phase b = qi_phase a ∧ jq_job b = jq_job a.

Definition instance_of (w : cluster) (a : obj k) : option OdooInstance := objects w KInstance !! qi_group a.
(** The instance of a group exists; otherwise its objects wait for it. *)
Definition live (w : cluster) (g : string) : Prop := is_Some (objects w KInstance !! g).
(** An object that runs has its Job. *)
Definition has_job (w : cluster) (a : obj k) : Prop :=
  qi_ignored a = false → running a → jq_job a ≠ "" ∧ is_Some (jobs w !! jq_job a).

Record item_ok (w : cluster) (n : string) (a : obj k) : Prop := {
  io_name : m_Name (obj_meta k a) = n;
  io_qname : qi_name a = n;
  io_namespace : m_Namespace (obj_meta k a) = ns;
  io_typed : typed a;
  io_job : has_job w a;
  io_crons : jq_crons (objects w KCronJob)
}.
Definition items_ok (w : cluster) : Prop := ∀ n a, queued w !! n = Some a → item_ok w n a.

(** The Job of the object, if that runs, ended. *)
Definition item_ready (w : cluster) (n : string) : Prop := ∀ a j, queued w !! n = Some a →
  qi_ignored a = false → running a → jobs w !! jq_job a = Some j → jq_ended j.

Definition jobs_fine (w : cluster) : Prop := ∀ n j, jobs w !! n = Some j → jq_fine j.

(** ** One pass

    The status of one object changes, Jobs are only added, and CronJobs may change. *)
Record turned (w : cluster) (n : string) (a : obj k) (w' : cluster) (b : obj k) : Prop := {
  td_items : queued w' = <[n := b]> (queued w);
  td_frame : frame [k; KJob; KCronJob] w w';
  td_jobs : jobs w ⊆ jobs w';
  td_same : same a b;
  td_phase : qi_ignored a = false → qi_phase b = qi_phase a ∨ rank (qi_phase b) < rank (qi_phase a);
  td_typed : typed b;
  td_has_job : has_job w' b;
  td_run : qi_ignored a = false → running a → item_ready w n → finished b;
  td_start : qi_ignored a = false → live w (qi_group a) → waiting a → may_start (decide_start a (listing k w)) = true → ¬ waiting b;
  td_live : qi_ignored a = false → waiting a → running b → live w (qi_group a);
  td_good : jq_accepted w a → jobs_fine w → qi_phase a ≠ "Failed" → qi_phase b ≠ "Failed";
  td_fine : jobs_fine w → jobs_fine w';
  td_crons : jq_crons (objects w KCronJob) → jq_crons (objects w' KCronJob);
  td_crons_same : qi_ignored a = false → objects w' KCronJob = objects w KCronJob
}.

Lemma frame_instances w w' : frame [k; KJob; KCronJob] w w' → objects w' KInstance = objects w KInstance.
Proof. intros Hf. apply Hf. pose proof jq_kind. set_solver. Qed.

Lemma same_refl a : same a a.
Proof. unfold same. clear. destruct k; by destruct a. Qed.
Lemma same_ignored a b : same a b → qi_ignored b = qi_ignored a.
Proof. intros Hs. by destruct (jq_kept a b Hs) as (_ & _ & _ & ?). Qed.
Lemma same_instance w a b : same a b → instance_of w b = instance_of w a.
Proof. intros Hs. unfold instance_of. by destruct (jq_kept a b Hs) as (_ & _ & -> & _). Qed.

(** Objects that stay as they are stay in order when others change and Jobs are added. *)
Lemma item_ok_frame w w' m a :
  frame [k; KJob; KCronJob] w w' → jobs w ⊆ jobs w' →
  (jq_crons (objects w KCronJob) → jq_crons (objects w' KCronJob)) → item_ok w m a → item_ok w' m a.
Proof.
  intros Hf Hjobs Hc [? ? ? ? Hj ?]. split; try done; [..|by apply Hc].
  intros Hq Hr. destruct (Hj Hq Hr) as [? [j Hjob]]. split; [done|]. exists j. by eapply lookup_weaken.
Qed.

Section Turn.
Context (w : cluster) (n : string) (a a0 : obj k) (Hok : items_ok w).
Context (Ha : queued w !! n = Some a0) (Halike : alike a a0).

Lemma ignored_a : qi_ignored a0 = qi_ignored a.
Proof. apply same_ignored, Halike. Qed.
Lemma typed_a : typed a.
Proof.
  destruct Halike as (_ & Hp & _). pose proof (io_typed _ _ _ (Hok n a0 Ha)) as Ht.
  unfold typed, finished, running, waiting in *. by rewrite ignored_a, Hp in Ht.
Qed.
Lemma job_a : qi_ignored a = false → running a → jq_job a ≠ "" ∧ is_Some (jobs w !! jq_job a).
Proof.
  destruct Halike as (_ & Hp & Hj). pose proof (io_job _ _ _ (Hok n a0 Ha)) as Hhas.
  unfold has_job, running in Hhas. by rewrite ignored_a, Hp, Hj in Hhas.
Qed.
Lemma ready_a j : item_ready w n → qi_ignored a = false → running a → jobs w !! jq_job a = Some j → jq_ended j.
Proof.
  destruct Halike as (_ & Hp & Hj). intros Hready Hi Hr Hjob.
  apply (Hready a0 j Ha); [by rewrite ignored_a|unfold running; by rewrite Hp|by rewrite Hj].
Qed.
Lemma meta_a : obj_meta k a0 = obj_meta k a.
Proof. apply jq_meta, Halike. Qed.

(** The object was not changed. *)
Lemma turned_none w' :
  queued w' = queued w → frame [k; KJob; KCronJob] w w' → jobs w' = jobs w →
  objects w' KCronJob = objects w KCronJob →
  (qi_ignored a = false → running a → item_ready w n → False) →
  (qi_ignored a = false → live w (qi_group a) → waiting a → may_start (decide_start a (listing k w)) = true → False) →
  turned w n a w' a0.
Proof.
  intros Hq Hf Hj Hcrons Hrun Hstart. destruct (Hok n a0 Ha) as [_ _ _ Ht Hhas _]. destruct Halike as (Hs & Hp & _).
  assert (jobs_fine w → jobs_fine w') by (unfold jobs_fine; by rewrite Hj).
  split; try done; [by rewrite Hq, insert_id|by rewrite Hj|by left|unfold has_job; by rewrite Hj|..|by rewrite Hcrons].
  - intros Hi Hr Hready. by destruct Hrun.
  - intros Hi Hl Hw Hmay. by destruct Hstart.
  - intros _ Hw Hr. destruct (running_not_waiting a); [|done]. unfold running in *. by rewrite <-Hp.
  - intros _ _. by rewrite Hp.
Qed.

(** A write of [b], after Jobs were created. *)
Lemma turned_write w1 w2 b :
  qi_ignored a = false → frame [KJob] w w1 → jobs w ⊆ jobs w1 → (jobs_fine w → jobs_fine w1) → active a →
  same a b → qi_phase b ∈ ["Pending"; "Running"; "Succeeded"; "Failed"] →
  (qi_phase b = "Pending" → waiting a ∧ (live w (qi_group a) → may_start (decide_start a (listing k w)) = false)) →
  (qi_phase b = "Running" → live w (qi_group a) ∧ waiting a ∧ jq_job b ≠ "" ∧ is_Some (jobs w1 !! jq_job b)) →
  (jq_accepted w a → jobs_fine w → qi_phase b ≠ "Failed") →
  writes k n b w1 w2 → turned w n a w2 b.
Proof.
  intros Hi Hw1 Hjobs Hfine Hact Hs Hp Hpend Hrun Hgood [Hups Hframe].
  pose proof jq_kind as Hk. assert (jobs w2 = jobs w1) as Hj2 by (apply (Hframe KJob); set_solver).
  assert (qi_phase b = "Pending" ∨ qi_phase b = "Running" ∨ finished b) as Hcases.
  { unfold finished. set_unfold in Hp. tauto. }
  assert (finished b → qi_phase b ≠ "Running" ∧ qi_phase b ≠ "" ∧ qi_phase b ≠ "Pending") as Hfin
    by (unfold finished; intros [-> | ->]; done).
  split; try done.
  - etrans; [exact Hups|]. f_equal. apply (Hw1 k). set_solver.
  - transitivity w1; [eapply frame_weaken; [|exact Hw1]|eapply frame_weaken; [|exact Hframe]]; set_solver.
  - by rewrite Hj2.
  - intros _. destruct Hcases as [E|[E|Hf]].
    + destruct (Hpend E) as [[Hw|Hw] _]; rewrite Hw, E; [right; cbn; lia|by left].
    + destruct (Hrun E) as (_ & [Hw|Hw] & _); rewrite Hw, E; right; cbn; lia.
    + right. rewrite (proj2 (rank_finished b (λ _, or_introl Hf) (eq_trans (same_ignored a b Hs) Hi)) Hf).
      apply Nat.neq_0_lt_0. intros Hz. by apply Hact, (rank_finished a typed_a).
  - intros _. unfold running, waiting. tauto.
  - intros _ E. rewrite Hj2. by apply Hrun.
  - intros _ Hr _. destruct Hcases as [E|[E|Hf]]; [| |done]; exfalso;
      [destruct (Hpend E) as [Hw _]|destruct (Hrun E) as (_ & Hw & _)]; unfold running, waiting in *; by destruct Hw; congruence.
  - intros _ Hl _ Hmay. unfold waiting. intros [E|E].
    + destruct Hcases as [|[|Hf]]; [congruence..|]. by apply Hfin in Hf as (_ & ? & _).
    + destruct (Hpend E) as [_ Hno]. rewrite Hno in Hmay by done. done.
  - intros _ _ Hr. by apply Hrun.
  - auto.
  - unfold jobs_fine. rewrite Hj2. exact Hfine.
  - rewrite (Hframe KCronJob), (Hw1 KCronJob) by set_solver. done.
  - intros _. by rewrite (Hframe KCronJob), (Hw1 KCronJob) by set_solver.
Qed.

(** A write of an object that is no part of the queue, after its CronJob was changed. *)
Lemma turned_ignored w1 w2 b :
  qi_ignored a = true → frame [KCronJob] w w1 →
  (jq_crons (objects w KCronJob) → jq_crons (objects w1 KCronJob)) → same a b →
  (jq_accepted w a → qi_phase b ≠ "Failed") →
  writes k n b w1 w2 → turned w n a w2 b.
Proof.
  clear Hok Ha Halike a0 ns. intros Hi Hw1 Hcrons Hs Hgood [Hups Hframe].
  pose proof jq_kind as Hk. assert (jobs w2 = jobs w) as Hj2.
  { unfold jobs. rewrite (Hframe KJob), (Hw1 KJob); [done|set_solver..]. }
  pose proof (same_ignored a b Hs) as Hib. rewrite Hi in Hib. split; try (by rewrite ?Hi); auto.
  - etrans; [exact Hups|]. f_equal. apply (Hw1 k). set_solver.
  - transitivity w1; [eapply frame_weaken; [|exact Hw1]|eapply frame_weaken; [|exact Hframe]]; set_solver.
  - by rewrite Hj2.
  - unfold typed. by rewrite Hib.
  - unfold has_job. by rewrite Hib.
  - unfold jobs_fine. by rewrite Hj2.
  - rewrite (Hframe KCronJob) by set_solver. done.
Qed.
End Turn.

(** A write that the queue does not see, before the turn. *)
Lemma alike_view a a0 : alike a a0 → view a0 = view a.
Proof.
  intros (Hs & Hp & _). destruct (jq_kept a a0 Hs) as (Hn & Ht & Hg & Hi). unfold view.
  by rewrite Hn, Ht, Hg, Hi, Hp.
Qed.

Section Before.
Context (w w1 : cluster) (n : string) (a a0 : obj k).
Context (Ha : queued w !! n = Some a) (Halike : alike a a0) (Hwr : writes k n a0 w w1).

Lemma before_items : queued w1 = <[n := a0]> (queued w).
Proof. apply Hwr. Qed.
Lemma before_jobs : jobs w1 = jobs w.
Proof. apply (proj2 Hwr KJob). pose proof jq_kind. set_solver. Qed.
Lemma before_instances : objects w1 KInstance = objects w KInstance.
Proof. apply Hwr. pose proof jq_kind. set_solver. Qed.
Lemma before_crons : objects w1 KCronJob = objects w KCronJob.
Proof. apply Hwr. pose proof jq_kind. set_solver. Qed.
Lemma before_views : views queued w1 = views queued w.
Proof.
  unfold views. rewrite before_items, fmap_insert. apply insert_id. rewrite lookup_fmap, Ha. cbn.
  by rewrite (alike_view a a0 Halike).
Qed.

Lemma before_ok : items_ok w → items_ok w1.
Proof.
  intros Hok m c. rewrite before_items.
  assert (frame [k; KJob; KCronJob] w w1) as Hf by (eapply frame_weaken; [|apply Hwr]; set_solver).
  assert (jobs w ⊆ jobs w1) as Hj by by rewrite before_jobs.
  intros [[<- <-]|[_ Hc]]%lookup_insert_Some; (eapply item_ok_frame; [done|done|by rewrite before_crons|]); [|by apply Hok].
  destruct Halike as (Hs & Hp & Hjob), (jq_kept a a0 (proj1 Halike)) as (Hn & _ & _ & Hi).
  destruct (Hok n a Ha) as [? ? ? Ht Hh ?]. unfold has_job, typed, running, waiting, finished in *.
  split; unfold has_job, typed, running, waiting, finished;
    rewrite ?(jq_meta a a0 Hs), ?Hp, ?Hjob, ?Hi, ?Hn; done.
Qed.

Lemma turned_before w' b : turned w1 n a w' b → turned w n a w' b.
Proof.
  intros [Hups Hframe Hjobs ? ? ? ? Hrun Hstart Hlive Hgood Hfine Hcrons Hsame].
  pose proof before_jobs as Hj. split; try done.
  - by rewrite Hups, before_items, insert_insert_eq.
  - transitivity w1; [eapply frame_weaken; [|apply Hwr]; set_solver|done].
  - by rewrite <-Hj.
  - intros Hi Hr Hready. apply Hrun; [done..|]. intros v j. rewrite before_items, lookup_insert_eq, Hj.
    intros [= <-]. destruct Halike as (Hs & Hp & ->). intros _ _. by apply (Hready a j Ha).
  - intros Hi Hl Hw Hmay. apply Hstart; [done|unfold live; by rewrite before_instances|done|]. revert Hmay.
    by apply (views_may_start queued w w1 a a before_views).
  - unfold live in *. by rewrite <-before_instances.
  - intros Hacc Hf. apply Hgood; [|unfold jobs_fine; by rewrite Hj].
    revert Hacc. apply jq_accepted_same; [exact before_instances|apply same_refl].
  - intros Hf. apply Hfine. unfold jobs_fine. by rewrite Hj.
  - by rewrite <-before_crons.
  - intros Hi. rewrite (Hsame Hi). apply before_crons.
Qed.
End Before.

(** ** All passes *)
Section Passes.
Context (pass : string → cluster → cluster) (finish : Job → Job) (d : Z).
Abbreviation rest := (rest_for finish d).

Lemma rest_queued w : queued (rest w) = queued w.
Proof. clear ns pass. apply (rest_frame finish d w k). pose proof jq_kind. set_solver. Qed.

Context (Hpass : ∀ w n a, items_ok w → queued w !! n = Some a → ∃ b, turned w n a (pass n w) b).
Context (Hnone : ∀ w n, queued w !! n = None → pass n w = w).

Lemma pass_ok n w : items_ok w → items_ok (pass n w).
Proof.
  intros Hok. destruct (queued w !! n) as [a|] eqn:Ha; [|by rewrite Hnone].
  destruct (Hpass w n a Hok Ha) as [b [Hups Hf Hjobs Hs ? Ht Hj ? ? ? ? ? Hcrons _]].
  intros m c. rewrite Hups. intros [[<- <-]|[_ Hc]]%lookup_insert_Some; [|by eapply item_ok_frame; [..|apply Hok]].
  destruct (Hok n a Ha) as [], (jq_kept a b Hs) as (Hn & _).
  split; rewrite ?(jq_meta a b Hs), ?Hn; auto.
Qed.

Lemma pass_other n w m : items_ok w → m ≠ n → queued (pass n w) !! m = queued w !! m.
Proof.
  intros Hok Hne. destruct (queued w !! n) as [a|] eqn:Ha; [|by rewrite Hnone].
  destruct (Hpass w n a Hok Ha) as [b [-> _]]. by rewrite lookup_insert_ne.
Qed.

Lemma pass_frame n w : items_ok w → frame [k; KJob; KCronJob] w (pass n w).
Proof.
  intros Hok. destruct (queued w !! n) as [a|] eqn:Ha; [|by rewrite Hnone].
  by destruct (Hpass w n a Hok Ha) as [b []].
Qed.

Lemma pass_ready n w m : items_ok w → m ≠ n → item_ready w m → item_ready (pass n w) m.
Proof.
  intros Hok Hne Hready c j. rewrite pass_other by done. intros Hc Hi Hr Hj.
  destruct (queued w !! n) as [a|] eqn:Ha; [|rewrite Hnone in Hj by done; by apply (Hready c)].
  destruct (Hpass w n a Hok Ha) as [b [_ _ Hjobs _]].
  destruct (io_job _ _ _ (Hok m c Hc) Hi Hr) as [_ [j' Hj']].
  pose proof (lookup_weaken _ _ _ _ Hj' Hjobs). apply (Hready c j); [done..|congruence].
Qed.

Lemma rest_ok w : items_ok w → items_ok (rest w).
Proof.
  intros Hok n a. rewrite rest_queued. intros Ha. destruct (Hok n a Ha) as [? ? ? ? Hj ?]. split; try done.
  intros Hq Hr. destruct (Hj Hq Hr) as [? [j Hjob]]. split; [done|]. exists (finish j).
  by rewrite rest_jobs, lookup_fmap, Hjob.
Qed.

Context (Hfinish : ∀ j, jq_ended (finish j)).

Lemma pass_live n w g : items_ok w → live (pass n w) g ↔ live w g.
Proof. intros Hok. unfold live. by rewrite (frame_instances w _ (pass_frame n w Hok)). Qed.
Lemma rest_live w g : live (rest w) g ↔ live w g.
Proof. unfold live. by rewrite (rest_frame finish d w KInstance) by set_solver. Qed.

#[local] Instance live_dec w g : Decision (live w g).
Proof. unfold live. apply _. Defined.

#[local] Instance work_worker : Worker queued pass rest live items_ok item_ready.
Proof.
  split.
  - intros w n a Hok Ha. by destruct (Hok n a Ha).
  - apply pass_ok.
  - intros w n m. apply pass_other.
  - intros w n m. apply pass_ready.
  - intros w n _ Ha. by rewrite Hnone.
  - intros w n a Hok Ha. destruct (Hpass w n a Hok Ha) as [b [Hups ? ? Hs ? ? ? ? ? ? ? ? ? _]].
    exists b. rewrite Hups, lookup_insert_eq. split_and!; [done|by apply jq_kept|auto].
  - intros w n g. apply pass_live.
  - apply rest_live.
  - apply rest_ok.
  - apply rest_queued.
  - intros w n _ a j _ _ _. rewrite rest_jobs. intros (j' & <- & _)%lookup_fmap_Some. apply Hfinish.
Qed.

(** What is accepted does not fail while no Job does. *)
Definition on_course (m : string) (w : cluster) : Prop :=
  jobs_fine w ∧ ∃ a, queued w !! m = Some a ∧ jq_accepted w a ∧ qi_phase a ≠ "Failed".

Lemma pass_on_course m n w : items_ok w → on_course m w → on_course m (pass n w).
Proof.
  intros Hok (Hfine & a & Ha & Hacc & Hp).
  destruct (queued w !! n) as [c|] eqn:Hc; [|rewrite Hnone by done; split; eauto].
  destruct (Hpass w n c Hok Hc) as [b [Hups Hf ? Hs ? ? ? ? ? ? Hgood Hfine' _ _]]. split; [auto|].
  pose proof (frame_instances w _ Hf) as Hi.
  destruct (decide (m = n)) as [->|Hne].
  - exists b. rewrite Hups, lookup_insert_eq. simplify_eq. split_and!; [done|by eapply jq_accepted_same|auto].
  - exists a. rewrite Hups, lookup_insert_ne by done.
    split_and!; [done|eapply jq_accepted_same; [exact Hi|apply same_refl|done]|done].
Qed.

Lemma rest_on_course m w : (∀ j, jq_fine (finish j)) → on_course m w → on_course m (rest w).
Proof.
  intros Hfine (_ & a & Ha & Hacc & Hp). split.
  - intros n j. rewrite rest_jobs. intros (j' & <- & _)%lookup_fmap_Some. apply Hfine.
  - exists a. rewrite rest_queued. split_and!; [done| |done].
    eapply jq_accepted_same; [|apply same_refl|done]. apply rest_frame. set_solver.
Qed.

(** *** Rounds of passes *)
Lemma work_settles names w n :
  items_ok w → covers queued names w → 3 * size (queued w) ≤ n →
  settled queued live (rounds pass rest names n w).
Proof.
  intros Hok Hc Hn. pose proof (remaining_bound queued w).
  refine (drains queued pass rest live items_ok item_ready names w n Hok Hc _). lia.
Qed.

Lemma work_invariant (P : cluster → Prop) names w n :
  (∀ m w, items_ok w → P w → P (pass m w)) → (∀ w, items_ok w → P w → P (rest w)) →
  items_ok w → P w → items_ok (rounds pass rest names n w) ∧ P (rounds pass rest names n w).
Proof. apply (rounds_keep queued pass rest live items_ok item_ready P names w n). Qed.

Lemma work_reaches (P Q : cluster → Prop) names w m n :
  (∀ m w, items_ok w → P w → P (pass m w)) → (∀ w, items_ok w → P w → P (rest w)) →
  (∀ w, items_ok w → P w → Q (pass m w)) → (∀ m w, items_ok w → P w → Q w → Q (pass m w)) →
  m ∈ names → n ≠ 0 → items_ok w → P w → Q (rounds pass rest names n w).
Proof. apply (rounds_reach queued pass rest live items_ok item_ready P Q names w m n). Qed.

(** The rounds leave the instances alone. *)
Lemma work_instances names w n :
  items_ok w → objects (rounds pass rest names n w) KInstance = objects w KInstance.
Proof.
  intros Hok. apply (work_invariant (λ w', objects w' KInstance = objects w KInstance)); [..|done|done].
  - intros m w' Hok' <-. apply frame_instances. by apply pass_frame.
  - intros w' _ <-. apply rest_frame. set_solver.
Qed.

Lemma work_stays_on_course m names w n :
  (∀ j, jq_fine (finish j)) → items_ok w → on_course m w → on_course m (rounds pass rest names n w).
Proof.
  intros Hend Hok Hm. apply work_invariant; [|intros w' _; by apply rest_on_course|done|done].
  intros m' w'. apply pass_on_course.
Qed.
End Passes.

(** ** A Job is created, or one of its name is there *)
Lemma effect_create_job `{KubeLib} `{!ErrorLaws} logs w job :
  jq_fine job →
  let e := effect (api logs) w (create KJob job) in
  IgnoreAlreadyExists e.1 = Ok tt ∧ frame [KJob] w e.2 ∧ jobs w ⊆ jobs e.2 ∧
  is_Some (jobs e.2 !! m_Name (job_Meta job)) ∧ (jobs_fine w → jobs_fine e.2).
Proof.
  intros Hok. unfold create, call. rewrite effect_do. cbn [api].
  change (objects w KJob !! m_Name (obj_meta KJob job)) with (jobs w !! m_Name (job_Meta job)).
  destruct (jobs w !! m_Name (job_Meta job)) as [j|] eqn:Hj; cbn zeta.
  - cbn. rewrite IsAlreadyExists_spec. split_and!; try done.
  - assert (jobs (put KJob (m_Name (job_Meta job)) job w) = <[m_Name (job_Meta job) := job]> (jobs w)) as Hp
      by exact (proj1 (writes_put KJob _ job w)).
    cbn [Effects.effect run fst snd]. change (obj_meta KJob job) with (job_Meta job).
    unfold Effects.effect. cbn [run fst snd]. rewrite Hp.
    split_and!; [done|apply frame_put|by apply insert_subseteq|by rewrite lookup_insert_eq|].
    intros Hfine m j. rewrite Hp. intros [[_ <-]|[_ Hm]]%lookup_insert_Some; [done|by apply (Hfine m)].
Qed.
End Work.
