(* ===== verification/BackupSpec.v ===== *)
(** * Validation of an OdooBackup (internal/controller/odoobackup_validate.go) *)
From S2P Require Export KubeRef.

Open Scope Z_scope.

Definition backupCronFieldCount : nat := 5.
Definition backupMinTimeout : Z := 60.
Definition backupMaxTimeout : Z := 86400.
Definition backupURLHTTP : string := "http://".
Definition backupURLHTTPS : string := "https://".

(** ** The regular expressions *)
Definition backup_path_byte (c : ascii) : bool := is_alnum c || has_byte c "._/-".
Definition backupPathRe (s : string) : bool := matches_plus backup_path_byte s.
Definition backupDatabaseRe (s : string) : bool :=
  matches_plus (λ c, is_alnum c || has_byte c "_.-") s.

(** A bucket name: 3 to 63 bytes, a letter or digit at both ends. *)
Definition bucket_end (c : ascii) : bool := is_lower c || is_digit c.
Definition bucket_byte (c : ascii) : bool := is_lower c || is_digit c || has_byte c ".-".
Definition starts_with (p : ascii → bool) (s : string) : bool :=
  match s with String c _ => p c | EmptyString => false end.
Definition backupBucketRe (s : string) : bool :=
  (3 <=? len s)%nat && (len s <=? 63)%nat && all_bytes bucket_byte s &&
  starts_with bucket_end s && starts_with bucket_end (str_rev s).

Section Validation.
Context `{Unicode} `{KubeLib}.

(** The loop over the segments, [None] when they are fine. *)
Fixpoint checkSegments (segs : list string) : option string :=
  match segs with
  | [] => None
  | seg :: segs =>
      if String.eqb seg "" then Some "must not contain empty segments"
      else if String.eqb seg ".." then Some "must not contain '..'"
      else checkSegments segs
  end.

Definition backupValidatePath (field value : string) : res unit :=
  let refuse why := Err (ErrorString (field +:+ " " +:+ Quote value +:+ " " +:+ why)) in
  if String.eqb value "" then Ok tt
  else if negb (backupPathRe value)
  then refuse "may only contain letters, digits, '.', '_', '-' and '/'"
  else if HasPrefix value "/" then refuse "must not start with '/'"
  else match checkSegments (Split (TrimSuffix value "/") "/") with
       | Some why => refuse why
       | None => Ok tt
       end.

Definition backupValidateDestination (d : BackupDestination) : res unit :=
  match bd_PVC d, bd_S3 d with
  | Some _, Some _ | None, None =>
      Err (ErrorString "destination: exactly one of pvc or s3 must be set")
  | Some pvc, None =>
      if String.eqb (bp_ClaimName pvc) "" then
        Err (ErrorString "destination.pvc.claimName is required")
      else backupValidatePath "destination.pvc.subPath" (bp_SubPath pvc)
  | None, Some s3 =>
      if negb (backupBucketRe (s3_Bucket s3)) then
        Err (ErrorString ("destination.s3.bucket " +:+ Quote (s3_Bucket s3) +:+
                          " is not a valid bucket name"))
      else
        backupValidatePath "destination.s3.prefix" (s3_Prefix s3) ≫= λ _,
        if negb (String.eqb (s3_Endpoint s3) "") && negb (HasPrefix (s3_Endpoint s3) backupURLHTTP) &&
           negb (HasPrefix (s3_Endpoint s3) backupURLHTTPS)
        then Err (ErrorString ("destination.s3.endpoint " +:+ Quote (s3_Endpoint s3) +:+
                               " must start with http:// or https://"))
        else if String.eqb (s3_CredentialsSecret s3) "" then
          Err (ErrorString "destination.s3.credentialsSecret is required")
        else Ok tt
  end.

(** The checks of [backupValidateSpec] after the destination, one definition for each [if]. *)
Definition checkRetention (r : option Z) : res unit :=
  match r with
  | Some r => if r <? 1 then Err (ErrorString ("retention must be at least 1, got " +:+ Itoa r)) else Ok tt
  | None => Ok tt
  end.

Definition checkScratchSize (raw : string) : res unit :=
  if String.eqb raw "" then Ok tt
  else match ParseQuantity raw with
       | Err e => Err (WrapError ("scratchSize " +:+ Quote raw +:+ " is not a quantity: " +:+ error_text e) e)
       | Ok q => if QuantitySign q <=? 0
                 then Err (ErrorString ("scratchSize " +:+ Quote raw +:+ " must be positive")) else Ok tt
       end.

Definition checkTimeout (t : option Z) : res unit :=
  match t with
  | Some t =>
      if (t <? backupMinTimeout) || (backupMaxTimeout <? t)
      then Err (ErrorString ("timeoutSeconds must be between " +:+ Itoa backupMinTimeout +:+ " and " +:+
                             Itoa backupMaxTimeout +:+ ", got " +:+ Itoa t))
      else Ok tt
  | None => Ok tt
  end.

Definition checkSchedule (schedule : string) : res unit :=
  let n := length (Fields schedule) in
  if negb (String.eqb schedule "") && negb (n =? backupCronFieldCount)%nat
  then Err (ErrorString ("schedule " +:+ Quote schedule +:+ " must have " +:+
         Itoa (Z.of_nat backupCronFieldCount) +:+ " fields, got " +:+ Itoa (Z.of_nat n)))
  else Ok tt.

Definition backupValidateSpec (bk : OdooBackup) : res unit :=
  let spec := bk_Spec bk in
  let ns := ref_Namespace (bs_InstanceRef spec) in
  let db := bs_Database spec in
  if String.eqb (ref_Name (bs_InstanceRef spec)) "" then
    Err (ErrorString "instanceRef.name is required")
  else if negb (String.eqb ns "") && negb (String.eqb ns (m_Namespace (bk_Meta bk))) then
    Err (ErrorString ("instanceRef.namespace " +:+ Quote ns +:+
      " must be empty or the backup's namespace " +:+ Quote (m_Namespace (bk_Meta bk))))
  else if negb (String.eqb db "") && negb (backupDatabaseRe db) then
    Err (ErrorString ("database " +:+ Quote db +:+
      " may only contain letters, digits, '_', '.' and '-'"))
  else
    backupValidateDestination (bs_Destination spec) ≫= λ _,
    checkRetention (bs_Retention spec) ≫= λ _,
    checkScratchSize (bs_ScratchSize spec) ≫= λ _,
    checkTimeout (bs_TimeoutSeconds spec) ≫= λ _,
    checkSchedule (bs_Schedule spec).
End Validation.

(** ** Paths cannot escape *)

(** A path relative to its root that goes down only. *)
Definition contained_path (p : string) : Prop :=
  all_bytes backup_path_byte p = true ∧
  Forall (λ seg, seg ≠ "" ∧ seg ≠ "..") (Split (TrimSuffix p "/") "/").

Lemma checkSegments_ok segs :
  checkSegments segs = None → Forall (λ seg, seg ≠ "" ∧ seg ≠ "..") segs.
Proof.
  induction segs as [|seg segs IH]; cbn; [constructor|].
  destruct (String.eqb_spec seg ""); [done|]. destruct (String.eqb_spec seg ".."); [done|].
  intros ?. constructor; [done|auto].
Qed.

Lemma backupValidatePath_ok `{Unicode} field value u :
  backupValidatePath field value = Ok u → value = "" ∨ (contained_path value ∧ HasPrefix value "/" = false).
Proof.
  unfold backupValidatePath. destruct (String.eqb_spec value ""); [by left|].
  destruct (backupPathRe value) eqn:Hre; cbn [negb]; [|done].
  destruct (HasPrefix value "/") eqn:Hp; [done|].
  destruct (checkSegments _) eqn:Hs; [done|]. intros _. right. split; [|done].
  unfold backupPathRe, matches_plus in Hre. apply andb_true_iff in Hre as [_ Hre].
  split; [done|by apply checkSegments_ok].
Qed.

(** The segments of a path from the root of the file system, once it is cleaned. *)
Definition segments (p : string) : list string := clean_go [] (Split p "/").

(** Cleaning goes on where it was. *)
Lemma clean_go_app acc segs segs' :
  clean_go acc (segs ++ segs') = clean_go (reverse (clean_go acc segs)) segs'.
Proof.
  induction segs as [|seg segs IH] in acc |- *; cbn [app clean_go]; [by rewrite reverse_involutive|].
  destruct (_ || _); [apply IH|]. destruct (String.eqb seg ".."); apply IH.
Qed.

(** Segments that only go down keep what was there before. *)
Lemma clean_go_down acc segs :
  Forall (λ seg, seg ≠ "..") segs → clean_go acc segs = reverse acc ++ clean_go [] segs.
Proof.
  intros Hf. induction Hf as [|seg segs Hseg _ IH] in acc |- *; cbn; [by rewrite app_nil_r|].
  destruct (_ || _); [by apply IH|]. destruct (String.eqb_spec seg ".."); [done|].
  by rewrite (IH (seg :: acc)), (IH [seg]), reverse_cons, <-app_assoc.
Qed.

Lemma Split_TrimSuffix_down p :
  Forall (λ seg, seg ≠ "" ∧ seg ≠ "..") (Split (TrimSuffix p "/") "/") →
  Forall (λ seg, seg ≠ "..") (Split p "/").
Proof.
  assert (∀ l, Forall (λ seg, seg ≠ "" ∧ seg ≠ "..") l → Forall (λ seg, seg ≠ "..") l) as Hw.
  { intros l Hl. eapply Forall_impl; [exact Hl|]. by intros ? [??]. }
  unfold TrimSuffix. destruct (HasSuffix p "/") eqn:Hs; [|by apply Hw].
  unfold HasSuffix in Hs. apply andb_true_iff in Hs as [_ Hs%String.eqb_eq].
  pose proof (str_take_drop (len p - len "/") p) as Hp. rewrite Hs in Hp.
  set (q := str_take _ p) in *. intros Hf. rewrite <-Hp, (Split_app q "" "/"). apply Forall_app. split; [by apply Hw|by apply Forall_singleton].
Qed.

(** The accepted specs: what the rest of the controller relies on. *)
Record accepted_backup (bk : OdooBackup) : Prop := {
  ab_instance : ref_Name (bs_InstanceRef (bk_Spec bk)) ≠ "";
  ab_namespace : ref_Namespace (bs_InstanceRef (bk_Spec bk)) ∈ [""; m_Namespace (bk_Meta bk)];
  ab_one : (bd_PVC (bs_Destination (bk_Spec bk)) = None) ↔
           is_Some (bd_S3 (bs_Destination (bk_Spec bk)));
  ab_pvc pvc : bd_PVC (bs_Destination (bk_Spec bk)) = Some pvc →
    bp_ClaimName pvc ≠ "" ∧ (bp_SubPath pvc = "" ∨ contained_path (bp_SubPath pvc));
  ab_s3 s3 : bd_S3 (bs_Destination (bk_Spec bk)) = Some s3 →
    (3 ≤ len (s3_Bucket s3) ≤ 63)%nat ∧ (s3_Prefix s3 = "" ∨ contained_path (s3_Prefix s3)) ∧
    s3_CredentialsSecret s3 ≠ "";
  ab_retention r : bs_Retention (bk_Spec bk) = Some r → 1 ≤ r;
  ab_timeout t : bs_TimeoutSeconds (bk_Spec bk) = Some t → backupMinTimeout ≤ t ≤ backupMaxTimeout
}.

Lemma backupValidateSpec_ok `{Unicode} `{KubeLib} bk u :
  backupValidateSpec bk = Ok u → accepted_backup bk.
Proof.
  unfold backupValidateSpec.
  destruct (String.eqb_spec (ref_Name (bs_InstanceRef (bk_Spec bk))) "") as [|Hn]; [done|].
  destruct (negb _ && negb _) eqn:Hns; [done|].
  destruct (negb (String.eqb (bs_Database _) "") && _); [done|].
  intros (u1 & Hd & (u2 & Hr & (u3 & _ & (u4 & Ht & _)%res_bind_Ok)%res_bind_Ok)%res_bind_Ok)%res_bind_Ok.
  unfold backupValidateDestination in Hd. split; [done| | | | | |].
  - rewrite andb_false_iff, !negb_false_iff, !String.eqb_eq in Hns. set_solver.
  - destruct (bd_PVC _), (bd_S3 _); try done; split; try done; by intros [? ?].
  - intros pvc Hp. rewrite Hp in Hd. destruct (bd_S3 _); [done|].
    destruct (String.eqb_spec (bp_ClaimName pvc) ""); [done|].
    apply backupValidatePath_ok in Hd as [?|[? _]]; auto.
  - intros s3 Hs. rewrite Hs in Hd. destruct (bd_PVC _); [done|].
    destruct (backupBucketRe (s3_Bucket s3)) eqn:Hb; [|done]. cbn [negb] in Hd.
    apply res_bind_Ok in Hd as (u5 & Hpath & Hd).
    destruct (_ && _) in Hd; [done|]. destruct (String.eqb_spec (s3_CredentialsSecret s3) ""); [done|].
    unfold backupBucketRe in Hb. to_prop. split; [split; by apply Nat.leb_le|]. split; [|done].
    apply backupValidatePath_ok in Hpath as [?|[? _]]; auto.
  - intros r Hr'. unfold checkRetention in Hr. rewrite Hr' in Hr.
    destruct (Z.ltb_spec r 1); [done|lia].
  - intros t Ht'. unfold checkTimeout in Ht. rewrite Ht' in Ht.
    destruct (Z.ltb_spec t backupMinTimeout), (Z.ltb_spec backupMaxTimeout t); try done; lia.
Qed.

(** C32: an accepted backup spec stays inside its destination. When [backupValidateSpec] accepts a
    backup, it has exactly one destination with what that needs (a claim, or a bucket of valid
    length and a credentials Secret), the retention and the timeout are in range, and the sub path
    of a claim or the prefix of a bucket, joined to any root, stays below that root: the segments
    of the cleaned path are those of the root, cleaned, followed by those of the path. *)
Theorem backupValidateSpec_safe `{Unicode} `{KubeLib} bk u root path :
  backupValidateSpec bk = Ok u →
  (bp_SubPath <$> bd_PVC (bs_Destination (bk_Spec bk)) = Some path ∨
   s3_Prefix <$> bd_S3 (bs_Destination (bk_Spec bk)) = Some path) →
  accepted_backup bk ∧ JoinRooted root path = "/" +:+ Join (segments root ++ segments path) "/".
Proof.
  intros Hok Hin. pose proof (backupValidateSpec_ok bk u Hok) as Hacc. split; [done|].
  assert (path = "" ∨ contained_path path) as Hpath.
  { destruct Hacc as [_ _ _ Hpvc Hs3 _ _].
    destruct Hin as [(d & Hin & ->)%fmap_Some|(d & Hin & ->)%fmap_Some];
      [by apply (Hpvc d)|by apply (Hs3 d)]. }
  unfold JoinRooted. change (root +:+ "/" +:+ path) with (root +:+ String "/" path).
  rewrite Split_app, clean_go_app, clean_go_down, reverse_involutive; [done|].
  destruct Hpath as [->|[_ Hf]]; [by repeat constructor|]. apply (Split_TrimSuffix_down path Hf).
Qed.

Definition pvc_backup (subPath : string) : OdooBackup :=
  {| bk_Meta := newMeta "nightly" "shop";
     bk_Spec := {| bs_InstanceRef := {| ref_Name := "shop"; ref_Namespace := "" |}; bs_Database := "";
       bs_IncludeFilestore := None;
       bs_Destination := {| bd_PVC := Some {| bp_ClaimName := "store"; bp_SubPath := subPath |};
                            bd_S3 := None |};
       bs_Retention := Some 7; bs_ScratchSize := ""; bs_TimeoutSeconds := None;
       bs_Schedule := "0 3 * * *"; bs_Suspend := false |};
     bk_Status := {| bst_Phase := ""; bst_JobName := ""; bst_CronJobName := ""; bst_StartTime := None;
       bst_CompletionTime := None; bst_LastScheduleTime := None; bst_LastSuccessfulTime := None;
       bst_LastBackup := ""; bst_Message := ""; bst_ObservedGeneration := 0; bst_Conditions := [] |} |}.

(** A root like the mount of a claim, and a path that is refused because it would leave it. *)
Lemma backupValidateSpec_safe_witness :
  is_Ok (backupValidateSpec (pvc_backup "shop/../../etc")) = false ∧
  JoinRooted "/mnt/backups" "shop/daily/" = "/mnt/backups/shop/daily".
Proof.
  split; [by vm_compute|].
  destruct (backupValidateSpec_safe (pvc_backup "shop/daily/") tt "/mnt/backups" "shop/daily/")
    as [_ Hjoin]; [by vm_compute|by left|]. exact Hjoin.
Defined.

Close Scope Z_scope.
