(* ===== verification/Status.v ===== *)
(** * What the conditions and events of a status say

    The theorems about conditions.go and events.go: merging conditions is a functional update that
    keeps transition times and is quiet when nothing changed; the conditions of an instance, an
    addon and an upgrade agree with the phase; an event note fits the API's limit. *)
From S2P Require Export KubeRef.

Open Scope Z_scope.

(** Merging conditions. For wanted conditions of distinct types, [setConditions] leaves every
    wanted condition in the list with the wanted status, reason and message and the generation
    observed, keeps the time of the last transition where the status did not change, and leaves
    the conditions of other types alone. Doing it again at any later time changes nothing at all,
    which is why a pass with nothing new does not write the status and does not wake itself. *)
Theorem setConditions_spec `{KubeLib} `{!ConditionLaws} now later cs gen want :
  NoDup (c_Type <$> want) →
  let merged := setConditions now cs gen want in
  (∀ c, c ∈ want →
     ∃ c', FindStatusCondition merged (c_Type c) = Some c' ∧
       c_Status c' = c_Status c ∧ c_Reason c' = c_Reason c ∧ c_Message c' = c_Message c ∧
       c_ObservedGeneration c' = gen ∧
       (∀ o, FindStatusCondition cs (c_Type c) = Some o → c_Status o = c_Status c →
          c_LastTransitionTime c' = c_LastTransitionTime o)) ∧
  (∀ t, t ∉ c_Type <$> want → FindStatusCondition merged t = FindStatusCondition cs t) ∧
  setConditions later merged gen want = merged.
Proof.
  intros Hn merged. split_and!.
  - intros c Hc. by apply setConditions_wanted.
  - intros t Ht. by apply setConditions_other.
  - by apply setConditions_again.
Qed.

Definition example_conds : list Condition :=
  addonConditions {| ads_Ready := true; ads_Phase := phaseSynced; ads_ClonedCommit := "0123456789abcdef";
    ads_LastSyncTime := Some 5; ads_Modules := ["sale_x"]; ads_Message := ""; ads_Conditions := [] |} "" "".

Lemma setConditions_spec_witness :
  c_Status <$> FindStatusCondition (setConditions 7 [] 2 example_conds) ConditionTypeReady = Some "True" ∧
  setConditions 9 (setConditions 7 [] 2 example_conds) 2 example_conds = setConditions 7 [] 2 example_conds.
Proof.
  split; [by vm_compute|]. apply (setConditions_spec 7 9 [] 2 example_conds).
  apply (bool_decide_unpack _). by vm_compute.
Defined.

(** ** Conditions agree with the phase *)

(** The status of the condition of a type among wanted conditions. *)
Definition wanted_status (want : list Condition) (t : string) : option string :=
  c_Status <$> List.find (λ c, String.eqb (c_Type c) t) want.

(** Distinct types, and a status and a reason the API server accepts. *)
Definition wellformed_conditions (want : list Condition) : Prop :=
  NoDup (c_Type <$> want) ∧
  Forall (λ c, c_Status c ∈ [condTrue; condFalse; condUnknown] ∧ c_Reason c ≠ "") want.

(** A condition with a given type, a valid status and a reason. *)
Definition cond_ok (t : string) (c : Condition) : Prop :=
  c_Type c = t ∧ c_Status c ∈ [condTrue; condFalse; condUnknown] ∧ c_Reason c ≠ "".

Lemma wellformed_list want ts :
  NoDup ts → Forall2 cond_ok ts want → wellformed_conditions want ∧ c_Type <$> want = ts.
Proof.
  intros Hn Hf. assert (c_Type <$> want = ts) as Hts.
  { clear Hn. induction Hf as [|t c ts want [Ht _] _ IH]; cbn; [done|by rewrite Ht, IH]. }
  split; [|done]. split; [by rewrite Hts|]. clear -Hf.
  induction Hf as [|t c ts want [_ ?] _ IH]; by constructor.
Qed.

Lemma wanted_status_three a b d x y z :
  x ≠ z → y ≠ z → c_Type a = x → c_Type b = y → c_Type d = z →
  wanted_status [a; b; d] x = Some (c_Status a) ∧ wanted_status [a; b; d] z = Some (c_Status d).
Proof.
  intros Hxz Hyz <- <- <-. unfold wanted_status. cbn. rewrite String.eqb_refl. split; [done|].
  by rewrite (proj2 (String.eqb_neq _ _) Hxz), (proj2 (String.eqb_neq _ _) Hyz), String.eqb_refl.
Qed.

(** The common part of the specifications of conditions: the types of [want], well formed, and
    what Ready and Degraded mean. *)
Definition conditions_mean (want : list Condition) (ready degraded : Prop) : Prop :=
  c_Type <$> want = [ConditionTypeReady; ConditionTypeProgressing; ConditionTypeDegraded] ∧
  wellformed_conditions want ∧
  (wanted_status want ConditionTypeReady = Some condTrue → ready) ∧
  (wanted_status want ConditionTypeDegraded = Some condTrue ↔ degraded) ∧
  ¬ (wanted_status want ConditionTypeReady = Some condTrue ∧
     wanted_status want ConditionTypeDegraded = Some condTrue).

Lemma conditions_mean_three a b d (ready degraded : Prop) :
  cond_ok ConditionTypeReady a → cond_ok ConditionTypeProgressing b →
  cond_ok ConditionTypeDegraded d → (c_Status a = condTrue → ready) →
  (c_Status d = condTrue ↔ degraded) → ¬ (c_Status a = condTrue ∧ c_Status d = condTrue) →
  conditions_mean [a; b; d] ready degraded.
Proof.
  intros Ha Hb Hd Hr Hg Hx.
  destruct (wanted_status_three a b d ConditionTypeReady ConditionTypeProgressing ConditionTypeDegraded)
    as [H1 H2]; [done|done|apply Ha|apply Hb|apply Hd|].
  destruct (wellformed_list [a; b; d]
    [ConditionTypeReady; ConditionTypeProgressing; ConditionTypeDegraded]) as [Hwf Hts].
  { apply (bool_decide_unpack _). by vm_compute. }
  { do 3 (constructor; [assumption|]). constructor. }
  unfold conditions_mean. rewrite H1, H2. split_and!; [done|done|..].
  - intros Heq. apply Hr. by apply (inj Some).
  - rewrite <-Hg. split; [apply (inj Some)|by intros ->].
  - intros [Hx1%(inj Some) Hx2%(inj Some)]. by apply Hx.
Qed.

Lemma new_cond_ok t s reason msg :
  s ∈ [condTrue; condFalse; condUnknown] → reason ≠ "" → cond_ok t (newCondition t s reason msg).
Proof. done. Qed.

Lemma cond_true_ok t reason msg : reason ≠ "" → cond_ok t (newCondition t condTrue reason msg).
Proof. intros. apply new_cond_ok; [by left|done]. Qed.
Lemma cond_false_ok t reason msg : reason ≠ "" → cond_ok t (newCondition t condFalse reason msg).
Proof. intros. apply new_cond_ok; [by right; left|done]. Qed.
Lemma cond_unknown_ok t reason msg : reason ≠ "" → cond_ok t (newCondition t condUnknown reason msg).
Proof. intros. apply new_cond_ok; [by do 2 right; left|done]. Qed.

Lemma default_reason_ne reason d : d ≠ "" → (if String.eqb reason "" then d else reason) ≠ "".
Proof. intros. by destruct (String.eqb_spec reason ""). Qed.

(** Proves a [cond_ok] of a condition the code builds. *)
Ltac cond_ok :=
  lazymatch goal with
  | |- cond_ok _ (newCondition _ condTrue _ _) => apply cond_true_ok
  | |- cond_ok _ (newCondition _ condFalse _ _) => apply cond_false_ok
  | |- cond_ok _ (newCondition _ condUnknown _ _) => apply cond_unknown_ok
  | |- cond_ok _ ?c => unfold c; cond_ok
  end; first [discriminate | by apply default_reason_ne | assumption].
#[export] Hint Extern 1 (cond_ok _ _) => first [assumption | cond_ok] : operator.

Ltac settle_phase Hst :=
  first [ by auto | by split; auto
        | intros Hc; try (specialize (Hst Hc)); split_and!; auto; apply not_elem_of_nil
        | rewrite elem_of_nil; split; [done|intros Hor; by destruct_or? Hor] ].

(** The conditions of an instance. Whatever the facts, they are one Ready, one Progressing and
    one Degraded condition with reasons the API server accepts. Ready is true only without a
    reconcile error and only when the phase is Running, or the Deployment has the desired ready
    replicas in a phase that still serves (never while the database is initialised or after an
    initialisation or upgrade failed); Degraded is true exactly for a reconcile error, a failed
    initialisation or a failed upgrade; Ready and Degraded are never both true. *)
Theorem instanceConditions_spec `{Unicode} f :
  conditions_mean (instanceConditions f)
    (f_ErrMessage f = "" ∧
     f_Phase f ∉ [phaseInitializing; phaseInitFailed; gatePhaseUpgradeFailed] ∧
     (f_Phase f = phaseRunning ∨ (f_DeploymentFound f = true ∧ f_DesiredReplicas f ≤ f_ReadyReplicas f)))
    (f_ErrMessage f ≠ "" ∨ f_Phase f ∈ [phaseInitFailed; gatePhaseUpgradeFailed]).
Proof.
  assert (cond_ok ConditionTypeReady (readyCond f) ∧ (c_Status (readyCond f) = condTrue →
    f_DeploymentFound f = true ∧ f_DesiredReplicas f ≤ f_ReadyReplicas f)) as [Hok Hst].
  { unfold readyCond. destruct (f_DeploymentFound f); cbn [andb negb]; [|split; [auto with operator|done]].
    destruct (Z.leb_spec (f_DesiredReplicas f) (f_ReadyReplicas f)); split; auto with operator; done. }
  unfold instanceConditions. destruct (String.eqb_spec (f_ErrMessage f) "") as [He|He]; cbn [negb].
  2: { set (reason := if String.eqb (f_ErrReason f) "" then _ else _).
       assert (reason ≠ "") by (subst reason; by destruct (String.eqb_spec (f_ErrReason f) "")).
       apply conditions_mean_three; auto with operator; [done| |by intros [? ?]]. split; auto. }
  do 5 (match goal with |- context [String.eqb (f_Phase f) ?p] =>
    destruct (String.eqb_spec (f_Phase f) p) as [Hp|?] end; [
    apply conditions_mean_three; auto with operator; try (by intros [? ?]); cbn;
      rewrite Hp, ?not_elem_of_cons, ?elem_of_cons; settle_phase Hst|]).
  apply conditions_mean_three; auto with operator; try (by intros [? ?]); cbn;
    rewrite ?not_elem_of_cons, ?elem_of_cons; settle_phase Hst.
Qed.

Ltac settle_agree := cbn; first [by auto | by split | by intros [? ?] | idtac].

Lemma addonConditions_mean `{Unicode} st reason msg :
  conditions_mean (addonConditions st reason msg) (ads_Phase st = phaseSynced) (ads_Phase st = phaseFailed) ∧
  (ads_Phase st = phaseSynced →
     wanted_status (addonConditions st reason msg) ConditionTypeReady = Some condTrue).
Proof.
  unfold addonConditions.
  do 4 (match goal with |- context [String.eqb (ads_Phase st) ?p] =>
    destruct (String.eqb_spec (ads_Phase st) p) as [Hp|?] end; [
    rewrite ?Hp; (split; [|done]); apply conditions_mean_three; auto with operator;
      settle_agree|]).
  split; [|done]. apply conditions_mean_three; auto with operator; settle_agree.
Qed.

Lemma conditions_mean_ready want (ready degraded : Prop) :
  conditions_mean want ready degraded →
  (ready → wanted_status want ConditionTypeReady = Some condTrue) →
  ∃ a, a ∈ want ∧ c_Type a = ConditionTypeReady ∧ (c_Status a = condTrue ↔ ready).
Proof.
  intros (Hts & _ & Hr & _) Hr'. destruct want as [|a want]; [done|].
  cbn in Hts. injection Hts as Ha _. unfold wanted_status in *. cbn in Hr, Hr'.
  rewrite (proj2 (String.eqb_eq _ _) Ha) in Hr, Hr'. cbn in Hr, Hr'.
  exists a. split_and!; [by left|done|]. split; [intros Heq; apply Hr; by rewrite Heq|].
  intros Hp. by apply Hr', (inj Some) in Hp.
Qed.

(** The conditions of addons and upgrades agree with the phase. An addon is Ready exactly when
    its phase is Synced and Degraded exactly when it is Failed; an upgrade has Succeeded true,
    false or unknown exactly when it succeeded, failed or has not finished, and Progressing true
    exactly while it runs. The conditions have distinct types and reasons the API accepts,
    whatever reason and message the caller gives. *)
Theorem phase_conditions_agree `{Unicode} st reason msg ust :
  (conditions_mean (addonConditions st reason msg) (ads_Phase st = phaseSynced)
     (ads_Phase st = phaseFailed) ∧
   (ads_Phase st = phaseSynced →
      wanted_status (addonConditions st reason msg) ConditionTypeReady = Some condTrue)) ∧
  (let want := upgradeConditions ust reason in
   wellformed_conditions want ∧ c_Type <$> want = [ConditionTypeSucceeded; ConditionTypeProgressing] ∧
   wanted_status want ConditionTypeSucceeded =
     Some (if String.eqb (ust_Phase ust) UpgradePhaseSucceeded then condTrue
           else if String.eqb (ust_Phase ust) UpgradePhaseFailed then condFalse else condUnknown) ∧
   wanted_status want ConditionTypeProgressing =
     Some (if String.eqb (ust_Phase ust) UpgradePhaseRunning then condTrue else condFalse)).
Proof.
  split; [apply addonConditions_mean|].
  assert (∀ a b x y, cond_ok ConditionTypeSucceeded a → cond_ok ConditionTypeProgressing b →
    c_Status a = x → c_Status b = y →
    wellformed_conditions [a; b] ∧ c_Type <$> [a; b] = [ConditionTypeSucceeded; ConditionTypeProgressing] ∧
    wanted_status [a; b] ConditionTypeSucceeded = Some x ∧
    wanted_status [a; b] ConditionTypeProgressing = Some y) as Htwo.
  { intros a b x y Ha Hb <- <-.
    destruct (wellformed_list [a; b] [ConditionTypeSucceeded; ConditionTypeProgressing]) as [Hwf Hts].
    { apply (bool_decide_unpack _). by vm_compute. }
    { do 2 (constructor; [assumption|]). constructor. }
    unfold wanted_status. cbn. by rewrite (proj1 Ha), (proj1 Hb). }
  unfold upgradeConditions. cbn zeta.
  repeat (match goal with |- context [String.eqb (ust_Phase ust) ?p] =>
    destruct (String.eqb_spec (ust_Phase ust) p) as [Hp|?] end; [
    rewrite ?Hp; apply Htwo; auto with operator; done|]).
  apply Htwo; auto with operator; done.
Qed.

(** ** Events *)
Lemma len_unrunes_go fuel s : (len (concat (runes_go fuel s).*2) ≤ len s)%nat.
Proof.
  revert s. induction fuel as [|fuel IH]; intros [|c s]; cbn [runes_go]; try (cbn; lia).
  destruct (decode_rune (String c s)) as [[rn w]|]; rewrite fmap_cons, concat_cons, len_app; cbn [snd].
  - rewrite <-(str_take_drop w (String c s)) at 3. rewrite len_app. specialize (IH (str_drop w (String c s))). lia.
  - specialize (IH s). cbn. lia.
Qed.

Lemma len_unrunes_filter (P : option N * string → Prop) `{∀ x, Decision (P x)} l :
  (len (unrunes (filter P l)) ≤ len (unrunes l))%nat.
Proof.
  unfold unrunes. induction l as [|x l IH]; [done|]. rewrite filter_cons, fmap_cons, concat_cons, len_app.
  case_decide; [rewrite fmap_cons, concat_cons, len_app|]; lia.
Qed.

Lemma len_ToValidUTF8 s : (len (ToValidUTF8 s) ≤ len s)%nat.
Proof. etrans; [apply len_unrunes_filter|]. apply len_unrunes_go. Qed.

(** An event note always fits: at most the 1024 bytes the API server accepts, the message
    itself whenever it fits, and otherwise the valid text of a prefix of it, marked with dots. *)
Lemma clipEventNote_spec s :
  (len (clipEventNote s) ≤ eventNoteMax)%nat ∧
  ((len s ≤ eventNoteMax)%nat → clipEventNote s = s) ∧
  ((eventNoteMax < len s)%nat →
     ∃ k, (k ≤ len s)%nat ∧ clipEventNote s = ToValidUTF8 (str_take k s) +:+ "...").
Proof.
  unfold clipEventNote, eventNoteMax. destruct (Nat.leb_spec (len s) 1024) as [Hle|Hgt].
  { split_and!; [done|done|lia]. }
  split_and!; [|lia|].
  - rewrite len_app. pose proof (len_ToValidUTF8 (str_take (1024 - 3) s)) as Hl.
    rewrite len_str_take in Hl. cbn [len]. lia.
  - intros _. exists (1024 - 3)%nat. split; [lia|done].
Qed.

Close Scope Z_scope.
