(* ===== verification/UpgradeScript.v ===== *)
(** * The init script and shell quoting (internal/controller/odooupgrade_script.go)

    [shJoin] prints a list of words for a POSIX shell; [sh_words] is a reader of such text after the
    shell's own rules (blanks between words, single quotes, backslash escapes, and refusal of every
    byte a shell expands or acts on, of an assignment and of a reserved word). The round trip says
    that the shell sees the words that were printed. *)
From S2P Require Export Constants.

Open Scope Z_scope.

Definition upgradeAdminPasswordSnippet : string :=
  "import os" +:+ nl +:+
  "u = env.ref('base.user_admin')" +:+ nl +:+
  "u.password = os.environ['ODOO_ADMIN_USER_PASSWORD']" +:+ nl +:+
  "env.cr.commit()" +:+ nl.

(** The class of [shSafeWord]. *)
Definition sh_safe_byte (c : ascii) : bool := is_alnum c || has_byte c "_./=,:+-".
Definition shSafeWord (s : string) : bool := matches_plus sh_safe_byte s.

Definition shQuoteWord (s : string) : string :=
  if shSafeWord s then s else sq +:+ ReplaceAll s sq_byte (sq +:+ str1 bs_byte +:+ sq +:+ sq) +:+ sq.

Definition shJoin (words : list string) : string := Join (shQuoteWord <$> words) " ".

Definition upgradeInitScript (database : string) (initArgs : list string) : string :=
  let install := "odoo" :: initArgs in
  let shell := ["odoo"; upgradeSubcmdShell; upgradeFlagConfig; odooConfPath; upgradeFlagDB; database;
                upgradeFlagNoHTTP] in
  "set -e" +:+ nl +:+ shJoin install +:+ nl +:+ shJoin shell +:+ " <<'EOF'" +:+ nl +:+
  upgradeAdminPasswordSnippet +:+ "EOF" +:+ nl.

(** ** A reader for shell words

    The bytes a POSIX shell takes as they are outside quotes. Excluded are the operators, the
    expansions and quotes, line breaks and tabs (blanks, single quotes and backslashes are read
    apart), and what the shell gives a meaning in some positions only: patterns, comments, tildes,
    braces, history and job references. *)
Definition sh_literal (c : ascii) : bool :=
  negb (has_byte c "|&;<>()$`*?[]#~%!{}^" || Ascii.eqb c dq_byte || Ascii.eqb c sq_byte ||
        Ascii.eqb c bs_byte || Ascii.eqb c " " || Ascii.eqb c "009" || Ascii.eqb c nl_byte).

(** The first word names a command: it is no assignment and no reserved word. *)
Definition sh_command (w : string) : bool :=
  negb (has_byte "=" w) &&
  negb (bool_decide (w ∈ ["if"; "then"; "else"; "elif"; "fi"; "do"; "done"; "case"; "esac"; "while";
                          "until"; "for"; "in"; "!"; "{"; "}"])).

(** The state between two bytes: outside a word or inside the word read so far, unquoted, after
    a backslash, or inside single quotes. *)
Inductive sh_state := ShBlank | ShWord (w : string) | ShEscape (w : string) | ShQuoted (w : string).

Fixpoint sh_read (st : sh_state) (s : string) : option (list string) :=
  match s with
  | EmptyString =>
      match st with
      | ShBlank => Some []
      | ShWord w => Some [w]
      | ShEscape _ | ShQuoted _ => None
      end
  | String c s =>
      match st with
      | ShQuoted w =>
          if Ascii.eqb c sq_byte then sh_read (ShWord w) s
          else sh_read (ShQuoted (w +:+ str1 c)) s
      | ShEscape w => sh_read (ShWord (w +:+ str1 c)) s
      | ShBlank | ShWord _ =>
          let w := match st with ShWord w => w | _ => "" end in
          if Ascii.eqb c " " then
            match st with ShWord w => cons w <$> sh_read ShBlank s | _ => sh_read ShBlank s end
          else if Ascii.eqb c sq_byte then sh_read (ShQuoted w) s
          else if Ascii.eqb c bs_byte then sh_read (ShEscape w) s
          else if sh_literal c then sh_read (ShWord (w +:+ str1 c)) s
          else None
      end
  end.

(** The words of a command line; [None] for anything but one simple command. *)
Definition sh_words (s : string) : option (list string) :=
  match sh_read ShBlank s with
  | Some (w :: words) => if sh_command w then Some (w :: words) else None
  | _ => None
  end.

(** ** Reading back what was printed *)
Definition word_of (st : sh_state) : string := match st with ShWord w => w | _ => "" end.

(** What is printed without quotes means itself. *)
Lemma sh_safe_literal c : sh_safe_byte c = true → sh_literal c = true.
Proof. destruct c as [[] [] [] [] [] [] [] []]; by vm_compute. Qed.

Lemma sh_read_safe st w s :
  (st = ShBlank ∨ ∃ v, st = ShWord v) → all_bytes sh_safe_byte w = true → (w = "" → st ≠ ShBlank) →
  sh_read st (w +:+ s) = sh_read (ShWord (word_of st +:+ w)) s.
Proof.
  revert st. induction w as [|c w IH]; intros st Hst Hw Hne.
  { destruct Hst as [->|[v ->]]; [by destruct (Hne eq_refl)|]. cbn. by rewrite app_nil_r_str. }
  cbn [all_bytes] in Hw. apply andb_true_iff in Hw as [Hc Hw].
  assert (Ascii.eqb c " " = false ∧ Ascii.eqb c sq_byte = false ∧ Ascii.eqb c bs_byte = false)
    as (H1 & H2 & H3).
  { split_and!; apply Ascii.eqb_neq; by intros ->. }
  assert (sh_read st (String c w +:+ s) = sh_read (ShWord (word_of st +:+ str1 c)) (w +:+ s)) as ->.
  { change (String c w +:+ s) with (String c (w +:+ s)).
    destruct Hst as [->|[v ->]]; cbn [sh_read word_of]; by rewrite H1, H2, H3, sh_safe_literal. }
  rewrite IH; [|by right; eexists|done|done]. cbn [word_of]. by rewrite app_assoc_str.
Qed.

Lemma sh_read_quoted v w s :
  sh_read (ShQuoted v) (ReplaceAll w sq_byte (sq +:+ str1 bs_byte +:+ sq +:+ sq) +:+ sq +:+ s) =
  sh_read (ShWord (v +:+ w)) s.
Proof.
  revert v. induction w as [|c w IH]; intros v; cbn [ReplaceAll].
  { cbn. by rewrite app_nil_r_str. }
  destruct (Ascii.eqb_spec c sq_byte) as [->|Hne].
  - cbn -[ReplaceAll]. change (String sq_byte s) with (sq +:+ s).
    rewrite IH, app_assoc_str. done.
  - cbn -[ReplaceAll]. apply Ascii.eqb_neq in Hne. rewrite Hne.
    change (String sq_byte s) with (sq +:+ s). by rewrite IH, app_assoc_str.
Qed.

Lemma sh_read_word w s : sh_read ShBlank (shQuoteWord w +:+ s) = sh_read (ShWord w) s.
Proof.
  unfold shQuoteWord, shSafeWord, matches_plus. destruct (all_bytes sh_safe_byte w) eqn:Hw.
  - destruct w as [|c w]; [done|]. cbn [andb len Nat.ltb Nat.leb].
    rewrite sh_read_safe; [done|by left|done|done].
  - rewrite andb_false_r. rewrite !app_assoc_str. cbn [sq str1 String.append].
    cbn [sh_read]. change (Ascii.eqb sq_byte " ") with false. change (Ascii.eqb sq_byte sq_byte) with true.
    cbn iota. apply (sh_read_quoted "" w s).
Qed.

Lemma sh_read_join words : sh_read ShBlank (shJoin words) = Some words.
Proof.
  unfold shJoin. induction words as [|w words IH]; [done|]. destruct words as [|w' words].
  - change (Join (shQuoteWord <$> [w]) " ") with (shQuoteWord w).
    rewrite <-(app_nil_r_str (shQuoteWord w)). by rewrite sh_read_word.
  - change (Join (shQuoteWord <$> w :: w' :: words) " ")
      with (shQuoteWord w +:+ String " " (Join (shQuoteWord <$> w' :: words) " ")).
    rewrite sh_read_word. cbn [sh_read]. change (Ascii.eqb " " " ") with true. cbn iota.
    by rewrite IH.
Qed.

(** ** Properties *)

(** C39: shell quoting round trip. A POSIX shell that reads the line [shJoin] prints for a command
    and its arguments sees one simple command with exactly these words, whatever bytes the
    arguments hold (quotes, blanks, dollar signs, semicolons, patterns, line breaks, or nothing at
    all): no database or module name can add a word or a command. The command itself must not be
    an assignment or a reserved word; [odoo], the command of both lines of the init script, is
    neither. *)
Theorem shJoin_roundtrip command args :
  sh_command command = true → sh_words (shJoin (command :: args)) = Some (command :: args).
Proof. intros Hc. unfold sh_words. by rewrite sh_read_join, Hc. Qed.

Lemma shJoin_roundtrip_witness :
  sh_words (shJoin ["odoo"; "--init"; "a;rm -rf $HOME"; "it's"; ""]) =
  Some ["odoo"; "--init"; "a;rm -rf $HOME"; "it's"; ""].
Proof. apply (shJoin_roundtrip "odoo"). by vm_compute. Defined.

Close Scope Z_scope.
