(* ===== verification/Workload.v ===== *)
(** * The workloads of an instance (odooinstance_workload.go, the pure part of odooinstance_cron.go,
    and the helpers of odooinstance_storage.go)

    The web and cron pod templates, their labels, security posture, volumes and affinity. *)
From S2P Require Export InstanceAddons Events.

Open Scope Z_scope.

Definition desiredReplicas (spec : OdooInstanceSpec) : Z :=
  if is_Replicas spec <? 1 then 1 else is_Replicas spec.

Definition odooImage (spec : OdooInstanceSpec) : string :=
  if String.eqb (is_Image spec) "" then defaultOdooImage else is_Image spec.

Definition selectorLabels (instanceName : string) : gmap string string :=
  list_to_map [(labelApp, appOdoo); (labelInstance, instanceName)].

Definition podLabels (instanceName : string) : gmap string string :=
  <[labelManagedBy := managedByOperator]> (<[labelAppInstance := instanceName]>
    (<[labelAppName := appOdoo]> (selectorLabels instanceName))).

Definition deploymentStrategy (replicas : Z) (dataAccessMode : string) : DeploymentStrategy :=
  if (replicas =? 1) && negb (String.eqb dataAccessMode ReadWriteMany)
  then Recreate else RollingUpdate 0 1.

Definition buildOdooArgs : list string := [upgradeFlagConfig; odooConfPath].

Definition adminPasswordRendered (spec : OdooInstanceSpec) : bool :=
  negb (String.eqb (is_AdminPasswordSecret spec) "").

Definition buildWebArgs (spec : OdooInstanceSpec) : list string :=
  if adminPasswordRendered spec then [upgradeFlagConfig; renderedConfPath] else buildOdooArgs.

Definition renderConfigScript (src dst : string) : string :=
  Join [ "set -eu";
         raw "if [ -z `${ODOO_ADMIN_PASSWD:-}` ]; then";
         raw "  echo `render-config: ODOO_ADMIN_PASSWD is empty, check spec.adminPasswordSecret` >&2";
         "  exit 1";
         "fi";
         "umask 077";
         "{ cat " +:+ src +:+ raw "; printf 'admin_passwd = %s\n' `$ODOO_ADMIN_PASSWD`; } > " +:+ dst;
         "" ] nl.

Definition secretKeyEnv (envName secretName : string) : EnvVar :=
  envFrom envName secretName secretKeyPassword None.

Definition adminPasswordEnv (spec : OdooInstanceSpec) : list EnvVar :=
  if negb (adminPasswordRendered spec) then []
  else [secretKeyEnv envAdminPasswd (is_AdminPasswordSecret spec)].

Definition buildOdooEnv (spec : OdooInstanceSpec) : list EnvVar :=
  (if negb (String.eqb (pg_PasswordSecret (is_Postgres spec)) "")
   then [secretKeyEnv envPGPassword (pg_PasswordSecret (is_Postgres spec));
         secretKeyEnv envDBPassword (pg_PasswordSecret (is_Postgres spec))]
   else []) ++
  (if negb (String.eqb (pg_Database (is_Postgres spec)) "")
   then [envValue envPGSSLMode sslModeRequire] else []).

Definition odooProbe (period failure : Z) : Probe :=
  {| pr_Path := healthPath; pr_Port := portOdoo; pr_Scheme := URISchemeHTTP;
     pr_PeriodSeconds := period; pr_TimeoutSeconds := 1; pr_SuccessThreshold := 1;
     pr_FailureThreshold := failure |}.
(** Startup, readiness and liveness. *)
Definition odooProbes : Probe * Probe * Probe := (odooProbe 10 30, odooProbe 10 3, odooProbe 20 3).

Definition buildServicePorts : list ServicePort :=
  [ {| sp_Name := portNameOdoo; sp_Port := portOdoo; sp_TargetPort := portOdoo;
       sp_Protocol := ProtocolTCP |};
    {| sp_Name := portNameLongpolling; sp_Port := portLongpolling;
       sp_TargetPort := portLongpolling; sp_Protocol := ProtocolTCP |} ].

Definition configMapName (instanceName : string) : string := instanceName +:+ suffixConfigMap.
Definition addonsPVCName (instanceName : string) : string := instanceName +:+ suffixAddonsPVC.
Definition dataPVCName (instanceName : string) : string := instanceName +:+ suffixDataPVC.

Definition podAnnotations (hashes : rolloutHashes) : gmap string string :=
  list_to_map [(annotationConfigHash, rh_config hashes); (annotationSecretsHash, rh_secrets hashes);
               (annotationAddonsHash, rh_addons hashes)].

Definition odooPodSecurityContext : PodSecurityContext :=
  {| psc_RunAsNonRoot := Some true; psc_RunAsUser := Some odooUID; psc_RunAsGroup := None;
     psc_FSGroup := Some odooUID; psc_SeccompProfile := SeccompProfileTypeRuntimeDefault |}.

Definition odooContainerSecurityContext : SecurityContext :=
  {| sc_AllowPrivilegeEscalation := Some false; sc_ReadOnlyRootFilesystem := Some true;
     sc_RunAsNonRoot := None; sc_CapabilitiesDrop := ["ALL"] |}.

Definition odooVolumeMounts : list VolumeMount :=
  [ readOnlyMount volumeConfig mountPathConfig; readOnlyMount volumeAddons addonsMountPath;
    mount volumeData mountPathData; mount volumeTmp mountPathTmp ].

Definition odooVolumes (instanceName : string) : list Volume :=
  [ {| vol_Name := volumeConfig; vol_Source := VConfigMap (configMapName instanceName) (Some 420) |};
    {| vol_Name := volumeAddons; vol_Source := VClaim (addonsPVCName instanceName) true |};
    {| vol_Name := volumeData; vol_Source := VClaim (dataPVCName instanceName) false |};
    {| vol_Name := volumeTmp; vol_Source := VEmptyDir "" None |} ].

Definition needsColocation (spec : OdooInstanceSpec) : bool :=
  negb (String.eqb (dv_AccessMode (is_Data spec)) ReadWriteMany) ||
  negb (String.eqb (av_AccessMode (is_Addons spec)) ReadWriteMany).

(** A required pod affinity, [None] for nil. *)
Definition colocationAffinity (instanceName : string) (spec : OdooInstanceSpec)
    : option (list PodAffinityTerm) :=
  if negb (needsColocation spec) then None
  else Some [ {| pat_MatchLabels := {[labelInstance := instanceName]};
                 pat_TopologyKey := LabelHostname |} ].

(** The assignments [odooPodSpec] makes on the container it is given. *)
Definition odooContainer (instance : OdooInstance) (container : Container) : Container :=
  {| ct_Name := ct_Name container;
     ct_Image := odooImage (in_Spec instance);
     ct_Command := ct_Command container;
     ct_Args := ct_Args container;
     ct_Ports := ct_Ports container;
     ct_Env := buildOdooEnv (in_Spec instance);
     ct_Resources := ct_Resources container;
     ct_VolumeMounts := odooVolumeMounts;
     ct_StartupProbe := ct_StartupProbe container;
     ct_ReadinessProbe := ct_ReadinessProbe container;
     ct_LivenessProbe := ct_LivenessProbe container;
     ct_SecurityContext := Some odooContainerSecurityContext;
     ct_TerminationMessagePath := TerminationMessagePathDefault;
     ct_TerminationMessagePolicy := TerminationMessageReadFile |}.

Definition odooPodSpec (instance : OdooInstance) (container : Container)
    (affinity : option (list PodAffinityTerm)) : PodSpec :=
  {| ps_InitContainers := [];
     ps_Containers := [odooContainer instance container];
     ps_Volumes := odooVolumes (m_Name (in_Meta instance));
     ps_RestartPolicy := RestartPolicyAlways;
     ps_AutomountServiceAccountToken := Some false;
     ps_TerminationGracePeriodSeconds := Some terminationGraceSecs;
     ps_DNSPolicy := DNSClusterFirst;
     ps_SchedulerName := DefaultSchedulerName;
     ps_SecurityContext := Some odooPodSecurityContext;
     ps_Affinity := affinity;
     ps_NodeSelector := ∅ |}.

(** [volumeMounts = append(volumeMounts, m)] *)
Definition add_mount (m : VolumeMount) (c : Container) : Container :=
  {| ct_Name := ct_Name c; ct_Image := ct_Image c; ct_Command := ct_Command c; ct_Args := ct_Args c;
     ct_Ports := ct_Ports c; ct_Env := ct_Env c; ct_Resources := ct_Resources c;
     ct_VolumeMounts := ct_VolumeMounts c ++ [m]; ct_StartupProbe := ct_StartupProbe c;
     ct_ReadinessProbe := ct_ReadinessProbe c; ct_LivenessProbe := ct_LivenessProbe c;
     ct_SecurityContext := ct_SecurityContext c;
     ct_TerminationMessagePath := ct_TerminationMessagePath c;
     ct_TerminationMessagePolicy := ct_TerminationMessagePolicy c |}.

Section Workload.
Context `{KubeLib}.

Definition odooResources (spec : OdooInstanceSpec) : ResourceRequirements :=
  match rr_Requests (is_Resources spec), rr_Limits (is_Resources spec) with
  | None, None =>
      {| rr_Requests := Some (list_to_map [(ResourceCPU, MustParse "250m");
                                           (ResourceMemory, MustParse "512Mi")]);
         rr_Limits := Some (list_to_map [(ResourceCPU, MustParse "1");
                                         (ResourceMemory, MustParse "1Gi")]) |}
  | _, _ => is_Resources spec
  end.

Definition renderConfigContainer (instance : OdooInstance) : Container :=
  {| ct_Name := containerRenderConfig;
     ct_Image := odooImage (in_Spec instance);
     ct_Command := [upgradeShellPath; upgradeShellFlag;
                    renderConfigScript odooConfPath renderedConfPath];
     ct_Args := []; ct_Ports := [];
     ct_Env := adminPasswordEnv (in_Spec instance);
     ct_Resources :=
       {| rr_Requests := Some (list_to_map [(ResourceCPU, MustParse renderRequestCPU);
                                            (ResourceMemory, MustParse renderRequestMemory)]);
          rr_Limits := Some (list_to_map [(ResourceCPU, MustParse renderLimitCPU);
                                          (ResourceMemory, MustParse renderLimitMemory)]) |};
     ct_VolumeMounts := [readOnlyMount volumeConfig mountPathConfig;
                         mount volumeRendered mountPathRendered];
     ct_StartupProbe := None; ct_ReadinessProbe := None; ct_LivenessProbe := None;
     ct_SecurityContext := Some odooContainerSecurityContext;
     ct_TerminationMessagePath := TerminationMessagePathDefault;
     ct_TerminationMessagePolicy := TerminationMessageReadFile |}.

Definition renderedVolume : Volume :=
  {| vol_Name := volumeRendered;
     vol_Source := VEmptyDir StorageMediumMemory (Some (MustParse renderedSizeLimit)) |}.

Definition renderedVolumeMount : VolumeMount := readOnlyMount volumeRendered mountPathRendered.

Definition buildPodTemplate (instance : OdooInstance) (hashes : rolloutHashes) : PodTemplateSpec :=
  let '(startup, readiness, liveness) := odooProbes in
  let container :=
    {| ct_Name := appOdoo; ct_Image := ""; ct_Command := [];
       ct_Args := buildWebArgs (in_Spec instance);
       ct_Ports := [ {| cp_Name := portNameOdoo; cp_ContainerPort := portOdoo;
                        cp_Protocol := ProtocolTCP |};
                     {| cp_Name := portNameLongpolling; cp_ContainerPort := portLongpolling;
                        cp_Protocol := ProtocolTCP |} ];
       ct_Env := []; ct_Resources := odooResources (in_Spec instance); ct_VolumeMounts := [];
       ct_StartupProbe := Some startup; ct_ReadinessProbe := Some readiness;
       ct_LivenessProbe := Some liveness; ct_SecurityContext := None;
       ct_TerminationMessagePath := ""; ct_TerminationMessagePolicy := "" |} in
  let name := m_Name (in_Meta instance) in
  let ps := odooPodSpec instance container (colocationAffinity name (in_Spec instance)) in
  {| pt_Labels := podLabels name;
     pt_Annotations := podAnnotations hashes;
     pt_Spec :=
       if adminPasswordRendered (in_Spec instance) then
         {| ps_InitContainers := [renderConfigContainer instance];
            ps_Containers := match ps_Containers ps with
                             | c :: cs => add_mount renderedVolumeMount c :: cs
                             | [] => []
                             end;
            ps_Volumes := ps_Volumes ps ++ [renderedVolume];
            ps_RestartPolicy := ps_RestartPolicy ps;
            ps_AutomountServiceAccountToken := ps_AutomountServiceAccountToken ps;
            ps_TerminationGracePeriodSeconds := ps_TerminationGracePeriodSeconds ps;
            ps_DNSPolicy := ps_DNSPolicy ps;
            ps_SchedulerName := ps_SchedulerName ps;
            ps_SecurityContext := ps_SecurityContext ps;
            ps_Affinity := ps_Affinity ps;
            ps_NodeSelector := ps_NodeSelector ps |}
       else ps |}.
End Workload.

(** ** The cron workload (odooinstance_cron.go) *)
Definition suffixCron : string := "-cron".
Definition appOdooCron : string := "odoo-cron".
Definition labelComponent : string := "app.kubernetes.io/component".
Definition componentCron : string := "cron".
Definition odooArgNoHTTP : string := "--no-http".
Definition odooArgMaxCronThreads : string := "--max-cron-threads".
Definition defaultMaxCronThreads : Z := 2.
Definition eventActionCron : string := "Cron".
Definition eventReasonCronEnabled : string := "CronEnabled".
Definition eventReasonCronDisabled : string := "CronDisabled".

Definition cronEnabled (spec : OdooInstanceSpec) : bool :=
  match is_Cron spec with Some c => cr_Enabled c | None => false end.

Definition cronDeploymentName (instanceName : string) : string := instanceName +:+ suffixCron.

Definition cronSelectorLabels (instanceName : string) : gmap string string :=
  list_to_map [(labelApp, appOdooCron); (labelInstance, instanceName)].

Definition cronPodLabels (instanceName : string) : gmap string string :=
  <[labelComponent := componentCron]> (<[labelManagedBy := managedByOperator]>
    (<[labelAppInstance := instanceName]> (<[labelAppName := appOdoo]>
      (cronSelectorLabels instanceName)))).

Definition cronMaxThreads (spec : OdooInstanceSpec) : Z :=
  match is_Cron spec with
  | Some c => match cr_MaxCronThreads c with Some n => n | None => defaultMaxCronThreads end
  | None => defaultMaxCronThreads
  end.

Definition cronResources `{KubeLib} (spec : OdooInstanceSpec) : ResourceRequirements :=
  match is_Cron spec with
  | Some c =>
      match cr_Resources c with
      | Some rr =>
          match rr_Requests rr, rr_Limits rr with
          | None, None => odooResources spec
          | _, _ => rr
          end
      | None => odooResources spec
      end
  | None => odooResources spec
  end.

Definition cronReplicas (held : bool) : Z := if held then 0 else 1.

Definition buildCronArgs (instance : OdooInstance) : list string :=
  buildOdooArgs ++ [odooArgNoHTTP; odooArgMaxCronThreads +:+ "=" +:+ Itoa (cronMaxThreads (in_Spec instance))].

Definition buildCronPodTemplate `{KubeLib} (instance : OdooInstance) (hashes : rolloutHashes)
    : PodTemplateSpec :=
  let container :=
    {| ct_Name := appOdoo; ct_Image := ""; ct_Command := []; ct_Args := buildCronArgs instance;
       ct_Ports := []; ct_Env := []; ct_Resources := cronResources (in_Spec instance);
       ct_VolumeMounts := []; ct_StartupProbe := None; ct_ReadinessProbe := None;
       ct_LivenessProbe := None; ct_SecurityContext := None; ct_TerminationMessagePath := "";
       ct_TerminationMessagePolicy := "" |} in
  let name := m_Name (in_Meta instance) in
  {| pt_Labels := cronPodLabels name;
     pt_Annotations := podAnnotations hashes;
     pt_Spec := odooPodSpec instance container (colocationAffinity name (in_Spec instance)) |}.

Close Scope Z_scope.
