(* ===== verification/BackupScript.v ===== *)
(** * The backup scripts (internal/controller/odoobackup_script.go)

    The shell text of the backup pods. No argument of these functions comes from a user: the
    database, the bucket and the rest reach the scripts through environment variables. *)
From S2P Require Export Workload.

Definition envBackupDatabase : string := "BACKUP_DATABASE".
Definition envBackupRetention : string := "BACKUP_RETENTION".
Definition envBackupBucket : string := "BACKUP_BUCKET".
Definition envBackupPrefix : string := "BACKUP_PREFIX".
Definition envBackupEndpoint : string := "BACKUP_ENDPOINT".
Definition envBackupForcePath : string := "BACKUP_FORCE_PATH_STYLE".
Definition envBackupRegion : string := "AWS_DEFAULT_REGION".
Definition envAWSAccessKeyID : string := "AWS_ACCESS_KEY_ID".
Definition envAWSSecretAccessKey : string := "AWS_SECRET_ACCESS_KEY".
Definition envPGDatabase : string := "PGDATABASE".
Definition envPGHost : string := "PGHOST".
Definition envPGPort : string := "PGPORT".
Definition envPGUser : string := "PGUSER".
Definition secretKeyAccessKeyID : string := "accessKeyID".
Definition secretKeySecretKey : string := "secretAccessKey".
Definition backupAWSConfigPath : string := "/tmp/aws-config".
Definition backupFilestoreRoot : string := mountPathData +:+ "/filestore".
Definition backupPVCDir : string := "/backup".
Definition backupScratchDir : string := "/scratch".
Definition backupManifestName : string := ".files".
Definition backupResultPrefix : string := "backup: ".
Definition backupDumpSuffix : string := ".dump".
Definition backupFilestoreSuffix : string := "-filestore.tar.gz".
Definition backupDumpTimestampFmt : string := "%Y%m%dT%H%M%SZ".

Section Scripts.
Context `{Unicode}.

Definition backupDumpSteps (dir : string) (includeFilestore : bool) : string :=
  "DIR=" +:+ Quote dir +:+ nl +:+
  "STAMP=$(date -u +" +:+ Quote backupDumpTimestampFmt +:+ ")" +:+ nl +:+
  raw "FILES=``
record() {
  FILES=`${FILES:+$FILES,}$1`
}
" +:+
  raw "DUMP=`$" +:+ envBackupDatabase +:+ "-$STAMP" +:+ backupDumpSuffix +:+ raw "`" +:+ nl +:+
  raw "pg_dump --format=custom --no-owner --no-password --file `$DIR/.$DUMP.partial`" +:+ nl +:+
  raw "mv `$DIR/.$DUMP.partial` `$DIR/$DUMP`" +:+ nl +:+
  raw "record `$DUMP`" +:+ nl +:+
  if includeFilestore then
    raw "FS=`$" +:+ envBackupDatabase +:+ "-$STAMP" +:+ backupFilestoreSuffix +:+ raw "`" +:+ nl +:+
    "FSDIR=" +:+ backupFilestoreRoot +:+ raw "/`$" +:+ envBackupDatabase +:+ raw "`" +:+ nl +:+
    raw "if [ -d `$FSDIR` ]; then
  tar -C `${FSDIR%/*}` -czf `$DIR/.$FS.partial` `${FSDIR##*/}`
  mv `$DIR/.$FS.partial` `$DIR/$FS`
  record `$FS`
else
  echo `warning: filestore directory $FSDIR does not exist yet, skipping the filestore archive`
fi
"
  else "".

Definition backupCleanupTrap : string := raw
"trap 'rm -f -- `$DIR`/.*.partial 2>/dev/null' EXIT
".

Definition prune_dumps : string := raw
"
# Retention: names carry a UTC timestamp, so the glob sorts oldest first.
prune_dumps() {
  keep=$1
  total=0
  for f in `$DIR/$BACKUP_DATABASE`-[0-9][0-9][0-9][0-9][0-9][0-9][0-9][0-9]T[0-9][0-9][0-9][0-9][0-9][0-9]Z.dump; do
    [ -e `$f` ] || continue
    total=$((total + 1))
  done
  drop=$((total - keep))
  i=0
  for f in `$DIR/$BACKUP_DATABASE`-[0-9][0-9][0-9][0-9][0-9][0-9][0-9][0-9]T[0-9][0-9][0-9][0-9][0-9][0-9]Z.dump; do
    [ -e `$f` ] || continue
    i=$((i + 1))
    if [ `$i` -le `$drop` ]; then
      rm -f -- `$f` `${f%.dump}-filestore.tar.gz`
      echo `pruned: $(basename `$f`)`
    fi
  done
}
".

Definition buildBackupPVCScript (includeFilestore : bool) : string :=
  "set -eu" +:+ nl +:+ "export LC_ALL=C" +:+ nl +:+
  backupDumpSteps backupPVCDir includeFilestore +:+
  backupCleanupTrap +:+
  prune_dumps +:+
  raw "if [ `${" +:+ envBackupRetention +:+ raw ":-0}` -gt 0 ]; then" +:+ nl +:+
  raw "  prune_dumps `$" +:+ envBackupRetention +:+ raw "`" +:+ nl +:+ "fi" +:+ nl +:+
  raw "echo `" +:+ backupResultPrefix +:+ raw "$FILES`" +:+ nl.

Definition buildBackupDumpScript (includeFilestore : bool) : string :=
  "set -eu" +:+ nl +:+ "export LC_ALL=C" +:+ nl +:+
  backupDumpSteps backupScratchDir includeFilestore +:+
  backupCleanupTrap +:+
  raw "printf '%s' `$FILES` | tr ',' '\n' > `$DIR/" +:+ backupManifestName +:+ raw "`" +:+ nl +:+
  raw "echo `dumped: $FILES`" +:+ nl.

Definition buildBackupUploadScript : string :=
  raw "set -eu
export LC_ALL=C
DIR=/scratch
export AWS_CONFIG_FILE=" +:+ backupAWSConfigPath +:+ raw "
if [ `${" +:+ envBackupForcePath +:+ raw ":-false}` = `true` ]; then
  printf '[default]\ns3 =\n  addressing_style = path\n' > `$AWS_CONFIG_FILE`
fi
awscli() {
  if [ -n `${" +:+ envBackupEndpoint +:+ raw ":-}` ]; then
    aws --endpoint-url `$" +:+ envBackupEndpoint +:+ raw "` `$@`
  else
    aws `$@`
  fi
}
KEYPREFIX=``
if [ -n `${" +:+ envBackupPrefix +:+ raw ":-}` ]; then
  KEYPREFIX=`${" +:+ envBackupPrefix +:+ raw "%/}/`
fi
if [ ! -s `$DIR/" +:+ backupManifestName +:+ raw "` ]; then
  echo `error: backup manifest $DIR/" +:+ backupManifestName +:+ raw " is missing` >&2
  exit 1
fi
FILES=``
while IFS= read -r name; do
  [ -n `$name` ] || continue
  awscli s3 cp `$DIR/$name` `s3://$" +:+ envBackupBucket +:+ raw "/$KEYPREFIX$name`
  FILES=`${FILES:+$FILES,}$name`
done < `$DIR/" +:+ backupManifestName +:+ raw "`

# Retention: list the database's dumps under the prefix, newest first, and delete the rest.
if [ `${" +:+ envBackupRetention +:+ raw ":-0}` -gt 0 ]; then
  awscli s3api list-objects-v2 --bucket `$" +:+ envBackupBucket +:+ raw "` \
    --prefix `$KEYPREFIX$" +:+ envBackupDatabase +:+ raw "-` --query 'Contents[].Key' --output text \
    | tr '\t' '\n' | sort -r > `$DIR/.keys`
  : > `$DIR/.dumpkeys`
  while IFS= read -r key; do
    case `$key` in
      `$KEYPREFIX$" +:+ envBackupDatabase +:+ raw "`-[0-9][0-9][0-9][0-9][0-9][0-9][0-9][0-9]T[0-9][0-9][0-9][0-9][0-9][0-9]Z.dump)
        echo `$key` >> `$DIR/.dumpkeys` ;;
    esac
  done < `$DIR/.keys`
  n=0
  while IFS= read -r key; do
    n=$((n + 1))
    if [ `$n` -gt `$" +:+ envBackupRetention +:+ raw "` ]; then
      awscli s3api delete-object --bucket `$" +:+ envBackupBucket +:+ raw "` --key `$key` >/dev/null
      awscli s3api delete-object --bucket `$" +:+ envBackupBucket +:+ raw "` --key `${key%.dump}-filestore.tar.gz` >/dev/null
      echo `pruned: $key`
    fi
  done < `$DIR/.dumpkeys`
fi
echo `" +:+ backupResultPrefix +:+ raw "$FILES`
".
End Scripts.
