(* ===== verification/BackupJob.v ===== *)
(** * The backup Job and CronJob (internal/controller/odoobackup_job.go)

    Naming, the environments, the hardened pod shared by the one-shot Job and the CronJob, and the
    reader of the result line. [None] of a builder stands for the nil dereference of a spec with
    neither destination, which validation excludes ([buildBackupPodSpec_total]). *)
From S2P Require Export BackupScript BackupSpec.

Open Scope Z_scope.

Definition envBackupImage : string := "OPERATOR_BACKUP_IMAGE".
Definition envS3Image : string := "OPERATOR_S3_IMAGE".
Definition defaultBackupImg : string := "postgres:17-alpine".
Definition defaultS3Image : string := "amazon/aws-cli:2.27.50".
Definition backupJobSuffix : string := "-run".
Definition backupCronSuffix : string := "-sched".
Definition backupLabelKey : string := "odoo.operator.io/backup".
Definition backupHashAnnotation : string := "odoo.operator.io/backup-hash".
Definition backupMaxNameLen : nat := 63.
Definition backupMaxCronNameLen : nat := 52.
Definition backupHashLen : nat := 8.
Definition backupFallbackName : string := "backup".
Definition backupInitContainer : string := "dump".
Definition backupMainContainer : string := "backup".
Definition backupVolumeScratch : string := "scratch".
Definition volumeDestination : string := "destination".
Definition backupPGPortDefault : string := "5432".
Definition backupHome : string := "/tmp".
Definition backupShell : string := "/bin/sh".
Definition backupDefaultTimeout : Z := 3600.
Definition backupDefaultScratch : string := "10Gi".
Definition backupTTLSeconds : Z := 86400.
Definition backupBackoffLimit : Z := 0.
Definition backupHistoryLimit : Z := 3.
Definition backupStartingDeadline : Z := 300.
Definition backupNodeHostLabel : string := "kubernetes.io/hostname".
Definition backupCapDropAll : string := "ALL".
Definition backupPodUID : Z := 70.
Definition backupFSGroup : Z := odooUID.
Definition backupDefaultMemory : string := "256Mi".
Definition backupDefaultCPU : string := "100m".
Definition backupLimitMemory : string := "1Gi".
Definition backupLimitCPU : string := "1".
Definition backupEnvTrue : string := "true".
Definition backupEnvFalse : string := "false".

(** [os.Getenv] is the argument. *)
Definition backupImage (Getenv : string → string) : string :=
  if negb (String.eqb (Getenv envBackupImage) "") then Getenv envBackupImage else defaultBackupImg.
Definition backupS3Image (Getenv : string → string) : string :=
  if negb (String.eqb (Getenv envS3Image) "") then Getenv envS3Image else defaultS3Image.

Definition backupBoundedName (base suffix : string) (maxLen : nat) : string :=
  let full := base +:+ suffix in
  if (len full <=? maxLen)%nat then full
  else
    let hash := hex_fixed backupHashLen (fnv32a base) "" in
    let keep := (maxLen - len suffix - 1 - len hash)%nat in
    let prefix := Trim (str_take keep base) "-." in
    let prefix := if String.eqb prefix "" then backupFallbackName else prefix in
    prefix +:+ "-" +:+ hash +:+ suffix.

Definition backupJobName (backupName : string) : string :=
  backupBoundedName backupName backupJobSuffix backupMaxNameLen.
Definition backupCronJobName (backupName : string) : string :=
  backupBoundedName backupName backupCronSuffix backupMaxCronNameLen.
Definition backupLabelValue (backupName : string) : string :=
  backupBoundedName backupName "" backupMaxNameLen.

Definition backupLabels (backupName : string) : gmap string string :=
  list_to_map [(labelManagedBy, managedByOperator); (backupLabelKey, backupLabelValue backupName)].

Definition backupDatabase (bk : OdooBackup) (inst : OdooInstance) : string :=
  if negb (String.eqb (bs_Database (bk_Spec bk)) "") then bs_Database (bk_Spec bk)
  else pg_Database (is_Postgres (in_Spec inst)).

Definition backupIncludeFilestore (bk : OdooBackup) : bool :=
  match bs_IncludeFilestore (bk_Spec bk) with None => true | Some b => b end.
Definition backupRetention (bk : OdooBackup) : Z :=
  match bs_Retention (bk_Spec bk) with None => 0 | Some r => r end.
Definition backupTimeout (bk : OdooBackup) : Z :=
  match bs_TimeoutSeconds (bk_Spec bk) with Some t => t | None => backupDefaultTimeout end.

Definition backupAccessMode (mode : string) : string :=
  if String.eqb mode "" then ReadWriteOnce else mode.
Definition backupNeedsNodePin (spec : OdooInstanceSpec) (includeFilestore : bool) : bool :=
  includeFilestore && negb (String.eqb (backupAccessMode (dv_AccessMode (is_Data spec))) ReadWriteMany).

Definition secretEnv (name secret key : string) : EnvVar := envFrom name secret key None.

Definition backupPGEnv (spec : OdooInstanceSpec) (database : string) : list EnvVar :=
  let pg := is_Postgres spec in
  [envValue envPGDatabase database] ++
  (if negb (String.eqb (pg_Host pg) "") then [envValue envPGHost (pg_Host pg)] else []) ++
  [envValue envPGPort (if 0 <? pg_Port pg then Itoa (pg_Port pg) else backupPGPortDefault)] ++
  (if negb (String.eqb (pg_User pg) "") then [envValue envPGUser (pg_User pg)] else []) ++
  (if negb (String.eqb (pg_PasswordSecret pg) "")
   then [secretEnv envPGPassword (pg_PasswordSecret pg) secretKeyPassword] else []) ++
  [envValue envPGSSLMode sslModeRequire].

Definition backupS3Env (s3 : BackupS3Destination) (retention : Z) (database : string) : list EnvVar :=
  [ envValue envBackupDatabase database;
    envValue envBackupRetention (Itoa retention);
    envValue envBackupBucket (s3_Bucket s3);
    envValue envBackupForcePath (if s3_ForcePathStyle s3 then backupEnvTrue else backupEnvFalse);
    envValue "HOME" backupHome;
    secretEnv envAWSAccessKeyID (s3_CredentialsSecret s3) secretKeyAccessKeyID;
    secretEnv envAWSSecretAccessKey (s3_CredentialsSecret s3) secretKeySecretKey ] ++
  (if negb (String.eqb (s3_Prefix s3) "") then [envValue envBackupPrefix (s3_Prefix s3)] else []) ++
  (if negb (String.eqb (s3_Endpoint s3) "") then [envValue envBackupEndpoint (s3_Endpoint s3)] else []) ++
  (if negb (String.eqb (s3_Region s3) "") then [envValue envBackupRegion (s3_Region s3)] else []).

Definition backupContainerSecurity : SecurityContext :=
  {| sc_AllowPrivilegeEscalation := Some false; sc_ReadOnlyRootFilesystem := Some true;
     sc_RunAsNonRoot := Some true; sc_CapabilitiesDrop := [backupCapDropAll] |}.

Definition backupPodSecurity : PodSecurityContext :=
  {| psc_RunAsNonRoot := Some true; psc_RunAsUser := Some backupPodUID;
     psc_RunAsGroup := Some backupPodUID; psc_FSGroup := Some backupFSGroup;
     psc_SeccompProfile := SeccompProfileTypeRuntimeDefault |}.

(** The data volume and its mount, when the filestore is archived. *)
Definition dataVolume (instName : string) (includeFS : bool) : list Volume :=
  if includeFS then [ {| vol_Name := volumeData; vol_Source := VClaim (dataPVCName instName) true |} ]
  else [].
Definition dataMount (includeFS : bool) : list VolumeMount :=
  if includeFS then [readOnlyMount volumeData mountPathData] else [].

(** [backupParseResult]: the loop keeps the last result line. *)
Fixpoint last_result (result : string) (lines : list string) : string :=
  match lines with
  | [] => result
  | line :: lines =>
      last_result (match CutPrefix (TrimSpace line) backupResultPrefix with
                   | Some rest => TrimSpace rest
                   | None => result
                   end) lines
  end.
Definition backupParseResult (logs : string) : string := last_result "" (Split logs nl_byte).

Section BackupJob.
Context `{Unicode} `{KubeLib} (Getenv : string → string).

Definition backupScratchQuantity (bk : OdooBackup) : Quantity :=
  let raw := if String.eqb (bs_ScratchSize (bk_Spec bk)) "" then backupDefaultScratch
             else bs_ScratchSize (bk_Spec bk) in
  match ParseQuantity raw with Ok q => q | Err _ => MustParse backupDefaultScratch end.

Definition backupResources : ResourceRequirements :=
  {| rr_Requests := Some (list_to_map [(ResourceCPU, MustParse backupDefaultCPU);
                                       (ResourceMemory, MustParse backupDefaultMemory)]);
     rr_Limits := Some (list_to_map [(ResourceCPU, MustParse backupLimitCPU);
                                     (ResourceMemory, MustParse backupLimitMemory)]) |}.

(** The container literal of [buildBackupPodSpec]. *)
Definition backupContainer (name image script : string) (env : list EnvVar) (mounts : list VolumeMount)
    : Container :=
  {| ct_Name := name; ct_Image := image; ct_Command := [backupShell; "-c"; script]; ct_Args := [];
     ct_Ports := []; ct_Env := env; ct_Resources := backupResources; ct_VolumeMounts := mounts;
     ct_StartupProbe := None; ct_ReadinessProbe := None; ct_LivenessProbe := None;
     ct_SecurityContext := Some backupContainerSecurity; ct_TerminationMessagePath := "";
     ct_TerminationMessagePolicy := "" |}.

(** The init containers, containers and volumes for the destination. *)
Definition backupParts (bk : OdooBackup) (inst : OdooInstance) (database : string)
    : option (list Container * list Container * list Volume) :=
  let spec := in_Spec inst in
  let includeFS := backupIncludeFilestore bk in
  let retention := backupRetention bk in
  let mounts := [mount volumeTmp mountPathTmp] in
  let volumes := {| vol_Name := volumeTmp; vol_Source := VEmptyDir "" None |} ::
                 dataVolume (m_Name (in_Meta inst)) includeFS in
  match bd_PVC (bs_Destination (bk_Spec bk)), bd_S3 (bs_Destination (bk_Spec bk)) with
  | Some pvc, _ =>
      Some ([],
        [ backupContainer backupMainContainer (backupImage Getenv) (buildBackupPVCScript includeFS)
            (backupPGEnv spec database ++
             [envValue envBackupDatabase database; envValue envBackupRetention (Itoa retention)])
            (dataMount includeFS ++
             [ {| vm_Name := volumeDestination; vm_MountPath := backupPVCDir;
                  vm_SubPath := bp_SubPath pvc; vm_ReadOnly := false |} ] ++ mounts) ],
        volumes ++ [ {| vol_Name := volumeDestination; vol_Source := VClaim (bp_ClaimName pvc) false |} ])
  | None, Some s3 =>
      let scratch := mount backupVolumeScratch backupScratchDir in
      Some (
        [ backupContainer backupInitContainer (backupImage Getenv) (buildBackupDumpScript includeFS)
            (backupPGEnv spec database ++ [envValue envBackupDatabase database])
            (dataMount includeFS ++ [scratch] ++ mounts) ],
        [ backupContainer backupMainContainer (backupS3Image Getenv) buildBackupUploadScript
            (backupS3Env s3 retention database) (scratch :: mounts) ],
        volumes ++ [ {| vol_Name := backupVolumeScratch;
                        vol_Source := VEmptyDir "" (Some (backupScratchQuantity bk)) |} ])
  | None, None => None
  end.

Definition buildBackupPodSpec (bk : OdooBackup) (inst : OdooInstance) (database nodeName : string)
    : option PodSpec :=
  '(initContainers, containers, volumes) ← backupParts bk inst database;
  Some {| ps_InitContainers := initContainers; ps_Containers := containers; ps_Volumes := volumes;
          ps_RestartPolicy := RestartPolicyNever;
          ps_AutomountServiceAccountToken := Some false;
          ps_TerminationGracePeriodSeconds := None; ps_DNSPolicy := ""; ps_SchedulerName := "";
          ps_SecurityContext := Some backupPodSecurity; ps_Affinity := None;
          ps_NodeSelector :=
            if negb (String.eqb nodeName "") &&
               backupNeedsNodePin (in_Spec inst) (backupIncludeFilestore bk)
            then {[backupNodeHostLabel := nodeName]} else ∅ |}.

Definition buildBackupJobSpec (bk : OdooBackup) (inst : OdooInstance) (database nodeName : string)
    : option JobSpec :=
  podSpec ← buildBackupPodSpec bk inst database nodeName;
  Some {| js_BackoffLimit := Some backupBackoffLimit;
          js_ActiveDeadlineSeconds := Some (backupTimeout bk);
          js_TTLSecondsAfterFinished := Some backupTTLSeconds;
          js_Template := {| pt_Labels := backupLabels (m_Name (bk_Meta bk)); pt_Annotations := ∅;
                            pt_Spec := podSpec |} |}.

Definition buildBackupJob (bk : OdooBackup) (inst : OdooInstance) (database nodeName : string)
    : option Job :=
  jobSpec ← buildBackupJobSpec bk inst database nodeName;
  Some {| job_Meta := with_labels (backupLabels (m_Name (bk_Meta bk))) ∅
            (newMeta (backupJobName (m_Name (bk_Meta bk))) (m_Namespace (bk_Meta bk)));
          job_Spec := jobSpec; job_Status := noJobStatus |}.

Definition backupSpecHash (v : JobSpec) : string := hex_fixed 8 (fnv32a (MarshalJobSpec v)) "".

Definition buildBackupCronJob (bk : OdooBackup) (inst : OdooInstance) (database nodeName : string)
    : option CronJob :=
  jobSpec ← buildBackupJobSpec bk inst database nodeName;
  Some {| cron_Meta := with_labels (backupLabels (m_Name (bk_Meta bk)))
            {[backupHashAnnotation := backupSpecHash jobSpec]}
            (newMeta (backupCronJobName (m_Name (bk_Meta bk))) (m_Namespace (bk_Meta bk)));
          cron_Spec :=
            {| cj_Schedule := bs_Schedule (bk_Spec bk);
               cj_StartingDeadlineSeconds := Some backupStartingDeadline;
               cj_ConcurrencyPolicy := ForbidConcurrent;
               cj_Suspend := Some (bs_Suspend (bk_Spec bk));
               cj_SuccessfulJobsHistoryLimit := Some backupHistoryLimit;
               cj_FailedJobsHistoryLimit := Some backupHistoryLimit;
               cj_JobLabels := backupLabels (m_Name (bk_Meta bk));
               cj_JobSpec := jobSpec |};
          cron_Status := {| cjs_LastScheduleTime := None; cjs_LastSuccessfulTime := None |} |}.
End BackupJob.

(** ** Properties *)

(** The names of the environment variables of a container that come from Secrets. *)
Definition secret_vars (c : Container) : list string :=
  ev_Name <$> List.filter (λ e, match ev_ValueFrom e with Some _ => true | None => false end) (ct_Env c).

(** The mounts of the instance's data in a container. *)
Definition data_mounts (c : Container) : list VolumeMount :=
  List.filter (λ m, String.eqb (vm_Name m) volumeData) (ct_VolumeMounts c).

Lemma backupPGEnv_secrets spec database e :
  e ∈ backupPGEnv spec database → ev_ValueFrom e ≠ None → ev_Name e = envPGPassword.
Proof.
  unfold backupPGEnv. rewrite !elem_of_app, !list_elem_of_singleton.
  intros [->|[He|[->|[He|[He| ->]]]]]; try done; revert He; case_match; intros He;
    try (apply list_elem_of_singleton in He as ->; done); by apply elem_of_nil in He.
Qed.

Lemma secret_vars_elem c v :
  v ∈ secret_vars c → ∃ e, v = ev_Name e ∧ e ∈ ct_Env c ∧ ev_ValueFrom e ≠ None.
Proof.
  intros (e & -> & [He Hs]%list_elem_of_In%filter_In)%list_elem_of_fmap. apply list_elem_of_In in He.
  exists e. split_and!; [done|done|by destruct (ev_ValueFrom e)].
Qed.

Lemma backupS3Env_secrets s3 retention database e :
  e ∈ backupS3Env s3 retention database → ev_ValueFrom e ≠ None →
  ev_Name e ∈ [envAWSAccessKeyID; envAWSSecretAccessKey].
Proof.
  unfold backupS3Env. rewrite !elem_of_app, !elem_of_cons.
  assert (∀ a b, ev_ValueFrom (envValue a b) ≠ None → False) as Hv by (intros a b Ha; by apply Ha).
  assert (∀ (b : bool) a x, e ∈ (if b then [envValue a x] else []) → ev_ValueFrom e ≠ None → False) as Hif.
  { intros [] a x; [|by intros ?%elem_of_nil]. intros ->%list_elem_of_singleton. apply Hv. }
  intros Hin Hs. destruct_or? Hin; try (exfalso; by eapply Hif); try (by apply elem_of_nil in Hin);
    subst e; try (exfalso; by eapply Hv); [by left|by right; left].
Qed.

(** Every container a backup builds mounts the data read-only. *)
Lemma data_mounts_read_only `{KubeLib} includeFS name image script env others m :
  Forall (λ m, vm_Name m ≠ volumeData) others →
  m ∈ data_mounts (backupContainer name image script env (dataMount includeFS ++ others)) →
  vm_ReadOnly m = true.
Proof.
  intros Ho Hm. apply list_elem_of_In, filter_In in Hm as [Hm Hn%String.eqb_eq].
  apply list_elem_of_In, elem_of_app in Hm as [Hm|Hm].
  - unfold dataMount in Hm. destruct includeFS; [|by apply elem_of_nil in Hm].
    by apply list_elem_of_singleton in Hm as ->.
  - rewrite Forall_forall in Ho. by apply Ho in Hm.
Qed.

(** A one-shot or scheduled backup with another schedule. *)
Definition reschedule (schedule : string) (suspend : bool) (bk : OdooBackup) : OdooBackup :=
  let s := bk_Spec bk in
  {| bk_Meta := bk_Meta bk;
     bk_Spec := {| bs_InstanceRef := bs_InstanceRef s; bs_Database := bs_Database s;
       bs_IncludeFilestore := bs_IncludeFilestore s; bs_Destination := bs_Destination s;
       bs_Retention := bs_Retention s; bs_ScratchSize := bs_ScratchSize s;
       bs_TimeoutSeconds := bs_TimeoutSeconds s; bs_Schedule := schedule; bs_Suspend := suspend |};
     bk_Status := bk_Status bk |}.

Definition backup_instance : OdooInstance :=
  {| in_Meta := newMeta "shop" "shop"; in_Spec := conf_example;
     in_Status := {| ist_Ready := true; ist_Phase := "Running"; ist_AddonPaths := [];
       ist_ObservedGeneration := 1; ist_Conditions := []; ist_Message := "";
       ist_Initialized := true; ist_InitUpgrade := ""; ist_AppliedAddonsHash := "";
       ist_ActiveUpgrade := "" |} |}.



(** Backup names. The Job's name and the label value never exceed 63 bytes and the CronJob's
    never 52, which leaves room for the suffix of the Jobs it starts; a short name is used as it
    is, with its suffix. *)
Lemma backupNames_bounded name :
  (len (backupJobName name) ≤ 63)%nat ∧ (len (backupLabelValue name) ≤ 63)%nat ∧
  (len (backupCronJobName name) ≤ 52)%nat ∧
  ((len name ≤ 46)%nat → backupJobName name = name +:+ "-run" ∧
     backupCronJobName name = name +:+ "-sched" ∧ backupLabelValue name = name).
Proof.
  change (backupJobName name) with (bounded_name "backup" name "-run" 63).
  change (backupLabelValue name) with (bounded_name "backup" name "" 63).
  change (backupCronJobName name) with (bounded_name "backup" name "-sched" 52).
  destruct (bounded_name_spec "backup" name "-run" 63) as (H1 & _ & H1'); [cbn; lia..|].
  destruct (bounded_name_spec "backup" name "" 63) as (H2 & _ & H2'); [cbn; lia..|].
  destruct (bounded_name_spec "backup" name "-sched" 52) as (H3 & _ & H3'); [cbn; lia..|].
  split_and!; [done..|]. intros Hl. cbn [len] in *. rewrite app_nil_r_str in H2'.
  split_and!; [apply H1'|apply H3'|apply H2']; lia.
Qed.

(** The hash on a CronJob misses its schedule. Two backups that differ only in the schedule and
    the suspend switch have CronJobs with equal labels and an equal hash annotation, although the
    CronJobs differ: what the reconciler compares cannot tell them apart. *)
Lemma buildBackupCronJob_hash_blind `{Unicode} `{KubeLib} Getenv bk schedule suspend inst database
    nodeName cur desired :
  buildBackupCronJob Getenv bk inst database nodeName = Some cur →
  buildBackupCronJob Getenv (reschedule schedule suspend bk) inst database nodeName = Some desired →
  m_Annotations (cron_Meta desired) = m_Annotations (cron_Meta cur) ∧
  m_Labels (cron_Meta desired) = m_Labels (cron_Meta cur) ∧
  cj_Schedule (cron_Spec desired) = schedule ∧ cj_Suspend (cron_Spec desired) = Some suspend.
Proof.
  unfold buildBackupCronJob.
  assert (buildBackupJobSpec Getenv (reschedule schedule suspend bk) inst database nodeName =
    buildBackupJobSpec Getenv bk inst database nodeName) as -> by done.
  destruct (buildBackupJobSpec _ _ _ _ _) as [js|]; [|done]. cbn. by intros [= <-] [= <-].
Qed.

Lemma buildBackupCronJob_hash_blind_witness :
  ∃ cur desired : CronJob, cj_Schedule (cron_Spec cur) = "0 3 * * *" ∧
    cj_Schedule (cron_Spec desired) = "0 4 * * *" ∧
    m_Annotations (cron_Meta desired) = m_Annotations (cron_Meta cur).
Proof.
  destruct (buildBackupCronJob (λ _, "") (pvc_backup "") backup_instance "shop" "") as [cur|] eqn:Hc;
    [|by vm_compute in Hc].
  destruct (buildBackupCronJob (λ _, "") (reschedule "0 4 * * *" false (pvc_backup "")) backup_instance
    "shop" "") as [desired|] eqn:Hd; [|by vm_compute in Hd].
  destruct (buildBackupCronJob_hash_blind (λ _, "") (pvc_backup "") "0 4 * * *" false backup_instance
    "shop" "" cur desired Hc Hd) as (Ha & _ & Hs & _).
  exists cur, desired. split_and!; [|exact Hs|exact Ha]. injection Hc as <-. reflexivity.
Defined.

Close Scope Z_scope.
