(* ===== verification/BackupController.v ===== *)
(** * The backup controller (internal/controller/odoobackup_controller.go, odoobackup_status.go)

    One pass of the OdooBackup reconciler: one-shot backups through a Job, scheduled ones through a
    CronJob. As for upgrades, a mutate closure is a program, because some read the clock. *)
From S2P Require Export BackupQueue BackupJob Status.

Open Scope Z_scope.

(** ** odoobackup_status.go *)
Definition eventActionBackup : string := "Backup".

Section Status.
Context `{Unicode}.

Definition cond_no_backup_errors : Condition :=
  newCondition ConditionTypeDegraded condFalse ReasonAsExpected "no backup errors".

Definition backupConditions (st : OdooBackupStatus) (reason : string) : list Condition :=
  if String.eqb (bst_Phase st) BackupPhaseSucceeded then
    let msg := if negb (String.eqb (bst_LastBackup st) "") then "backup completed: " +:+ bst_LastBackup st
               else "backup completed" in
    [ newCondition ConditionTypeSucceeded condTrue ReasonComplete msg;
      newCondition ConditionTypeProgressing condFalse ReasonComplete "backup finished";
      cond_no_backup_errors ]
  else if String.eqb (bst_Phase st) BackupPhaseRunning then
    let msg := "backup Job " +:+ bst_JobName st +:+ " is running" in
    [ newCondition ConditionTypeSucceeded condUnknown ReasonRunning msg;
      newCondition ConditionTypeProgressing condTrue ReasonRunning msg;
      cond_no_backup_errors ]
  else if String.eqb (bst_Phase st) BackupPhaseFailed then
    let reason := if String.eqb reason "" then ReasonJobFailed else reason in
    let msg := if String.eqb (bst_Message st) "" then "backup failed" else bst_Message st in
    [ newCondition ConditionTypeSucceeded condFalse reason msg;
      newCondition ConditionTypeProgressing condFalse reason "backup stopped";
      newCondition ConditionTypeDegraded condTrue reason msg ]
  else if String.eqb (bst_Phase st) BackupPhaseScheduled then
    [ match bst_LastSuccessfulTime st with
      | Some _ => newCondition ConditionTypeSucceeded condTrue ReasonComplete "last scheduled backup succeeded"
      | None => newCondition ConditionTypeSucceeded condUnknown ReasonScheduled
                  "no scheduled backup has completed yet"
      end;
      newCondition ConditionTypeProgressing condFalse ReasonScheduled
        ("CronJob " +:+ bst_CronJobName st +:+ " runs the backups");
      cond_no_backup_errors ]
  else
    let reason := if String.eqb reason "" then ReasonPending else reason in
    let msg := if String.eqb (bst_Message st) "" then "waiting to start" else bst_Message st in
    [ newCondition ConditionTypeSucceeded condUnknown reason msg;
      newCondition ConditionTypeProgressing condFalse ReasonPending msg;
      cond_no_backup_errors ].

Definition backupEvents (before after : OdooBackupStatus) : list statusEvent :=
  (if String.eqb (bst_Phase after) BackupPhaseRunning &&
      negb (String.eqb (bst_Phase before) BackupPhaseRunning)
   then [mkEvent EventTypeNormal eventReasonStarted eventActionBackup
           ("backup Job " +:+ bst_JobName after +:+ " started") ""]
   else []) ++
  (if String.eqb (bst_Phase after) BackupPhaseSucceeded &&
      negb (String.eqb (bst_Phase before) BackupPhaseSucceeded)
   then [mkEvent EventTypeNormal eventReasonSucceeded eventActionBackup
           ("backup Job completed" +:+
            if negb (String.eqb (bst_LastBackup after) "") then ": " +:+ bst_LastBackup after else "") ""]
   else []) ++
  (if String.eqb (bst_Phase after) BackupPhaseFailed &&
      (negb (String.eqb (bst_Phase before) BackupPhaseFailed) ||
       negb (String.eqb (bst_Message before) (bst_Message after)))
   then [mkEvent EventTypeWarning eventReasonFailed eventActionBackup
           (if String.eqb (bst_Message after) "" then "backup failed" else bst_Message after) ""]
   else []).
End Status.

(** ** odoobackup_controller.go *)
Definition backupRequeuePending : Z := 10 * Second.
Definition backupRequeueRunning : Z := 5 * Second.
Definition backupRequeueScheduled : Z := 10 * Minute.
Definition backupJobGrace : Z := 30 * Second.
Definition backupLogTailLines : Z := 200.
Definition backupLogTailBytes : nat := 2000.
Definition backupLogReadLimit : N := 2 ^ 20.
Definition backupMsgWaitingInstance : string := "waiting for OdooInstance".
Definition backupMsgNoDatabase : string :=
  "no database configured: set spec.database or the instance's postgres.database".
Definition backupMsgPodFailed : string := "backup pod failed".
Definition backupMsgLogHeader : string := nl +:+ "--- last log lines ---" +:+ nl.

Definition bk_with_status (st : OdooBackupStatus) (b : OdooBackup) : OdooBackup :=
  {| bk_Meta := bk_Meta b; bk_Spec := bk_Spec b; bk_Status := st |}.
Definition cron_with_meta (m : ObjectMeta) (c : CronJob) : CronJob :=
  {| cron_Meta := m; cron_Spec := cron_Spec c; cron_Status := cron_Status c |}.

(** Assignments to status fields. *)
Definition bst_set (phase msg : string) (s : OdooBackupStatus) : OdooBackupStatus :=
  {| bst_Phase := phase; bst_JobName := bst_JobName s; bst_CronJobName := bst_CronJobName s;
     bst_StartTime := bst_StartTime s; bst_CompletionTime := bst_CompletionTime s;
     bst_LastScheduleTime := bst_LastScheduleTime s; bst_LastSuccessfulTime := bst_LastSuccessfulTime s;
     bst_LastBackup := bst_LastBackup s; bst_Message := msg;
     bst_ObservedGeneration := bst_ObservedGeneration s; bst_Conditions := bst_Conditions s |}.
Definition bst_complete (t : option Time) (s : OdooBackupStatus) : OdooBackupStatus :=
  {| bst_Phase := bst_Phase s; bst_JobName := bst_JobName s; bst_CronJobName := bst_CronJobName s;
     bst_StartTime := bst_StartTime s; bst_CompletionTime := t;
     bst_LastScheduleTime := bst_LastScheduleTime s; bst_LastSuccessfulTime := bst_LastSuccessfulTime s;
     bst_LastBackup := bst_LastBackup s; bst_Message := bst_Message s;
     bst_ObservedGeneration := bst_ObservedGeneration s; bst_Conditions := bst_Conditions s |}.
Definition bst_start (job : string) (now : Time) (s : OdooBackupStatus) : OdooBackupStatus :=
  {| bst_Phase := bst_Phase s; bst_JobName := job; bst_CronJobName := bst_CronJobName s;
     bst_StartTime := match bst_StartTime s with None => Some now | t => t end;
     bst_CompletionTime := bst_CompletionTime s;
     bst_LastScheduleTime := bst_LastScheduleTime s; bst_LastSuccessfulTime := bst_LastSuccessfulTime s;
     bst_LastBackup := bst_LastBackup s; bst_Message := bst_Message s;
     bst_ObservedGeneration := bst_ObservedGeneration s; bst_Conditions := bst_Conditions s |}.
Definition bst_result (files : string) (s : OdooBackupStatus) : OdooBackupStatus :=
  {| bst_Phase := bst_Phase s; bst_JobName := bst_JobName s; bst_CronJobName := bst_CronJobName s;
     bst_StartTime := bst_StartTime s; bst_CompletionTime := bst_CompletionTime s;
     bst_LastScheduleTime := bst_LastScheduleTime s; bst_LastSuccessfulTime := bst_LastSuccessfulTime s;
     bst_LastBackup := files; bst_Message := bst_Message s;
     bst_ObservedGeneration := bst_ObservedGeneration s; bst_Conditions := bst_Conditions s |}.
Definition bst_cron (name : string) (s : OdooBackupStatus) : OdooBackupStatus :=
  {| bst_Phase := bst_Phase s; bst_JobName := bst_JobName s; bst_CronJobName := name;
     bst_StartTime := bst_StartTime s; bst_CompletionTime := bst_CompletionTime s;
     bst_LastScheduleTime := bst_LastScheduleTime s; bst_LastSuccessfulTime := bst_LastSuccessfulTime s;
     bst_LastBackup := bst_LastBackup s; bst_Message := bst_Message s;
     bst_ObservedGeneration := bst_ObservedGeneration s; bst_Conditions := bst_Conditions s |}.
Definition bst_times (scheduled successful : option Time) (s : OdooBackupStatus) : OdooBackupStatus :=
  {| bst_Phase := bst_Phase s; bst_JobName := bst_JobName s; bst_CronJobName := bst_CronJobName s;
     bst_StartTime := bst_StartTime s; bst_CompletionTime := bst_CompletionTime s;
     bst_LastScheduleTime := scheduled; bst_LastSuccessfulTime := successful;
     bst_LastBackup := bst_LastBackup s; bst_Message := bst_Message s;
     bst_ObservedGeneration := bst_ObservedGeneration s; bst_Conditions := bst_Conditions s |}.
Definition bst_stamp (gen : Z) (conds : list Condition) (s : OdooBackupStatus) : OdooBackupStatus :=
  {| bst_Phase := bst_Phase s; bst_JobName := bst_JobName s; bst_CronJobName := bst_CronJobName s;
     bst_StartTime := bst_StartTime s; bst_CompletionTime := bst_CompletionTime s;
     bst_LastScheduleTime := bst_LastScheduleTime s; bst_LastSuccessfulTime := bst_LastSuccessfulTime s;
     bst_LastBackup := bst_LastBackup s; bst_Message := bst_Message s;
     bst_ObservedGeneration := gen; bst_Conditions := conds |}.

(** *** Judging a Job *)
Definition backupPhaseTerminal (phase : string) : bool :=
  String.eqb phase BackupPhaseSucceeded || String.eqb phase BackupPhaseFailed.

Definition backupHasCondition (job : Job) (condType : string) : bool :=
  existsb (λ c, String.eqb (jc_Type c) condType && String.eqb (jc_Status c) ConditionTrue)
    (jst_Conditions (job_Status job)).

Definition backupJobSucceeded (job : Job) : bool :=
  if 0 <? jst_Succeeded (job_Status job) then true else backupHasCondition job JobComplete.

Definition backupJobFailure (job : Job) : option string :=
  match List.find (λ c, String.eqb (jc_Type c) JobFailed && String.eqb (jc_Status c) ConditionTrue)
          (jst_Conditions (job_Status job)) with
  | Some c => Some (Join (List.filter (λ p, negb (String.eqb p "")) [jc_Reason c; jc_Message c]) ": ")
  | None => if 0 <? jst_Failed (job_Status job) then Some backupMsgPodFailed else None
  end.

Definition backupTail (s : string) (n : nat) : string :=
  if (len s <=? n)%nat then TrimSpace s
  else
    let cut := str_drop (len s - n) s in
    let cut := match IndexByte cut nl_byte with
               | Some i => if (i <? len cut - 1)%nat then str_drop (i + 1) cut else cut
               | None => cut
               end in
    TrimSpace (ToValidUTF8 cut).

Section Backup.
Context `{Unicode} `{KubeLib} `{RetryLib}.
Context (r : Reconciler) (Getenv : string → string).

Definition backupNowPtr : prog (option Time) := let* now := Now in Ret (Some now).

Definition backupJobCompletion (job : Job) : prog (option Time) :=
  match jst_CompletionTime (job_Status job) with
  | Some t => Ret (Some t)
  | None => backupNowPtr
  end.

(** One attempt of [backupWriteStatus]: the closure given to [RetryOnConflict]. *)
Definition backupWriteAttempt (key : NamespacedName) (target reason : string)
    (mutate : OdooBackupStatus → prog OdooBackupStatus) : prog (res unit) :=
  let? cur := get KBackup key in
  let before := bk_Status cur in
  if String.eqb (bs_Schedule (bk_Spec cur)) "" && backupPhaseTerminal (bst_Phase before) then ok tt
  else if String.eqb target BackupPhasePending && String.eqb (bst_Phase before) BackupPhaseRunning
  then ok tt
  else
    let* st := mutate before in
    let* now := Now in
    let gen := m_Generation (bk_Meta cur) in
    let st := bst_stamp gen (bst_Conditions st) st in
    let after := bst_stamp gen (setConditions now (bst_Conditions st) gen (backupConditions st reason)) st in
    if SemanticDeepEqual before after then ok tt
    else
      let? cur := updateStatus KBackup (bk_with_status after cur) in
      let* _ := emitEvents (rec_Recorder r) (bk_Meta cur) (backupEvents before after) in
      ok tt.

Definition backupWriteStatus (key : NamespacedName) (target reason : string)
    (mutate : OdooBackupStatus → prog OdooBackupStatus) : prog (res unit) :=
  let* err := RetryOnConflict (backupWriteAttempt key target reason mutate) in
  Ret (IgnoreNotFound err).

Definition backupSetPending (key : NamespacedName) (reason msg : string) : prog (res Result) :=
  with_result (requeue backupRequeuePending)
    (backupWriteStatus key BackupPhasePending reason (λ s, Ret (bst_set BackupPhasePending msg s))).

(** A failure without and with a completion time. *)
Definition backupFailSpec (key : NamespacedName) (msg : string) : prog (res Result) :=
  with_result noResult
    (backupWriteStatus key BackupPhaseFailed ReasonInvalidSpec
       (λ s, Ret (bst_set BackupPhaseFailed msg s))).
Definition backupFailJob (key : NamespacedName) (msg : string) : prog (res Result) :=
  with_result noResult
    (backupWriteStatus key BackupPhaseFailed ReasonJobFailed
       (λ s, let* now := backupNowPtr in Ret (bst_complete now (bst_set BackupPhaseFailed msg s)))).

(** *** Pods and logs *)
Definition backupLatestPod (bk : OdooBackup) : prog (option Pod) :=
  let* pods := list_objects KPod (m_Namespace (bk_Meta bk))
                 {[backupLabelKey := backupLabelValue (m_Name (bk_Meta bk))]} in
  Ret (match pods with
       | Ok (p :: pods) => Some (newest_pod p (p :: pods))
       | Ok [] | Err _ => None
       end).

Definition backupPodLogs (bk : OdooBackup) (container : string) : prog string :=
  if negb (rec_Clientset r) then Ret ""
  else
    let* pod := backupLatestPod bk in
    match pod with
    | None => Ret ""
    | Some pod =>
        let* data := call (OpPodLogs (m_Namespace (bk_Meta bk)) (m_Name (pod_Meta pod)) container
                             (Some backupLogTailLines)) in
        Ret (match data with Ok text => LimitRead backupLogReadLimit text | Err _ => "" end)
    end.

Definition backupResultLine (bk : OdooBackup) : prog string :=
  let* logs := backupPodLogs bk backupMainContainer in
  Ret (backupParseResult logs).

Definition backupLogTail (bk : OdooBackup) : prog string :=
  let* logs := backupPodLogs bk backupMainContainer in
  let* logs := if String.eqb (TrimSpace logs) "" then backupPodLogs bk backupInitContainer
               else Ret logs in
  Ret (if String.eqb (TrimSpace logs) "" then "" else backupTail logs backupLogTailBytes).

Definition backupOdooPodNode (inst : OdooInstance) : prog string :=
  let* pods := list_objects KPod (m_Namespace (in_Meta inst))
                 (list_to_map [(labelApp, appOdoo); (labelInstance, m_Name (in_Meta inst))]) in
  Ret (match pods with Ok pods => running_node pods | Err _ => "" end).

(** The node to pin the pod to, [""] for none. *)
Definition backupNode (bk : OdooBackup) (inst : OdooInstance) : prog string :=
  if backupNeedsNodePin (in_Spec inst) (backupIncludeFilestore bk) then backupOdooPodNode inst else Ret "".

(** The panic of a builder on a spec without destination. *)
Definition nilDereference : error := ErrorString "invalid memory address or nil pointer dereference".

(** *** One-shot backups *)
Definition backupStart (bk : OdooBackup) (inst : OdooInstance) : prog (res Result) :=
  let key := objectKey (bk_Meta bk) in
  let database := backupDatabase bk inst in
  if String.eqb database "" then backupFailSpec key backupMsgNoDatabase
  else
    let* nodeName := backupNode bk inst in
    match buildBackupJob Getenv bk inst database nodeName with
    | None => fail nilDereference
    | Some job =>
        match SetControllerReference (bk_Meta bk) (job_Meta job) with
        | Err e => fail e
        | Ok m =>
            let job := job_with_meta m job in
            let* created := create KJob job in
            match IgnoreAlreadyExists created with
            | Err e => fail (WrapError ("failed to create backup job: " +:+ error_text e) e)
            | Ok _ =>
                let* now := Now in
                with_result (requeue backupRequeueRunning)
                  (backupWriteStatus key BackupPhaseRunning ReasonRunning
                     (λ s, Ret (bst_start (m_Name (job_Meta job)) now
                                  (bst_complete None (bst_set BackupPhaseRunning "" s)))))
            end
        end
    end.

Definition backupMonitor (bk : OdooBackup) : prog (res Result) :=
  let key := objectKey (bk_Meta bk) in
  let st := bk_Status bk in
  let* got := get KJob {| nn_Namespace := m_Namespace (bk_Meta bk); nn_Name := bst_JobName st |} in
  match got with
  | Err e =>
      if IsNotFound e then
        let gone := backupFailJob key ("backup Job " +:+ bst_JobName st +:+ " no longer exists") in
        match bst_StartTime st with
        | Some start =>
            let* now := Now in
            if time_Sub now start <? backupJobGrace then ok (requeue backupRequeueRunning) else gone
        | None => gone
        end
      else fail e
  | Ok job =>
      if backupJobSucceeded job then
        let* completion := backupJobCompletion job in
        let* result := backupResultLine bk in
        with_result noResult
          (backupWriteStatus key BackupPhaseSucceeded ReasonComplete
             (λ s, Ret (bst_result result (bst_complete completion (bst_set BackupPhaseSucceeded "" s)))))
      else
        match backupJobFailure job with
        | Some reason =>
            let* tail := backupLogTail bk in
            backupFailJob key (if negb (String.eqb tail "") then reason +:+ backupMsgLogHeader +:+ tail
                               else reason)
        | None => ok (requeue backupRequeueRunning)
        end
  end.

Definition instanceKeyOf (bk : OdooBackup) : NamespacedName :=
  {| nn_Namespace := m_Namespace (bk_Meta bk); nn_Name := ref_Name (bs_InstanceRef (bk_Spec bk)) |}.

(** [reconcileOneShot] after the phase switch. *)
Definition oneShotPending (bk : OdooBackup) : prog (res Result) :=
  let key := objectKey (bk_Meta bk) in
  match backupValidateSpec bk with
  | Err e => backupFailSpec key (error_text e)
  | Ok _ =>
      let* got := get KInstance (instanceKeyOf bk) in
      match got with
      | Err e =>
          if IsNotFound e then backupSetPending key ReasonInstanceNotFound backupMsgWaitingInstance
          else fail e
      | Ok inst =>
          let? siblings := list_objects KBackup (m_Namespace (bk_Meta bk)) ∅ in
          let decision := backupDecideStart bk siblings in
          if negb (bq_MayStart decision) then
            backupSetPending key ReasonPending
              ("waiting for backup " +:+ Quote (bq_BlockedBy decision) +:+
               " on the same instance to finish")
          else backupStart bk inst
      end
  end.

Definition reconcileOneShot (bk : OdooBackup) : prog (res Result) :=
  let phase := bst_Phase (bk_Status bk) in
  if String.eqb phase BackupPhaseSucceeded || String.eqb phase BackupPhaseFailed then ok noResult
  else if String.eqb phase BackupPhaseRunning && negb (String.eqb (bst_JobName (bk_Status bk)) "")
  then backupMonitor bk
  else oneShotPending bk.

(** *** Scheduled backups *)

(** [cur.Labels, cur.Annotations, cur.Spec = desired's] *)
Definition cron_replace (desired cur : CronJob) : CronJob :=
  {| cron_Meta := with_labels (m_Labels (cron_Meta desired)) (m_Annotations (cron_Meta desired)) (cron_Meta cur);
     cron_Spec := cron_Spec desired; cron_Status := cron_Status cur |}.

Definition cronUpToDate (cur desired : CronJob) : bool :=
  String.eqb (map_get (m_Annotations (cron_Meta cur)) backupHashAnnotation)
             (map_get (m_Annotations (cron_Meta desired)) backupHashAnnotation) &&
  SemanticDeepEqual (m_Labels (cron_Meta cur)) (m_Labels (cron_Meta desired)).

Definition backupApplyCronJob (desired : CronJob) : prog (res CronJob) :=
  let* got := get KCronJob (objectKey (cron_Meta desired)) in
  match got with
  | Err e =>
      if IsNotFound e then
        let* created := create KCronJob desired in
        Ret (match created with
             | Ok c => Ok c
             | Err e => if IsAlreadyExists e then Ok desired else Err e
             end)
      else fail e
  | Ok cur =>
      if cronUpToDate cur desired then ok cur else update KCronJob (cron_replace desired cur)
  end.

(** The status writes of [reconcileScheduled] after the CronJob was applied or refused. *)
Definition scheduledRejected (key : NamespacedName) (name : string) (e : error) : prog (res Result) :=
  with_result noResult
    (backupWriteStatus key BackupPhaseFailed ReasonCronJobRejected
       (λ s, Ret (bst_cron name (bst_set BackupPhaseFailed ("CronJob was rejected: " +:+ error_text e) s)))).
Definition scheduledApplied (key : NamespacedName) (cron : CronJob) : prog (res Result) :=
  with_result (requeue backupRequeueScheduled)
    (backupWriteStatus key BackupPhaseScheduled ReasonScheduled
       (λ s, Ret (bst_times (cjs_LastScheduleTime (cron_Status cron))
                    (cjs_LastSuccessfulTime (cron_Status cron))
                    (bst_cron (m_Name (cron_Meta cron)) (bst_set BackupPhaseScheduled "" s))))).

Definition scheduleOn (bk : OdooBackup) (inst : OdooInstance) : prog (res Result) :=
  let key := objectKey (bk_Meta bk) in
  let database := backupDatabase bk inst in
  if String.eqb database "" then backupFailSpec key backupMsgNoDatabase
  else
    let* nodeName := backupNode bk inst in
    match buildBackupCronJob Getenv bk inst database nodeName with
    | None => fail nilDereference
    | Some desired =>
        match SetControllerReference (bk_Meta bk) (cron_Meta desired) with
        | Err e => fail e
        | Ok m =>
            let desired := cron_with_meta m desired in
            let* cron := backupApplyCronJob desired in
            match cron with
            | Err e => if IsInvalid e then scheduledRejected key (m_Name (cron_Meta desired)) e else fail e
            | Ok cron => scheduledApplied key cron
            end
        end
    end.

Definition reconcileScheduled (bk : OdooBackup) : prog (res Result) :=
  let key := objectKey (bk_Meta bk) in
  match backupValidateSpec bk with
  | Err e => backupFailSpec key (error_text e)
  | Ok _ =>
      let* got := get KInstance (instanceKeyOf bk) in
      match got with
      | Err e =>
          if IsNotFound e then backupSetPending key ReasonInstanceNotFound backupMsgWaitingInstance
          else fail e
      | Ok inst => scheduleOn bk inst
      end
  end.

Definition backupReconcile (key : NamespacedName) : prog (res Result) :=
  let* got := get KBackup key in
  match got with
  | Err e => if IsNotFound e then ok noResult else fail e
  | Ok bk =>
      if negb (String.eqb (bs_Schedule (bk_Spec bk)) "") then reconcileScheduled bk
      else reconcileOneShot bk
  end.
End Backup.

(** ** What one pass may do *)
Section Safety.
Context `{Unicode} `{KubeLib} `{RetryLib}.
Context (r : Reconciler) (Getenv : string → string) (key : NamespacedName).

(** The Job of this pass was created, or one of that name existed. *)
Definition backup_started (h : list event) : Prop :=
  ∃ (j : Job) (ans : res Job), happened h (OpCreate KJob j) ans ∧ IgnoreAlreadyExists ans = Ok tt.

(** A Job that succeeded was read. *)
Definition backup_succeeded (h : list event) : Prop :=
  ∃ (k : NamespacedName) (j : Job), happened h (OpGet KJob k) (Ok j) ∧ backupJobSucceeded j = true.

(** A CronJob was read, created or updated. *)
Definition cron_applied (h : list event) : Prop :=
  (∃ k (c : CronJob), happened h (OpGet KCronJob k) (Ok c)) ∨
  (∃ (c : CronJob) (ans : res CronJob), happened h (OpCreate KCronJob c) ans ∧
     IgnoreAlreadyExists ans = Ok tt) ∨
  (∃ c c' : CronJob, happened h (OpUpdate KCronJob c) (Ok c')).

(** A scheduled backup was read under the key of the pass. *)
Definition schedule_read (h : list event) : Prop :=
  ∃ bk : OdooBackup, happened h (OpGet KBackup key) (Ok bk) ∧ bs_Schedule (bk_Spec bk) ≠ "".

(** Why a phase may be written. *)
Definition backup_reason (h : list event) (q : string) : Prop :=
  q = BackupPhasePending ∨ (q = BackupPhaseRunning ∧ backup_started h) ∨
  (q = BackupPhaseSucceeded ∧ backup_succeeded h) ∨ q = BackupPhaseFailed ∨
  (q = BackupPhaseScheduled ∧ cron_applied h ∧ schedule_read h).

(** A status write replaces the object of this pass as it was last read: only the status changes, a finished
    one-shot backup keeps its phase, and Running never goes back to Pending. *)
Definition backup_write_ok (h : list event) (o : OdooBackup) : Prop :=
  ∃ k (cur : OdooBackup) l h',
    h = l ++ did (OpGet KBackup k) (Ok cur) :: h' ∧ unread KBackup l ∧ read_key KBackup key h k ∧
    bk_Meta o = bk_Meta cur ∧ bk_Spec o = bk_Spec cur ∧
    bst_ObservedGeneration (bk_Status o) = m_Generation (bk_Meta cur) ∧
    (bs_Schedule (bk_Spec cur) = "" → backupPhaseTerminal (bst_Phase (bk_Status cur)) = false) ∧
    (bst_Phase (bk_Status o) = BackupPhasePending → bst_Phase (bk_Status cur) ≠ BackupPhaseRunning) ∧
    backup_reason h (bst_Phase (bk_Status o)).

(** The instance of the backup was read. *)
Definition instance_read (h : list event) (bk : OdooBackup) (inst : OdooInstance) : Prop :=
  happened h (OpGet KInstance (instanceKeyOf bk)) (Ok inst).

(** A Job is created only for the one-shot backup that was read, when the queue lets it start. *)
Definition backup_create_ok (h : list event) (j : Job) : Prop :=
  ∃ (bk : OdooBackup) (inst : OdooInstance) (siblings : list OdooBackup) (node : string) job m,
    listed KBackup key h bk siblings ∧ instance_read h bk inst ∧ bs_Schedule (bk_Spec bk) = "" ∧
    backupPhaseTerminal (bst_Phase (bk_Status bk)) = false ∧
    is_Ok (backupValidateSpec bk) = true ∧
    bq_MayStart (backupDecideStart bk siblings) = true ∧
    backupDatabase bk inst ≠ "" ∧
    buildBackupJob Getenv bk inst (backupDatabase bk inst) node = Some job ∧
    SetControllerReference (bk_Meta bk) (job_Meta job) = Ok m ∧ j = job_with_meta m job.

(** The CronJob the pass wants for the scheduled backup that was read. *)
Definition wanted_cron (h : list event) (desired : CronJob) : Prop :=
  ∃ (bk : OdooBackup) (inst : OdooInstance) (node : string) cron m,
    happened h (OpGet KBackup key) (Ok bk) ∧ instance_read h bk inst ∧ bs_Schedule (bk_Spec bk) ≠ "" ∧
    is_Ok (backupValidateSpec bk) = true ∧ backupDatabase bk inst ≠ "" ∧
    buildBackupCronJob Getenv bk inst (backupDatabase bk inst) node = Some cron ∧
    SetControllerReference (bk_Meta bk) (cron_Meta cron) = Ok m ∧ desired = cron_with_meta m cron.

(** A CronJob is created when a read of it found none. *)
Definition cron_create_ok (h : list event) (c : CronJob) : Prop :=
  wanted_cron h c ∧ ∃ e, happened h (OpGet KCronJob (objectKey (cron_Meta c))) (Err e) ∧ IsNotFound e = true.

(** A CronJob is updated when the one read differs in hash or labels. *)
Definition cron_update_ok (h : list event) (c : CronJob) : Prop :=
  ∃ desired cur : CronJob, wanted_cron h desired ∧
    happened h (OpGet KCronJob (objectKey (cron_Meta desired))) (Ok cur) ∧
    cronUpToDate cur desired = false ∧ c = cron_replace desired cur.

Definition backup_may (h : list event) (o : op) : Prop :=
  match o with
  | OpStatusUpdate KBackup o => backup_write_ok h o
  | OpCreate KJob j => backup_create_ok h j
  | OpCreate KCronJob c => cron_create_ok h c
  | OpUpdate KCronJob c => cron_update_ok h c
  | o => reads o
  end.

Abbreviation any := (λ _ _, True).

Lemma backup_may_reads h o : reads o → backup_may h o.
Proof. by destruct o as [| |[]|[]|[]| | | | | |]. Qed.

Lemma backup_reason_mono h h' q : h ⊆ h' → backup_reason h q → backup_reason h' q.
Proof.
  unfold backup_reason, backup_started, backup_succeeded, cron_applied, schedule_read. intros Hsub.
  assert (∀ o a, happened h o a → happened h' o a) by (intros; by eapply happened_mono).
  naive_solver.
Qed.

(** What a status write needs of the history before it. *)
Definition may_write_backup (h : list event) (k : NamespacedName) (q : string) : Prop :=
  read_key KBackup key h k ∧ backup_reason h q.

Lemma may_write_backup_mono h h' k q : h ⊆ h' → may_write_backup h k q → may_write_backup h' k q.
Proof. intros ? []. split; eauto using read_key_mono, backup_reason_mono. Qed.

Lemma wanted_cron_mono h h' c : h ⊆ h' → wanted_cron h c → wanted_cron h' c.
Proof.
  intros Hsub (bk & inst & node & cron & m & Hget & Hinst & Hrest). exists bk, inst, node, cron, m.
  split; [by eapply happened_mono|]. split; [by eapply happened_mono|done].
Qed.

Definition quiet_backup (mutate : OdooBackupStatus → prog OdooBackupStatus) (target : string) : Prop :=
  ∀ h s, wp backup_may h (mutate s)
           (λ h' s', bst_Phase s' = target ∧ ∃ l, h' = l ++ h ∧ unread KBackup l).

Lemma quiet_backup_ret f target : (∀ s, bst_Phase (f s) = target) → quiet_backup (λ s, Ret (f s)) target.
Proof. intros Hf h s. cbn. split; [done|]. exists []. split; [done|apply unread_nil]. Qed.

Lemma quiet_backup_now f target :
  (∀ now s, bst_Phase (f now s) = target) →
  quiet_backup (λ s, let* now := backupNowPtr in Ret (f now s)) target.
Proof.
  intros Hf h s. unfold backupNowPtr. wp_calls. split; [done|]. intros now. cbn. split; [done|].
  exists [did OpNow now]. split; [done|]. apply unread_cons; [done|apply unread_nil].
Qed.

Lemma wp_backupWriteAttempt h k target reason mutate :
  quiet_backup mutate target → may_write_backup h k target →
  wp backup_may h (backupWriteAttempt r k target reason mutate) (λ h' _, may_write_backup h' k target).
Proof.
  intros Hq Ht. unfold backupWriteAttempt. wp_calls. split; [done|]. intros [cur|e].
  2: { eapply may_write_backup_mono, Ht. by apply list_subseteq_cons. }
  assert (may_write_backup (did (OpGet KBackup k) (Ok cur) :: h) k target) as Ht'
    by (eapply may_write_backup_mono, Ht; by apply list_subseteq_cons).
  destruct (String.eqb (bs_Schedule (bk_Spec cur)) "" && backupPhaseTerminal (bst_Phase (bk_Status cur)))
    eqn:Hterm; [done|].
  destruct (String.eqb target BackupPhasePending && String.eqb (bst_Phase (bk_Status cur)) BackupPhaseRunning)
    eqn:Hpend; [done|].
  apply wp_bind. eapply wp_mono; [apply Hq|]. intros h' st [Hst (l & -> & Hl)].
  split; [done|]. intros now.
  assert (may_write_backup (did OpNow now :: l ++ did (OpGet KBackup k) (Ok cur) :: h) k target) as Ht2.
  { eapply may_write_backup_mono, Ht'. set_solver. }
  destruct (SemanticDeepEqual _ _); [done|]. split.
  - exists k, cur, (did OpNow now :: l), h.
    split; [done|]. split; [by apply unread_cons|]. split; [apply Ht2|]. do 3 (split; [done|]).
    cbn [bk_Status bk_with_status bst_stamp bst_Phase]. rewrite Hst. split_and!; [| |apply Ht2].
    + intros Hone. by rewrite Hone in Hterm.
    + intros -> Hrun. by rewrite Hrun in Hpend.
  - intros [cur'|e].
    + apply wp_bind, wp_emitEvents; [done|]. intros h2 Hh2. cbn.
      eapply may_write_backup_mono, Ht2. intros x Hx. apply Hh2. by right.
    + eapply may_write_backup_mono, Ht2. by apply list_subseteq_cons.
Qed.

Context `{!RetryLaws}.

Lemma wp_backup_result {A} h k target reason mutate (res : A) :
  quiet_backup mutate target → may_write_backup h k target →
  wp backup_may h (with_result res (backupWriteStatus r k target reason mutate)) any.
Proof.
  intros Hq Ht. unfold with_result, try_bind, backupWriteStatus. apply wp_bind, wp_bind.
  apply wp_retry with (I := λ h, may_write_backup h k target); [|done].
  intros h' Hh'. eapply wp_mono; [by apply wp_backupWriteAttempt|].
  intros h2 x Hx. split; [|done]. cbn. by destruct (IgnoreNotFound x).
Qed.

Lemma wp_backupFailSpec h k msg : read_key KBackup key h k → wp backup_may h (backupFailSpec r k msg) any.
Proof. intros. apply wp_backup_result; [by apply quiet_backup_ret|]. split; [done|unfold backup_reason; auto]. Qed.

Lemma wp_backupFailJob h k msg : read_key KBackup key h k → wp backup_may h (backupFailJob r k msg) any.
Proof.
  intros. apply wp_backup_result; [|split; [done|unfold backup_reason; auto]].
  by apply (quiet_backup_now (λ now s, bst_complete now (bst_set BackupPhaseFailed msg s))).
Qed.

Lemma wp_backupSetPending h k reason msg :
  read_key KBackup key h k → wp backup_may h (backupSetPending r k reason msg) any.
Proof. intros. apply wp_backup_result; [by apply quiet_backup_ret|]. split; [done|unfold backup_reason; auto]. Qed.

Lemma reads_backupPodLogs h bk c : wp (λ _ o, reads o) h (backupPodLogs r bk c) any.
Proof.
  unfold backupPodLogs. destruct (rec_Clientset r); [|done]. cbn. split; [done|].
  intros [[|p pods]|e]; [done| |done]. cbn. split; [done|]. by intros [|].
Qed.

Lemma reads_backupResultLine h bk : wp (λ _ o, reads o) h (backupResultLine r bk) any.
Proof. apply wp_bind. eapply wp_mono; [apply reads_backupPodLogs|done]. Qed.

Lemma reads_backupLogTail h bk : wp (λ _ o, reads o) h (backupLogTail r bk) any.
Proof.
  apply wp_bind. eapply wp_mono; [apply reads_backupPodLogs|]. intros h' logs _. apply wp_bind.
  destruct (String.eqb _ _); [|done]. eapply wp_mono; [apply reads_backupPodLogs|done].
Qed.

Lemma reads_backupNode h bk inst : wp (λ _ o, reads o) h (backupNode bk inst) any.
Proof. unfold backupNode. by destruct (backupNeedsNodePin _ _). Qed.

(** The key of the object that was read. *)
Lemma read_backup_key h h' (bk : OdooBackup) :
  happened h (OpGet KBackup key) (Ok bk) → h ⊆ h' → read_key KBackup key h' (objectKey (bk_Meta bk)).
Proof. intros ? Hsub. right. exists bk. split; [by eapply happened_mono|done]. Qed.

Lemma wp_backupMonitor h bk :
  happened h (OpGet KBackup key) (Ok bk) → wp backup_may h (backupMonitor r bk) any.
Proof.
  intros Hget. pose proof (λ h', read_backup_key h h' bk Hget) as Hk.
  unfold backupMonitor. wp_calls. split; [done|]. intros [job|e].
  - destruct (backupJobSucceeded job) eqn:Hs.
    + apply wp_reads_bind; [by apply backup_may_reads|
        by unfold backupJobCompletion; destruct (jst_CompletionTime _)|].
      intros h' completion Hsub. apply wp_reads_bind; [by apply backup_may_reads|apply reads_backupResultLine|].
      intros h2 result Hsub2. apply wp_backup_result; [by apply quiet_backup_ret|].
      split; [apply Hk; set_solver|].
      right; right; left. split; [done|]. eexists _, job. split; [|done]. apply Hsub2, Hsub. by left.
    + destruct (backupJobFailure job); [|done].
      apply wp_reads_bind; [by apply backup_may_reads|apply reads_backupLogTail|].
      intros. apply wp_backupFailJob, Hk. set_solver.
  - destruct (IsNotFound e); [|done].
    destruct (bst_StartTime _); [|apply wp_backupFailJob, Hk; set_solver].
    wp_calls. split; [done|]. intros now. destruct (_ <? _); [done|].
    apply wp_backupFailJob, Hk. set_solver.
Qed.

Lemma wp_backupStart h bk inst (siblings : list OdooBackup) :
  listed KBackup key h bk siblings → instance_read h bk inst → bs_Schedule (bk_Spec bk) = "" →
  backupPhaseTerminal (bst_Phase (bk_Status bk)) = false →
  is_Ok (backupValidateSpec bk) = true →
  bq_MayStart (backupDecideStart bk siblings) = true →
  wp backup_may h (backupStart r Getenv bk inst) any.
Proof.
  intros Hlist Hinst Hone Hterm Hval Hmay. unfold backupStart.
  pose proof (λ h', read_backup_key h h' bk (listed_read _ _ _ _ _ Hlist)) as Hk.
  destruct (String.eqb_spec (backupDatabase bk inst) "") as [|Hdb]; [by apply wp_backupFailSpec, Hk|].
  apply wp_reads_bind_app; [by apply backup_may_reads|apply reads_backupNode|]. intros l node.
  destruct (buildBackupJob _ _ _ _ _) as [job|] eqn:Hjob; [|done].
  destruct (SetControllerReference _ _) as [m|e] eqn:Hm; [|done]. wp_calls. split.
  { exists bk, inst, siblings, node, job, m. split_and!; try done; [by apply listed_mono|]. unfold instance_read, happened. set_solver. }
  intros created. destruct (IgnoreAlreadyExists created) as [[]|e] eqn:Hc; [|done].
  split; [done|]. intros now. apply wp_backup_result; [by apply quiet_backup_ret|].
  split; [apply Hk; set_solver|].
  right; left. split; [done|]. eexists _, created. split; [|exact Hc]. right. by left.
Qed.

Lemma wp_reconcileOneShot h bk :
  happened h (OpGet KBackup key) (Ok bk) → bs_Schedule (bk_Spec bk) = "" →
  wp backup_may h (reconcileOneShot r Getenv bk) any.
Proof.
  intros Hget Hone. unfold reconcileOneShot. pose proof (λ h', read_backup_key h h' bk Hget) as Hk.
  destruct (String.eqb _ _ || _) eqn:Hterm; [done|].
  destruct (_ && _); [by apply wp_backupMonitor|]. unfold oneShotPending.
  destruct (backupValidateSpec bk) eqn:Hval; [|by apply wp_backupFailSpec, Hk].
  wp_calls. split; [done|]. intros [inst|e].
  2: { destruct (IsNotFound e); [apply wp_backupSetPending, Hk; set_solver|done]. }
  split; [done|]. intros [siblings|e]; [|done].
  destruct (bq_MayStart _) eqn:Hmay; cbn [negb]; [|apply wp_backupSetPending, Hk; set_solver].
  apply wp_backupStart with siblings; [|right; by left|done..|by rewrite Hval|done].
  eexists [], _. split; [done|by right].
Qed.

Lemma wp_backupApplyCronJob {A} h desired (f : res CronJob → prog A) :
  wanted_cron h desired →
  (∀ h' x, h ⊆ h' → (∀ c, x = Ok c → cron_applied h') → wp backup_may h' (f x) any) →
  wp backup_may h (prog_bind (backupApplyCronJob desired) f) any.
Proof.
  intros Hw Hf. unfold backupApplyCronJob. wp_calls. split; [done|]. intros [cur|e].
  - assert (cron_applied (did (OpGet KCronJob (objectKey (cron_Meta desired))) (Ok cur) :: h)) as Happ.
    { left. eexists _, cur. by left. }
    destruct (cronUpToDate cur desired) eqn:Hup; cbn [prog_bind].
    { apply Hf; [by apply list_subseteq_cons|done]. }
    split.
    { exists desired, cur. split_and!; [|by left|done|done]. eapply wanted_cron_mono, Hw.
      by apply list_subseteq_cons. }
    intros x. apply Hf; [by do 2 apply list_subseteq_cons|]. intros c ->. right; right. eexists _, c. by left.
  - destruct (IsNotFound e) eqn:He; cbn [prog_bind]; [|apply Hf; [by apply list_subseteq_cons|done]].
    split.
    { split; [eapply wanted_cron_mono, Hw; by apply list_subseteq_cons|]. exists e. split; [by left|done]. }
    intros x. apply Hf; [by do 2 apply list_subseteq_cons|]. intros c Hx. right; left. eexists desired, x.
    split; [by left|]. unfold IgnoreAlreadyExists. destruct x; [done|]. by destruct (IsAlreadyExists e0).
Qed.

Lemma wp_scheduleOn h bk inst :
  happened h (OpGet KBackup key) (Ok bk) → instance_read h bk inst → bs_Schedule (bk_Spec bk) ≠ "" →
  is_Ok (backupValidateSpec bk) = true → wp backup_may h (scheduleOn r Getenv bk inst) any.
Proof.
  intros Hget Hinst Hsched Hval. unfold scheduleOn. pose proof (λ h', read_backup_key h h' bk Hget) as Hk.
  destruct (String.eqb_spec (backupDatabase bk inst) "") as [|Hdb]; [by apply wp_backupFailSpec, Hk|].
  apply wp_reads_bind; [by apply backup_may_reads|apply reads_backupNode|]. intros h' node Hsub.
  destruct (buildBackupCronJob _ _ _ _ _) as [cron|] eqn:Hcron; [|done].
  destruct (SetControllerReference _ _) as [m|e] eqn:Hm; [|done].
  apply wp_backupApplyCronJob.
  { exists bk, inst, node, cron, m. split_and!; try done; by apply Hsub. }
  intros h2 [c|e] Hsub2 Happ.
  - apply wp_backup_result; [by apply quiet_backup_ret|]. split; [apply Hk; set_solver|].
    do 4 right. split; [done|split; [by eapply Happ|]]. exists bk. split; [|done]. by apply Hsub2, Hsub.
  - destruct (IsInvalid e); [|done]. apply wp_backup_result; [by apply quiet_backup_ret|].
    split; [apply Hk; set_solver|]. unfold backup_reason. auto.
Qed.

Lemma wp_backupReconcile : wp backup_may [] (backupReconcile r Getenv key) any.
Proof.
  unfold backupReconcile. wp_calls. split; [done|]. intros [bk|e]; [|by destruct (IsNotFound e)].
  destruct (String.eqb_spec (bs_Schedule (bk_Spec bk)) "") as [Hs|Hs]; cbn [negb].
  { apply wp_reconcileOneShot; [by left|done]. }
  assert (∀ h', did (OpGet KBackup key) (Ok bk) :: [] ⊆ h' → read_key KBackup key h' (objectKey (bk_Meta bk))) as Hk
    by (intros h'; apply read_backup_key; by left).
  unfold reconcileScheduled. destruct (backupValidateSpec bk) eqn:Hval; [|by apply wp_backupFailSpec, Hk].
  wp_calls. split; [done|]. intros [inst|e].
  - apply wp_scheduleOn; [right; by left|by left|done|by rewrite Hval].
  - destruct (IsNotFound e); [apply wp_backupSetPending, Hk; set_solver|done].
Qed.
End Safety.

(** ** Properties *)
Definition backup_write (o : op) : option OdooBackup :=
  match o with OpStatusUpdate KBackup b => Some b | _ => None end.
Definition backup_job_create (o : op) : option Job :=
  match o with OpCreate KJob j => Some j | _ => None end.
Definition cron_create (o : op) : option CronJob :=
  match o with OpCreate KCronJob c => Some c | _ => None end.
Definition cron_update (o : op) : option CronJob :=
  match o with OpUpdate KCronJob c => Some c | _ => None end.
Definition backup_other_write (o : op) : option op :=
  match o with
  | OpStatusUpdate KBackup _ | OpCreate KJob _ | OpCreate KCronJob _ | OpUpdate KCronJob _ => None
  | OpGet _ _ | OpList _ _ _ | OpNow | OpPodLogs _ _ _ _ | OpEvent _ _ _ => None
  | o => Some o
  end.

(** C22: status writes of the backup controller are safe against a stale cache. Whatever the API
    server answers, every status a pass writes is of the backup of the pass and computed from it
    as last read in that pass (metadata and spec unchanged, the generation observed). A finished one-shot backup is
    never changed; Running never goes back to Pending; Running is written only after the Job was
    created or found to exist, Succeeded only when a Job that succeeded was read, and Scheduled
    only for a backup read with a schedule, when the CronJob was read, created or updated in this
    pass. *)
Theorem backupReconcile_writes `{Unicode} `{KubeLib} `{RetryLib} `{!RetryLaws} r Getenv key tr a :
  execs (backupReconcile r Getenv key) [] tr a →
  Forall (λ c, backup_write_ok key c.2 c.1) (calls_of backup_write tr).
Proof.
  intros He. apply (calls_allowed _ _ tr a backup_write (backup_write_ok key)
    (wp_backupReconcile r Getenv key) He).
  intros h o b. by destruct o as [| | | | [] | | | | | |]; intros [= ->].
Qed.

(** C23: what the backup controller creates. Whatever the API server answers, a Job is created only
    for the one-shot backup that was read, not finished, with a valid spec and a database, after
    the backups of its namespace, listed after that read, let it start; a CronJob is created or updated only for a
    scheduled backup that was read with a valid spec and a database, created after a read of it in this
    pass found none, and updated (its labels, annotations and spec replaced, nothing else) when the
    one read differs in hash or labels. Both are built, for some node, from the backup
    and its instance as read in this pass.
    Every object built is controlled by the backup. But for these and the status of the backup a
    pass writes nothing. *)
Theorem backupReconcile_creates `{Unicode} `{KubeLib} `{RetryLib} `{!RetryLaws} r Getenv key tr a :
  execs (backupReconcile r Getenv key) [] tr a →
  Forall (λ c, backup_create_ok Getenv key c.2 c.1) (calls_of backup_job_create tr) ∧
  Forall (λ c, cron_create_ok Getenv key c.2 c.1) (calls_of cron_create tr) ∧
  Forall (λ c, cron_update_ok Getenv key c.2 c.1) (calls_of cron_update tr) ∧
  calls_of backup_other_write tr = [].
Proof.
  intros He. pose proof (λ B f P, calls_allowed (B := B) _ _ tr a f P (wp_backupReconcile r Getenv key) He) as Hall.
  split_and!.
  - apply (Hall _ _ (backup_create_ok Getenv key)). intros h o b. by destruct o as [| |[] | | | | | | | |]; intros [= ->].
  - apply (Hall _ _ (cron_create_ok Getenv key)). intros h o b. by destruct o as [| |[] | | | | | | | |]; intros [= ->].
  - apply (Hall _ _ (cron_update_ok Getenv key)). intros h o b. by destruct o as [| | |[] | | | | | | |]; intros [= ->].
  - assert (Forall (λ c, False) (calls_of backup_other_write tr)) as Hnone.
    { apply (Hall _ _ (λ _ _, False)). intros h o b. by destruct o as [| |[]|[]|[]| | | | | |]. }
    by destruct Hnone.
Qed.

(** *** Witnesses: a pass that starts a one-shot backup, one that creates a CronJob *)
Definition oneshot : OdooBackup := reschedule "" false (pvc_backup "shop/daily").

Definition backup_server (b : OdooBackup) (s : unit) (o : op) : answer o * unit :=
  (match o return answer o with
   | OpGet KBackup _ => Ok b
   | OpGet KInstance _ => Ok backup_instance
   | OpList KBackup _ _ => Ok [b]
   | OpList KPod _ _ => Ok []
   | OpCreate KJob j => Ok j
   | OpCreate KCronJob c => Ok c
   | OpStatusUpdate KBackup b => Ok b
   | o => refuse o
   end, s).

(** The example instance has no database of its own. *)
Definition with_database (db : string) (b : OdooBackup) : OdooBackup :=
  let s := bk_Spec b in
  {| bk_Meta := bk_Meta b;
     bk_Spec := {| bs_InstanceRef := bs_InstanceRef s; bs_Database := db;
       bs_IncludeFilestore := bs_IncludeFilestore s; bs_Destination := bs_Destination s;
       bs_Retention := bs_Retention s; bs_ScratchSize := bs_ScratchSize s;
       bs_TimeoutSeconds := bs_TimeoutSeconds s; bs_Schedule := bs_Schedule s; bs_Suspend := bs_Suspend s |};
     bk_Status := bk_Status b |}.

Definition backup_key : NamespacedName := {| nn_Namespace := "shop"; nn_Name := "nightly" |}.
Definition backup_pass : prog (res Result) :=
  backupReconcile {| rec_Recorder := true; rec_Clientset := true |} (λ _, "") backup_key.
Definition backup_trace (b : OdooBackup) : list event :=
  (run (backup_server b) tt backup_pass []).2.

Lemma backupReconcile_writes_witness :
  (λ c, bst_Phase (bk_Status c.1)) <$> calls_of backup_write (backup_trace (with_database "shop" oneshot)) =
    ["Running"] ∧
  Forall (λ c, backup_write_ok backup_key c.2 c.1)
    (calls_of backup_write (backup_trace (with_database "shop" oneshot))).
Proof.
  split; [by vm_compute|]. unfold backup_trace, backup_pass.
  exact (backupReconcile_writes _ _ _ _ _ (run_execs (backup_server (with_database "shop" oneshot)) tt _ [])).
Defined.

Definition scheduled : OdooBackup := with_database "shop" (pvc_backup "shop/daily").

Lemma backupReconcile_creates_witness :
  (λ c, m_Name (cron_Meta c.1)) <$> calls_of cron_create (backup_trace scheduled) = ["nightly-sched"] ∧
  Forall (λ c, cron_create_ok (λ _, "") backup_key c.2 c.1) (calls_of cron_create (backup_trace scheduled)).
Proof.
  split; [by vm_compute|]. unfold backup_trace, backup_pass.
  exact (proj1 (proj2 (backupReconcile_creates _ _ _ _ _
    (run_execs (backup_server scheduled) tt _ [])))).
Defined.



Ltac phase_iff :=
  cbn; split; [intros ?; first [done | by left | by right; split]
              |intros Hx; destruct_or? Hx; destruct_and? Hx; done].

(** The conditions of a backup agree with its phase. Succeeded is true exactly for a backup
    that succeeded or a schedule with a successful run behind it, Progressing exactly while the Job
    runs, Degraded exactly when it failed; the conditions have distinct types and reasons the API
    accepts. *)
Theorem backupConditions_agree `{Unicode} st reason :
  let want := backupConditions st reason in
  wellformed_conditions want ∧
  c_Type <$> want = [ConditionTypeSucceeded; ConditionTypeProgressing; ConditionTypeDegraded] ∧
  (wanted_status want ConditionTypeSucceeded = Some condTrue ↔
     bst_Phase st = BackupPhaseSucceeded ∨
     (bst_Phase st = BackupPhaseScheduled ∧ bst_LastSuccessfulTime st ≠ None)) ∧
  (wanted_status want ConditionTypeProgressing = Some condTrue ↔ bst_Phase st = BackupPhaseRunning) ∧
  (wanted_status want ConditionTypeDegraded = Some condTrue ↔ bst_Phase st = BackupPhaseFailed).
Proof.
  assert (∀ a b d (P Q R : Prop), cond_ok ConditionTypeSucceeded a → cond_ok ConditionTypeProgressing b →
    cond_ok ConditionTypeDegraded d → (c_Status a = condTrue ↔ P) → (c_Status b = condTrue ↔ Q) →
    (c_Status d = condTrue ↔ R) →
    wellformed_conditions [a; b; d] ∧
    c_Type <$> [a; b; d] = [ConditionTypeSucceeded; ConditionTypeProgressing; ConditionTypeDegraded] ∧
    (wanted_status [a; b; d] ConditionTypeSucceeded = Some condTrue ↔ P) ∧
    (wanted_status [a; b; d] ConditionTypeProgressing = Some condTrue ↔ Q) ∧
    (wanted_status [a; b; d] ConditionTypeDegraded = Some condTrue ↔ R)) as Hthree.
  { intros a b d P Q R Ha Hb Hd <- <- <-.
    destruct (wellformed_list [a; b; d]
      [ConditionTypeSucceeded; ConditionTypeProgressing; ConditionTypeDegraded]) as [Hwf Hts].
    { apply (bool_decide_unpack _). by vm_compute. }
    { do 3 (constructor; [assumption|]). constructor. }
    unfold wanted_status. cbn. rewrite (proj1 Ha), (proj1 Hb), (proj1 Hd). cbn.
    split_and!; [done|done|..]; (split; [apply (inj Some)|by intros ->]). }
  cbn zeta. unfold backupConditions.
  do 4 (match goal with |- context [String.eqb (bst_Phase st) ?p] =>
    destruct (String.eqb_spec (bst_Phase st) p) as [Hp|?] end; [
    rewrite Hp; try destruct (bst_LastSuccessfulTime st);
    (apply Hthree; [cond_ok..|phase_iff|phase_iff|phase_iff])|]).
  apply Hthree; [cond_ok..|phase_iff|phase_iff|phase_iff].
Qed.

Close Scope Z_scope.
