(* ===== verification/UpgradeJob.v ===== *)
(** * The upgrade Job (internal/controller/odooupgrade_job.go)

    Naming, the odoo command line, node pinning and the hardened Job. *)
From S2P Require Export UpgradeScript Workload.

Open Scope Z_scope.

Definition upgradeJobSuffix : string := "-run".
Definition upgradeLabelKey : string := "odoo.operator.io/upgrade".
Definition upgradeContainerName : string := "upgrade".
Definition upgradeMaxNameLen : nat := 63.
Definition upgradeHashLen : nat := 8.
Definition upgradeFallbackName : string := "upgrade".
Definition envAdminUserPassword : string := "ODOO_ADMIN_USER_PASSWORD".
Definition upgradeDefaultTimeout : Z := 1800.
Definition upgradeTTLSeconds : Z := 86400.
Definition upgradeBackoffLimit : Z := 0.
Definition upgradeNodeHostLabel : string := "kubernetes.io/hostname".
Definition upgradeCapDropAll : string := "ALL".

(** [base[:keep]] is defined: [keep <= len(base)] because the full name is too long. The callers'
    [maxLen] leaves room for the suffix and the hash. *)
Definition upgradeBoundedName (base suffix : string) (maxLen : nat) : string :=
  let full := base +:+ suffix in
  if (len full <=? maxLen)%nat then full
  else
    let hash := hex_fixed upgradeHashLen (fnv32a base) "" in
    let keep := (maxLen - len suffix - 1 - len hash)%nat in
    let prefix := Trim (str_take keep base) "-." in
    let prefix := if String.eqb prefix "" then upgradeFallbackName else prefix in
    prefix +:+ "-" +:+ hash +:+ suffix.

Definition upgradeJobName (upgradeName : string) : string :=
  upgradeBoundedName upgradeName upgradeJobSuffix upgradeMaxNameLen.

Definition upgradeLabelValue (upgradeName : string) : string :=
  upgradeBoundedName upgradeName "" upgradeMaxNameLen.

Definition upgradeDatabase (up : OdooUpgrade) (inst : OdooInstance) : string :=
  if negb (String.eqb (us_Database (up_Spec up)) "") then us_Database (up_Spec up)
  else pg_Database (is_Postgres (in_Spec inst)).

Definition upgradeTimeout (up : OdooUpgrade) : Z :=
  match us_TimeoutSeconds (up_Spec up) with Some t => t | None => upgradeDefaultTimeout end.

Definition upgradeArgs (database : string) (modules installModules : list string) (withDemo : bool)
    : list string :=
  [upgradeFlagConfig; odooConfPath; upgradeFlagDB; database] ++
  (if (0 <? length modules)%nat then [upgradeFlagUpdate; Join modules ","] else []) ++
  (if (0 <? length installModules)%nat
   then [upgradeFlagInstall; Join installModules ","] ++
        (if negb withDemo then [upgradeFlagNoDemo] else [])
   else []) ++
  [upgradeFlagStop; upgradeFlagNoHTTP].

(** The container command and args. *)
Definition upgradeCommand (up : OdooUpgrade) (database : string) : list string * list string :=
  let args := upgradeArgs database (us_Modules (up_Spec up)) (us_InstallModules (up_Spec up))
                (us_WithDemo (up_Spec up)) in
  if String.eqb (us_AdminUserPasswordSecret (up_Spec up)) "" then ([], args)
  else ([upgradeShellPath; upgradeShellFlag], [upgradeInitScript database args]).

Definition upgradeEnv (spec : OdooInstanceSpec) : list EnvVar :=
  (if negb (String.eqb (pg_PasswordSecret (is_Postgres spec)) "")
   then (λ name, envFrom name (pg_PasswordSecret (is_Postgres spec)) secretKeyPassword None)
          <$> [envPGPassword; envDBPassword]
   else []) ++
  [envValue envPGSSLMode sslModeRequire].

Definition upgradeEnvFor (up : OdooUpgrade) (spec : OdooInstanceSpec) : list EnvVar :=
  upgradeEnv spec ++
  (if negb (String.eqb (us_AdminUserPasswordSecret (up_Spec up)) "")
   then [secretKeyEnv envAdminUserPassword (us_AdminUserPasswordSecret (up_Spec up))] else []).

Definition upgradeAccessMode (mode : string) : string :=
  if String.eqb mode "" then ReadWriteOnce else mode.

Definition upgradeNeedsNodePin (spec : OdooInstanceSpec) : bool :=
  negb (String.eqb (upgradeAccessMode (av_AccessMode (is_Addons spec))) ReadWriteMany) ||
  negb (String.eqb (upgradeAccessMode (dv_AccessMode (is_Data spec))) ReadWriteMany).

Definition upgradeImage (spec : OdooInstanceSpec) : string :=
  if String.eqb (is_Image spec) "" then defaultOdooImage else is_Image spec.

Definition upgradeLabels (upgradeName : string) : gmap string string :=
  list_to_map [(labelManagedBy, managedByOperator);
               (upgradeLabelKey, upgradeLabelValue upgradeName)].

Definition upgradeMounts : list VolumeMount :=
  [ readOnlyMount volumeConfig mountPathConfig; readOnlyMount volumeAddons addonsMountPath;
    mount volumeData mountPathData; mount volumeTmp mountPathTmp ].

Definition upgradeVolumes (instName : string) : list Volume :=
  [ {| vol_Name := volumeConfig; vol_Source := VConfigMap (configMapName instName) (Some 420) |};
    {| vol_Name := volumeAddons; vol_Source := VClaim (addonsPVCName instName) true |};
    {| vol_Name := volumeData; vol_Source := VClaim (dataPVCName instName) false |};
    {| vol_Name := volumeTmp; vol_Source := VEmptyDir "" None |} ].

Definition buildUpgradeJob `{KubeLib} (up : OdooUpgrade) (inst : OdooInstance)
    (database nodeName : string) : Job :=
  let spec := in_Spec inst in
  let labels := upgradeLabels (m_Name (up_Meta up)) in
  let '(command, args) := upgradeCommand up database in
  let podSpec :=
    {| ps_InitContainers := [];
       ps_Containers :=
         [ {| ct_Name := upgradeContainerName; ct_Image := upgradeImage spec; ct_Command := command;
              ct_Args := args; ct_Ports := []; ct_Env := upgradeEnvFor up spec;
              ct_Resources := odooResources spec; ct_VolumeMounts := upgradeMounts;
              ct_StartupProbe := None; ct_ReadinessProbe := None; ct_LivenessProbe := None;
              ct_SecurityContext :=
                Some {| sc_AllowPrivilegeEscalation := Some false;
                        sc_ReadOnlyRootFilesystem := Some true; sc_RunAsNonRoot := None;
                        sc_CapabilitiesDrop := [upgradeCapDropAll] |};
              ct_TerminationMessagePath := ""; ct_TerminationMessagePolicy := "" |} ];
       ps_Volumes := upgradeVolumes (m_Name (in_Meta inst));
       ps_RestartPolicy := RestartPolicyNever;
       ps_AutomountServiceAccountToken := Some false;
       ps_TerminationGracePeriodSeconds := None; ps_DNSPolicy := ""; ps_SchedulerName := "";
       ps_SecurityContext :=
         Some {| psc_RunAsNonRoot := Some true; psc_RunAsUser := Some odooUID;
                 psc_RunAsGroup := Some odooUID; psc_FSGroup := Some odooUID;
                 psc_SeccompProfile := SeccompProfileTypeRuntimeDefault |};
       ps_Affinity := None;
       ps_NodeSelector :=
         if negb (String.eqb nodeName "") && upgradeNeedsNodePin spec
         then {[upgradeNodeHostLabel := nodeName]} else ∅ |} in
  {| job_Meta := with_labels labels ∅ (newMeta (upgradeJobName (m_Name (up_Meta up))) (m_Namespace (up_Meta up)));
     job_Spec :=
       {| js_BackoffLimit := Some upgradeBackoffLimit;
          js_ActiveDeadlineSeconds := Some (upgradeTimeout up);
          js_TTLSecondsAfterFinished := Some upgradeTTLSeconds;
          js_Template := {| pt_Labels := labels; pt_Annotations := ∅; pt_Spec := podSpec |} |};
     job_Status := noJobStatus |}.

(** Bounded names. The name built from a base and a suffix never exceeds the limit (as long
    as the limit leaves room for the fallback word, the hash and the suffix), always ends in the
    suffix, and is the plain concatenation whenever that fits: so Job names and label values are
    accepted by the API server whatever the object is called. *)
Theorem upgradeBoundedName_spec base suffix maxLen :
  (len suffix + 16 ≤ maxLen)%nat →
  (len (upgradeBoundedName base suffix maxLen) ≤ maxLen)%nat ∧
  (∃ p, upgradeBoundedName base suffix maxLen = p +:+ suffix ∧ (p = base ∨ (8 < len p)%nat)) ∧
  ((len base + len suffix ≤ maxLen)%nat → upgradeBoundedName base suffix maxLen = base +:+ suffix).
Proof.
  change (upgradeBoundedName base suffix maxLen) with (bounded_name upgradeFallbackName base suffix maxLen).
  apply bounded_name_spec. by cbn.
Qed.

Lemma upgradeBoundedName_spec_witness :
  (len (upgradeBoundedName
     "a-very-long-instance-name-that-someone-chose-upg-0123abcd-and-more" "-run" 63) ≤ 63)%nat ∧
  upgradeJobName "shop-upg-0123abcd" = "shop-upg-0123abcd-run".
Proof.
  split; [|by vm_compute].
  apply (upgradeBoundedName_spec _ "-run" 63). cbn. lia.
Defined.

Close Scope Z_scope.
