(* ===== verification/UpgradeController.v ===== *)
(** * The upgrade controller (internal/controller/odooupgrade_controller.go)

    One pass of the OdooUpgrade reconciler as a program of API calls. A mutate closure is a
    function from the status to a program giving the new status, because some read the clock. *)
From S2P Require Export Effects KubeRef UpgradeQueue UpgradeJob.

Open Scope Z_scope.

Definition upgradeRequeuePending : Z := 10 * Second.
Definition upgradeRequeueRunning : Z := 5 * Second.
Definition upgradeJobGrace : Z := 30 * Second.
Definition upgradeLogTailLines : Z := 200.
Definition upgradeLogTailBytes : nat := 2000.
Definition upgradeLogReadLimit : N := 2 ^ 20.
Definition upgradeMsgWaitingInstance : string := "waiting for OdooInstance".
Definition upgradeMsgNoDatabase : string := "no database configured".
Definition upgradeMsgPodFailed : string := "upgrade pod failed".
Definition upgradeMsgLogHeader : string := nl +:+ "--- last log lines ---" +:+ nl.

Definition up_with_status (st : OdooUpgradeStatus) (u : OdooUpgrade) : OdooUpgrade :=
  {| up_Meta := up_Meta u; up_Spec := up_Spec u; up_Status := st |}.

(** Assignments to status fields. *)
Definition ust_set (phase msg : string) (s : OdooUpgradeStatus) : OdooUpgradeStatus :=
  {| ust_Phase := phase; ust_JobName := ust_JobName s; ust_Message := msg;
     ust_StartTime := ust_StartTime s; ust_CompletionTime := ust_CompletionTime s;
     ust_ObservedGeneration := ust_ObservedGeneration s; ust_Conditions := ust_Conditions s |}.
Definition ust_complete (t : option Time) (s : OdooUpgradeStatus) : OdooUpgradeStatus :=
  {| ust_Phase := ust_Phase s; ust_JobName := ust_JobName s; ust_Message := ust_Message s;
     ust_StartTime := ust_StartTime s; ust_CompletionTime := t;
     ust_ObservedGeneration := ust_ObservedGeneration s; ust_Conditions := ust_Conditions s |}.
Definition ust_start (job : string) (now : Time) (s : OdooUpgradeStatus) : OdooUpgradeStatus :=
  {| ust_Phase := ust_Phase s; ust_JobName := job; ust_Message := ust_Message s;
     ust_StartTime := match ust_StartTime s with None => Some now | t => t end;
     ust_CompletionTime := ust_CompletionTime s;
     ust_ObservedGeneration := ust_ObservedGeneration s; ust_Conditions := ust_Conditions s |}.
Definition ust_stamp (gen : Z) (conds : list Condition) (s : OdooUpgradeStatus) : OdooUpgradeStatus :=
  {| ust_Phase := ust_Phase s; ust_JobName := ust_JobName s; ust_Message := ust_Message s;
     ust_StartTime := ust_StartTime s; ust_CompletionTime := ust_CompletionTime s;
     ust_ObservedGeneration := gen; ust_Conditions := conds |}.

(** ** Judging a Job *)
Definition upgradePhaseTerminal (phase : string) : bool :=
  String.eqb phase UpgradePhaseSucceeded || String.eqb phase UpgradePhaseFailed.

Definition upgradeHasCondition (job : Job) (condType : string) : bool :=
  existsb (λ c, String.eqb (jc_Type c) condType && String.eqb (jc_Status c) ConditionTrue)
    (jst_Conditions (job_Status job)).

Definition upgradeJobSucceeded (job : Job) : bool :=
  (0 <? jst_Succeeded (job_Status job)) || upgradeHasCondition job JobComplete.

Definition upgradeNonEmpty (values : list string) : list string :=
  List.filter (λ v, negb (String.eqb v "")) values.

Definition job_condition_text (c : JobCondition) : string :=
  TrimSpace (Join (upgradeNonEmpty [jc_Reason c; jc_Message c]) ": ").

(** The reason of a failed Job, [None] for a Job that has not failed. *)
Definition upgradeJobFailure (job : Job) : option string :=
  match List.find (λ c, String.eqb (jc_Type c) JobFailed && String.eqb (jc_Status c) ConditionTrue)
          (jst_Conditions (job_Status job)) with
  | Some c => Some (job_condition_text c)
  | None => if 0 <? jst_Failed (job_Status job) then Some upgradeMsgPodFailed else None
  end.

(** ** The end of a log *)
Definition upgradeTail (s : string) (n : nat) : string :=
  if (len s <=? n)%nat then TrimSpace s
  else
    let cut := str_drop (len s - n) s in
    let cut := match IndexByte cut nl_byte with
               | Some i => if (i <? len cut - 1)%nat then str_drop (i + 1) cut else cut
               | None => cut
               end in
    TrimSpace (ToValidUTF8 cut).

Section Upgrade.
Context `{Unicode} `{KubeLib} `{RetryLib}.
Context (r : Reconciler).

Definition upgradeValidateSpec (up : OdooUpgrade) : res unit :=
  let spec := up_Spec up in
  let ns := ref_Namespace (us_InstanceRef spec) in
  if String.eqb (ref_Name (us_InstanceRef spec)) "" then
    Err (ErrorString "instanceRef.name is required")
  else if negb (String.eqb ns "") && negb (String.eqb ns (m_Namespace (up_Meta up))) then
    Err (ErrorString ("instanceRef.namespace " +:+ Quote ns +:+
      " must be empty or the upgrade's namespace " +:+ Quote (m_Namespace (up_Meta up))))
  else if bool_decide (upgradeAllModules ∈ us_Modules spec) && (1 <? length (us_Modules spec))%nat then
    Err (ErrorString ("modules: " +:+ Quote upgradeAllModules +:+ " must be the only entry when used"))
  else if negb (String.eqb (us_AdminUserPasswordSecret spec) "") &&
          (length (us_InstallModules spec) =? 0)%nat then
    Err (ErrorString "adminUserPasswordSecret requires installModules")
  else Ok tt.

(** One attempt of [upgradeWriteStatus]: the closure given to [RetryOnConflict]. *)
Definition upgradeWriteAttempt (key : NamespacedName) (target reason : string)
    (mutate : OdooUpgradeStatus → prog OdooUpgradeStatus) : prog (res unit) :=
  let? cur := get KUpgrade key in
  let before := up_Status cur in
  if upgradePhaseTerminal (ust_Phase before) then ok tt
  else if String.eqb target UpgradePhasePending && String.eqb (ust_Phase before) UpgradePhaseRunning
  then ok tt
  else
    let* st := mutate before in
    let* now := Now in
    let gen := m_Generation (up_Meta cur) in
    let after := ust_stamp gen (setConditions now (ust_Conditions st) gen
                                  (upgradeConditions st reason)) st in
    if SemanticDeepEqual before after then ok tt
    else
      let? cur := updateStatus KUpgrade (up_with_status after cur) in
      let* _ := emitEvents (rec_Recorder r) (up_Meta cur) (upgradeEvents before after) in
      ok tt.

Definition upgradeWriteStatus (key : NamespacedName) (target reason : string)
    (mutate : OdooUpgradeStatus → prog OdooUpgradeStatus) : prog (res unit) :=
  let* err := RetryOnConflict (upgradeWriteAttempt key target reason mutate) in
  Ret (IgnoreNotFound err).

Definition upgradeBackfillAttempt (key : NamespacedName) : prog (res unit) :=
  let? cur := get KUpgrade key in
  let st := up_Status cur in
  if String.eqb (ust_Phase st) "" || (0 <? length (ust_Conditions st))%nat then ok tt
  else
    let* now := Now in
    let conds := setConditions now (ust_Conditions st) (m_Generation (up_Meta cur))
                   (upgradeConditions st "") in
    let? _ := updateStatus KUpgrade (up_with_status
                (ust_stamp (ust_ObservedGeneration st) conds st) cur) in
    ok tt.

Definition upgradeBackfillConditions (key : NamespacedName) : prog (res unit) :=
  let* err := RetryOnConflict (upgradeBackfillAttempt key) in
  Ret (IgnoreNotFound err).

Definition upgradeSetPending (key : NamespacedName) (reason msg : string) : prog (res Result) :=
  with_result (requeue upgradeRequeuePending)
    (upgradeWriteStatus key UpgradePhasePending reason (λ s, Ret (ust_set UpgradePhasePending msg s))).

(** A failure without and with a completion time. *)
Definition upgradeFailSpec (key : NamespacedName) (msg : string) : prog (res Result) :=
  with_result noResult
    (upgradeWriteStatus key UpgradePhaseFailed ReasonInvalidSpec
       (λ s, Ret (ust_set UpgradePhaseFailed msg s))).
Definition upgradeFailJob (key : NamespacedName) (msg : string) : prog (res Result) :=
  with_result noResult
    (upgradeWriteStatus key UpgradePhaseFailed ReasonJobFailed
       (λ s, let* now := Now in Ret (ust_complete (Some now) (ust_set UpgradePhaseFailed msg s)))).

Definition upgradeOdooPodNode (inst : OdooInstance) : prog string :=
  let* pods := list_objects KPod (m_Namespace (in_Meta inst))
                 (selectorLabels (m_Name (in_Meta inst))) in
  Ret (match pods with Ok pods => running_node pods | Err _ => "" end).

Definition upgradeLogTail (up : OdooUpgrade) : prog string :=
  if negb (rec_Clientset r) then Ret ""
  else
    let* pods := list_objects KPod (m_Namespace (up_Meta up))
                   {[upgradeLabelKey := upgradeLabelValue (m_Name (up_Meta up))]} in
    match pods with
    | Err _ | Ok [] => Ret ""
    | Ok (p :: pods) =>
        let pod := newest_pod p (p :: pods) in
        let* data := call (OpPodLogs (m_Namespace (up_Meta up)) (m_Name (pod_Meta pod))
                             upgradeContainerName (Some upgradeLogTailLines)) in
        match data with
        | Err _ => Ret ""
        | Ok text => Ret (upgradeTail (LimitRead upgradeLogReadLimit text) upgradeLogTailBytes)
        end
    end.

(** [upgradeJobCompletion] *)
Definition upgradeJobCompletion (job : Job) : prog (option Time) :=
  match jst_CompletionTime (job_Status job) with
  | Some t => Ret (Some t)
  | None => let* now := Now in Ret (Some now)
  end.

Definition upgradeStart (up : OdooUpgrade) (inst : OdooInstance) : prog (res Result) :=
  let key := objectKey (up_Meta up) in
  let database := upgradeDatabase up inst in
  if String.eqb database "" then upgradeFailSpec key upgradeMsgNoDatabase
  else
    let* nodeName := if upgradeNeedsNodePin (in_Spec inst) then upgradeOdooPodNode inst else Ret "" in
    let job := buildUpgradeJob up inst database nodeName in
    match SetControllerReference (up_Meta up) (job_Meta job) with
    | Err e => fail e
    | Ok m =>
        let job := job_with_meta m job in
        let* created := create KJob job in
        match IgnoreAlreadyExists created with
        | Err e => fail (WrapError ("failed to create upgrade job: " +:+ error_text e) e)
        | Ok _ =>
            let* now := Now in
            with_result (requeue upgradeRequeueRunning)
              (upgradeWriteStatus key UpgradePhaseRunning ReasonRunning
                 (λ s, Ret (ust_start (m_Name (job_Meta job)) now
                              (ust_complete None (ust_set UpgradePhaseRunning "" s)))))
        end
    end.

Definition upgradeMonitor (up : OdooUpgrade) : prog (res Result) :=
  let key := objectKey (up_Meta up) in
  let st := up_Status up in
  let* got := get KJob {| nn_Namespace := m_Namespace (up_Meta up); nn_Name := ust_JobName st |} in
  match got with
  | Err e =>
      if IsNotFound e then
        let gone := upgradeFailJob key ("upgrade Job " +:+ ust_JobName st +:+ " no longer exists") in
        match ust_StartTime st with
        | Some start =>
            let* now := Now in
            if time_Sub now start <? upgradeJobGrace then ok (requeue upgradeRequeueRunning) else gone
        | None => gone
        end
      else fail e
  | Ok job =>
      if upgradeJobSucceeded job then
        let* completion := upgradeJobCompletion job in
        with_result noResult
          (upgradeWriteStatus key UpgradePhaseSucceeded ReasonComplete
             (λ s, Ret (ust_complete completion (ust_set UpgradePhaseSucceeded "" s))))
      else
        match upgradeJobFailure job with
        | Some reason =>
            let* tail := upgradeLogTail up in
            let msg := if negb (String.eqb tail "") then reason +:+ upgradeMsgLogHeader +:+ tail
                       else reason in
            upgradeFailJob key msg
        | None => ok (requeue upgradeRequeueRunning)
        end
  end.

(** The part of [Reconcile] after the phase switch. *)
Definition upgradeReconcilePending (key : NamespacedName) (up : OdooUpgrade) : prog (res Result) :=
  match upgradeValidateSpec up with
  | Err e => upgradeFailSpec key (error_text e)
  | Ok _ =>
      let* got := get KInstance {| nn_Namespace := m_Namespace (up_Meta up);
                                   nn_Name := ref_Name (us_InstanceRef (up_Spec up)) |} in
      match got with
      | Err e =>
          if IsNotFound e then upgradeSetPending key ReasonInstanceNotFound upgradeMsgWaitingInstance
          else fail e
      | Ok inst =>
          let? siblings := list_objects KUpgrade (m_Namespace (up_Meta up)) ∅ in
          let decision := upgradeDecideStart up siblings in
          if negb (uq_MayStart decision) then
            upgradeSetPending key ReasonPending
              ("waiting for upgrade " +:+ Quote (uq_BlockedBy decision) +:+
               " on the same instance to finish")
          else upgradeStart up inst
      end
  end.

(** The phase switch and what follows it. *)
Definition upgradeReconcilePhase (key : NamespacedName) (up : OdooUpgrade) : prog (res Result) :=
  let phase := ust_Phase (up_Status up) in
  if upgradePhaseTerminal phase then ok noResult
  else if String.eqb phase UpgradePhaseRunning && negb (String.eqb (ust_JobName (up_Status up)) "")
  then upgradeMonitor up
  else upgradeReconcilePending key up.

Definition upgradeReconcile (key : NamespacedName) : prog (res Result) :=
  let* got := get KUpgrade key in
  match got with
  | Err e => if IsNotFound e then ok noResult else fail e
  | Ok up =>
      let phase := ust_Phase (up_Status up) in
      let? _ :=
        if negb (String.eqb phase "") && (length (ust_Conditions (up_Status up)) =? 0)%nat
        then upgradeBackfillConditions key else ok tt in
      upgradeReconcilePhase key up
  end.
End Upgrade.

(** ** What one pass may do

    The condition on every call of [upgradeReconcile], with the history before it. *)
Section Safety.
Context `{Unicode} `{KubeLib} `{RetryLib}.
Context (r : Reconciler) (key : NamespacedName).

(** The Job of this pass was created, or one of that name existed. *)
Definition job_started (h : list event) : Prop :=
  ∃ (j : Job) (ans : res Job), happened h (OpCreate KJob j) ans ∧ IgnoreAlreadyExists ans = Ok tt.

(** A Job that succeeded was read. *)
Definition job_succeeded (h : list event) : Prop :=
  ∃ (k : NamespacedName) (j : Job), happened h (OpGet KJob k) (Ok j) ∧ upgradeJobSucceeded j = true.

(** Whether the phase [q] may replace the phase [p]. *)
Definition phase_reason (h : list event) (p q : string) : Prop :=
  upgradePhaseTerminal p = false ∧
  ((q = UpgradePhasePending ∧ p ≠ UpgradePhaseRunning) ∨
   (q = UpgradePhaseRunning ∧ job_started h) ∨
   (q = UpgradePhaseSucceeded ∧ job_succeeded h) ∨
   q = UpgradePhaseFailed).

(** A status write replaces the object of this pass as it was last read: only its status
    changes, and its resourceVersion is the one read. *)
Definition write_ok (h : list event) (o : OdooUpgrade) : Prop :=
  ∃ k (cur : OdooUpgrade) l h',
    h = l ++ did (OpGet KUpgrade k) (Ok cur) :: h' ∧ unread KUpgrade l ∧ read_key KUpgrade key h k ∧
    up_Meta o = up_Meta cur ∧ up_Spec o = up_Spec cur ∧
    (ust_Phase (up_Status o) = ust_Phase (up_Status cur) ∨
     phase_reason h (ust_Phase (up_Status cur)) (ust_Phase (up_Status o))).

(** A Job is created only for the upgrade that was read, when the queue lets it start. *)
Definition create_ok (h : list event) (j : Job) : Prop :=
  ∃ (up : OdooUpgrade) (inst : OdooInstance) (siblings : list OdooUpgrade) (node : string) m,
    listed KUpgrade key h up siblings ∧
    upgradePhaseTerminal (ust_Phase (up_Status up)) = false ∧
    is_Ok (upgradeValidateSpec up) = true ∧
    uq_MayStart (upgradeDecideStart up siblings) = true ∧
    upgradeDatabase up inst ≠ "" ∧
    SetControllerReference (up_Meta up)
      (job_Meta (buildUpgradeJob up inst (upgradeDatabase up inst) node)) = Ok m ∧
    j = job_with_meta m (buildUpgradeJob up inst (upgradeDatabase up inst) node).

Definition upgrade_may (h : list event) (o : op) : Prop :=
  match o with
  | OpStatusUpdate KUpgrade o => write_ok h o
  | OpCreate KJob j => create_ok h j
  | o => reads o
  end.

Definition target_reason (h : list event) (q : string) : Prop :=
  q = UpgradePhasePending ∨ (q = UpgradePhaseRunning ∧ job_started h) ∨
  (q = UpgradePhaseSucceeded ∧ job_succeeded h) ∨ q = UpgradePhaseFailed.

Lemma target_reason_mono h h' q : h ⊆ h' → target_reason h q → target_reason h' q.
Proof.
  unfold target_reason, job_started, job_succeeded. intros Hsub.
  assert (∀ o a, happened h o a → happened h' o a) by (intros; by eapply happened_mono).
  naive_solver.
Qed.

Lemma target_phase_reason h p q :
  target_reason h q → upgradePhaseTerminal p = false →
  (q = UpgradePhasePending → p ≠ UpgradePhaseRunning) → phase_reason h p q.
Proof. unfold target_reason, phase_reason. naive_solver. Qed.

Definition quiet (mutate : OdooUpgradeStatus → prog OdooUpgradeStatus) (target : string) : Prop :=
  ∀ h s, wp upgrade_may h (mutate s)
           (λ h' s', ust_Phase s' = target ∧ ∃ l, h' = l ++ h ∧ unread KUpgrade l).

Lemma quiet_ret f target : (∀ s, ust_Phase (f s) = target) → quiet (λ s, Ret (f s)) target.
Proof. intros Hf h s. cbn. split; [done|]. exists []. split; [done|apply unread_nil]. Qed.

Lemma quiet_now f target :
  (∀ now s, ust_Phase (f now s) = target) → quiet (λ s, let* now := Now in Ret (f now s)) target.
Proof.
  intros Hf h s. wp_calls. split; [done|]. intros now. cbn. split; [done|].
  exists [did OpNow now]. split; [done|]. apply unread_cons; [done|apply unread_nil].
Qed.

(** What a status write needs of the history before it. *)
Definition may_write (h : list event) (k : NamespacedName) (target : string) : Prop :=
  read_key KUpgrade key h k ∧ target_reason h target.

Lemma may_write_mono h h' k target : h ⊆ h' → may_write h k target → may_write h' k target.
Proof. intros ? []. split; eauto using read_key_mono, target_reason_mono. Qed.

Lemma wp_upgradeWriteAttempt h k target reason mutate :
  quiet mutate target → may_write h k target →
  wp upgrade_may h (upgradeWriteAttempt r k target reason mutate)
    (λ h' _, may_write h' k target).
Proof.
  intros Hq Ht. unfold upgradeWriteAttempt. wp_calls. split; [done|]. intros [cur|e]; [|].
  2: { cbn. eapply may_write_mono; [|exact Ht]. set_solver. }
  assert (may_write (did (OpGet KUpgrade k) (Ok cur) :: h) k target) as Ht'
    by (eapply may_write_mono; [|exact Ht]; set_solver).
  destruct (upgradePhaseTerminal _) eqn:Hterm; [done|].
  destruct (_ && _) eqn:Hpend; [done|].
  apply wp_bind. eapply wp_mono; [apply Hq|]. intros h' st [Hst (l & -> & Hl)].
  split; [done|]. intros now.
  assert (may_write (did OpNow now :: l ++ did (OpGet KUpgrade k) (Ok cur) :: h) k target) as Ht2
    by (eapply may_write_mono; [|exact Ht']; set_solver).
  destruct (SemanticDeepEqual _ _); [done|]. split.
  - exists k, cur, (did OpNow now :: l), h. split_and!; [done|by apply unread_cons|apply Ht2|done|done|].
    right. cbn [up_Status up_with_status ust_stamp ust_Phase]. rewrite Hst.
    apply target_phase_reason; [apply Ht2|done|]. intros -> Hrun. rewrite Hrun in Hpend. done.
  - intros [cur'|e].
    + apply wp_bind. apply wp_emitEvents; [done|]. intros h2 Hh2. cbn.
      eapply may_write_mono; [|exact Ht2]. intros x Hx. apply Hh2. by right.
    + cbn. eapply may_write_mono; [|exact Ht2]. set_solver.
Qed.

Context `{!RetryLaws}.

Abbreviation any := (λ _ _, True).

Lemma wp_upgradeWriteStatus {A} h k target reason mutate (f : res unit → prog A) :
  quiet mutate target → may_write h k target → (∀ x, ∃ y, f x = Ret y) →
  wp upgrade_may h (prog_bind (upgradeWriteStatus r k target reason mutate) f) any.
Proof.
  intros Hq Ht Hf. unfold upgradeWriteStatus. apply wp_bind, wp_bind.
  apply wp_retry with (I := λ h, may_write h k target); [|done].
  - intros h' Hh'. eapply wp_mono; [by apply wp_upgradeWriteAttempt|].
    intros h2 x Hx. split; [|done]. cbn. by destruct (Hf (IgnoreNotFound x)) as [y ->].
Qed.

Lemma wp_result {A} h k target reason mutate (res : A) :
  quiet mutate target → may_write h k target →
  wp upgrade_may h (with_result res (upgradeWriteStatus r k target reason mutate)) any.
Proof. intros. apply wp_upgradeWriteStatus; [done..|]. intros [|]; eexists; done. Qed.

Lemma wp_upgradeFailSpec h k msg : read_key KUpgrade key h k → wp upgrade_may h (upgradeFailSpec r k msg) any.
Proof. intros. apply wp_result; [by apply quiet_ret|]. unfold may_write, target_reason. auto. Qed.

Lemma wp_upgradeFailJob h k msg : read_key KUpgrade key h k → wp upgrade_may h (upgradeFailJob r k msg) any.
Proof.
  intros. apply wp_result; [|unfold may_write, target_reason; auto].
  by apply (quiet_now (λ now s, ust_complete (Some now) (ust_set UpgradePhaseFailed msg s))).
Qed.

Lemma wp_upgradeSetPending h k reason msg :
  read_key KUpgrade key h k → wp upgrade_may h (upgradeSetPending r k reason msg) any.
Proof. intros. apply wp_result; [by apply quiet_ret|]. unfold may_write, target_reason. auto. Qed.

Lemma wp_backfill h k (Q : list event → res unit → Prop) :
  read_key KUpgrade key h k → (∀ h' x, h ⊆ h' → Q h' x) → wp upgrade_may h (upgradeBackfillConditions k) Q.
Proof.
  intros Hk HQ. unfold upgradeBackfillConditions. apply wp_bind.
  apply wp_retry with (I := λ h', h ⊆ h'); [|done].
  intros h' Hh'. unfold upgradeBackfillAttempt. wp_calls. split; [done|]. intros [cur|e].
  2: { split; [apply HQ|]; set_solver. }
  destruct (_ || _); [split; [apply HQ|]; set_solver|]. split; [done|]. intros now. split.
  - exists k, cur, [did OpNow now], h'. split_and!; [done| | |done|done|by left].
    + apply unread_cons; [done|apply unread_nil].
    + eapply read_key_mono; [|exact Hk]. set_solver.
  - intros [|]; (split; [apply HQ|]; set_solver).
Qed.

Lemma upgrade_may_reads h o : reads o → upgrade_may h o.
Proof. by destruct o as [| | | | [] | | | | | |]. Qed.

Lemma reads_upgradeLogTail h up : wp (λ _ o, reads o) h (upgradeLogTail r up) any.
Proof.
  unfold upgradeLogTail. destruct (rec_Clientset r); [|done]. cbn. split; [done|].
  intros [[|p pods]|e]; [done| |done]. cbn. split; [done|]. by intros [|].
Qed.

Lemma reads_upgradeOdooPodNode h inst : wp (λ _ o, reads o) h (upgradeOdooPodNode inst) any.
Proof. done. Qed.

Lemma wp_upgradeMonitor h up :
  happened h (OpGet KUpgrade key) (Ok up) → wp upgrade_may h (upgradeMonitor r up) any.
Proof.
  intros Hget. assert (∀ h', h ⊆ h' → read_key KUpgrade key h' (objectKey (up_Meta up))) as Hk
    by (intros h' Hsub; right; exists up; eauto using happened_mono).
  unfold upgradeMonitor. wp_calls. split; [done|]. intros [job|e].
  - destruct (upgradeJobSucceeded job) eqn:Hs.
    + apply wp_reads_bind; [by apply upgrade_may_reads|by unfold upgradeJobCompletion; destruct (jst_CompletionTime _)|].
      intros h' completion Hsub. apply wp_result; [by apply quiet_ret|]. split; [apply Hk; set_solver|].
      right; right; left. split; [done|]. eexists _, job. split; [|done]. apply Hsub. by left.
    + destruct (upgradeJobFailure job); [|done].
      apply wp_reads_bind; [by apply upgrade_may_reads|apply reads_upgradeLogTail|].
      intros. apply wp_upgradeFailJob, Hk. set_solver.
  - destruct (IsNotFound e); [|done]. destruct (ust_StartTime _).
    + wp_calls. split; [done|]. intros now. destruct (_ <? _); [done|].
      apply wp_upgradeFailJob, Hk. set_solver.
    + apply wp_upgradeFailJob, Hk. set_solver.
Qed.

Lemma wp_upgradeStart h up inst (siblings : list OdooUpgrade) :
  listed KUpgrade key h up siblings →
  upgradePhaseTerminal (ust_Phase (up_Status up)) = false →
  is_Ok (upgradeValidateSpec up) = true →
  uq_MayStart (upgradeDecideStart up siblings) = true →
  wp upgrade_may h (upgradeStart r up inst) any.
Proof.
  intros Hlist Hterm Hval Hmay. unfold upgradeStart.
  assert (∀ h', h ⊆ h' → read_key KUpgrade key h' (objectKey (up_Meta up))) as Hk.
  { intros h' Hsub. right. exists up. split; [|done]. destruct Hlist as (l & h0 & -> & Hg).
    eapply happened_mono; [|exact Hg]. set_solver. }
  destruct (String.eqb_spec (upgradeDatabase up inst) "") as [|Hdb]; [by apply wp_upgradeFailSpec, Hk|].
  apply wp_reads_bind_app; [by apply upgrade_may_reads|by destruct (upgradeNeedsNodePin _)|]. intros l node.
  destruct (SetControllerReference _ _) as [m|e] eqn:Hm; [|done].
  wp_calls. split.
  { exists up, inst, siblings, node, m. split_and!; try done. by apply listed_mono. }
  intros created. destruct (IgnoreAlreadyExists created) as [[]|e] eqn:Hc; [|done].
  split; [done|]. intros now. apply wp_result; [by apply quiet_ret|].
  split; [apply Hk; set_solver|].
  right; left. split; [done|]. eexists _, created. split; [|exact Hc]. right. by left.
Qed.

Lemma wp_upgradeReconcilePhase h up :
  happened h (OpGet KUpgrade key) (Ok up) →
  wp upgrade_may h (upgradeReconcilePhase r key up) any.
Proof.
  intros Hget. assert (∀ h', read_key KUpgrade key h' key) as Hk by by left.
  unfold upgradeReconcilePhase. destruct (upgradePhaseTerminal _) eqn:Hterm; [done|].
  destruct (_ && _); [by apply wp_upgradeMonitor|]. unfold upgradeReconcilePending.
  destruct (upgradeValidateSpec up) eqn:Hval; [|by apply wp_upgradeFailSpec].
  wp_calls. split; [done|]. intros [inst|e].
  2: { destruct (IsNotFound e); [by apply wp_upgradeSetPending|done]. }
  split; [done|]. intros [siblings|e]; [|done].
  destruct (uq_MayStart _) eqn:Hmay; cbn [negb]; [|by apply wp_upgradeSetPending].
  apply wp_upgradeStart with siblings; [|done|by rewrite Hval|done].
  exists [], (did (OpGet KInstance {| nn_Namespace := m_Namespace (up_Meta up);
    nn_Name := ref_Name (us_InstanceRef (up_Spec up)) |}) (Ok inst) :: h).
  split; [done|by right].
Qed.

Lemma wp_upgradeReconcile : wp upgrade_may [] (upgradeReconcile r key) any.
Proof.
  unfold upgradeReconcile. wp_calls. split; [done|]. intros [up|e]; [|by destruct (IsNotFound e)].
  apply wp_bind. destruct (_ && _).
  - apply wp_backfill; [by left|]. intros h' [[]|e] Hsub; [|done].
    apply wp_upgradeReconcilePhase, Hsub. by left.
  - apply wp_upgradeReconcilePhase. by left.
Qed.
End Safety.

(** ** Properties *)
Definition upgrade_write (o : op) : option OdooUpgrade :=
  match o with OpStatusUpdate KUpgrade u => Some u | _ => None end.
Definition job_create (o : op) : option Job :=
  match o with OpCreate KJob j => Some j | _ => None end.
Definition other_write (o : op) : option op :=
  match o with
  | OpStatusUpdate KUpgrade _ | OpCreate KJob _ => None
  | OpGet _ _ | OpList _ _ _ | OpNow | OpPodLogs _ _ _ _ | OpEvent _ _ _ => None
  | o => Some o
  end.

(** C13: status writes of the upgrade controller are safe against a stale cache. Whatever the API
    server answers, every status a pass writes is of the upgrade of the pass and computed from it as last read
    in that pass, with its metadata (so the resourceVersion makes a concurrent change a conflict) and spec
    unchanged. The phase stays as read, or leaves a non-terminal phase: to Pending never from
    Running, to Running only after the Job was created (or found to exist) in this pass, to
    Succeeded only when a Job that succeeded was read in this pass. A finished upgrade never
    changes its phase. *)
Theorem upgradeReconcile_writes `{Unicode} `{KubeLib} `{RetryLib} `{!RetryLaws} r key tr a :
  execs (upgradeReconcile r key) [] tr a →
  Forall (λ c, write_ok key c.2 c.1) (calls_of upgrade_write tr).
Proof.
  intros He. apply (calls_allowed _ _ tr a upgrade_write (write_ok key) (wp_upgradeReconcile r key) He).
  intros h o b. by destruct o as [| | | | [] | | | | | |]; intros [= ->].
Qed.

(** C19: an upgrade Job is created only when the queue allows it. Whatever the API server answers,
    every Job a pass creates is the Job of the upgrade that was read (not finished, with a valid
    spec and a database), controlled by it, after the upgrades of its namespace, listed after
    that read, let it start. The pass changes nothing else on the server than Jobs it creates and upgrade statuses:
    it never deletes or updates a Job, an instance or another object. *)
Theorem upgradeReconcile_creates `{Unicode} `{KubeLib} `{RetryLib} `{!RetryLaws} r key tr a :
  execs (upgradeReconcile r key) [] tr a →
  Forall (λ c, create_ok key c.2 c.1) (calls_of job_create tr) ∧ calls_of other_write tr = [].
Proof.
  intros He. split.
  - apply (calls_allowed _ _ tr a job_create (create_ok key) (wp_upgradeReconcile r key) He).
    intros h o b. by destruct o as [| |[] | | | | | | | |]; intros [= ->].
  - assert (Forall (λ c, False) (calls_of other_write tr)) as Hnone.
    { apply (calls_allowed _ _ tr a other_write (λ _ _, False) (wp_upgradeReconcile r key) He).
      intros h o b. by destruct o as [| |[] | |[] | | | | | |]. }
    by destruct Hnone.
Qed.

(** *** Witnesses: a pass that starts the upgrade [a] of [queue_upgrades] *)
Definition queue_server (u : OdooUpgrade) (s : unit) (o : op) : answer o * unit :=
  (match o return answer o with
   | OpGet KUpgrade _ => Ok u
   | OpGet KInstance _ => Ok {| in_Meta := newMeta "shop" "shop"; in_Spec := conf_example;
       in_Status := {| ist_Ready := true; ist_Phase := "Running"; ist_AddonPaths := [];
         ist_ObservedGeneration := 1; ist_Conditions := []; ist_Message := "";
         ist_Initialized := true; ist_InitUpgrade := ""; ist_AppliedAddonsHash := "";
         ist_ActiveUpgrade := "" |} |}
   | OpList KUpgrade _ _ => Ok queue_upgrades
   | OpList KPod _ _ => Ok []
   | OpCreate KJob j => Ok j
   | OpStatusUpdate KUpgrade u => Ok u
   | o => refuse o
   end, s).

Definition queue_trace : list event :=
  (run (queue_server (queue_upgrade "a" "shop" "" 10)) tt
     (upgradeReconcile {| rec_Recorder := true; rec_Clientset := true |}
        {| nn_Namespace := "shop"; nn_Name := "a" |}) []).2.

Lemma upgradeReconcile_writes_witness :
  (λ c, ust_Phase (up_Status c.1)) <$> calls_of upgrade_write queue_trace = ["Running"] ∧
  Forall (λ c, write_ok {| nn_Namespace := "shop"; nn_Name := "a" |} c.2 c.1)
    (calls_of upgrade_write queue_trace).
Proof.
  split; [by vm_compute|]. unfold queue_trace.
  exact (upgradeReconcile_writes _ _ _ _ (run_execs (queue_server (queue_upgrade "a" "shop" "" 10)) tt _ [])).
Defined.

Lemma upgradeReconcile_creates_witness :
  (λ c, m_Name (job_Meta c.1)) <$> calls_of job_create queue_trace = ["a-run"] ∧
  Forall (λ c, create_ok {| nn_Namespace := "shop"; nn_Name := "a" |} c.2 c.1)
    (calls_of job_create queue_trace).
Proof.
  split; [by vm_compute|].
  unfold queue_trace.
  exact (proj1 (upgradeReconcile_creates _ _ _ _
    (run_execs (queue_server (queue_upgrade "a" "shop" "" 10)) tt _ []))).
Defined.

Close Scope Z_scope.
