(* ===== verification/UpgradeSystem.v ===== *)
(** * The upgrades of a namespace as one system

    The upgrade controller keeps the promises of [QueueController], so what [QueueSystem] proves
    holds of any number of upgrade passes with stale caches: one upgrade of an instance runs at a
    time unless the creation times are against the order of creation or a name is used again, and
    what users see is the lifecycle of the queue. [same_second_upgrades_overlap] shows that the
    first exception is real. *)
From S2P Require Export QueueSystem UpgradeController.

Section Upgrades.
Context `{Unicode} `{KubeLib} `{RetryLib} `{!RetryLaws} (r : Reconciler).

Lemma terminal_active (u : OdooUpgrade) : upgradePhaseTerminal (ust_Phase (up_Status u)) = false → active u.
Proof.
  unfold upgradePhaseTerminal, active, finished. cbn. unfold UpgradePhaseSucceeded, UpgradePhaseFailed.
  intros Ht [Hp|Hp]; by rewrite Hp in Ht.
Qed.

(** Running is written only after the Job was created or found, and a Job is created only after a
    start decision. *)
Lemma job_started_started key h :
  history_ok (upgrade_may key) h → job_started h → started KUpgrade key h.
Proof.
  intros Hh (j & ans & Hj & _). destruct (history_ok_happened _ _ _ _ Hh Hj) as (l & h' & -> & Hok).
  destruct Hok as (up & inst & siblings & node & m & Hlist & _ & _ & Hmay & _).
  exists up, siblings. split.
  - change (did (OpCreate KJob j) ans :: h') with ([did (OpCreate KJob j) ans] ++ h').
    by do 2 apply listed_mono.
  - by rewrite <-(proj1 (upgradeDecideStart_decides _ _)).
Qed.

Lemma upgrade_write_law key h (v : OdooUpgrade) :
  history_ok (upgrade_may key) h → upgrade_may key h (OpStatusUpdate KUpgrade v) →
  ∃ x (cur : OdooUpgrade), happened h (OpGet KUpgrade x) (Ok cur) ∧ read_key KUpgrade key h x ∧
    write_law KUpgrade key h v cur.
Proof.
  intros Hh (x & cur & l & h' & Heq & _ & Hkey & Hmeta & Hspec & Hphase). exists x, cur.
  split_and!; [rewrite Heq; unfold happened; set_solver|done|]. split; cbn.
  - done.
  - by rewrite Hspec.
  - intros _. destruct Hphase as [|[Hterm Hreason]]; [by left|right; split; [by apply terminal_active|left]].
    unfold UpgradePhasePending, UpgradePhaseRunning, UpgradePhaseSucceeded, UpgradePhaseFailed in Hreason.
    split_and!.
    + destruct_or? Hreason; destruct_and? Hreason; set_solver.
    + intros Hp. destruct_or? Hreason; destruct_and? Hreason; congruence.
    + intros Hp. apply job_started_started; [done|].
      destruct_or? Hreason; destruct_and? Hreason; congruence.
Qed.

#[export] Instance upgrade_controller : QueueController KUpgrade := {
  qc_pass := upgradeReconcile r;
  qc_may := upgrade_may;
  qc_allowed := λ key, wp_upgradeReconcile r key;
  qc_name := λ _, eq_refl;
  qc_created := λ _, eq_refl;
  qc_write := upgrade_write_law
}.

(** ** Properties *)

(** C5: one upgrade of an instance runs at a time, as far as the queue can tell. Let any number of
    passes of the upgrade controller run at once against one namespace, each with a cache that lags
    behind in its own way, with calls that fail, answers that are lost and passes cut short at any
    call, while users and other controllers create, change, delete and re-create upgrades. If two
    different upgrades of one instance both have the phase Running, then one of them has a name that
    an earlier upgrade had, or the one created later comes first in the order of the queue
    (creation time, then name), which happens when both are created in the same second or the
    server's clock is set back. The API server is assumed to give each stored version its own
    resourceVersion and each object its own uid, to refuse a status write to another version, and
    to keep the spec of an upgrade; nothing is assumed of the order of creation times. *)
Theorem upgrades_run_one_at_a_time ns s n1 n2 (a b : OdooUpgrade) :
  reachable KUpgrade ns s →
  replay (sys_log KUpgrade s) !! n1 = Some a → replay (sys_log KUpgrade s) !! n2 = Some b →
  m_Name (up_Meta a) ≠ m_Name (up_Meta b) →
  ref_Name (us_InstanceRef (up_Spec a)) = ref_Name (us_InstanceRef (up_Spec b)) →
  ust_Phase (up_Status a) = UpgradePhaseRunning → ust_Phase (up_Status b) = UpgradePhaseRunning →
  may_overlap (uid_of KUpgrade) (sys_log KUpgrade s) n1 n2.
Proof.
  intros Hr Ha Hb Hne Hg. exact (system_exclusive KUpgrade ns s n1 n2 a b Hr Ha Hb (conj Hne (conj Hg (conj eq_refl eq_refl)))).
Qed.

Lemma upgrades_never_switched log n : ¬ switched (A := OdooUpgrade) log n.
Proof. by intros (a & b & _ & _ & _ & _ & _ & [=]). Qed.


(** C12: upgrades come to rest. Along any run of the system in which no upgrade is created, at most
    three times as many steps change a phase as there were upgrades at the start, however long the
    run is: the controller cannot move upgrades between phases for ever. *)
Theorem upgrade_phases_settle ns f n :
  reachable KUpgrade ns (f 0) → (∀ i, step KUpgrade ns (f i) (f (S i))) →
  (∀ i, no_creation KUpgrade (f i) (f (S i))) →
  phase_changes KUpgrade f n ≤ 3 * size (phases_of KUpgrade (f 0)).
Proof.
  intros Hr Hstep Hno. pose proof (system_settles KUpgrade ns (λ _, eq_refl) f n Hr Hstep Hno).
  pose proof (work_bound (phases_of KUpgrade (f 0))). lia.
Qed.
End Upgrades.

(** *** Witnesses: upgrades of one instance, created in the same second

    [b] is created, then [a]. The cache of the pass for [b] has not seen [a], so [b] starts; the
    cache of the pass for [a] has not seen that start, and [a] comes before [b], so [a] starts. *)
Section Example.
#[local] Existing Instances unicode_ref kube_ref retry_ref.
Definition recorder : Reconciler := {| rec_Recorder := true; rec_Clientset := true |}.
#[local] Instance example_controller : QueueController KUpgrade := upgrade_controller recorder.

Definition versioned (rv : string) (u : OdooUpgrade) : OdooUpgrade :=
  let m := up_Meta u in
  {| up_Meta := {| m_Name := m_Name m; m_Namespace := m_Namespace m; m_UID := m_UID m;
       m_ResourceVersion := rv; m_Generation := m_Generation m;
       m_CreationTimestamp := m_CreationTimestamp m; m_DeletionTimestamp := m_DeletionTimestamp m;
       m_Labels := m_Labels m; m_Annotations := m_Annotations m;
       m_OwnerReferences := m_OwnerReferences m; m_Finalizers := m_Finalizers m |};
     up_Spec := up_Spec u; up_Status := up_Status u |}.

Definition upgrade_b : OdooUpgrade := queue_upgrade "b" "shop" "" 10.
Definition upgrade_a : OdooUpgrade := versioned "2" (queue_upgrade "a" "shop" "" 10).
Definition running_b : OdooUpgrade := versioned "3" (queue_upgrade "b" "shop" "Running" 10).
Definition running_a : OdooUpgrade := versioned "4" (queue_upgrade "a" "shop" "Running" 10).
Definition created_log : list (change (obj KUpgrade)) := [Put upgrade_b; Put upgrade_a].
Definition started_log : list (change (obj KUpgrade)) := created_log ++ [Put running_b].
Definition overlap_log : list (change (obj KUpgrade)) := started_log ++ [Put running_a].

Definition shop_key (n : string) : NamespacedName := {| nn_Namespace := "shop"; nn_Name := n |}.

(** The server of [queue_server], where reads of upgrades see the first [i] changes. *)
Definition example_server (i : nat) (x : op) : answer x :=
  match x return answer x with
  | OpGet KUpgrade key =>
      match snapshot started_log i !! nn_Name key with
      | Some u => Ok u | None => Err (StatusError CodeNotFound "not found") end
  | OpList KUpgrade _ _ => Ok (map_to_list (snapshot started_log i)).*2
  | x => (queue_server upgrade_a tt x).1
  end.

Lemma example_answered i x : answered KUpgrade "shop" started_log i (did x (example_server i x)).
Proof.
  apply server_answered.
  - intros key u Hu _. unfold example_server in Hu. destruct (snapshot _ _ !! _); [by injection Hu as ->|done].
  - intros all [= <-] o. rewrite list_elem_of_fmap. split.
    + intros ([n u] & -> & Hu). exists n. by apply elem_of_map_to_list.
    + intros [n Hn]. exists (n, o). split; [done|]. by apply elem_of_map_to_list.
Qed.

Lemma upgrade_write_inv x v : upgrade_write x = Some v → x = OpStatusUpdate KUpgrade v.
Proof. destruct x as [| | | |[]| | | | | |]; cbn; congruence. Qed.

Lemma created_reachable : reachable KUpgrade "shop" {| sys_log := created_log; sys_threads := [] |}.
Proof.
  eapply rtc_l; [apply (step_outside KUpgrade "shop" [] [] (Put upgrade_b))|].
  { apply outside_create; [done..|]. intros b Hb. by apply elem_of_nil in Hb. }
  eapply rtc_l; [apply (step_outside KUpgrade "shop" [Put upgrade_b] [] (Put upgrade_a))|done].
  apply outside_create; [done..|]. intros b Hb. by apply list_elem_of_singleton in Hb as [= ->].
Qed.

(** A pass for [n] whose cache shows the first [i] changes of [log] starts the upgrade. *)
Lemma example_start log i n old new :
  reachable KUpgrade "shop" {| sys_log := log; sys_threads := [] |} → i ≤ length log →
  (∀ x, answered KUpgrade "shop" log i (did x (example_server i x))) →
  (λ v, (m_Name (up_Meta v), m_ResourceVersion (up_Meta v), ust_Phase (up_Status v))) <$>
    first_write KUpgrade upgrade_write (example_server i) (qc_pass (k := KUpgrade) (shop_key n)) =
    Some (n, version_of KUpgrade old, ust_Phase (up_Status new)) →
  replay log !! n = Some old → same (uid_of KUpgrade) old new → m_Namespace (up_Meta new) = "shop" →
  (∀ b, Put b ∈ log → version_of KUpgrade b ≠ version_of KUpgrade new) →
  reachable KUpgrade "shop" {| sys_log := log ++ [Put new]; sys_threads := [] |}.
Proof.
  intros Hr Hi Hans Hrun Hold Hsame Hns Hver. apply fmap_Some in Hrun as (v & Hv & Hfields).
  injection Hfields as Hname Hv' Hphase.
  eapply (play_reachable KUpgrade "shop" upgrade_write (example_server i) upgrade_write_inv log i (shop_key n));
    [exact Hr|done|done|exact Hans|exact Hv|].
  split; [|by symmetry|done|done]. exists old. change (qi_name v) with (m_Name (up_Meta v)). rewrite <-Hname.
  split_and!; [done|done|done|]. symmetry. by apply Hsame.
Qed.

Lemma started_reachable : reachable KUpgrade "shop" {| sys_log := started_log; sys_threads := [] |}.
Proof.
  apply (example_start created_log 1 "b" upgrade_b running_b);
    [exact created_reachable|cbn; lia| |by vm_compute|by vm_compute|done|done|].
  - intros x. destruct (example_answered 1 x) as [Hg Hl].
    split; [intros y u ? ?|intros all ?]; [by apply Hg|by apply Hl].
  - intros b Hb. apply elem_of_cons in Hb as [[= ->]|[= ->]%list_elem_of_singleton]; done.
Qed.

Lemma overlap_reachable : reachable KUpgrade "shop" {| sys_log := overlap_log; sys_threads := [] |}.
Proof.
  apply (example_start started_log 2 "a" upgrade_a running_a);
    [exact started_reachable|cbn; lia|apply example_answered|by vm_compute|by vm_compute|done|done|].
  intros b Hb. apply list_elem_of_In in Hb. destruct Hb as [[= <-]|[[= <-]|[[= <-]|[]]]]; done.
Qed.

(** Two upgrades of one instance run at once: they were created in the same second, the one with
    the greater name first. The queue does not serialise them, although the documentation says that
    the upgrades of an instance run one at a time. *)
Lemma same_second_upgrades_overlap :
  reachable KUpgrade "shop" {| sys_log := overlap_log; sys_threads := [] |} ∧
  replay overlap_log !! "a" = Some running_a ∧ replay overlap_log !! "b" = Some running_b ∧
  rival running_a running_b ∧ running running_a ∧ running running_b ∧
  ¬ reused (uid_of KUpgrade) overlap_log "a" ∧ ¬ reused (uid_of KUpgrade) overlap_log "b".
Proof.
  split; [exact overlap_reachable|]. split_and!; try done; apply (bool_decide_eq_false_1 _ (Decision0 := reused_dec _ _ _)); by vm_compute.
Qed.

Lemma upgrades_run_one_at_a_time_witness :
  ust_Phase (up_Status running_a) = UpgradePhaseRunning ∧ ust_Phase (up_Status running_b) = UpgradePhaseRunning ∧
  may_overlap (uid_of KUpgrade) overlap_log "a" "b".
Proof.
  split; [done|]. split; [done|].
  apply (upgrades_run_one_at_a_time recorder "shop" _ "a" "b" running_a running_b overlap_reachable); by vm_compute.
Defined.


(** A run that removes the upgrades one after the other. *)
Definition removing (i : nat) : system KUpgrade :=
  {| sys_log := created_log ++ replicate i (Remove "b"); sys_threads := [] |}.

Lemma upgrade_phases_settle_witness : phase_changes KUpgrade removing 4 ≤ 6.
Proof.
  change 6 with (3 * size (phases_of KUpgrade (removing 0))).
  apply (upgrade_phases_settle recorder "shop").
  - unfold removing. cbn [replicate]. rewrite app_nil_r. exact created_reachable.
  - intros i. unfold removing. rewrite replicate_S_end, app_assoc. by apply step_outside.
  - intros i n. unfold removing, phases_of. cbn [sys_log].
    rewrite replicate_S_end, app_assoc, replay_snoc. cbn [apply_change].
    rewrite omap_delete, lookup_delete_None. auto.
Defined.
End Example.
