(* ===== verification/UpgradeProgress.v ===== *)
(** * Every upgrade of an instance gets finished

    [UpgradeSystem] says what the queue promises about upgrades that run at once; here it also gets
    to the end of the queue. The passes of [upgradeReconcile] on a [Cluster] make the turns that
    [QueueWork] asks for; the upgrades of an instance that does not exist wait for it. *)
From S2P Require Export QueueWork UpgradeController.

Definition upgrades (w : cluster) : gmap string OdooUpgrade := objects w KUpgrade.

(** An upgrade the controller accepts: its spec is valid, and its instance gives it a database. *)
Definition accepted `{Unicode} `{KubeLib} (w : cluster) (u : OdooUpgrade) : Prop :=
  is_Ok (upgradeValidateSpec u) = true ∧
  ∃ inst, objects w KInstance !! ref_Name (us_InstanceRef (up_Spec u)) = Some inst ∧ upgradeDatabase u inst ≠ "".

(** How a Job ends, as the controller sees it. *)
Definition job_ended (j : Job) : Prop := upgradeJobSucceeded j = true ∨ is_Some (upgradeJobFailure j).
Definition job_fine (j : Job) : Prop := upgradeJobSucceeded j = true ∨ upgradeJobFailure j = None.

Lemma accepted_same `{Unicode} `{KubeLib} w w' u u' :
  objects w' KInstance = objects w KInstance → up_Meta u' = up_Meta u → up_Spec u' = up_Spec u →
  accepted w u → accepted w' u'.
Proof. unfold accepted, upgradeValidateSpec, upgradeDatabase. intros -> Hm Hs. by rewrite Hm, Hs. Qed.

#[export] Program Instance upgrade_queue `{Unicode} `{KubeLib} : JobQueue KUpgrade := {
  jq_job u := ust_JobName (up_Status u);
  jq_ended := job_ended;
  jq_fine := job_fine;
  jq_accepted := accepted;
  jq_crons _ := True
}.
Next Obligation. set_solver. Qed.
Next Obligation. by intros ?? a b <-. Qed.
Next Obligation. intros ?? a b Hs. unfold kept. by rewrite <-Hs. Qed.
Next Obligation. intros ?? w w' a b Hi Hs. by apply accepted_same; [done|rewrite <-Hs..]. Qed.

Section Progress.
Context `{Unicode} `{KubeLib} `{RetryLib} `{!OwnerLaws} `{!ErrorLaws} `{!EqualityLaws} `{!RetryLaws}.
(** The logs of the pods, and how a Job ends. *)
Context (r : Reconciler) (ns : string) (logs : string) (finish : Job → Job).

Abbreviation effect := (effect (api logs)).
Definition upgrade_key (n : string) : NamespacedName := {| nn_Namespace := ns; nn_Name := n |}.

Definition pass (n : string) (w : cluster) : cluster := (effect w (upgradeReconcile r (upgrade_key n))).2.

(** Between two rounds every Job ends and time passes. *)
Definition rest : cluster → cluster := rest_for finish upgradeRequeueRunning.

(** The upgrades of a namespace in any mix of phases, the running ones with their Jobs. *)
Definition upgrades_ok : cluster → Prop := items_ok KUpgrade ns.
Abbreviation jobs_fine := (jobs_fine KUpgrade).
Abbreviation turned := (turned KUpgrade).

Lemma get_upgrade {B} w x (f : res OdooUpgrade → prog B) :
  effect w (prog_bind (get KUpgrade x) f) = effect w (f (found (upgrades w !! nn_Name x))).
Proof. exact (effect_get logs w KUpgrade x f). Qed.

(** ** Status writes *)
Lemma effect_write w n u key target reason mutate st :
  upgrades w !! n = Some u → m_Name (up_Meta u) = n → nn_Name key = n →
  upgradePhaseTerminal (ust_Phase (up_Status u)) = false →
  (target = UpgradePhasePending → ust_Phase (up_Status u) ≠ UpgradePhaseRunning) →
  effect w (mutate (up_Status u)) = (st, w) →
  ∃ conds w', effect w (upgradeWriteStatus r key target reason mutate) = (Ok tt, w') ∧
    writes KUpgrade n (up_with_status (ust_stamp (m_Generation (up_Meta u)) conds st) u) w w'.
Proof.
  intros Hu Hn Hk Ht Hp Hm. unfold upgradeWriteStatus.
  assert (∃ conds w', effect w (upgradeWriteAttempt r key target reason mutate) = (Ok tt, w') ∧
    writes KUpgrade n (up_with_status (ust_stamp (m_Generation (up_Meta u)) conds st) u) w w') as (conds & w' & Hw & ?).
  2: { exists conds, w'. by rewrite effect_bind, (effect_retry _ _ _ _ _ Hw). }
  unfold upgradeWriteAttempt, try_bind. rewrite get_upgrade, Hk, Hu. cbn [found].
  rewrite Ht.
  assert (String.eqb target UpgradePhasePending && String.eqb (ust_Phase (up_Status u)) UpgradePhaseRunning = false) as ->.
  { apply andb_false_iff. destruct (String.eqb_spec target UpgradePhasePending); [right|by left].
    apply String.eqb_neq. auto. }
  rewrite effect_bind, Hm. cbn [fst snd]. rewrite effect_now.
  match goal with |- context [ust_stamp _ ?cs _] => exists cs end. rewrite deep_equal. case_bool_decide as Heq.
  - exists w. split; [done|]. apply writes_same. rewrite <-Heq. etrans; [exact Hu|]. by destruct u.
  - erewrite effect_updateStatus by (cbn; rewrite Hn; exact Hu). rewrite effect_bind, effect_events.
    eexists. split; [done|]. cbn [obj_meta up_with_status up_Meta]. rewrite Hn. apply writes_put.
Qed.

(** ** One pass on an upgrade

    The pass read [up]; meanwhile the upgrade may have got its conditions. *)
Definition stamped (up : OdooUpgrade) (g : Z) (conds : list Condition) : OdooUpgrade :=
  up_with_status (ust_stamp g conds (up_Status up)) up.

Section Turn.
Context (w : cluster) (n : string) (up : OdooUpgrade) (g : Z) (conds : list Condition).
Abbreviation u0 := (stamped up g conds).
Context (Hok : upgrades_ok w) (Hu : upgrades w !! n = Some u0).

Lemma u0_alike : alike KUpgrade up u0.
Proof. by destruct up as [? ? []]. Qed.

Lemma name_up : m_Name (up_Meta up) = n.
Proof. apply (io_name _ _ _ _ _ (Hok n u0 Hu)). Qed.
Lemma key_up : objectKey (up_Meta up) = upgrade_key n.
Proof. unfold objectKey, upgrade_key. by rewrite name_up, <-(io_namespace _ _ _ _ _ (Hok n u0 Hu)). Qed.

Lemma turn_status w1 result target reason mutate st :
  frame [KJob] w w1 → jobs w ⊆ jobs w1 → (jobs_fine w → jobs_fine w1) → active up →
  effect w1 (mutate (up_Status u0)) = (st, w1) → ust_Phase st = target →
  bool_decide (target ∈ ["Pending"; "Running"; "Succeeded"; "Failed"]) = true →
  (target = "Pending" → waiting up ∧
     (live w (qi_group up) → may_start (decide_start up (listing KUpgrade w)) = false)) →
  (target = "Running" → live w (qi_group up) ∧ waiting up ∧ ust_JobName st ≠ "" ∧ is_Some (jobs w1 !! ust_JobName st)) →
  (accepted w up → jobs_fine w → target ≠ "Failed") →
  ∃ u, turned w n up (effect w1 (with_result (A := Result) result
                (upgradeWriteStatus r (upgrade_key n) target reason mutate))).2 u.
Proof.
  intros Hw1 Hjobs Hfine Hact Hm <- Hp%bool_decide_eq_true Hpend Hrun Hgood.
  destruct (effect_write w1 n u0 (upgrade_key n) (ust_Phase st) reason mutate st) as (conds' & w2 & He & Hwr); try done.
  - etrans; [|exact Hu]. unfold upgrades. f_equal. exact (frame_at _ _ _ KUpgrade Hw1 eq_refl).
  - exact name_up.
  - cbn [stamped up_Status up_with_status ust_stamp ust_Phase]. unfold upgradePhaseTerminal, active, finished in *.
    cbn in Hact. apply orb_false_iff. split; apply String.eqb_neq; tauto.
  - intros E. destruct (Hpend E) as [[Hw|Hw] _]; intros E'; cbn in Hw, E'; by rewrite Hw in E'.
  - eexists. unfold with_result. erewrite effect_try by exact He.
    by eapply (turned_write KUpgrade ns w n up u0 Hok Hu u0_alike w1); [..|exact Hwr].
Qed.

Lemma turn_fail_spec msg :
  active up → (accepted w up → False) →
  ∃ u, turned w n up (effect w (upgradeFailSpec r (upgrade_key n) msg)).2 u.
Proof. intros Hact Hno. by eapply turn_status. Qed.

Lemma turn_fail_job msg :
  active up → (jobs_fine w → False) →
  ∃ u, turned w n up (effect w (upgradeFailJob r (upgrade_key n) msg)).2 u.
Proof. intros Hact Hno. by eapply turn_status. Qed.

Lemma turn_pending reason msg :
  waiting up → (live w (qi_group up) → may_start (decide_start up (listing KUpgrade w)) = false) →
  ∃ u, turned w n up (effect w (upgradeSetPending r (upgrade_key n) reason msg)).2 u.
Proof. intros Hw Hno. eapply turn_status; try done. by apply waiting_active. Qed.

(** Reading a log and finding a node leave the cluster as it is. *)
Lemma effect_logTail : (effect w (upgradeLogTail r up)).2 = w.
Proof.
  apply effect_reading. unfold upgradeLogTail. destruct (rec_Clientset r); cbn; [|done]. split; [done|].
  intros [[]|]; try done. cbn. split; [done|]. by intros [].
Qed.
Lemma effect_node inst :
  (effect w (if upgradeNeedsNodePin (in_Spec inst) then upgradeOdooPodNode inst else Ret "")).2 = w.
Proof. apply effect_reading. by destruct (upgradeNeedsNodePin _). Qed.

Lemma turn_monitor : running up → ∃ u, turned w n up (effect w (upgradeMonitor r up)).2 u.
Proof.
  intros Hr. destruct (job_a KUpgrade ns w n up u0 Hok Hu u0_alike eq_refl Hr) as [_ [j Hjob]]. cbn [jq_job upgrade_queue] in Hjob.
  unfold upgradeMonitor. rewrite key_up, (get_job logs). cbn [nn_Name]. rewrite Hjob. cbn [found].
  destruct (upgradeJobSucceeded j) eqn:Hs.
  - rewrite effect_bind. assert ((effect w (upgradeJobCompletion j)).2 = w) as ->
      by (unfold upgradeJobCompletion; by destruct (jst_CompletionTime _)).
    eapply turn_status; try done. by apply running_active.
  - destruct (upgradeJobFailure j) as [why|] eqn:Hf.
    + rewrite effect_bind, effect_logTail. apply turn_fail_job; [by apply running_active|].
      intros Hfine. destruct (Hfine _ j Hjob); congruence.
    + exists u0. apply (turned_none KUpgrade ns w n up u0 Hok Hu u0_alike); try done.
      * intros _ _ Hready. destruct (ready_a KUpgrade w n up u0 Hu u0_alike j Hready eq_refl Hr Hjob) as [|[? ?]]; congruence.
      * intros _ _ Hw _. exact (running_not_waiting up Hr Hw).
Qed.

Lemma job_name_nonempty name : upgradeJobName name ≠ "".
Proof.
  unfold upgradeJobName.
  destruct (bounded_name_spec upgradeFallbackName name upgradeJobSuffix upgradeMaxNameLen)
    as (_ & (p & Hp & _) & _); [by vm_compute; lia|by vm_compute; lia|].
  change (upgradeBoundedName ?b ?s ?l) with (bounded_name upgradeFallbackName b s l).
  rewrite Hp. by destruct p.
Qed.

Lemma turn_start inst :
  waiting up → instance_of KUpgrade w up = Some inst → ∃ u, turned w n up (effect w (upgradeStart r up inst)).2 u.
Proof.
  intros Hw Hinst. pose proof (waiting_active up Hw) as Hact. unfold upgradeStart. rewrite key_up.
  destruct (String.eqb_spec (upgradeDatabase up inst) "") as [Hdb|_].
  { apply turn_fail_spec; [done|]. intros (_ & i & Hi & Hacc). change (instance_of KUpgrade w up = Some i) in Hi. congruence. }
  rewrite effect_bind, effect_node. set (node := fst _). set (job := buildUpgradeJob _ _ _ _).
  assert (m_OwnerReferences (job_Meta job) = [] ∧ m_Name (job_Meta job) = upgradeJobName (m_Name (up_Meta up)) ∧
    m_Namespace (job_Meta job) = m_Namespace (up_Meta up) ∧ job_Status job = noJobStatus) as (Hnew & Hjn & Hns & Hst) by (unfold job, buildUpgradeJob; by destruct (upgradeCommand _ _)).
  pose proof (set_controller_new (up_Meta up) (job_Meta job) Hns Hnew) as Hset.
  destruct (SetControllerReference (up_Meta up) (job_Meta job)) as [m|] eqn:Hm; [|done].
  destruct (set_controller_ref _ _ _ Hm) as (_ & Hmeta & _).
  assert (m_Name m = upgradeJobName (m_Name (up_Meta up))) as Hname by by rewrite Hmeta, <-Hjn.
  destruct (effect_create_job KUpgrade logs w (job_with_meta m job)) as (Hcr & Hframe & Hjobs & Hex & Hfine).
  { right. unfold upgradeJobFailure. cbn [job_with_meta job_Status]. by rewrite Hst. }
  rewrite effect_bind, Hcr. set (w1 := (effect w _).2) in *. rewrite effect_now.
  eapply (turn_status w1); try done. intros _. split_and!; [by eexists|done| |exact Hex].
  cbn. rewrite Hname. apply job_name_nonempty.
Qed.

Lemma turn_waiting : waiting up → ∃ u, turned w n up (effect w (upgradeReconcilePending r (upgrade_key n) up)).2 u.
Proof.
  intros Hw. unfold upgradeReconcilePending.
  destruct (upgradeValidateSpec up) eqn:Hval.
  2: { apply turn_fail_spec; [by apply waiting_active|]. intros [Hacc _]. by rewrite Hval in Hacc. }
  rewrite effect_get. cbn [nn_Name].
  change (objects w KInstance !! _) with (instance_of KUpgrade w up).
  destruct (instance_of KUpgrade w up) as [inst|] eqn:Hinst; cbn [found].
  2: { rewrite IsNotFound_spec, bool_decide_true by done. apply turn_pending; [done|].
       intros [i Hi]. change (instance_of KUpgrade w up = Some i) in Hi. congruence. }
  unfold try_bind. rewrite effect_list, labelled_all. cbn zeta.
  rewrite (proj1 (upgradeDecideStart_decides up (listing KUpgrade w))).
  destruct (may_start _) eqn:Hmay; [by apply turn_start|by apply turn_pending].
Qed.

Lemma turn_phase : ∃ u, turned w n up (effect w (upgradeReconcilePhase r (upgrade_key n) up)).2 u.
Proof.
  pose proof (typed_a KUpgrade ns w n up u0 Hok Hu u0_alike eq_refl) as Ht.
  unfold upgradeReconcilePhase, upgradePhaseTerminal.
  unfold finished, running, waiting in Ht. cbn in Ht.
  assert (waiting up → ∃ u, turned w n up (effect w (upgradeReconcilePending r (upgrade_key n) up)).2 u) as Hwait
    by exact turn_waiting.
  assert (finished up → ∃ u, turned w n up w u) as Hfin.
  { intros Hf. exists u0. destruct (finished_idle up Hf) as [Hr Hw].
    by apply (turned_none KUpgrade ns w n up u0 Hok Hu u0_alike); [..|intros _ ? _; apply Hr|intros _ _ ? _; apply Hw]. }
  destruct Ht as [[E|E]|[E|[E|E]]]; rewrite E; cbn [String.eqb orb andb negb Ascii.eqb Bool.eqb].
  - apply Hfin. by left.
  - apply Hfin. by right.
  - destruct (job_a KUpgrade ns w n up u0 Hok Hu u0_alike eq_refl E) as [Hne _]. cbn in Hne. apply String.eqb_neq in Hne. rewrite Hne. by apply turn_monitor.
  - apply Hwait. by left.
  - apply Hwait. by right.
Qed.
End Turn.

(** ** A whole pass *)
Lemma effect_backfill w n u :
  upgrades w !! n = Some u → m_Name (up_Meta u) = n →
  ∃ g conds w', effect w (upgradeBackfillConditions (upgrade_key n)) = (Ok tt, w') ∧
    writes KUpgrade n (stamped u g conds) w w'.
Proof.
  intros Hu Hn. unfold upgradeBackfillConditions.
  assert (∃ g conds w', effect w (upgradeBackfillAttempt (upgrade_key n)) = (Ok tt, w') ∧
    writes KUpgrade n (stamped u g conds) w w') as (g & conds & w' & Hw & ?).
  2: { exists g, conds, w'. by rewrite effect_bind, (effect_retry _ _ _ _ _ Hw). }
  unfold upgradeBackfillAttempt, try_bind. rewrite get_upgrade. cbn [upgrade_key nn_Name].
  rewrite Hu. cbn [found]. destruct (_ || _).
  - exists (ust_ObservedGeneration (up_Status u)), (ust_Conditions (up_Status u)), w. split; [done|].
    apply writes_same. etrans; [exact Hu|]. by destruct u as [? ? []].
  - rewrite effect_now. erewrite effect_updateStatus by (cbn; rewrite Hn; exact Hu).
    eexists _, _, _. split; [done|]. cbn [obj_meta up_with_status up_Meta]. rewrite Hn. apply writes_put.
Qed.

Lemma pass_turned w n (u : OdooUpgrade) :
  upgrades_ok w → upgrades w !! n = Some u → ∃ u', turned w n u (pass n w) u'.
Proof.
  intros Hok Hu. unfold pass, upgradeReconcile. rewrite get_upgrade. change (nn_Name (upgrade_key n)) with n.
  rewrite Hu. cbn [found]. unfold try_bind. cbn zeta. rewrite effect_bind.
  assert (∀ g conds, alike KUpgrade u (stamped u g conds)) as Halike by (intros g conds; by destruct u as [? ? []]).
  destruct (_ && _).
  - destruct (effect_backfill w n u Hu) as (g & conds & w1 & Hw & Hwr); [by apply (Hok n u)|].
    rewrite Hw. cbn [fst snd]. pose proof (before_ok _ _ _ _ _ _ _ Hu (Halike g conds) Hwr Hok) as Hok1.
    destruct (turn_phase w1 n u g conds Hok1) as [u' Ht].
    { etrans; [exact (f_equal (lookup n) (proj1 Hwr))|]. apply lookup_insert_eq. }
    exists u'. by eapply turned_before.
  - assert (stamped u (ust_ObservedGeneration (up_Status u)) (ust_Conditions (up_Status u)) = u) as Hs
      by by destruct u as [? ? []].
    apply (turn_phase w n u (ust_ObservedGeneration (up_Status u)) (ust_Conditions (up_Status u)) Hok). by rewrite Hs.
Qed.

Lemma pass_none w n : upgrades w !! n = None → pass n w = w.
Proof.
  intros Hu. unfold pass, upgradeReconcile. rewrite get_upgrade. change (nn_Name (upgrade_key n)) with n.
  rewrite Hu. cbn [found]. by rewrite IsNotFound_spec.
Qed.

Lemma rest_upgrades w : upgrades (rest w) = upgrades w.
Proof. exact (rest_queued KUpgrade finish upgradeRequeueRunning w). Qed.

(** ** Rounds of passes *)
Context (Hfinish : ∀ j, job_ended (finish j)).

Lemma rounds_settle names w n :
  upgrades_ok w → (∀ m, is_Some (upgrades w !! m) → m ∈ names) → 3 * size (upgrades w) ≤ n →
  settled upgrades live (rounds pass rest names n w).
Proof.
  intros Hok Hnames Hn.
  apply (work_settles KUpgrade ns pass finish upgradeRequeueRunning pass_turned pass_none Hfinish); [done| |done].
  intros m u Hu _. apply Hnames. by exists u.
Qed.

Lemma rounds_invariant (P : cluster → Prop) names w n :
  (∀ m w, upgrades_ok w → P w → P (pass m w)) → (∀ w, upgrades_ok w → P w → P (rest w)) →
  upgrades_ok w → P w → upgrades_ok (rounds pass rest names n w) ∧ P (rounds pass rest names n w).
Proof. apply (work_invariant KUpgrade ns pass finish upgradeRequeueRunning pass_turned pass_none Hfinish). Qed.

Lemma rounds_on_course m names w n :
  (∀ j, job_fine (finish j)) → upgrades_ok w →
  on_course KUpgrade m w → on_course KUpgrade m (rounds pass rest names n w).
Proof. apply (work_stays_on_course KUpgrade ns pass finish upgradeRequeueRunning pass_turned pass_none Hfinish). Qed.

(** ** Properties *)

(** C8: every upgrade of an instance that exists gets finished. Take any upgrades of a namespace in
    any mix of phases, the running ones with their Jobs, on an API server that accepts the calls, and
    let every Job end, well or badly, between two rounds of passes. Whatever the upgrades ask for
    (invalid specs, instances that do not exist and Jobs left by others included) and in whatever
    order the passes of a round run, as long as every upgrade gets one, after three rounds per upgrade
    every upgrade whose OdooInstance exists has the phase Succeeded or Failed, and none is left
    Running: the queue loses none, a failed upgrade does not block those behind it, and those that
    wait for an instance block no other instance. When moreover no Job fails, every upgrade with a valid spec, an instance and a
    database that had not failed before has succeeded. *)
Theorem upgrades_get_finished names w n :
  upgrades_ok w → (∀ m, is_Some (upgrades w !! m) → m ∈ names) → 3 * size (upgrades w) ≤ n →
  let w' := rounds pass rest names n w in
  (∀ m u, upgrades w' !! m = Some u →
     is_Some (objects w KInstance !! ref_Name (us_InstanceRef (up_Spec u))) ∨
       ust_Phase (up_Status u) = UpgradePhaseRunning →
     ust_Phase (up_Status u) = UpgradePhaseSucceeded ∨ ust_Phase (up_Status u) = UpgradePhaseFailed) ∧
  (jobs_fine w → (∀ j, job_fine (finish j)) → ∀ m u, upgrades w !! m = Some u → accepted w u →
     ust_Phase (up_Status u) ≠ UpgradePhaseFailed →
     ∃ u', upgrades w' !! m = Some u' ∧ ust_Phase (up_Status u') = UpgradePhaseSucceeded).
Proof.
  intros Hok Hnames Hn w'.
  assert (settled upgrades live w') as Hs by by apply rounds_settle.
  assert (objects w' KInstance = objects w KInstance) as Hi.
  { by apply (work_instances KUpgrade ns pass finish upgradeRequeueRunning pass_turned pass_none Hfinish). }
  split; [intros m u Hu Hl; apply (Hs m u Hu eq_refl); unfold live; by rewrite Hi|]. intros Hfine Hend m u Hu Hacc Hp.
  destruct (rounds_on_course m names w n Hend Hok) as (_ & u' & Hu' & Hacc' & Hp'); [split; [done|by exists u]|].
  exists u'. split; [done|]. destruct Hacc' as (_ & inst & Hinst & _).
  by destruct (Hs m u' Hu' eq_refl (or_introl (mk_is_Some _ _ Hinst))).
Qed.
End Progress.

(** *** Witness: four upgrades, two of one instance and one of an instance that does not exist; the
    Job of the first fails *)
Section Example.
#[local] Existing Instances unicode_ref kube_ref retry_ref.

Definition example_instance (name : string) : OdooInstance :=
  {| in_Meta := newMeta name "shop"; in_Spec := conf_example;
     in_Status := {| ist_Ready := true; ist_Phase := "Running"; ist_AddonPaths := [];
       ist_ObservedGeneration := 1; ist_Conditions := []; ist_Message := "";
       ist_Initialized := true; ist_InitUpgrade := ""; ist_AppliedAddonsHash := "";
       ist_ActiveUpgrade := "" |} |}.

(** Every Job ends; that of [fails] fails. *)
Definition example_finish (fails : option string) (j : Job) : Job :=
  let failed := match fails with Some n => String.eqb (m_Name (job_Meta j)) n | None => false end in
  {| job_Meta := job_Meta j; job_Spec := job_Spec j;
     job_Status := {| jst_Succeeded := if failed then 0 else 1; jst_Failed := if failed then 1 else 0;
                      jst_Conditions := []; jst_CompletionTime := None |} |}.

Definition four_upgrades : gmap string OdooUpgrade :=
  {["a" := queue_upgrade "a" "shop" "" 10; "b" := queue_upgrade "b" "shop" "Pending" 10;
    "c" := queue_upgrade "c" "other" "" 11; "d" := queue_upgrade "d" "ghost" "" 11]}.
Definition example_cluster : cluster :=
  put_objects KUpgrade four_upgrades
    (put_objects KInstance {["shop" := example_instance "shop"; "other" := example_instance "other"]} empty_cluster).

Definition example_recorder : Reconciler := {| rec_Recorder := true; rec_Clientset := true |}.
Definition example_rounds (fails : option string) : nat → cluster → cluster :=
  rounds (pass example_recorder "shop" "") (rest (example_finish fails)) ["d"; "c"; "b"; "a"].

Lemma example_ok : upgrades_ok "shop" example_cluster.
Proof.
  intros n u Hu. change (four_upgrades !! n = Some u) in Hu. unfold four_upgrades in Hu.
  rewrite !lookup_insert_Some, lookup_singleton_Some in Hu.
  assert (∀ name inst p t, p = "" ∨ p = "Pending" →
    item_ok KUpgrade "shop" example_cluster name (queue_upgrade name inst p t)) as Hnew.
  { intros ???? Hp. split; try done; [by right; right|unfold has_job, running; cbn; intros Hr; destruct Hp; congruence]. }
  destruct Hu as [[<- <-]|[_ [[<- <-]|[_ [[<- <-]|[_ [<- <-]]]]]]]; apply Hnew; auto.
Qed.

Lemma example_names m : is_Some (upgrades example_cluster !! m) → m ∈ ["d"; "c"; "b"; "a"].
Proof.
  change (upgrades example_cluster) with four_upgrades. rewrite <-(elem_of_dom (D := gset string)).
  unfold four_upgrades. rewrite !dom_insert_L, dom_singleton_L. set_solver.
Qed.

Lemma example_ends fails j : job_ended (example_finish fails j).
Proof. unfold job_ended, example_finish. cbn zeta. destruct (match fails with Some _ => _ | None => _ end); [right; by eexists|by left]. Qed.

Lemma upgrades_get_finished_witness :
  (λ n, (λ m, (λ u, ust_Phase (up_Status u)) <$> upgrades (example_rounds (Some "a-run") n example_cluster) !! m) <$>
     ["a"; "b"; "c"; "d"]) <$> [1; 2; 3; 4] =
  [[Some "Running"; Some "Pending"; Some "Running"; Some "Pending"];
   [Some "Failed"; Some "Pending"; Some "Succeeded"; Some "Pending"];
   [Some "Failed"; Some "Running"; Some "Succeeded"; Some "Pending"];
   [Some "Failed"; Some "Succeeded"; Some "Succeeded"; Some "Pending"]] ∧
  (∀ m u, upgrades (example_rounds (Some "a-run") 12 example_cluster) !! m = Some u →
     is_Some (objects example_cluster KInstance !! ref_Name (us_InstanceRef (up_Spec u))) ∨
       ust_Phase (up_Status u) = UpgradePhaseRunning →
     ust_Phase (up_Status u) = UpgradePhaseSucceeded ∨ ust_Phase (up_Status u) = UpgradePhaseFailed) ∧
  ∃ u, upgrades (example_rounds None 12 example_cluster) !! "a" = Some u ∧
    ust_Phase (up_Status u) = UpgradePhaseSucceeded.
Proof.
  split; [by vm_compute|]. split.
  - apply (upgrades_get_finished example_recorder "shop" "" (example_finish (Some "a-run")) (example_ends (Some "a-run")));
      [exact example_ok|exact example_names|by vm_compute].
  - apply (upgrades_get_finished example_recorder "shop" "" (example_finish None) (example_ends None)
      ["d"; "c"; "b"; "a"] example_cluster 12 example_ok example_names) with (queue_upgrade "a" "shop" "" 10);
      [by vm_compute|done|by left|done|split; [done|by eexists]|done].
Defined.
End Example.
