(* ===== verification/BackupSystem.v ===== *)
(** * The backups of a namespace as one system

    The backup controller keeps the promises of [QueueController] as well: scheduled backups are
    outside its queue, and a one-shot backup runs only when no other one of its instance does, with
    the exceptions that hold for the upgrades. *)
From S2P Require Export QueueSystem BackupController.

Section Backups.
Context `{Unicode} `{KubeLib} `{RetryLib} `{!RetryLaws} (r : Reconciler) (Getenv : string → string).

Lemma unscheduled (b : OdooBackup) : qi_ignored b = false → bs_Schedule (bk_Spec b) = "".
Proof. cbn. rewrite negb_false_iff. apply String.eqb_eq. Qed.

Lemma scheduled_ignored (b : OdooBackup) : bs_Schedule (bk_Spec b) ≠ "" → qi_ignored b = true.
Proof. intros Hs. cbn. rewrite negb_true_iff. by apply String.eqb_neq. Qed.

Lemma backup_terminal_active (b : OdooBackup) :
  backupPhaseTerminal (bst_Phase (bk_Status b)) = false → active b.
Proof.
  unfold backupPhaseTerminal, active, finished. cbn. unfold BackupPhaseSucceeded, BackupPhaseFailed.
  intros Ht [Hp|Hp]; by rewrite Hp in Ht.
Qed.

Lemma backup_started_started key h :
  history_ok (backup_may Getenv key) h → backup_started h → started KBackup key h.
Proof.
  intros Hh (j & ans & Hj & _). destruct (history_ok_happened _ _ _ _ Hh Hj) as (l & h' & -> & Hok).
  destruct Hok as (bk & inst & siblings & node & job & m & Hlist & _ & _ & _ & _ & Hmay & _).
  exists bk, siblings. split.
  - change (did (OpCreate KJob j) ans :: h') with ([did (OpCreate KJob j) ans] ++ h').
    by do 2 apply listed_mono.
  - by rewrite <-(proj1 (backupDecideStart_decides _ _)).
Qed.

Lemma backup_write_law key h (v : OdooBackup) :
  history_ok (backup_may Getenv key) h → backup_may Getenv key h (OpStatusUpdate KBackup v) →
  ∃ x (cur : OdooBackup), happened h (OpGet KBackup x) (Ok cur) ∧ read_key KBackup key h x ∧
    write_law KBackup key h v cur.
Proof.
  intros Hh (x & cur & l & h' & Heq & _ & Hkey & Hmeta & Hspec & _ & Hterm & Hpend & Hreason).
  exists x, cur. split_and!; [rewrite Heq; unfold happened; set_solver|done|]. split; cbn -[negb].
  - done.
  - by rewrite Hspec.
  - intros Hone%unscheduled. right. split; [by apply backup_terminal_active, Hterm|].
    unfold BackupPhasePending, BackupPhaseRunning, BackupPhaseSucceeded, BackupPhaseFailed,
      BackupPhaseScheduled, backup_reason in *.
    assert ((∃ b : OdooBackup, happened h (OpGet KBackup key) (Ok b) ∧ bs_Schedule (bk_Spec b) ≠ "") ∨
      (bst_Phase (bk_Status v) ∈ ["Pending"; "Running"; "Succeeded"; "Failed"] ∧
       (bst_Phase (bk_Status v) = "Running" → backup_started h))) as [(b & Hb & Hs)|[Hin Hst]].
    { destruct Hreason as [Hq|[[Hq ?]|[[Hq ?]|[Hq|(Hq & _ & Hs)]]]]; [right; rewrite Hq; split; [set_solver|done]..|by left]. }
    + right. exists b. split; [done|]. by apply scheduled_ignored.
    + left. split_and!; [done|done|].
      intros Hrun. by apply backup_started_started, Hst.
Qed.

#[export] Instance backup_controller : QueueController KBackup := {
  qc_pass := backupReconcile r Getenv;
  qc_may := backup_may Getenv;
  qc_allowed := λ key, wp_backupReconcile r Getenv key;
  qc_name := λ _, eq_refl;
  qc_created := λ _, eq_refl;
  qc_write := backup_write_law
}.

(** ** Properties *)

(** C7: one backup of an instance runs at a time, as far as the queue can tell. Let any number of
    passes of the backup controller run at once against one namespace, with lagging caches, failing
    calls, lost answers and passes cut short, while users create, change, delete and re-create
    backups, scheduled ones included. If two different one-shot backups of one instance both have
    the phase Running, then one of them has a name that an earlier backup had, or the one created
    later comes first by creation time and name. Each step of the system is a step of the abstract
    lifecycle of the queue with the same exceptions; a name that stood for a scheduled and for a
    one-shot backup may also get the phase of the wrong one. The assumptions on the API server are
    those of the upgrades; the spec of a one-shot backup does not change, and a scheduled backup
    stays scheduled. *)
Theorem backups_run_one_at_a_time ns s :
  reachable KBackup ns s →
  (∀ n1 n2 (a b : OdooBackup),
     replay (sys_log KBackup s) !! n1 = Some a → replay (sys_log KBackup s) !! n2 = Some b →
     m_Name (bk_Meta a) ≠ m_Name (bk_Meta b) →
     ref_Name (bs_InstanceRef (bk_Spec a)) = ref_Name (bs_InstanceRef (bk_Spec b)) →
     bs_Schedule (bk_Spec a) = "" → bs_Schedule (bk_Spec b) = "" →
     bst_Phase (bk_Status a) = BackupPhaseRunning → bst_Phase (bk_Status b) = BackupPhaseRunning →
     may_overlap (uid_of KBackup) (sys_log KBackup s) n1 n2) ∧
  (∀ s', step KBackup ns s s' → ∃ l,
     lifecycle (switched (sys_log KBackup s')) (may_overlap (uid_of KBackup) (sys_log KBackup s')) l
       (phases_of KBackup s) (phases_of KBackup s')).
Proof.
  intros Hr. split.
  - intros n1 n2 a b Ha Hb Hne Hg Hoa Hob.
    assert (∀ o : OdooBackup, bs_Schedule (bk_Spec o) = "" → qi_ignored o = false) as Hone
      by (intros o Ho; cbn; by rewrite Ho).
    exact (system_exclusive KBackup ns s n1 n2 a b Hr Ha Hb (conj Hne (conj Hg (conj (Hone a Hoa) (Hone b Hob))))).
  - intros s' Hstep. by apply (step_refines KBackup ns); [apply reachable_ok|].
Qed.
End Backups.

(** *** Witness: two one-shot backups, created in the same second, the greater name first *)
Section Example.
#[local] Existing Instances unicode_ref kube_ref retry_ref.
#[local] Instance example_backup_controller : QueueController KBackup :=
  backup_controller {| rec_Recorder := true; rec_Clientset := true |} (λ _, "").

Definition named_backup (name rv phase : string) : OdooBackup :=
  {| bk_Meta := {| m_Name := name; m_Namespace := "shop"; m_UID := name; m_ResourceVersion := rv;
       m_Generation := 1; m_CreationTimestamp := 10; m_DeletionTimestamp := None; m_Labels := ∅;
       m_Annotations := ∅; m_OwnerReferences := []; m_Finalizers := [] |};
     bk_Spec := bk_Spec (with_database "shop" oneshot);
     bk_Status := bst_set phase "" (bk_Status oneshot) |}.

Definition new_b : OdooBackup := named_backup "b" "1" "".
Definition new_a : OdooBackup := named_backup "a" "2" "".
Definition taking_b : OdooBackup := named_backup "b" "3" "Running".
Definition taking_a : OdooBackup := named_backup "a" "4" "Running".
Definition backup_log : list (change (obj KBackup)) := [Put new_b; Put new_a].
Definition started_backup_log : list (change (obj KBackup)) := backup_log ++ [Put taking_b].
Definition overlap_backup_log : list (change (obj KBackup)) := started_backup_log ++ [Put taking_a].

Lemma backup_reachable : reachable KBackup "shop" {| sys_log := backup_log; sys_threads := [] |}.
Proof.
  eapply rtc_l; [apply (step_outside KBackup "shop" [] [] (Put new_b))|].
  { apply outside_create; [done..|]. intros b Hb. by apply elem_of_nil in Hb. }
  eapply rtc_l; [apply (step_outside KBackup "shop" [Put new_b] [] (Put new_a))|done].
  apply outside_create; [done..|]. intros b Hb. by apply list_elem_of_singleton in Hb as [= ->].
Qed.

Definition backup_key (n : string) : NamespacedName := {| nn_Namespace := "shop"; nn_Name := n |}.

(** The server of [backup_server], where reads of backups see the first [i] changes. *)
Definition example_backup_server (i : nat) (x : op) : answer x :=
  match x return answer x with
  | OpGet KBackup key =>
      match snapshot started_backup_log i !! nn_Name key with
      | Some b => Ok b | None => Err (StatusError CodeNotFound "not found") end
  | OpList KBackup _ _ => Ok (map_to_list (snapshot started_backup_log i)).*2
  | x => (backup_server oneshot tt x).1
  end.

Lemma example_backup_answered i x :
  answered KBackup "shop" started_backup_log i (did x (example_backup_server i x)).
Proof.
  apply server_answered.
  - intros key b Hb _. unfold example_backup_server in Hb. destruct (snapshot _ _ !! _); [by injection Hb as ->|done].
  - intros all [= <-] o. rewrite list_elem_of_fmap. split.
    + intros ([n b] & -> & Hb). exists n. by apply elem_of_map_to_list.
    + intros [n Hn]. exists (n, o). split; [done|]. by apply elem_of_map_to_list.
Qed.

Lemma backup_write_inv x b : backup_write x = Some b → x = OpStatusUpdate KBackup b.
Proof. destruct x as [| | | |[]| | | | | |]; cbn; congruence. Qed.

(** A pass for [n] whose cache shows the first [i] changes of [log] starts the backup. *)
Lemma example_backup_start log i n old new :
  reachable KBackup "shop" {| sys_log := log; sys_threads := [] |} → i ≤ length log →
  (∀ x, answered KBackup "shop" log i (did x (example_backup_server i x))) →
  (λ b, (m_Name (bk_Meta b), m_ResourceVersion (bk_Meta b), bst_Phase (bk_Status b))) <$>
    first_write KBackup backup_write (example_backup_server i) (qc_pass (k := KBackup) (backup_key n)) =
    Some (n, version_of KBackup old, bst_Phase (bk_Status new)) →
  replay log !! n = Some old → same (uid_of KBackup) old new → m_Namespace (bk_Meta new) = "shop" →
  ref_Name (bs_InstanceRef (bk_Spec new)) = ref_Name (bs_InstanceRef (bk_Spec old)) →
  (∀ b, Put b ∈ log → version_of KBackup b ≠ version_of KBackup new) →
  reachable KBackup "shop" {| sys_log := log ++ [Put new]; sys_threads := [] |}.
Proof.
  intros Hr Hi Hans Hrun Hold Hsame Hns Hg Hver. apply fmap_Some in Hrun as (v & Hv & Hfields).
  injection Hfields as Hname Hv' Hphase.
  eapply (play_reachable KBackup "shop" backup_write (example_backup_server i) backup_write_inv log i (backup_key n));
    [exact Hr|done|done|exact Hans|exact Hv|].
  split; [|by symmetry|done|done]. exists old. change (qi_name v) with (m_Name (bk_Meta v)). by rewrite <-Hname.
Qed.

Lemma started_backup_reachable :
  reachable KBackup "shop" {| sys_log := started_backup_log; sys_threads := [] |}.
Proof.
  apply (example_backup_start backup_log 1 "b" new_b taking_b);
    [exact backup_reachable|cbn; lia| |by vm_compute|by vm_compute|done|done|done|].
  - intros x. destruct (example_backup_answered 1 x) as [Hg Hl].
    split; [intros y b ? ?|intros all ?]; [by apply Hg|by apply Hl].
  - intros b Hb. apply list_elem_of_In in Hb. destruct Hb as [[= <-]|[[= <-]|[]]]; done.
Qed.

Lemma overlap_backup_reachable :
  reachable KBackup "shop" {| sys_log := overlap_backup_log; sys_threads := [] |}.
Proof.
  apply (example_backup_start started_backup_log 2 "a" new_a taking_a);
    [exact started_backup_reachable|cbn; lia|apply example_backup_answered|by vm_compute|by vm_compute|done|done|done|].
  intros b Hb. apply list_elem_of_In in Hb. destruct Hb as [[= <-]|[[= <-]|[[= <-]|[]]]]; done.
Qed.

Lemma backups_run_one_at_a_time_witness :
  bst_Phase (bk_Status taking_a) = BackupPhaseRunning ∧ bst_Phase (bk_Status taking_b) = BackupPhaseRunning ∧
  may_overlap (uid_of KBackup) overlap_backup_log "a" "b".
Proof.
  split; [done|]. split; [done|].
  apply (proj1 (backups_run_one_at_a_time {| rec_Recorder := true; rec_Clientset := true |} (λ _, "")
    "shop" _ overlap_backup_reachable) "a" "b" taking_a taking_b); by vm_compute.
Defined.
End Example.
