(* ===== verification/BackupProgress.v ===== *)
(** * Every backup of an instance gets done

    The one-shot backups of a namespace are a queue of Jobs ([QueueWork]): each one whose instance
    exists gets its turn and ends. A scheduled backup is no part of the queue: one pass gives it its CronJob, and the passes
    on other backups leave that alone. *)
From S2P Require Export QueueWork BackupController.

Open Scope nat_scope.

Definition backups (w : cluster) : gmap string OdooBackup := objects w KBackup.
Definition crons (w : cluster) : gmap string CronJob := objects w KCronJob.

(** A backup the controller accepts: its spec is valid, and its instance gives it a database. *)
Definition backup_accepted `{Unicode} `{KubeLib} (w : cluster) (b : OdooBackup) : Prop :=
  is_Ok (backupValidateSpec b) = true ∧
  ∃ inst, objects w KInstance !! ref_Name (bs_InstanceRef (bk_Spec b)) = Some inst ∧ backupDatabase b inst ≠ "".

(** How a Job ends, as the controller sees it. *)
Definition backup_job_ended (j : Job) : Prop := backupJobSucceeded j = true ∨ is_Some (backupJobFailure j).
Definition backup_job_fine (j : Job) : Prop := backupJobSucceeded j = true ∨ backupJobFailure j = None.

Lemma backup_accepted_same `{Unicode} `{KubeLib} w w' b b' :
  objects w' KInstance = objects w KInstance → bk_Meta b' = bk_Meta b → bk_Spec b' = bk_Spec b →
  backup_accepted w b → backup_accepted w' b'.
Proof. unfold backup_accepted, backupValidateSpec, backupDatabase. intros -> Hm Hs. by rewrite Hm, Hs. Qed.

(** The CronJobs are stored under their names. *)
Definition crons_named (m : gmap string CronJob) : Prop := ∀ n c, m !! n = Some c → m_Name (cron_Meta c) = n.

#[export] Program Instance backup_queue `{Unicode} `{KubeLib} : JobQueue KBackup := {
  jq_job b := bst_JobName (bk_Status b);
  jq_ended := backup_job_ended;
  jq_fine := backup_job_fine;
  jq_accepted := backup_accepted;
  jq_crons := crons_named
}.
Next Obligation. set_solver. Qed.
Next Obligation. by intros ?? a b <-. Qed.
Next Obligation. intros ?? a b Hs. unfold kept. by rewrite <-Hs. Qed.
Next Obligation. intros ?? w w' a b Hi Hs. by apply backup_accepted_same; [done|rewrite <-Hs..]. Qed.

Section Progress.
Context `{Unicode} `{KubeLib} `{RetryLib} `{!OwnerLaws} `{!ErrorLaws} `{!EqualityLaws} `{!RetryLaws}.
(** The logs of the pods, how a Job ends, and the environment of the operator. *)
Context (r : Reconciler) (Getenv : string → string) (ns : string) (logs : string) (finish : Job → Job).

Abbreviation effect := (effect (api logs)).
Definition key_of (n : string) : NamespacedName := {| nn_Namespace := ns; nn_Name := n |}.

Definition backup_pass (n : string) (w : cluster) : cluster := (effect w (backupReconcile r Getenv (key_of n))).2.
Definition backup_rest : cluster → cluster := rest_for finish backupRequeueRunning.

(** The backups of a namespace in any mix of phases, the one-shot ones that run with their Jobs. *)
Definition backups_ok : cluster → Prop := items_ok KBackup ns.
Abbreviation jobs_fine := (jobs_fine KBackup).
Abbreviation turned := (turned KBackup).

Lemma get_backup {B} w x (f : res OdooBackup → prog B) :
  effect w (prog_bind (get KBackup x) f) = effect w (f (found (backups w !! nn_Name x))).
Proof. exact (effect_get logs w KBackup x f). Qed.
Lemma get_cron {B} w x (f : res CronJob → prog B) :
  effect w (prog_bind (get KCronJob x) f) = effect w (f (found (crons w !! nn_Name x))).
Proof. exact (effect_get logs w KCronJob x f). Qed.

(** ** Status writes *)
Lemma effect_backup_write w n b target reason mutate st :
  backups w !! n = Some b → m_Name (bk_Meta b) = n →
  (bs_Schedule (bk_Spec b) = "" → backupPhaseTerminal (bst_Phase (bk_Status b)) = false) →
  (target = BackupPhasePending → bst_Phase (bk_Status b) ≠ BackupPhaseRunning) →
  effect w (mutate (bk_Status b)) = (st, w) →
  ∃ conds w', effect w (backupWriteStatus r (key_of n) target reason mutate) = (Ok tt, w') ∧
    writes KBackup n (bk_with_status (bst_stamp (m_Generation (bk_Meta b)) conds st) b) w w'.
Proof.
  intros Hb Hn Ht Hp Hm. unfold backupWriteStatus.
  assert (∃ conds w', effect w (backupWriteAttempt r (key_of n) target reason mutate) = (Ok tt, w') ∧
    writes KBackup n (bk_with_status (bst_stamp (m_Generation (bk_Meta b)) conds st) b) w w') as (conds & w' & Hw & ?).
  2: { exists conds, w'. by rewrite effect_bind, (effect_retry _ _ _ _ _ Hw). }
  unfold backupWriteAttempt, try_bind. rewrite get_backup. cbn [key_of nn_Name]. rewrite Hb. cbn [found].
  assert (String.eqb (bs_Schedule (bk_Spec b)) "" && backupPhaseTerminal (bst_Phase (bk_Status b)) = false) as ->.
  { apply andb_false_iff. destruct (String.eqb_spec (bs_Schedule (bk_Spec b)) ""); auto. }
  assert (String.eqb target BackupPhasePending && String.eqb (bst_Phase (bk_Status b)) BackupPhaseRunning = false) as ->.
  { apply andb_false_iff. destruct (String.eqb_spec target BackupPhasePending); [right|by left].
    apply String.eqb_neq. auto. }
  rewrite effect_bind, Hm. cbn [fst snd]. rewrite effect_now. cbn zeta.
  match goal with |- context [setConditions ?t ?a ?g ?c] => exists (setConditions t a g c) end.
  rewrite deep_equal. case_bool_decide as Heq.
  - exists w. split; [done|]. apply writes_same. etrans; [exact Hb|]. f_equal.
    destruct b as [m s bst]. unfold bk_with_status. cbn in Heq |- *. f_equal. exact Heq.
  - erewrite effect_updateStatus by (cbn; rewrite Hn; exact Hb). rewrite effect_bind, effect_events.
    eexists. split; [done|]. cbn [obj_meta bk_with_status bk_Meta]. rewrite Hn. apply writes_put.
Qed.

(** Reading a log and finding a node leave the cluster as it is. *)
Lemma reading_podLogs b c : reading (backupPodLogs r b c).
Proof.
  unfold backupPodLogs. destruct (rec_Clientset r); cbn; [|done]. split; [done|].
  by intros [[]|].
Qed.
Lemma reading_bind {A B} (p : prog A) (f : A → prog B) : reading p → (∀ a, reading (f a)) → reading (prog_bind p f).
Proof. intros Hp Hf. induction p as [a|o k IH]; [apply Hf|]. destruct Hp as [Ho Hk]. split; [done|]. intros a. apply IH, Hk. Qed.
Lemma effect_result w b : (effect w (backupResultLine r b)).2 = w.
Proof. apply effect_reading, reading_bind; [apply reading_podLogs|done]. Qed.
Lemma backup_effect_logTail w b : (effect w (backupLogTail r b)).2 = w.
Proof.
  apply effect_reading, reading_bind; [apply reading_podLogs|]. intros l.
  apply reading_bind; [|done]. destruct (String.eqb _ _); [apply reading_podLogs|done].
Qed.
Lemma backup_effect_node w b inst : (effect w (backupNode b inst)).2 = w.
Proof. apply effect_reading. unfold backupNode. by destruct (backupNeedsNodePin _ _). Qed.

Lemma backup_job_name name : backupJobName name ≠ "".
Proof.
  unfold backupJobName.
  destruct (bounded_name_spec backupFallbackName name backupJobSuffix backupMaxNameLen)
    as (_ & (p & Hp & _) & _); [by vm_compute; lia|by vm_compute; lia|].
  change (backupBoundedName ?b ?s ?l) with (bounded_name backupFallbackName b s l).
  rewrite Hp. by destruct p.
Qed.

(** A valid spec has a destination, so that the Jobs can be built. *)
Lemma build_job_spec b inst database node :
  is_Ok (backupValidateSpec b) = true → is_Some (buildBackupJobSpec Getenv b inst database node).
Proof.
  intros Hval. destruct (backupValidateSpec b) as [u|] eqn:Hv; [|done].
  pose proof (ab_one b (backupValidateSpec_ok b u Hv)) as Hone.
  unfold buildBackupJobSpec, buildBackupPodSpec, backupParts.
  destruct (bd_PVC _); [by eexists|]. destruct Hone as [Hs3 _]. destruct (Hs3 eq_refl) as [s3 ->]. by eexists.
Qed.

(** ** What a scheduled backup gets *)

(** The CronJob runs when the backup says, with labels and hash of the Job the backup asks for. *)
Record runs (b : OdooBackup) (c : CronJob) : Prop := {
  rs_schedule : cj_Schedule (cron_Spec c) = bs_Schedule (bk_Spec b);
  rs_suspend : cj_Suspend (cron_Spec c) = Some (bs_Suspend (bk_Spec b))
}.

(** A CronJob that is there already runs when the backup says. *)
Definition cron_fine (m : gmap string CronJob) (n : string) (b : OdooBackup) : Prop :=
  ∀ c, m !! backupCronJobName n = Some c → runs b c.

Record served (w : cluster) (n : string) (b : OdooBackup) : Prop := {
  sv_phase : bst_Phase (bk_Status b) = BackupPhaseScheduled;
  sv_name : bst_CronJobName (bk_Status b) = backupCronJobName n;
  sv_cron : ∃ c, crons w !! backupCronJobName n = Some c ∧ runs b c
}.

Lemma effect_apply w desired :
  crons_named (crons w) → let nm := m_Name (cron_Meta desired) in
  ∃ c w1, effect w (backupApplyCronJob desired) = (Ok c, w1) ∧ writes KCronJob nm c w w1 ∧
    m_Name (cron_Meta c) = nm ∧ (crons w !! nm = Some c ∨ cron_Spec c = cron_Spec desired).
Proof.
  intros Hnamed nm. unfold backupApplyCronJob. rewrite get_cron. cbn [objectKey nn_Name]. fold nm.
  destruct (crons w !! nm) as [cur|] eqn:Hcur; cbn [found].
  - pose proof (Hnamed nm cur Hcur) as Hn. destruct (cronUpToDate cur desired).
    + exists cur, w. split_and!; [done|by apply writes_same|done|by left].
    + exists (cron_replace desired cur), (put KCronJob nm (cron_replace desired cur) w).
      assert (m_Name (cron_Meta (cron_replace desired cur)) = nm) as Hn' by exact Hn.
      split_and!; [|apply writes_put|done|by right].
      unfold update, call. rewrite effect_do. cbn [api]. unfold overwrite.
      change (obj_meta KCronJob (cron_replace desired cur)) with (cron_Meta (cron_replace desired cur)). rewrite Hn'.
      change (objects w KCronJob !! nm) with (crons w !! nm). by rewrite Hcur.
  - rewrite IsNotFound_spec, bool_decide_true by done. exists desired, (put KCronJob nm desired w).
    split_and!; [|apply writes_put|done|by right].
    unfold create, call. cbn [prog_bind]. rewrite effect_do. cbn [api]. change (obj_meta KCronJob desired) with (cron_Meta desired).
    fold nm. change (objects w KCronJob !! nm) with (crons w !! nm). by rewrite Hcur.
Qed.

(** ** One pass on a backup *)
Section Turn.
Context (w : cluster) (n : string) (b : OdooBackup).
Context (Hok : backups_ok w) (Hb : backups w !! n = Some b).

Lemma b_alike : alike KBackup b b.
Proof. split; [apply same_refl|done]. Qed.
Lemma name_b : m_Name (bk_Meta b) = n.
Proof. apply (io_name _ _ _ _ _ (Hok n b Hb)). Qed.
Lemma namespace_b : m_Namespace (bk_Meta b) = ns.
Proof. apply (io_namespace _ _ _ _ _ (Hok n b Hb)). Qed.
Lemma key_b : objectKey (bk_Meta b) = key_of n.
Proof. unfold objectKey, key_of. by rewrite name_b, namespace_b. Qed.

Section OneShot.
Context (Hone : bs_Schedule (bk_Spec b) = "").

Lemma in_queue : qi_ignored b = false.
Proof. by apply oneshot_ignored. Qed.

Lemma backup_turn_status w1 result target reason mutate st :
  frame [KJob] w w1 → jobs w ⊆ jobs w1 → (jobs_fine w → jobs_fine w1) → active b →
  effect w1 (mutate (bk_Status b)) = (st, w1) → bst_Phase st = target →
  bool_decide (target ∈ ["Pending"; "Running"; "Succeeded"; "Failed"]) = true →
  (target = "Pending" → waiting b ∧
     (live w (qi_group b) → may_start (decide_start b (listing KBackup w)) = false)) →
  (target = "Running" → live w (qi_group b) ∧ waiting b ∧ bst_JobName st ≠ "" ∧ is_Some (jobs w1 !! bst_JobName st)) →
  (backup_accepted w b → jobs_fine w → target ≠ "Failed") →
  ∃ b', turned w n b (effect w1 (with_result (A := Result) result
                (backupWriteStatus r (key_of n) target reason mutate))).2 b'.
Proof.
  intros Hw1 Hjobs Hfine Hact Hm <- Hp%bool_decide_eq_true Hpend Hrun Hgood.
  destruct (effect_backup_write w1 n b (bst_Phase st) reason mutate st) as (conds' & w2 & He & Hwr); try done.
  - etrans; [|exact Hb]. unfold backups. f_equal. exact (frame_at _ _ _ KBackup Hw1 eq_refl).
  - exact name_b.
  - intros _. unfold backupPhaseTerminal, active, finished in *.
    cbn in Hact. apply orb_false_iff. split; apply String.eqb_neq; tauto.
  - intros E. destruct (Hpend E) as [[Hw|Hw] _]; intros E'; cbn in Hw, E'; by rewrite Hw in E'.
  - eexists. unfold with_result. erewrite effect_try by exact He.
    by eapply (turned_write KBackup ns w n b b Hok Hb b_alike w1 _ _ in_queue); [..|exact Hwr].
Qed.

Lemma backup_turn_fail_spec msg :
  active b → (backup_accepted w b → False) → ∃ b', turned w n b (effect w (backupFailSpec r (key_of n) msg)).2 b'.
Proof. intros Hact Hno. by eapply backup_turn_status. Qed.

Lemma backup_turn_fail_job msg :
  active b → (jobs_fine w → False) → ∃ b', turned w n b (effect w (backupFailJob r (key_of n) msg)).2 b'.
Proof. intros Hact Hno. by eapply backup_turn_status. Qed.

Lemma backup_turn_pending reason msg :
  waiting b → (live w (qi_group b) → may_start (decide_start b (listing KBackup w)) = false) →
  ∃ b', turned w n b (effect w (backupSetPending r (key_of n) reason msg)).2 b'.
Proof. intros Hw Hno. eapply backup_turn_status; try done. by apply waiting_active. Qed.

(** The Job of the backup is looked at. *)
Lemma backup_turn_monitor : running b → ∃ b', turned w n b (effect w (backupMonitor r b)).2 b'.
Proof.
  intros Hr. destruct (job_a KBackup ns w n b b Hok Hb b_alike in_queue Hr) as [_ [j Hjob]]. cbn [jq_job backup_queue] in Hjob.
  unfold backupMonitor. rewrite key_b, (get_job logs). cbn [nn_Name]. rewrite Hjob. cbn [found].
  destruct (backupJobSucceeded j) eqn:Hs.
  - rewrite effect_bind. assert ((effect w (backupJobCompletion j)).2 = w) as ->
      by (unfold backupJobCompletion; by destruct (jst_CompletionTime _)).
    rewrite effect_bind, effect_result. eapply backup_turn_status; try done. by apply running_active.
  - destruct (backupJobFailure j) as [why|] eqn:Hf.
    + rewrite effect_bind, backup_effect_logTail. apply backup_turn_fail_job; [by apply running_active|].
      intros Hfine. destruct (Hfine _ j Hjob); congruence.
    + exists b. apply (turned_none KBackup ns w n b b Hok Hb b_alike); try done.
      * intros _ _ Hready. destruct (ready_a KBackup w n b b Hb b_alike j Hready in_queue Hr Hjob) as [|[? ?]]; congruence.
      * intros _ _ Hw _. exact (running_not_waiting b Hr Hw).
Qed.

(** The backup starts: its Job is created, or one of that name is there. *)
Lemma backup_turn_start inst :
  waiting b → is_Ok (backupValidateSpec b) = true → instance_of KBackup w b = Some inst →
  ∃ b', turned w n b (effect w (backupStart r Getenv b inst)).2 b'.
Proof.
  intros Hw Hval Hinst. pose proof (waiting_active b Hw) as Hact. unfold backupStart. rewrite key_b.
  destruct (String.eqb_spec (backupDatabase b inst) "") as [Hdb|_].
  { apply backup_turn_fail_spec; [done|]. intros (_ & i & Hi & Hacc).
    change (instance_of KBackup w b = Some i) in Hi. congruence. }
  rewrite effect_bind, backup_effect_node. set (node := fst _). unfold buildBackupJob.
  destruct (build_job_spec b inst (backupDatabase b inst) node Hval) as [js Hjs]. rewrite Hjs. cbn [mbind option_bind].
  set (job := {| job_Spec := js |}).
  pose proof (set_controller_new (bk_Meta b) (job_Meta job) eq_refl eq_refl) as Hset.
  destruct (SetControllerReference (bk_Meta b) (job_Meta job)) as [m|] eqn:Hm; [|done].
  destruct (set_controller_ref _ _ _ Hm) as (_ & Hmeta & _).
  assert (m_Name m = backupJobName (m_Name (bk_Meta b))) as Hname by by rewrite Hmeta.
  destruct (effect_create_job KBackup logs w (job_with_meta m job)) as (Hcr & Hframe & Hjobs & Hex & Hfine); [by right|].
  rewrite effect_bind, Hcr. set (w1 := (effect w _).2) in *. rewrite effect_now.
  eapply (backup_turn_status w1); try done. intros _. split_and!; [by eexists|done| |exact Hex].
  cbn. rewrite Hname. apply backup_job_name.
Qed.

Lemma backup_turn_waiting : waiting b → ∃ b', turned w n b (effect w (oneShotPending r Getenv b)).2 b'.
Proof.
  intros Hw. unfold oneShotPending.
  destruct (backupValidateSpec b) eqn:Hval.
  2: { rewrite key_b. apply backup_turn_fail_spec; [by apply waiting_active|]. intros [Hacc _]. by rewrite Hval in Hacc. }
  rewrite effect_get. cbn [nn_Name].
  change (objects w KInstance !! _) with (instance_of KBackup w b).
  destruct (instance_of KBackup w b) as [inst|] eqn:Hinst; cbn [found].
  2: { rewrite IsNotFound_spec, bool_decide_true, key_b by done. apply backup_turn_pending; [done|].
       intros [i Hi]. change (instance_of KBackup w b = Some i) in Hi. congruence. }
  unfold try_bind. rewrite effect_list, labelled_all. cbn zeta.
  rewrite (proj1 (backupDecideStart_decides b (listing KBackup w))), key_b.
  destruct (may_start _) eqn:Hmay; [apply backup_turn_start; [done|by rewrite Hval|done]|by apply backup_turn_pending].
Qed.

Lemma turn_oneshot : ∃ b', turned w n b (effect w (reconcileOneShot r Getenv b)).2 b'.
Proof.
  pose proof (typed_a KBackup ns w n b b Hok Hb b_alike in_queue) as Ht. unfold reconcileOneShot.
  assert (finished b → ∃ b', turned w n b w b') as Hfin.
  { intros Hf. exists b. destruct (finished_idle b Hf) as [Hr Hw].
    by apply (turned_none KBackup ns w n b b Hok Hb b_alike); [..|intros _ ? _; apply Hr|intros _ _ ? _; apply Hw]. }
  pose proof backup_turn_waiting as Hwait. unfold finished, running, waiting in Ht. cbn in Ht.
  destruct Ht as [[E|E]|[E|[E|E]]]; rewrite E; cbn [String.eqb orb andb negb Ascii.eqb Bool.eqb].
  - apply Hfin. by left.
  - apply Hfin. by right.
  - destruct (job_a KBackup ns w n b b Hok Hb b_alike in_queue E) as [Hne _]. cbn in Hne.
    apply String.eqb_neq in Hne. rewrite Hne. by apply backup_turn_monitor.
  - apply Hwait. by left.
  - apply Hwait. by right.
Qed.
End OneShot.

(** *** Scheduled backups *)
Section Scheduled.
Context (Hsched : bs_Schedule (bk_Spec b) ≠ "").

Lemma not_in_queue : qi_ignored b = true.
Proof. cbn. rewrite negb_true_iff. by apply String.eqb_neq. Qed.

(** What a pass on a scheduled backup makes of the CronJobs, and of the backup. *)
Record kept_time (w' : cluster) : Prop := {
  kt_turned : ∃ b', turned w n b w' b' ∧ (backup_accepted w b → cron_fine (crons w) n b → served w' n b');
  kt_crons m : m ≠ backupCronJobName n → crons w' !! m = crons w !! m
}.

Lemma schedule_status w1 result target reason mutate st :
  frame [KCronJob] w w1 → (crons_named (crons w) → crons_named (crons w1)) →
  (∀ m, m ≠ backupCronJobName n → crons w1 !! m = crons w !! m) →
  effect w1 (mutate (bk_Status b)) = (st, w1) → bst_Phase st = target →
  (target = BackupPhasePending → bst_Phase (bk_Status b) ≠ BackupPhaseRunning) →
  (backup_accepted w b → target ≠ "Failed" ∧ (cron_fine (crons w) n b → served w1 n (bk_with_status st b))) →
  kept_time (effect w1 (with_result (A := Result) result (backupWriteStatus r (key_of n) target reason mutate))).2.
Proof.
  intros Hw1 Hcrons Hother Hm <- Hp Hgood.
  destruct (effect_backup_write w1 n b (bst_Phase st) reason mutate st) as (conds' & w2 & He & Hwr); try done.
  - etrans; [|exact Hb]. unfold backups. f_equal. exact (frame_at _ _ _ KBackup Hw1 eq_refl).
  - exact name_b.
  - unfold with_result. erewrite effect_try by exact He. change (effect w2 (ok result)).2 with w2.
    assert (crons w2 = crons w1) as Hc by exact (frame_at _ _ _ KCronJob (proj2 Hwr) eq_refl).
    split; [|by rewrite Hc]. eexists. split.
    + eapply (turned_ignored KBackup w n b w1); [..|exact Hwr];
        [exact not_in_queue|done|done|done|intros Hacc; apply (Hgood Hacc)].
    + intros Hacc Hfine. destruct (proj2 (Hgood Hacc) Hfine) as [? ? (c & Hcron & [? ?])].
      split; [done|done|]. exists c. rewrite Hc. split; [done|by split].
Qed.

Lemma schedule_refused msg :
  (backup_accepted w b → False) → kept_time (effect w (backupFailSpec r (key_of n) msg)).2.
Proof. intros Hno. by eapply schedule_status; [..|intros Hacc; destruct (Hno Hacc)]. Qed.

(** Without its instance a scheduled backup waits; one that claims to run is left as it is. *)
Lemma schedule_waits reason msg :
  (backup_accepted w b → False) → kept_time (effect w (backupSetPending r (key_of n) reason msg)).2.
Proof.
  intros Hno. destruct (decide (bst_Phase (bk_Status b) = BackupPhaseRunning)) as [Hrun|Hrun].
  2: { by eapply schedule_status; [..|intros Hacc; destruct (Hno Hacc)]. }
  assert ((effect w (backupSetPending r (key_of n) reason msg)).2 = w) as ->.
  { unfold backupSetPending, with_result. erewrite effect_try; [done|]. unfold backupWriteStatus.
    assert (effect w (backupWriteAttempt r (key_of n) BackupPhasePending reason
      (λ s, Ret (bst_set BackupPhasePending msg s))) = (Ok tt, w)) as Hw.
    { unfold backupWriteAttempt, try_bind. rewrite get_backup. cbn [key_of nn_Name]. rewrite Hb. cbn [found].
      apply String.eqb_neq in Hsched as Hs. by rewrite Hs, Hrun. }
    by rewrite effect_bind, (effect_retry _ _ _ _ _ Hw). }
  split; [|done]. exists b. split; [|intros Hacc; destruct (Hno Hacc)].
  apply (turned_none KBackup ns w n b b Hok Hb b_alike); try done;
    intros Hi; by pose proof (eq_trans (eq_sym not_in_queue) Hi).
Qed.

Lemma schedule_on inst :
  is_Ok (backupValidateSpec b) = true → instance_of KBackup w b = Some inst →
  kept_time (effect w (scheduleOn r Getenv b inst)).2.
Proof.
  intros Hval Hinst. unfold scheduleOn. rewrite key_b.
  destruct (String.eqb_spec (backupDatabase b inst) "") as [Hdb|_].
  { apply schedule_refused. intros (_ & i & Hi & Hacc).
    change (instance_of KBackup w b = Some i) in Hi. congruence. }
  rewrite effect_bind, backup_effect_node. set (node := fst _). unfold buildBackupCronJob.
  destruct (build_job_spec b inst (backupDatabase b inst) node Hval) as [js Hjs]. rewrite Hjs. cbn [mbind option_bind].
  set (want := {| cron_Meta := _ |}).
  pose proof (set_controller_new (bk_Meta b) (cron_Meta want) eq_refl eq_refl) as Hset.
  destruct (SetControllerReference (bk_Meta b) (cron_Meta want)) as [m|] eqn:Hm; [|done].
  destruct (set_controller_ref _ _ _ Hm) as (_ & Hmeta & _).
  assert (m_Name m = backupCronJobName n) as Hname by (rewrite <-name_b, Hmeta; done).
  set (desired := cron_with_meta m want). change m with (cron_Meta desired) in Hname.
  destruct (effect_apply w desired (io_crons _ _ _ _ _ (Hok n b Hb))) as (c & w1 & He & [Hcr Hf] & Hcn & Hspec).
  rewrite Hname in *. rewrite effect_bind, He. cbn [fst snd].
  assert (∀ m, m ≠ backupCronJobName n → crons w1 !! m = crons w !! m) as Hother.
  { intros m' Hne. unfold crons. rewrite Hcr. by rewrite lookup_insert_ne. }
  eapply schedule_status; try done.
  - intros Hnamed m' c'. unfold crons. rewrite Hcr. intros [[<- <-]|[_ ?]]%lookup_insert_Some; [done|by apply Hnamed].
  - intros _. split; [done|]. intros Hfine. split; [done|done|]. exists c.
    split; [unfold crons; by rewrite Hcr, lookup_insert_eq|].
    destruct Hspec as [Hold|Hnew]; [by destruct (Hfine c Hold)|]. by split; rewrite Hnew.
Qed.

Lemma turn_scheduled : kept_time (effect w (reconcileScheduled r Getenv b)).2.
Proof.
  unfold reconcileScheduled. destruct (backupValidateSpec b) eqn:Hval.
  2: { rewrite key_b. apply schedule_refused. intros [Hacc _]. by rewrite Hval in Hacc. }
  rewrite effect_get. cbn [nn_Name]. change (objects w KInstance !! _) with (instance_of KBackup w b).
  destruct (instance_of KBackup w b) as [inst|] eqn:Hinst; cbn [found].
  - apply schedule_on; [by rewrite Hval|done].
  - rewrite IsNotFound_spec, bool_decide_true, key_b by done. apply schedule_waits.
    intros (_ & i & Hi & _). change (instance_of KBackup w b = Some i) in Hi. congruence.
Qed.
End Scheduled.
End Turn.

(** ** A whole pass *)
Lemma backup_pass_reconciles w n (b : OdooBackup) : backups w !! n = Some b →
  backup_pass n w = (effect w (if negb (String.eqb (bs_Schedule (bk_Spec b)) "") then reconcileScheduled r Getenv b
                               else reconcileOneShot r Getenv b)).2.
Proof.
  intros Hb. unfold backup_pass, backupReconcile. rewrite get_backup. change (nn_Name (key_of n)) with n.
  by rewrite Hb.
Qed.

Lemma backup_pass_turned w n (b : OdooBackup) :
  backups_ok w → backups w !! n = Some b → ∃ b', turned w n b (backup_pass n w) b'.
Proof.
  intros Hok Hb. rewrite (backup_pass_reconciles w n b Hb).
  destruct (String.eqb_spec (bs_Schedule (bk_Spec b)) "") as [Hs|Hs]; cbn [negb].
  - by apply turn_oneshot.
  - destruct (kt_turned _ _ _ _ (turn_scheduled w n b Hok Hb Hs)) as (b' & ? & _). by exists b'.
Qed.

Lemma backup_pass_none w n : backups w !! n = None → backup_pass n w = w.
Proof.
  intros Hb. unfold backup_pass, backupReconcile. rewrite get_backup. change (nn_Name (key_of n)) with n.
  rewrite Hb. cbn [found]. by rewrite IsNotFound_spec.
Qed.

(** The specs stay. *)
Definition specs_kept (w w' : cluster) : Prop := ∀ m, bk_Spec <$> backups w' !! m = bk_Spec <$> backups w !! m.

Lemma pass_specs w n : backups_ok w → specs_kept w (backup_pass n w).
Proof.
  intros Hok m. destruct (backups w !! n) as [b|] eqn:Hb; [|by rewrite backup_pass_none].
  destruct (backup_pass_turned w n b Hok Hb) as (b' & [Hups _ _ Hsame _ _ _ _ _ _ _ _ _ _]).
  change (backups (backup_pass n w)) with (queued KBackup (backup_pass n w)). rewrite Hups.
  destruct (decide (m = n)) as [->|Hne]; [|by rewrite lookup_insert_ne].
  rewrite lookup_insert_eq, Hb. cbn. by rewrite <-Hsame.
Qed.

Lemma specs_lookup w w' m b' :
  specs_kept w w' → backups w' !! m = Some b' → ∃ b, backups w !! m = Some b ∧ bk_Spec b' = bk_Spec b.
Proof.
  intros Hs Hb'. specialize (Hs m). rewrite Hb' in Hs. destruct (backups w !! m) as [b|]; [|done].
  exists b. split; [done|]. by injection Hs.
Qed.

(** ** Scheduled backups stay served *)

(** No other scheduled backup has the CronJob name of [n]. *)
Definition apart (w : cluster) (n : string) : Prop :=
  ∀ m b, backups w !! m = Some b → bs_Schedule (bk_Spec b) ≠ "" → m ≠ n → backupCronJobName m ≠ backupCronJobName n.

Lemma apart_short w n :
  len n ≤ 46 → (∀ m b, backups w !! m = Some b → len m ≤ 46) → apart w n.
Proof.
  intros Hn Hall m b Hm _ Hne. destruct (backupNames_bounded n) as (_ & _ & _ & Hcn), (backupNames_bounded m) as (_ & _ & _ & Hcm).
  destruct (Hcn Hn) as (_ & -> & _), (Hcm (Hall m b Hm)) as (_ & -> & _). intros Heq. apply Hne.
  pose proof (f_equal len Heq) as Hlen. rewrite !len_app in Hlen.
  by apply (app_inj_len m "-sched" n "-sched"); [lia|].
Qed.

Lemma apart_specs w w' n : specs_kept w w' → apart w n → apart w' n.
Proof.
  intros Hs Hap m b Hb Hsched. destruct (specs_lookup w w' m b Hs Hb) as (b0 & Hb0 & Heq).
  apply (Hap m b0 Hb0). by rewrite <-Heq.
Qed.

Record due (n : string) (w : cluster) : Prop := {
  du_apart : apart w n;
  du_backup : ∃ b, backups w !! n = Some b ∧ bs_Schedule (bk_Spec b) ≠ "" ∧ backup_accepted w b ∧ cron_fine (crons w) n b
}.
Definition on_time (n : string) (w : cluster) : Prop := ∃ b, backups w !! n = Some b ∧ served w n b.

(** The backup and its CronJob are left alone by a pass on another one. *)
Lemma other_pass w n m : backups_ok w → apart w n → m ≠ n →
  backups (backup_pass m w) !! n = backups w !! n ∧
  crons (backup_pass m w) !! backupCronJobName n = crons w !! backupCronJobName n ∧
  objects (backup_pass m w) KInstance = objects w KInstance.
Proof.
  intros Hok Hap Hne. destruct (backups w !! m) as [b|] eqn:Hb; [|by rewrite backup_pass_none].
  destruct (backup_pass_turned w m b Hok Hb) as (b' & [Hups Hf _ _ _ _ _ _ _ _ _ _ _ Hcs]). split_and!.
  - change (backups ?x) with (queued KBackup x). rewrite Hups. by apply lookup_insert_ne.
  - destruct (decide (bs_Schedule (bk_Spec b) = "")) as [Hs|Hs].
    + assert (crons (backup_pass m w) = crons w) as ->; [|done]. apply Hcs. by apply oneshot_ignored.
    + rewrite (backup_pass_reconciles w m b Hb). apply String.eqb_neq in Hs as Heq. rewrite Heq. cbn [negb].
      apply (kt_crons _ _ _ _ (turn_scheduled w m b Hok Hb Hs)). intros Heq'. by destruct (Hap m b Hb Hs Hne).
  - exact (frame_at _ _ _ KInstance Hf eq_refl).
Qed.

(** A pass on the backup itself serves it, and leaves it due. *)
Lemma own_pass w n : backups_ok w → due n w → due n (backup_pass n w) ∧ on_time n (backup_pass n w).
Proof.
  intros Hok [Hap (b & Hb & Hs & Hacc & Hfine)].
  assert (backup_pass n w = (effect w (reconcileScheduled r Getenv b)).2) as Hp.
  { rewrite (backup_pass_reconciles w n b Hb). apply String.eqb_neq in Hs as ->. done. }
  pose proof (pass_specs w n Hok) as Hspecs. rewrite Hp in *.
  destruct (kt_turned _ _ _ _ (turn_scheduled w n b Hok Hb Hs)) as (b' & [Hups Hf _ Hsame _ _ _ _ _ _ _ _ _ _] & Hserved).
  specialize (Hserved Hacc Hfine). set (w' := (effect w _).2) in *.
  assert (backups w' !! n = Some b') as Hb' by (change (backups w') with (queued KBackup w'); by rewrite Hups, lookup_insert_eq).
  split; [split|by exists b']; [by apply (apart_specs w)|].
  exists b'. split_and!; [done|by rewrite <-Hsame| |].
  - apply (backup_accepted_same w _ b); [exact (frame_at _ _ _ KInstance Hf eq_refl)|by rewrite <-Hsame..|done].
  - intros c Hc. destruct (sv_cron _ _ _ Hserved) as (c' & Hc' & Hruns). congruence.
Qed.

Lemma due_pass n m w : backups_ok w → due n w → due n (backup_pass m w).
Proof.
  intros Hok Hdue. destruct (decide (m = n)) as [->|Hne]; [by apply own_pass|].
  destruct Hdue as [Hap (b & Hb & Hs & Hacc & Hfine)].
  destruct (other_pass w n m Hok Hap Hne) as (Hb' & Hc' & Hi). split; [eapply apart_specs; [by apply pass_specs|done]|].
  exists b. rewrite Hb'. split_and!; [done..|by eapply backup_accepted_same|unfold cron_fine; by rewrite Hc'].
Qed.

Lemma on_time_pass n m w : backups_ok w → due n w → on_time n w → on_time n (backup_pass m w).
Proof.
  intros Hok Hdue Hon. destruct (decide (m = n)) as [->|Hne]; [by apply own_pass|].
  destruct (other_pass w n m Hok (du_apart _ _ Hdue) Hne) as (Hb' & Hc' & _). destruct Hon as (b & Hb & [? ? Hc]).
  exists b. rewrite Hb'. split; [done|]. split; [done..|by rewrite Hc'].
Qed.

Lemma rest_backups w : backups (backup_rest w) = backups w.
Proof. exact (rest_queued KBackup finish backupRequeueRunning w). Qed.
Lemma rest_crons w : crons (backup_rest w) = crons w.
Proof. exact (frame_at _ _ _ KCronJob (rest_frame finish backupRequeueRunning w) eq_refl). Qed.

Lemma due_backup_rest n w : due n w → due n (backup_rest w).
Proof.
  intros [Hap (b & Hb & Hs & Hacc & Hfine)]. split; [unfold apart; by rewrite rest_backups|].
  exists b. rewrite rest_backups, rest_crons. split_and!; [done..| |done].
  eapply backup_accepted_same; [|done..]. exact (frame_at _ _ _ KInstance (rest_frame finish backupRequeueRunning w) eq_refl).
Qed.

(** ** Rounds of passes *)
Context (Hfinish : ∀ j, backup_job_ended (finish j)).

Abbreviation rounds := (rounds backup_pass backup_rest).

Lemma backup_rounds_settle names w n :
  backups_ok w → (∀ m, is_Some (backups w !! m) → m ∈ names) → 3 * size (backups w) ≤ n →
  settled backups live (rounds names n w).
Proof.
  intros Hok Hnames Hn.
  apply (work_settles KBackup ns backup_pass finish backupRequeueRunning backup_pass_turned backup_pass_none Hfinish); [done| |done].
  intros m b Hb _. apply Hnames. by exists b.
Qed.

Lemma rounds_specs names w n : backups_ok w → specs_kept w (rounds names n w).
Proof.
  intros Hok. refine (proj2 (work_invariant KBackup ns backup_pass finish backupRequeueRunning backup_pass_turned backup_pass_none
    Hfinish (specs_kept w) names w n _ _ Hok _)); [..|done].
  - intros m w' Hok' Hs x. by rewrite (pass_specs w' m Hok' x).
  - intros w' _ Hs x. by rewrite <-Hs, <-rest_backups.
Qed.

Lemma backup_rounds_on_course m names w n :
  (∀ j, backup_job_fine (finish j)) → backups_ok w → on_course KBackup m w → on_course KBackup m (rounds names n w).
Proof.
  apply (work_stays_on_course KBackup ns backup_pass finish backupRequeueRunning backup_pass_turned backup_pass_none Hfinish).
Qed.

Lemma rounds_on_time m names w n :
  backups_ok w → due m w → m ∈ names → n ≠ 0 → on_time m (rounds names n w).
Proof.
  intros Hok Hdue Hm Hn.
  apply (work_reaches KBackup ns backup_pass finish backupRequeueRunning backup_pass_turned backup_pass_none Hfinish
    (due m) (on_time m) names w m n); try done.
  - intros x w'. apply due_pass.
  - intros w' _. apply due_backup_rest.
  - intros w' Hok' Hdue'. by apply own_pass.
  - intros x w'. apply on_time_pass.
Qed.

(** ** Properties *)

(** C9: every backup of an instance that exists gets done. Take any backups of a namespace, one-shot
    ones in any mix of phases (the running ones with their Jobs) and scheduled ones, on an API server
    that accepts the calls and stores CronJobs under their names, and let every Job end, well or
    badly, between two rounds of passes. In whatever order the passes of a round run, as long as every
    backup gets one, after three rounds per backup every one-shot backup whose OdooInstance exists has
    the phase Succeeded or Failed, and none is left Running (one whose instance does not exist may
    wait, and blocks no other instance). When no Job fails, every one-shot backup with a valid spec, an instance and a database
    that had not failed before has succeeded. And every scheduled backup with a valid spec, an
    instance and a database has the phase Scheduled and names a CronJob that exists and has its
    schedule and its suspend switch, unless the CronJob was there before with others, or shares its
    name with the one of another scheduled backup. *)
Theorem backups_get_done names w n :
  backups_ok w → (∀ m, is_Some (backups w !! m) → m ∈ names) → 3 * size (backups w) ≤ n →
  let w' := rounds names n w in
  (∀ m b, backups w' !! m = Some b → bs_Schedule (bk_Spec b) = "" →
     is_Some (objects w KInstance !! ref_Name (bs_InstanceRef (bk_Spec b))) ∨
       bst_Phase (bk_Status b) = BackupPhaseRunning →
     bst_Phase (bk_Status b) = BackupPhaseSucceeded ∨ bst_Phase (bk_Status b) = BackupPhaseFailed) ∧
  (jobs_fine w → (∀ j, backup_job_fine (finish j)) → ∀ m b, backups w !! m = Some b →
     bs_Schedule (bk_Spec b) = "" → backup_accepted w b → bst_Phase (bk_Status b) ≠ BackupPhaseFailed →
     ∃ b', backups w' !! m = Some b' ∧ bst_Phase (bk_Status b') = BackupPhaseSucceeded) ∧
  (∀ m b, backups w !! m = Some b → bs_Schedule (bk_Spec b) ≠ "" → backup_accepted w b →
     cron_fine (crons w) m b → apart w m → ∃ b', backups w' !! m = Some b' ∧ served w' m b').
Proof.
  intros Hok Hnames Hn w'. assert (settled backups live w') as Hs by by apply backup_rounds_settle.
  assert (objects w' KInstance = objects w KInstance) as Hi.
  { by apply (work_instances KBackup ns backup_pass finish backupRequeueRunning backup_pass_turned backup_pass_none Hfinish). }
  pose proof (rounds_specs names w n Hok) as Hspecs. fold w' in Hspecs. split_and!.
  - intros m b Hb Hone Hl. apply (Hs m b Hb); [by apply oneshot_ignored|]. unfold live. by rewrite Hi.
  - intros Hfine Hend m b Hb Hone Hacc Hp.
    destruct (backup_rounds_on_course m names w n Hend Hok) as (_ & b' & Hb' & Hacc' & Hp'); [split; [done|by exists b]|].
    exists b'. split; [done|]. destruct (specs_lookup w w' m b' Hspecs Hb') as (b0 & Hb0 & Heq).
    destruct Hacc' as (_ & inst & Hinst & _).
    destruct (Hs m b' Hb'); [|left; exact (mk_is_Some _ _ Hinst)|done|done].
    apply oneshot_ignored. unfold BackupQueue.oneshot. rewrite Heq. congruence.
  - intros m b Hb Hsched Hacc Hfine Hap. apply rounds_on_time; [done| |apply Hnames; by exists b|].
    + split; [done|by exists b].
    + assert (size (backups w) ≠ 0); [|lia]. intros Hz. apply map_size_empty_inv in Hz. by rewrite Hz in Hb.
Qed.
End Progress.

(** *** Witness: two one-shot backups of one instance, whose second Job fails, and a scheduled one *)
Section Example.
#[local] Existing Instances unicode_ref kube_ref retry_ref.

Definition example_backups : gmap string OdooBackup :=
  {["a" := with_database "shop" (queue_backup "a" "" "" 10);
    "b" := with_database "shop" (queue_backup "b" "" "Pending" 10);
    "nightly" := with_database "shop" (queue_backup "nightly" "0 3 * * *" "Failed" 11)]}.
Definition backup_cluster : cluster :=
  put_objects KBackup example_backups (put_objects KInstance {["shop" := backup_instance]} empty_cluster).

(** Every Job ends; that of [fails] fails. *)
Definition finish_backup (fails : string) (j : Job) : Job :=
  let failed := String.eqb (m_Name (job_Meta j)) fails in
  {| job_Meta := job_Meta j; job_Spec := job_Spec j;
     job_Status := {| jst_Succeeded := if failed then 0 else 1; jst_Failed := if failed then 1 else 0;
                      jst_Conditions := []; jst_CompletionTime := None |} |}.
Lemma finish_backup_ends fails j : backup_job_ended (finish_backup fails j).
Proof. unfold backup_job_ended, finish_backup. cbn zeta. destruct (String.eqb _ _); [right; by eexists|by left]. Qed.

Definition backup_rounds (fails : string) : nat → cluster → cluster :=
  rounds (backup_pass {| rec_Recorder := true; rec_Clientset := true |} (λ _, "") "shop" "")
    (backup_rest (finish_backup fails)) ["nightly"; "b"; "nightly"; "a"].

Lemma example_backup n b : backups backup_cluster !! n = Some b →
  (n = "a" ∧ b = with_database "shop" (queue_backup "a" "" "" 10)) ∨
  (n = "b" ∧ b = with_database "shop" (queue_backup "b" "" "Pending" 10)) ∨
  (n = "nightly" ∧ b = with_database "shop" (queue_backup "nightly" "0 3 * * *" "Failed" 11)).
Proof.
  change (backups backup_cluster) with example_backups. unfold example_backups.
  rewrite !lookup_insert_Some, lookup_singleton_Some. naive_solver.
Qed.

Lemma example_backups_ok : backups_ok "shop" backup_cluster.
Proof.
  intros n b [[-> ->]|[[-> ->]|[-> ->]]]%example_backup; split; try done;
    try (by intros _; right; right; left); try (by intros _; right; right; right); intros ? Hr; by vm_compute in Hr.
Qed.

Lemma example_backup_names m : is_Some (backups backup_cluster !! m) → m ∈ ["nightly"; "b"; "nightly"; "a"].
Proof. intros [b Hb]. apply example_backup in Hb. set_solver. Qed.

Lemma backups_get_done_witness :
  (λ n, (λ m, (λ b, bst_Phase (bk_Status b)) <$> backups (backup_rounds "b-run" n backup_cluster) !! m) <$>
     ["a"; "b"; "nightly"]) <$> [1; 2; 3; 4] =
  [[Some "Running"; Some "Pending"; Some "Scheduled"]; [Some "Succeeded"; Some "Pending"; Some "Scheduled"];
   [Some "Succeeded"; Some "Running"; Some "Scheduled"]; [Some "Succeeded"; Some "Failed"; Some "Scheduled"]] ∧
  ∃ b, backups (backup_rounds "b-run" 9 backup_cluster) !! "nightly" = Some b ∧
    served (backup_rounds "b-run" 9 backup_cluster) "nightly" b.
Proof.
  split; [by vm_compute|].
  assert (3 * size (backups backup_cluster) ≤ 9) as Hsize by by vm_compute.
  destruct (backups_get_done {| rec_Recorder := true; rec_Clientset := true |} (λ _, "") "shop" ""
    (finish_backup "b-run") (finish_backup_ends "b-run") ["nightly"; "b"; "nightly"; "a"] backup_cluster 9
    example_backups_ok example_backup_names Hsize) as (_ & _ & Hsched).
  apply (Hsched "nightly" (with_database "shop" (queue_backup "nightly" "0 3 * * *" "Failed" 11)));
    [done|done|split; [by vm_compute|by eexists]|done|].
  apply apart_short; [cbn; lia|]. intros m b [[-> _]|[[-> _]|[-> _]]]%example_backup; cbn; lia.
Defined.
End Example.
