(* ===== verification/InstanceGate.v ===== *)
(** * The rollout gate and the initialisation gate (odooinstance_gate.go, odooinstance_init.go)

    [gateDecide] and [initDecide] are pure; the functions around them read the cluster and create
    the OdooUpgrade a decision asks for. Functions that assign to [instance.Status] return the
    instance. *)
From S2P Require Export Effects KubeRef UpgradeJob.

Open Scope Z_scope.

(** ** odooinstance_gate.go *)
Record gateInput := {
  gi_upgradeSet : bool;
  gi_applied : string;
  gi_current : string;
  gi_upgradeName : string;
  gi_upgradeExists : bool;
  gi_upgradePhase : string
}.

Record gateDecision := {
  gd_templateHash : string;
  gd_appliedHash : string;
  gd_activeUpgrade : string;
  gd_phase : string;
  gd_ensureUpgrade : bool;
  gd_upgradeMessage : string;
  gd_succeededUpgrade : string
}.

(** A decision literal with only the hashes set. *)
Definition gateRoll (hash : string) : gateDecision :=
  {| gd_templateHash := hash; gd_appliedHash := hash; gd_activeUpgrade := ""; gd_phase := "";
     gd_ensureUpgrade := false; gd_upgradeMessage := ""; gd_succeededUpgrade := "" |}.

Definition gateDecide (i : gateInput) : gateDecision :=
  if negb (gi_upgradeSet i) || String.eqb (gi_applied i) "" then gateRoll (gi_current i)
  else if String.eqb (gi_current i) (gi_applied i) then gateRoll (gi_applied i)
  else
    let held phase ensure :=
      {| gd_templateHash := gi_applied i; gd_appliedHash := gi_applied i;
         gd_activeUpgrade := gi_upgradeName i; gd_phase := phase; gd_ensureUpgrade := ensure;
         gd_upgradeMessage := ""; gd_succeededUpgrade := "" |} in
    if negb (gi_upgradeExists i) then held gatePhaseUpgrading true
    else if String.eqb (gi_upgradePhase i) UpgradePhaseSucceeded then gateRoll (gi_current i)
    else if String.eqb (gi_upgradePhase i) UpgradePhaseFailed then held gatePhaseUpgradeFailed false
    else held gatePhaseUpgrading false.

(** [hash[:8]] is defined because the hash is 64 digits; [instanceName[:min(...)]] always is. *)
Definition gateUpgradeName (instanceName hash : string) : string :=
  let maxPrefix := (gateMaxNameLen - len gateUpgradeInfix - gateHashPrefixLen)%nat in
  let prefix := str_take (min (len instanceName) maxPrefix) instanceName in
  let prefix := TrimRight prefix "-" in
  prefix +:+ gateUpgradeInfix +:+ str_take gateHashPrefixLen hash.

(** ** odooinstance_init.go *)
Record initInput := {
  ii_requested : bool;
  ii_initialized : bool;
  ii_upgradeName : string;
  ii_upgradeExists : bool;
  ii_upgradePhase : string;
  ii_upgradeMessage : string;
  ii_liveReplicas : Z
}.

Record initDecision := {
  id_pending : bool;
  id_initialized : bool;
  id_ensureUpgrade : bool;
  id_upgradeName : string;
  id_phase : string;
  id_failMessage : string;
  id_succeeded : string;
  id_adopted : bool
}.

Definition noInitDecision : initDecision :=
  {| id_pending := false; id_initialized := false; id_ensureUpgrade := false; id_upgradeName := "";
     id_phase := ""; id_failMessage := ""; id_succeeded := ""; id_adopted := false |}.

Definition initDecide (i : initInput) : initDecision :=
  let pending name ensure phase msg :=
    {| id_pending := true; id_initialized := false; id_ensureUpgrade := ensure;
       id_upgradeName := name; id_phase := phase; id_failMessage := msg; id_succeeded := "";
       id_adopted := false |} in
  let done succeeded adopted :=
    {| id_pending := false; id_initialized := true; id_ensureUpgrade := false; id_upgradeName := "";
       id_phase := ""; id_failMessage := ""; id_succeeded := succeeded; id_adopted := adopted |} in
  if negb (ii_requested i) || ii_initialized i then
    {| id_pending := false; id_initialized := ii_initialized i; id_ensureUpgrade := false;
       id_upgradeName := ""; id_phase := ""; id_failMessage := ""; id_succeeded := "";
       id_adopted := false |}
  else if negb (ii_upgradeExists i) && (0 <? ii_liveReplicas i) then done "" true
  else if negb (ii_upgradeExists i) then pending (ii_upgradeName i) true phaseInitializing ""
  else if String.eqb (ii_upgradePhase i) UpgradePhaseSucceeded then done (ii_upgradeName i) false
  else if String.eqb (ii_upgradePhase i) UpgradePhaseFailed
  then pending (ii_upgradeName i) false phaseInitFailed (ii_upgradeMessage i)
  else pending (ii_upgradeName i) false phaseInitializing "".

Definition initUpgradeName (instanceName : string) : string := instanceName +:+ initUpgradeSuffix.

(** ** Assignments to the instance status *)
Definition in_with_status (st : OdooInstanceStatus) (i : OdooInstance) : OdooInstance :=
  {| in_Meta := in_Meta i; in_Spec := in_Spec i; in_Status := st |}.

Definition set_gate (applied active : string) (i : OdooInstance) : OdooInstance :=
  let s := in_Status i in
  in_with_status
    {| ist_Ready := ist_Ready s; ist_Phase := ist_Phase s; ist_AddonPaths := ist_AddonPaths s;
       ist_ObservedGeneration := ist_ObservedGeneration s; ist_Conditions := ist_Conditions s;
       ist_Message := ist_Message s; ist_Initialized := ist_Initialized s;
       ist_InitUpgrade := ist_InitUpgrade s; ist_AppliedAddonsHash := applied;
       ist_ActiveUpgrade := active |} i.

Definition set_init (initialized : bool) (upgrade : string) (i : OdooInstance) : OdooInstance :=
  let s := in_Status i in
  in_with_status
    {| ist_Ready := ist_Ready s; ist_Phase := ist_Phase s; ist_AddonPaths := ist_AddonPaths s;
       ist_ObservedGeneration := ist_ObservedGeneration s; ist_Conditions := ist_Conditions s;
       ist_Message := ist_Message s; ist_Initialized := initialized; ist_InitUpgrade := upgrade;
       ist_AppliedAddonsHash := ist_AppliedAddonsHash s; ist_ActiveUpgrade := ist_ActiveUpgrade s |} i.

Definition initHoldGate (instance : OdooInstance) (current : string) : OdooInstance * gateDecision :=
  (set_gate current "" instance, gateRoll current).

(** [gateDecision] with the fields [gateAddonsRollout] adds. *)
Definition gate_report (message succeeded : string) (d : gateDecision) : gateDecision :=
  {| gd_templateHash := gd_templateHash d; gd_appliedHash := gd_appliedHash d;
     gd_activeUpgrade := gd_activeUpgrade d; gd_phase := gd_phase d;
     gd_ensureUpgrade := gd_ensureUpgrade d; gd_upgradeMessage := message;
     gd_succeededUpgrade := succeeded |}.

Section Gate.
Context `{Unicode} `{KubeLib}.

(** The OdooUpgrade object literal both gates create. *)
Definition ownedUpgrade (instance : OdooInstance) (name : string) (modules installModules : list string)
    (withDemo : bool) (secret : string) (timeout : option Z) : OdooUpgrade :=
  {| up_Meta := with_labels {[gateLabelInstance := m_Name (in_Meta instance)]} ∅
                  (newMeta name (m_Namespace (in_Meta instance)));
     up_Spec := {| us_InstanceRef := {| ref_Name := m_Name (in_Meta instance); ref_Namespace := "" |};
                   us_Modules := modules; us_InstallModules := installModules; us_Database := "";
                   us_TimeoutSeconds := timeout; us_WithDemo := withDemo;
                   us_AdminUserPasswordSecret := secret |};
     up_Status := noUpgradeStatus |}.

(** The OdooUpgrades of [gateCreateUpgrade] and [createInitUpgrade]. *)
Definition gateUpgrade (instance : OdooInstance) (upgradeSpec : UpgradeSpec) (name : string) : OdooUpgrade :=
  ownedUpgrade instance name (usp_Modules upgradeSpec) [] false "" (usp_TimeoutSeconds upgradeSpec).
Definition initUpgrade (instance : OdooInstance) (spec : InitializeSpec) (name : string) : OdooUpgrade :=
  ownedUpgrade instance name [] (ini_Modules spec) (ini_WithDemo spec)
    (ini_AdminUserPasswordSecret spec) (ini_TimeoutSeconds spec).

(** The common end: set the owner, create, and accept an existing object. *)
Definition createOwnedUpgrade (instance : OdooInstance) (upgrade : OdooUpgrade) : prog (res unit) :=
  match SetControllerReference (in_Meta instance) (up_Meta upgrade) with
  | Err e => fail e
  | Ok m =>
      let* created := create KUpgrade {| up_Meta := m; up_Spec := up_Spec upgrade;
                                         up_Status := up_Status upgrade |} in
      match IgnoreAlreadyExists created with
      | Err e => fail (WrapError ("create OdooUpgrade " +:+ Quote (m_Name (up_Meta upgrade)) +:+ ": " +:+
                                  error_text e) e)
      | Ok _ => ok tt
      end
  end.

(** [gateCreateUpgrade]; [spec.upgrade] is set when it is called. *)
Definition gateCreateUpgrade (instance : OdooInstance) (upgradeSpec : UpgradeSpec) (name : string)
    : prog (res unit) :=
  createOwnedUpgrade instance (gateUpgrade instance upgradeSpec name).

(** The read of the OdooUpgrade: whether it exists, its phase and its message. *)
Definition readGateUpgrade (instance : OdooInstance) (name : string)
    : prog (res (option (string * string))) :=
  let* got := get KUpgrade {| nn_Namespace := m_Namespace (in_Meta instance); nn_Name := name |} in
  match got with
  | Err e =>
      if IsNotFound e then ok None
      else fail (WrapError ("get OdooUpgrade " +:+ Quote name +:+ ": " +:+ error_text e) e)
  | Ok upgrade =>
      let owner := ref_Name (us_InstanceRef (up_Spec upgrade)) in
      if negb (String.eqb owner (m_Name (in_Meta instance))) then
        fail (ErrorString ("OdooUpgrade " +:+ Quote name +:+ " belongs to instance " +:+ Quote owner +:+
                           ", not " +:+ Quote (m_Name (in_Meta instance))))
      else ok (Some (ust_Phase (up_Status upgrade), ust_Message (up_Status upgrade)))
  end.

(** The second half of [gateAddonsRollout]: the decision on a filled input. *)
Definition gateFinish (instance : OdooInstance) (i : gateInput) (message : string)
    : prog (res (OdooInstance * gateDecision)) :=
  let decision := gateDecide i in
  let? _ :=
    match gd_ensureUpgrade decision, is_Upgrade (in_Spec instance) with
    | true, Some upgradeSpec => gateCreateUpgrade instance upgradeSpec (gi_upgradeName i)
    | _, _ => ok tt
    end in
  let succeeded := if gi_upgradeExists i && String.eqb (gi_upgradePhase i) UpgradePhaseSucceeded
                   then gi_upgradeName i else "" in
  ok (set_gate (gd_appliedHash decision) (gd_activeUpgrade decision) instance,
      gate_report message succeeded decision).

Definition gateAddonsRollout (instance : OdooInstance) (current : string)
    : prog (res (OdooInstance * gateDecision)) :=
  let applied := ist_AppliedAddonsHash (in_Status instance) in
  let name := gateUpgradeName (m_Name (in_Meta instance)) current in
  let upgradeSet := match is_Upgrade (in_Spec instance) with Some _ => true | None => false end in
  let input name exists_ phase :=
    {| gi_upgradeSet := upgradeSet; gi_applied := applied; gi_current := current;
       gi_upgradeName := name; gi_upgradeExists := exists_; gi_upgradePhase := phase |} in
  if upgradeSet && negb (String.eqb applied "") && negb (String.eqb applied current) then
    let? found := readGateUpgrade instance name in
    match found with
    | None => gateFinish instance (input name false "") ""
    | Some (phase, message) => gateFinish instance (input name true phase) message
    end
  else gateFinish instance (input "" false "") "".

(** ** Initialisation *)
Definition checkInitSecret (instance : OdooInstance) (spec : InitializeSpec) : prog (res unit) :=
  let name := ini_AdminUserPasswordSecret spec in
  let* got := get KSecret {| nn_Namespace := m_Namespace (in_Meta instance); nn_Name := name |} in
  match got with
  | Ok _ => ok tt
  | Err e =>
      if IsNotFound e then
        fail (ReasonError ReasonMissingSecret
          (ErrorString ("secret " +:+ Quote name +:+
             " referenced by spec.initialize.adminUserPasswordSecret does not exist in namespace " +:+
             Quote (m_Namespace (in_Meta instance)))))
      else fail (WrapError ("get secret " +:+ Quote name +:+ ": " +:+ error_text e) e)
  end.

Definition createInitUpgrade (instance : OdooInstance) (spec : InitializeSpec) (name : string)
    : prog (res unit) :=
  createOwnedUpgrade instance (initUpgrade instance spec name).

(** The second half of [readInitState]: the OdooUpgrade. *)
Definition readInitUpgrade (instance : OdooInstance) (upgradeName : string) (live : Z)
    : prog (res initInput) :=
  let? found := readGateUpgrade instance upgradeName in
  ok (match found with
      | None => {| ii_requested := true; ii_initialized := false; ii_upgradeName := upgradeName;
                   ii_upgradeExists := false; ii_upgradePhase := ""; ii_upgradeMessage := "";
                   ii_liveReplicas := live |}
      | Some (phase, message) =>
          {| ii_requested := true; ii_initialized := false; ii_upgradeName := upgradeName;
             ii_upgradeExists := true; ii_upgradePhase := phase; ii_upgradeMessage := message;
             ii_liveReplicas := live |}
      end).

(** [readInitState] on the input of a requested, not yet done initialisation. *)
Definition readInitState (instance : OdooInstance) (upgradeName : string) : prog (res initInput) :=
  let* got := get KDeployment {| nn_Namespace := m_Namespace (in_Meta instance);
                                 nn_Name := m_Name (in_Meta instance) |} in
  match got with
  | Ok deploy => readInitUpgrade instance upgradeName (dep_StatusReadyReplicas deploy)
  | Err e =>
      if IsNotFound e then readInitUpgrade instance upgradeName 0
      else fail (WrapError ("get Deployment " +:+ Quote (m_Name (in_Meta instance)) +:+ ": " +:+
                            error_text e) e)
  end.

Definition decideInitialization (instance : OdooInstance) : prog (res initDecision) :=
  let name := initUpgradeName (m_Name (in_Meta instance)) in
  match is_Initialize (in_Spec instance) with
  | Some spec =>
      if ist_Initialized (in_Status instance) then
        ok (initDecide {| ii_requested := true; ii_initialized := true; ii_upgradeName := name;
              ii_upgradeExists := false; ii_upgradePhase := ""; ii_upgradeMessage := "";
              ii_liveReplicas := 0 |})
      else
        let? i := readInitState instance name in
        let dec := initDecide i in
        if id_ensureUpgrade dec then
          let? _ := checkInitSecret instance spec in
          let? _ := createInitUpgrade instance spec (id_upgradeName dec) in
          ok dec
        else ok dec
  | None =>
      ok (initDecide {| ii_requested := false; ii_initialized := ist_Initialized (in_Status instance);
            ii_upgradeName := name; ii_upgradeExists := false; ii_upgradePhase := "";
            ii_upgradeMessage := ""; ii_liveReplicas := 0 |})
  end.

Definition initEvents (dec : initDecision) : list statusEvent :=
  (if negb (String.eqb (id_succeeded dec) "")
   then [mkEvent EventTypeNormal eventReasonInitialized eventActionInit
           ("database initialised by OdooUpgrade " +:+ Quote (id_succeeded dec) +:+
            "; rolling out the pods") (id_succeeded dec)]
   else []) ++
  (if id_adopted dec
   then [mkEvent EventTypeWarning eventReasonInitSkipped eventActionInit
           ("spec.initialize is set but the Deployment already has ready pods; the database is " +:+
            "treated as initialised and nothing was run against it") ""]
   else []).
End Gate.

(** ** Properties of the decisions *)

(** When the pods may move to the current revision. *)
Definition rolls (i : gateInput) : Prop :=
  gi_upgradeSet i = false ∨ gi_applied i = "" ∨ gi_current i = gi_applied i ∨
  (gi_upgradeExists i = true ∧ gi_upgradePhase i = UpgradePhaseSucceeded).

(** The contract of the gate decision. *)
Definition gate_contract (i : gateInput) (d : gateDecision) : Prop :=
  gd_appliedHash d = gd_templateHash d ∧
  (rolls i → gd_templateHash d = gi_current i ∧ gd_activeUpgrade d = "" ∧ gd_phase d = "" ∧
     gd_ensureUpgrade d = false) ∧
  (¬ rolls i → gd_templateHash d = gi_applied i ∧ gi_applied i ≠ gi_current i ∧
     gd_activeUpgrade d = gi_upgradeName i ∧ gd_ensureUpgrade d = negb (gi_upgradeExists i) ∧
     gd_phase d = (if gi_upgradeExists i && String.eqb (gi_upgradePhase i) UpgradePhaseFailed
                   then gatePhaseUpgradeFailed else gatePhaseUpgrading)).

Lemma gateDecide_contract i : gate_contract i (gateDecide i).
Proof.
  unfold gate_contract. cbn zeta.
  unfold gateDecide, rolls. destruct (gi_upgradeSet i); cbn [negb orb]; [|naive_solver].
  destruct (String.eqb_spec (gi_applied i) ""); [naive_solver|].
  destruct (String.eqb_spec (gi_current i) (gi_applied i)); [naive_solver congruence|].
  destruct (gi_upgradeExists i); cbn [negb andb]; [|naive_solver].
  destruct (String.eqb_spec (gi_upgradePhase i) UpgradePhaseSucceeded) as [->|].
  - cbn. naive_solver.
  - destruct (String.eqb_spec (gi_upgradePhase i) UpgradePhaseFailed); cbn; naive_solver.
Qed.

(** The rollout gate. The pods move to the current revision exactly when there is no gate
    (no [spec.upgrade], or nothing applied yet), nothing changed, or the OdooUpgrade of the new
    revision succeeded. Otherwise they stay on the applied revision, the upgrade is reported as
    active, it is created exactly when it does not exist, and the phase says whether it failed.
    The recorded hash is always the hash the pods get. *)
Theorem gateDecide_spec i :
  let d := gateDecide i in
  gd_appliedHash d = gd_templateHash d ∧
  (rolls i → gd_templateHash d = gi_current i ∧ gd_activeUpgrade d = "" ∧ gd_phase d = "" ∧
     gd_ensureUpgrade d = false) ∧
  (¬ rolls i → gd_templateHash d = gi_applied i ∧ gi_applied i ≠ gi_current i ∧
     gd_activeUpgrade d = gi_upgradeName i ∧ gd_ensureUpgrade d = negb (gi_upgradeExists i) ∧
     gd_phase d = (if gi_upgradeExists i && String.eqb (gi_upgradePhase i) UpgradePhaseFailed
                   then gatePhaseUpgradeFailed else gatePhaseUpgrading)).
Proof. apply gateDecide_contract. Qed.

Definition gate_example : gateInput :=
  {| gi_upgradeSet := true; gi_applied := "old"; gi_current := "new"; gi_upgradeName := "shop-upg-0";
     gi_upgradeExists := true; gi_upgradePhase := "Running" |}.

Lemma gateDecide_spec_witness :
  gd_templateHash (gateDecide gate_example) = "old" ∧ ¬ rolls gate_example ∧
  gd_ensureUpgrade (gateDecide gate_example) = false.
Proof.
  assert (¬ rolls gate_example) as Hr by (unfold rolls; naive_solver).
  destruct (gateDecide_spec gate_example) as (_ & _ & Hd).
  destruct (Hd Hr) as (-> & _ & _ & -> & _). done.
Defined.

(** The contract of the initialisation decision. *)
Definition init_contract (i : initInput) (d : initDecision) : Prop :=
  id_pending d = ii_requested i && negb (id_initialized d) ∧
  (id_initialized d = true ↔
     ii_initialized i = true ∨
     (ii_requested i = true ∧
      ((ii_upgradeExists i = true ∧ ii_upgradePhase i = UpgradePhaseSucceeded) ∨
       (ii_upgradeExists i = false ∧ 0 < ii_liveReplicas i)))) ∧
  (id_ensureUpgrade d = true ↔
     ii_requested i = true ∧ ii_initialized i = false ∧ ii_upgradeExists i = false ∧
     ii_liveReplicas i ≤ 0) ∧
  (id_ensureUpgrade d = true → id_pending d = true ∧ id_upgradeName d = ii_upgradeName i) ∧
  (id_pending d = true → id_phase d = phaseInitializing ∨
     (id_phase d = phaseInitFailed ∧ ii_upgradePhase i = UpgradePhaseFailed)).

Lemma initDecide_contract i : init_contract i (initDecide i).
Proof.
  unfold init_contract. cbn zeta.
  unfold initDecide. destruct (ii_initialized i).
  { rewrite orb_true_r. cbn. rewrite andb_false_r. naive_solver. }
  destruct (ii_requested i); cbn [negb orb]; [|cbn; naive_solver].
  destruct (ii_upgradeExists i); cbn [negb andb].
  - destruct (String.eqb_spec (ii_upgradePhase i) UpgradePhaseSucceeded); [cbn; naive_solver|].
    destruct (String.eqb_spec (ii_upgradePhase i) UpgradePhaseFailed); cbn; naive_solver.
  - destruct (Z.ltb_spec 0 (ii_liveReplicas i)); cbn.
    + split_and!; naive_solver lia.
    + split_and!; naive_solver lia.
Qed.

(** The initialisation gate. The Deployment is held at zero pods exactly while an
    initialisation is requested and the database does not count as initialised; the database
    counts as initialised exactly when it already did, or the initialisation is requested and
    its OdooUpgrade succeeded, or there is no such OdooUpgrade while pods are ready (it is
    adopted and nothing is run). The OdooUpgrade is created exactly when it does not exist and
    no pod is ready. *)
Theorem initDecide_spec i :
  let d := initDecide i in
  id_pending d = ii_requested i && negb (id_initialized d) ∧
  (id_initialized d = true ↔
     ii_initialized i = true ∨
     (ii_requested i = true ∧
      ((ii_upgradeExists i = true ∧ ii_upgradePhase i = UpgradePhaseSucceeded) ∨
       (ii_upgradeExists i = false ∧ 0 < ii_liveReplicas i)))) ∧
  (id_ensureUpgrade d = true ↔
     ii_requested i = true ∧ ii_initialized i = false ∧ ii_upgradeExists i = false ∧
     ii_liveReplicas i ≤ 0) ∧
  (id_ensureUpgrade d = true → id_pending d = true ∧ id_upgradeName d = ii_upgradeName i) ∧
  (id_pending d = true → id_phase d = phaseInitializing ∨
     (id_phase d = phaseInitFailed ∧ ii_upgradePhase i = UpgradePhaseFailed)).
Proof. apply initDecide_contract. Qed.

Definition init_example : initInput :=
  {| ii_requested := true; ii_initialized := false; ii_upgradeName := "shop-init";
     ii_upgradeExists := false; ii_upgradePhase := ""; ii_upgradeMessage := "";
     ii_liveReplicas := 0 |}.

Lemma initDecide_spec_witness :
  id_pending (initDecide init_example) = true ∧ id_upgradeName (initDecide init_example) = "shop-init".
Proof. by apply (initDecide_spec init_example). Defined.

(** Names of gate upgrades. The name fits in 63 characters for every instance name, ends with
    eight digits of the revision's hash after "-upg-", so two revisions of one instance share a
    name only when these digits agree. *)
Lemma gateUpgradeName_spec instanceName hash :
  (8 ≤ len hash)%nat →
  (len (gateUpgradeName instanceName hash) ≤ 63)%nat ∧
  ∃ prefix, (∀ hash', (8 ≤ len hash')%nat →
      gateUpgradeName instanceName hash' = prefix +:+ "-upg-" +:+ str_take 8 hash') ∧
    ∀ hash', (8 ≤ len hash')%nat →
      gateUpgradeName instanceName hash = gateUpgradeName instanceName hash' →
      str_take 8 hash = str_take 8 hash'.
Proof.
  intros Hlen. unfold gateUpgradeName. unfold gateMaxNameLen, gateHashPrefixLen, gateUpgradeInfix.
  change (63 - len "-upg-" - 8)%nat with 50%nat.
  set (prefix := TrimRight _ "-"). split.
  - rewrite !len_app, len_str_take. change (len "-upg-") with 5%nat.
    assert (len prefix ≤ 50)%nat; [|lia]. subst prefix. unfold TrimRight, TrimRightFunc.
    rewrite len_str_rev. etrans; [apply len_TrimLeftFunc|]. rewrite len_str_rev, len_str_take. lia.
  - exists prefix. split; [done|]. intros hash' Hlen' Heq.
    apply app_inj_len in Heq as [_ Heq]; [|done]. by apply app_inj_len in Heq as [_ ?].
Qed.

Lemma gateUpgradeName_spec_witness :
  (len (gateUpgradeName "an-instance-with-a-name-that-is-much-too-long-for-the-label-limit"
          (sha256Hex "abc")) ≤ 63)%nat ∧
  gateUpgradeName "shop" (sha256Hex "abc") = "shop-upg-ba7816bf".
Proof.
  split; [|by vm_compute]. apply gateUpgradeName_spec. rewrite sha256Hex_abc. cbn. lia.
Defined.

Close Scope Z_scope.
