(* ===== verification/InstanceController.v ===== *)
(** * The instance controller (odooinstance_controller.go, odooinstance_storage.go, and the
    cluster part of odooinstance_cron.go)

    [reconcileOdooInstance] changes the instance it is given in place, also when it fails: it
    returns the instance next to its result. A closure given to [CreateOrUpdate] is a function of
    the object the server holds. *)
From S2P Require Export InstanceGate.

Open Scope Z_scope.

(** ** odooinstance_storage.go *)
Definition dataRetainOnDelete (spec : OdooInstanceSpec) : bool :=
  match dv_RetainOnDelete (is_Data spec) with None => true | Some b => b end.

Definition accessModesOrDefault (mode : string) : list string :=
  [if String.eqb mode "" then ReadWriteOnce else mode].

Definition hasOwnerRef (refs : list OwnerReference) (uid : string) : bool :=
  existsb (λ r, String.eqb (owner_UID r) uid) refs.

Definition ownerRefsWithoutUID (refs : list OwnerReference) (uid : string) : list OwnerReference :=
  List.filter (λ r, negb (String.eqb (owner_UID r) uid)) refs.

Record pvcRequest := {
  pvr_name : string;
  pvr_size : string;
  pvr_defaultSize : string;
  pvr_storage : option string;
  pvr_accessMode : string;
  pvr_owned : bool
}.

Definition pvc_with_meta (m : ObjectMeta) (p : PersistentVolumeClaim) : PersistentVolumeClaim :=
  {| pvc_Meta := m; pvc_AccessModes := pvc_AccessModes p; pvc_StorageRequest := pvc_StorageRequest p;
     pvc_StorageClassName := pvc_StorageClassName p; pvc_Phase := pvc_Phase p |}.

(** ** Assignments to the instance *)
Definition in_with_meta (m : ObjectMeta) (i : OdooInstance) : OdooInstance :=
  {| in_Meta := m; in_Spec := in_Spec i; in_Status := in_Status i |}.

Definition set_phase (phase : string) (ready : bool) (i : OdooInstance) : OdooInstance :=
  let s := in_Status i in
  in_with_status
    {| ist_Ready := ready; ist_Phase := phase; ist_AddonPaths := ist_AddonPaths s;
       ist_ObservedGeneration := ist_ObservedGeneration s; ist_Conditions := ist_Conditions s;
       ist_Message := ist_Message s; ist_Initialized := ist_Initialized s;
       ist_InitUpgrade := ist_InitUpgrade s; ist_AppliedAddonsHash := ist_AppliedAddonsHash s;
       ist_ActiveUpgrade := ist_ActiveUpgrade s |} i.

Definition set_observed (gen : Z) (i : OdooInstance) : OdooInstance :=
  let s := in_Status i in
  in_with_status
    {| ist_Ready := ist_Ready s; ist_Phase := ist_Phase s; ist_AddonPaths := ist_AddonPaths s;
       ist_ObservedGeneration := gen; ist_Conditions := ist_Conditions s;
       ist_Message := ist_Message s; ist_Initialized := ist_Initialized s;
       ist_InitUpgrade := ist_InitUpgrade s; ist_AppliedAddonsHash := ist_AppliedAddonsHash s;
       ist_ActiveUpgrade := ist_ActiveUpgrade s |} i.

Definition set_paths (paths : list string) (i : OdooInstance) : OdooInstance :=
  let s := in_Status i in
  in_with_status
    {| ist_Ready := ist_Ready s; ist_Phase := ist_Phase s; ist_AddonPaths := paths;
       ist_ObservedGeneration := ist_ObservedGeneration s; ist_Conditions := ist_Conditions s;
       ist_Message := ist_Message s; ist_Initialized := ist_Initialized s;
       ist_InitUpgrade := ist_InitUpgrade s; ist_AppliedAddonsHash := ist_AppliedAddonsHash s;
       ist_ActiveUpgrade := ist_ActiveUpgrade s |} i.

Definition set_conds (conds : list Condition) (message : string) (i : OdooInstance) : OdooInstance :=
  let s := in_Status i in
  in_with_status
    {| ist_Ready := ist_Ready s; ist_Phase := ist_Phase s; ist_AddonPaths := ist_AddonPaths s;
       ist_ObservedGeneration := ist_ObservedGeneration s; ist_Conditions := conds;
       ist_Message := message; ist_Initialized := ist_Initialized s;
       ist_InitUpgrade := ist_InitUpgrade s; ist_AppliedAddonsHash := ist_AppliedAddonsHash s;
       ist_ActiveUpgrade := ist_ActiveUpgrade s |} i.

Definition conflictRequeue : Z := Second.

(** Returns early with the instance as it is on an error. *)
Definition try_with {A B} (i : OdooInstance) (p : prog (res A))
    (f : A → prog (OdooInstance * res B)) : prog (OdooInstance * res B) :=
  prog_bind p (λ r, match r with Ok a => f a | Err e => Ret (i, Err e) end).
Notation "'let?[' i ] x := p 'in' q" := (try_with i p (λ x, q))
  (at level 200, i at level 10, x binder, p at level 100, q at level 200, right associativity)
  : prog_scope.

Section Instance.
Context `{Unicode} `{KubeLib}.
Context (r : Reconciler).

Definition isConflict (e : error) : bool := IsConflict e.

(** [conflictResult] *)
Definition conflictResult (e : error) : res Result :=
  if isConflict e then Ok (requeue conflictRequeue) else Err e.

(** ** Volumes *)
Definition syncPVCOwnership (instance : OdooInstance) (pvc : PersistentVolumeClaim) (owned : bool)
    : prog (res unit) :=
  let uid := m_UID (in_Meta instance) in
  if Bool.eqb owned (hasOwnerRef (m_OwnerReferences (pvc_Meta pvc)) uid) then ok tt
  else
    let m := if owned then SetControllerReference (in_Meta instance) (pvc_Meta pvc)
             else Ok (with_owners (ownerRefsWithoutUID (m_OwnerReferences (pvc_Meta pvc)) uid)
                        (pvc_Meta pvc)) in
    match m with
    | Err e => fail e
    | Ok m =>
        let? _ := call (OpPatch KPVC pvc (pvc_with_meta m pvc)) in
        ok tt
    end.

Definition newPVC (instance : OdooInstance) (req : pvcRequest) (quantity : Quantity)
    : PersistentVolumeClaim :=
  {| pvc_Meta := newMeta (pvr_name req) (m_Namespace (in_Meta instance));
     pvc_AccessModes := accessModesOrDefault (pvr_accessMode req);
     pvc_StorageRequest := quantity;
     pvc_StorageClassName := pvr_storage req;
     pvc_Phase := "" |}.

Definition reconcileSinglePVC (instance : OdooInstance) (req : pvcRequest) : prog (res unit) :=
  let* got := get KPVC {| nn_Namespace := m_Namespace (in_Meta instance); nn_Name := pvr_name req |} in
  match got with
  | Ok pvc => syncPVCOwnership instance pvc (pvr_owned req)
  | Err e =>
      if negb (IsNotFound e) then fail e
      else
        let size := if String.eqb (pvr_size req) "" then pvr_defaultSize req else pvr_size req in
        match ParseQuantity size with
        | Err e =>
            fail (ReasonError ReasonInvalidConfig
              (WrapError ("invalid size " +:+ Quote size +:+ " for PVC " +:+ pvr_name req +:+ ": " +:+
                          error_text e) e))
        | Ok quantity =>
            let pvc := newPVC instance req quantity in
            let m := if pvr_owned req then SetControllerReference (in_Meta instance) (pvc_Meta pvc)
                     else Ok (pvc_Meta pvc) in
            match m with
            | Err e => fail e
            | Ok m => let? _ := create KPVC (pvc_with_meta m pvc) in ok tt
            end
        end
  end.

Definition addonsPVCRequest (instance : OdooInstance) : pvcRequest :=
  {| pvr_name := addonsPVCName (m_Name (in_Meta instance));
     pvr_size := av_Size (is_Addons (in_Spec instance));
     pvr_defaultSize := defaultAddonsSize;
     pvr_storage := av_StorageClass (is_Addons (in_Spec instance));
     pvr_accessMode := av_AccessMode (is_Addons (in_Spec instance));
     pvr_owned := true |}.
Definition dataPVCRequest (instance : OdooInstance) : pvcRequest :=
  {| pvr_name := dataPVCName (m_Name (in_Meta instance));
     pvr_size := dv_Size (is_Data (in_Spec instance));
     pvr_defaultSize := defaultDataSize;
     pvr_storage := dv_StorageClass (is_Data (in_Spec instance));
     pvr_accessMode := dv_AccessMode (is_Data (in_Spec instance));
     pvr_owned := negb (dataRetainOnDelete (in_Spec instance)) |}.

Definition reconcilePVC (instance : OdooInstance) : prog (res unit) :=
  let? _ := reconcileSinglePVC instance (addonsPVCRequest instance) in
  reconcileSinglePVC instance (dataPVCRequest instance).

(** ** The objects of the instance *)
Definition instanceKey (instance : OdooInstance) (name : string) : NamespacedName :=
  {| nn_Namespace := m_Namespace (in_Meta instance); nn_Name := name |}.

Definition createOrUpdate (k : kind) (key : NamespacedName) (mutate : obj k → res (obj k))
    : prog (res (obj k * OperationResult)) := call (OpCreateOrUpdate k key mutate).

Definition reconcileConfigMap (instance : OdooInstance) (conf : string) : prog (res unit) :=
  let? _ := createOrUpdate KConfigMap (instanceKey instance (configMapName (m_Name (in_Meta instance))))
    (λ cm : ConfigMap,
       SetControllerReference (in_Meta instance) (cm_Meta cm) ≫= λ m,
       Ok {| cm_Meta := m; cm_Data := {[confFileName := conf]} |}) in
  ok tt.

(** The loop of [referencedSecrets] over (field, name). *)
Fixpoint fetchSecrets (instance : OdooInstance) (refs : list (string * string)) : prog (res (list Secret)) :=
  match refs with
  | [] => ok []
  | (field, name) :: refs =>
      if String.eqb name "" then fetchSecrets instance refs
      else
        let* got := get KSecret (instanceKey instance name) in
        match got with
        | Err e =>
            if IsNotFound e then
              fail (ReasonError ReasonMissingSecret (ErrorString
                ("secret " +:+ Quote name +:+ " referenced by " +:+ field +:+
                 " does not exist in namespace " +:+ Quote (m_Namespace (in_Meta instance)))))
            else fail (WrapError ("get secret " +:+ Quote name +:+ ": " +:+ error_text e) e)
        | Ok secret =>
            let? secrets := fetchSecrets instance refs in
            ok (secret :: secrets)
        end
  end.

Definition referencedSecrets (instance : OdooInstance) : prog (res (list Secret)) :=
  fetchSecrets instance
    [("spec.postgres.passwordSecret", pg_PasswordSecret (is_Postgres (in_Spec instance)));
     ("spec.adminPasswordSecret", is_AdminPasswordSecret (in_Spec instance))].

Definition listReadyAddons (instance : OdooInstance) : prog (res (list OdooAddon)) :=
  let? items := list_objects KAddon (m_Namespace (in_Meta instance)) ∅ in
  ok (filterReadyAddons items (m_Name (in_Meta instance))).

(** The closure of [reconcileDeployment]. *)
Definition mutateDeployment (instance : OdooInstance) (hashes : rolloutHashes) (replicas : Z)
    (deploy : Deployment) : res Deployment :=
  SetControllerReference (in_Meta instance) (dep_Meta deploy) ≫= λ m,
  let name := m_Name (in_Meta instance) in
  Ok {| dep_Meta := with_labels (podLabels name) (m_Annotations m) m;
        dep_Replicas := Some replicas;
        dep_Selector := Some (selectorLabels name);
        dep_Strategy := deploymentStrategy (desiredReplicas (in_Spec instance))
                          (dv_AccessMode (is_Data (in_Spec instance)));
        dep_Template := buildPodTemplate instance hashes;
        dep_StatusReplicas := dep_StatusReplicas deploy;
        dep_StatusReadyReplicas := dep_StatusReadyReplicas deploy |}.

Definition reconcileDeployment (instance : OdooInstance) (hashes : rolloutHashes) (replicas : Z)
    : prog (res unit) :=
  let? _ := createOrUpdate KDeployment (instanceKey instance (m_Name (in_Meta instance)))
              (mutateDeployment instance hashes replicas) in
  ok tt.

Definition deletePDBIfOwned (instance : OdooInstance) : prog (res unit) :=
  let* got := get KPDB (instanceKey instance (m_Name (in_Meta instance))) in
  match got with
  | Err e => Ret (IgnoreNotFound (Err e))
  | Ok pdb =>
      if negb (IsControlledBy (pdb_Meta pdb) (in_Meta instance)) then ok tt
      else let* err := deleteObject KPDB pdb None in Ret (IgnoreNotFound err)
  end.

Definition reconcilePDB (instance : OdooInstance) : prog (res unit) :=
  if desiredReplicas (in_Spec instance) <=? 1 then deletePDBIfOwned instance
  else
    let? _ := createOrUpdate KPDB (instanceKey instance (m_Name (in_Meta instance)))
      (λ pdb : PodDisruptionBudget,
         SetControllerReference (in_Meta instance) (pdb_Meta pdb) ≫= λ m,
         Ok {| pdb_Meta := m; pdb_MinAvailable := None; pdb_MaxUnavailable := Some 1;
               pdb_Selector := Some (podLabels (m_Name (in_Meta instance))) |}) in
    ok tt.

Definition reconcileService (instance : OdooInstance) : prog (res unit) :=
  let? _ := createOrUpdate KService (instanceKey instance (m_Name (in_Meta instance)))
    (λ svc : Service,
       SetControllerReference (in_Meta instance) (svc_Meta svc) ≫= λ m,
       Ok {| svc_Meta := m; svc_Type := ServiceTypeClusterIP;
             svc_Selector := selectorLabels (m_Name (in_Meta instance));
             svc_Ports := buildServicePorts |}) in
  ok tt.

(** ** The cron Deployment *)
Definition mutateCronDeployment (instance : OdooInstance) (hashes : rolloutHashes) (replicas : Z)
    (deploy : Deployment) : res Deployment :=
  SetControllerReference (in_Meta instance) (dep_Meta deploy) ≫= λ m,
  let name := m_Name (in_Meta instance) in
  Ok {| dep_Meta := with_labels (cronPodLabels name) (m_Annotations m) m;
        dep_Replicas := Some replicas;
        dep_Selector := Some (cronSelectorLabels name);
        dep_Strategy := Recreate;
        dep_Template := buildCronPodTemplate instance hashes;
        dep_StatusReplicas := dep_StatusReplicas deploy;
        dep_StatusReadyReplicas := dep_StatusReadyReplicas deploy |}.

Definition reconcileCronDeployment (instance : OdooInstance) (hashes : rolloutHashes) (replicas : Z)
    : prog (res (Deployment * OperationResult)) :=
  createOrUpdate KDeployment (instanceKey instance (cronDeploymentName (m_Name (in_Meta instance))))
    (mutateCronDeployment instance hashes replicas).

Definition deleteCronDeployment (instance : OdooInstance) : prog (res bool) :=
  let* got := get KDeployment
                (instanceKey instance (cronDeploymentName (m_Name (in_Meta instance)))) in
  match got with
  | Err e => if IsNotFound e then ok false else fail e
  | Ok deploy =>
      if negb (IsControlledBy (dep_Meta deploy) (in_Meta instance)) then ok false
      else
        let* err := deleteObject KDeployment deploy None in
        match IgnoreNotFound err with Err e => fail e | Ok _ => ok true end
  end.

Definition cronOff (events : list statusEvent) : cronOutcome :=
  {| cron_enabled := false; cron_deployFound := false; cron_held := false; cron_replicas := 0;
     cron_ready := 0; cron_events := events |}.

Definition reconcileCron (instance : OdooInstance) (hashes : rolloutHashes) (held : bool)
    : prog (res cronOutcome) :=
  let name := cronDeploymentName (m_Name (in_Meta instance)) in
  if negb (cronEnabled (in_Spec instance)) then
    let? deleted := deleteCronDeployment instance in
    ok (cronOff (if deleted : bool then
      [mkEvent EventTypeNormal eventReasonCronDisabled eventActionCron
         ("Deployment " +:+ Quote name +:+
          " deleted; the web pods run the scheduled actions again") ""] else []))
  else
    let? updated := reconcileCronDeployment instance hashes (cronReplicas held) in
    let '(deploy, result) := updated in
    ok {| cron_enabled := true; cron_deployFound := true; cron_held := held;
          cron_replicas := dep_StatusReplicas deploy; cron_ready := dep_StatusReadyReplicas deploy;
          cron_events :=
            match result with
            | OperationResultCreated =>
                [mkEvent EventTypeNormal eventReasonCronEnabled eventActionCron
                   ("Deployment " +:+ Quote name +:+ " created with " +:+
                    Itoa (cronMaxThreads (in_Spec instance)) +:+
                    " cron worker(s); the web pods run no cron workers") ""]
            | _ => []
            end |}.

Definition applyCronCondition (now : Time) (conds : list Condition) (gen : Z) (cron : cronOutcome)
    : list Condition :=
  if negb (cron_enabled cron) then RemoveStatusCondition conds ConditionTypeCronReady
  else setConditions now conds gen [cronCondition cron].

(** ** One pass *)

(** The phase and readiness from the Deployment as it is after the writes. *)
Definition settleDeployment (got : res Deployment) (desired : Z) (i : OdooInstance) : OdooInstance :=
  match got with
  | Ok deploy =>
      if desired <=? dep_StatusReadyReplicas deploy then set_phase phaseRunning true i
      else set_phase phaseCreating false i
  | Err _ => set_phase phaseCreating false i
  end.

(** The overrides of the two gates. *)
Definition settleGates (gate : gateDecision) (dec : initDecision) (i : OdooInstance) : OdooInstance :=
  let i := if negb (String.eqb (gd_phase gate) "")
           then set_phase (gd_phase gate) (ist_Ready (in_Status i)) i else i in
  let i := if String.eqb (gd_phase gate) gatePhaseUpgradeFailed
           then set_phase (ist_Phase (in_Status i)) false i else i in
  if id_pending dec then set_phase (id_phase dec) false i else i.

Definition passResult (gate : gateDecision) (dec : initDecision) : Result :=
  let result := if String.eqb (gd_phase gate) gatePhaseUpgradeFailed then requeue gateFailedRequeue
                else noResult in
  if String.eqb (id_phase dec) phaseInitFailed then requeue initFailedRequeue else result.

Definition passFacts (i : OdooInstance) (got : res Deployment) (desired : Z) (gate : gateDecision)
    (dec : initDecision) : instanceCondFacts :=
  {| f_Phase := ist_Phase (in_Status i);
     f_DeploymentFound := is_Ok got;
     f_ReadyReplicas := match got with Ok d => dep_StatusReadyReplicas d | Err _ => 0 end;
     f_DesiredReplicas := desired;
     f_ActiveUpgrade := ist_ActiveUpgrade (in_Status i);
     f_UpgradeMessage := gd_upgradeMessage gate;
     f_InitUpgrade := ist_InitUpgrade (in_Status i);
     f_InitMessage := id_failMessage dec;
     f_ErrReason := ""; f_ErrMessage := "" |}.

(** The end of the pass: read the Deployment back, settle the status, write it, emit events. *)
Definition finishPass (before : OdooInstanceStatus) (instance : OdooInstance) (addons : list OdooAddon)
    (gate : gateDecision) (dec : initDecision) (cron : cronOutcome) : prog (OdooInstance * res Result) :=
  let instance := set_paths (addonMountPaths addons) instance in
  let desired := desiredReplicas (in_Spec instance) in
  let* got := get KDeployment (instanceKey instance (m_Name (in_Meta instance))) in
  let instance := settleGates gate dec (settleDeployment got desired instance) in
  let* now := Now in
  let gen := m_Generation (in_Meta instance) in
  let conds := applyCronCondition now (ist_Conditions (in_Status instance)) gen cron in
  let conds := setConditions now conds gen
                 (instanceConditions (passFacts instance got desired gate dec)) in
  let instance := set_conds conds (instanceSummary conds) instance in
  let* updated := updateStatus KInstance instance in
  match updated with
  | Err e => Ret (instance, Err e)
  | Ok instance =>
      let evs := instanceEvents before (in_Status instance) (gd_succeededUpgrade gate) ++
                 initEvents dec ++ cron_events cron in
      let* _ := emitEvents (rec_Recorder r) (in_Meta instance) evs in
      Ret (instance, Ok (passResult gate dec))
  end.

Definition reconcileOdooInstance (instance0 : OdooInstance) : prog (OdooInstance * res Result) :=
  let before := in_Status instance0 in
  let instance := set_observed (m_Generation (in_Meta instance0))
                    (set_phase phaseCreating (ist_Ready before) instance0) in
  let?[instance] _ := reconcilePVC instance in
  match renderOdooConf (in_Spec instance) with
  | Err e => Ret (instance, Err (ReasonError ReasonInvalidConfig e))
  | Ok conf =>
      let?[instance] _ := reconcileConfigMap instance conf in
      let?[instance] secrets := referencedSecrets instance in
      let?[instance] addons := listReadyAddons instance in
      let?[instance] dec := decideInitialization instance in
      let instance := set_init (id_initialized dec) (id_upgradeName dec) instance in
      let current := addonsHash addons in
      let?[instance] gated :=
        if id_pending dec then ok (initHoldGate instance current)
        else gateAddonsRollout instance current in
      let '(instance, gate) := gated in
      let hashes := {| rh_config := configHash conf; rh_secrets := secretsHash secrets;
                       rh_addons := gd_templateHash gate |} in
      let replicas := if id_pending dec then 0 else desiredReplicas (in_Spec instance) in
      let?[instance] _ := reconcileDeployment instance hashes replicas in
      let?[instance] _ := reconcilePDB instance in
      let?[instance] _ := reconcileService instance in
      let?[instance] cron := reconcileCron instance hashes (id_pending dec) in
      finishPass before instance addons gate dec cron
  end.

(** [handleFinalizer] *)
Definition instanceHandleFinalizer (instance : OdooInstance) : prog (res unit) :=
  if ContainsFinalizer (in_Meta instance) finalizerOdooInstance then
    let? _ := update KInstance
                (in_with_meta (RemoveFinalizer (in_Meta instance) finalizerOdooInstance) instance) in
    ok tt
  else ok tt.

(** The failure branch of [Reconcile]: the Failed status, then the error. *)
Definition failPass (before : OdooInstanceStatus) (instance : OdooInstance) (e : error)
    : prog (res Result) :=
  let* now := Now in
  let facts := {| f_Phase := phaseFailing; f_DeploymentFound := false; f_ReadyReplicas := 0;
                  f_DesiredReplicas := 0; f_ActiveUpgrade := ""; f_UpgradeMessage := "";
                  f_InitUpgrade := ""; f_InitMessage := ""; f_ErrReason := reconcileErrorReason e;
                  f_ErrMessage := error_text e |} in
  let conds := setConditions now (ist_Conditions (in_Status instance)) (m_Generation (in_Meta instance))
                 (instanceConditions facts) in
  let instance := set_conds conds (instanceSummary conds) (set_phase phaseFailing false instance) in
  let* updated := updateStatus KInstance instance in
  match updated with
  | Err _ => fail e
  | Ok instance =>
      let* _ := emitEvents (rec_Recorder r) (in_Meta instance)
                  (instanceEvents before (in_Status instance) "") in
      fail e
  end.

(** [Reconcile] after the finalizer is in place. *)
Definition instancePass (instance : OdooInstance) : prog (res Result) :=
  let before := in_Status instance in
  let* out := reconcileOdooInstance instance in
  match out with
  | (_, Ok result) => ok result
  | (instance, Err e) => if isConflict e then Ret (conflictResult e) else failPass before instance e
  end.

Definition instanceReconcile (key : NamespacedName) : prog (res Result) :=
  let* got := get KInstance key in
  match got with
  | Err e => if IsNotFound e then ok noResult else fail e
  | Ok instance =>
      match m_DeletionTimestamp (in_Meta instance) with
      | Some _ =>
          let* done := instanceHandleFinalizer instance in
          match done with Err e => Ret (conflictResult e) | Ok _ => ok noResult end
      | None =>
          if negb (ContainsFinalizer (in_Meta instance) finalizerOdooInstance) then
            let* updated := update KInstance
              (in_with_meta (AddFinalizer (in_Meta instance) finalizerOdooInstance) instance) in
            match updated with
            | Err e => Ret (conflictResult e)
            | Ok instance => instancePass instance
            end
          else instancePass instance
      end
  end.

(** ** Watches: the instances a Secret or an addon wakes *)
Definition instancesUsingSecret (secret : ObjectMeta) : prog (list NamespacedName) :=
  let* got := list_objects KInstance (m_Namespace secret) ∅ in
  Ret (match got with
       | Err _ => []
       | Ok items =>
           objectKey ∘ in_Meta <$>
             List.filter (λ inst,
               String.eqb (pg_PasswordSecret (is_Postgres (in_Spec inst))) (m_Name secret) ||
               String.eqb (is_AdminPasswordSecret (in_Spec inst)) (m_Name secret)) items
       end).

Definition instancesOfAddon (addon : OdooAddon) : list NamespacedName :=
  let name := ref_Name (ad_InstanceRef (ad_Spec addon)) in
  if String.eqb name "" then []
  else [ {| nn_Namespace := m_Namespace (ad_Meta addon); nn_Name := name |} ].
End Instance.

(** ** What one pass may do *)
Section InstanceSafety.
Context `{Unicode} `{KubeLib}.
Context (r : Reconciler) (inst : OdooInstance).

Abbreviation any := (λ _ _, True).

Definition named (name : string) : NamespacedName :=
  {| nn_Namespace := m_Namespace (in_Meta inst); nn_Name := name |}.

(** An OdooUpgrade of this instance that succeeded was read under this name. *)
Definition upgrade_succeeded (h : list event) (name : string) : Prop :=
  ∃ u : OdooUpgrade, happened h (OpGet KUpgrade (named name)) (Ok u) ∧
    ref_Name (us_InstanceRef (up_Spec u)) = m_Name (in_Meta inst) ∧
    ust_Phase (up_Status u) = UpgradePhaseSucceeded.

(** Why the database counts as initialised. *)
Definition init_evidence (h : list event) : Prop :=
  is_Initialize (in_Spec inst) = None ∨ ist_Initialized (in_Status inst) = true ∨
  upgrade_succeeded h (initUpgradeName (m_Name (in_Meta inst))) ∨
  (∃ (d : Deployment), happened h (OpGet KDeployment (named (m_Name (in_Meta inst)))) (Ok d) ∧
     0 < dep_StatusReadyReplicas d).

(** Why the pods may run with this addons hash. *)
Definition roll_evidence (h : list event) (hash : string) : Prop :=
  is_Upgrade (in_Spec inst) = None ∨ ist_AppliedAddonsHash (in_Status inst) = "" ∨
  hash = ist_AppliedAddonsHash (in_Status inst) ∨
  upgrade_succeeded h (gateUpgradeName (m_Name (in_Meta inst)) hash).

(** A write of the web or cron Deployment: no pod, or both kinds of evidence. *)
Definition deployment_ok (h : list event) (mutate : Deployment → res Deployment) : Prop :=
  ∀ d d', mutate d = Ok d' →
    ∃ n hash, dep_Replicas d' = Some n ∧
      pt_Annotations (dep_Template d') !! annotationAddonsHash = Some hash ∧
      (n = 0 ∨ (init_evidence h ∧ roll_evidence h hash)).

(** The OdooUpgrades a pass may create: that of the initialisation and those of the gate. *)
Definition wanted_upgrade (u : OdooUpgrade) : Prop :=
  (∃ spec, is_Initialize (in_Spec inst) = Some spec ∧
     u = initUpgrade inst spec (initUpgradeName (m_Name (in_Meta inst)))) ∨
  (∃ spec hash, is_Upgrade (in_Spec inst) = Some spec ∧
     u = gateUpgrade inst spec (gateUpgradeName (m_Name (in_Meta inst)) hash)).

(** One of them is created, with the instance as its controller, under a name no object was found
    for. *)
Definition upgrade_create_ok (h : list event) (u : OdooUpgrade) : Prop :=
  ∃ want e m, wanted_upgrade want ∧
    happened h (OpGet KUpgrade (named (m_Name (up_Meta want)))) (Err e) ∧ IsNotFound e = true ∧
    SetControllerReference (in_Meta inst) (up_Meta want) = Ok m ∧
    u = {| up_Meta := m; up_Spec := up_Spec want; up_Status := up_Status want |}.

(** The kinds a pass reads. *)
Definition instance_reads (k : kind) : Prop :=
  match k with KPod | KJob | KCronJob | KBackup => False | _ => True end.

(** The Secrets a pass reads: the two the pods use, and that of the initialisation. *)
Definition pod_secret (name : string) : Prop :=
  name = pg_PasswordSecret (is_Postgres (in_Spec inst)) ∨ name = is_AdminPasswordSecret (in_Spec inst).
Definition init_secret (name : string) : Prop :=
  ∃ spec, is_Initialize (in_Spec inst) = Some spec ∧ name = ini_AdminUserPasswordSecret spec.

Definition instance_may (h : list event) (o : op) : Prop :=
  match o with
  | OpGet KSecret x => nn_Namespace x = m_Namespace (in_Meta inst) ∧
                       (pod_secret (nn_Name x) ∨ init_secret (nn_Name x))
  | OpGet k _ | OpList k _ _ => instance_reads k
  | OpPodLogs _ _ _ _ => False
  | OpCreateOrUpdate KDeployment _ mutate => deployment_ok h mutate
  | OpCreateOrUpdate KConfigMap _ _ | OpCreateOrUpdate KPDB _ _ | OpCreateOrUpdate KService _ _ => True
  | OpCreate KUpgrade u => upgrade_create_ok h u
  | OpCreate KPVC _ | OpPatch KPVC _ _ | OpStatusUpdate KInstance _ => True
  | OpDelete KPDB p _ => IsControlledBy (pdb_Meta p) (in_Meta inst) = true
  | OpDelete KDeployment d _ => IsControlledBy (dep_Meta d) (in_Meta inst) = true
  | o => reads o
  end.

Lemma upgrade_succeeded_mono h h' name :
  h ⊆ h' → upgrade_succeeded h name → upgrade_succeeded h' name.
Proof. intros Hsub (u & Hu & ?). exists u. split; [by apply Hsub|done]. Qed.

Lemma init_evidence_mono h h' : h ⊆ h' → init_evidence h → init_evidence h'.
Proof.
  intros Hsub [?|[?|[?|(d & Hd & ?)]]]; unfold init_evidence; [by auto..| |].
  - right; right; left. by eapply upgrade_succeeded_mono.
  - right; right; right. exists d. split; [by apply Hsub|done].
Qed.

Lemma roll_evidence_mono h h' hash : h ⊆ h' → roll_evidence h hash → roll_evidence h' hash.
Proof.
  intros Hsub [?|[?|[?|?]]]; unfold roll_evidence; [by auto..|].
  right; right; right. by eapply upgrade_succeeded_mono.
Qed.

(** The same object, up to its status. *)
Definition same (i : OdooInstance) : Prop := in_Meta i = in_Meta inst ∧ in_Spec i = in_Spec inst.

(** *** Volumes, configuration, secrets and addons: no condition to check *)
Lemma wp_reconcileSinglePVC h i req : wp instance_may h (reconcileSinglePVC i req) any.
Proof.
  unfold reconcileSinglePVC. wp_calls. split; [done|]. intros [pvc|e].
  - unfold syncPVCOwnership. destruct (Bool.eqb _ _); [done|].
    destruct (if pvr_owned req then _ else _) as [m|e]; [|done]. wp_calls.
    split; [done|]. by intros [|].
  - destruct (IsNotFound e); [|done]. cbn [negb]. destruct (ParseQuantity _) as [q|e']; [|done].
    destruct (if pvr_owned req then _ else _) as [m|e']; [|done]. wp_calls.
    split; [done|]. by intros [|].
Qed.

Lemma wp_reconcilePVC h i : wp instance_may h (reconcilePVC i) any.
Proof.
  apply wp_try. eapply wp_extend; [apply wp_reconcileSinglePVC|]. intros h' [|] _; [|done].
  apply wp_reconcileSinglePVC.
Qed.

Lemma wp_fetchSecrets h i refs :
  in_Meta i = in_Meta inst → Forall (λ r, pod_secret r.2) refs →
  wp instance_may h (fetchSecrets i refs) any.
Proof.
  intros Hm Hrefs. revert h. induction Hrefs as [|[f n] refs Hn _ IH]; intros h; cbn [fetchSecrets]; [done|].
  destruct (String.eqb n ""); [apply IH|]. wp_calls. split; [by split; [cbn; rewrite Hm|left]|].
  intros [s|e]; [|by destruct (IsNotFound e)]. apply wp_bind.
  eapply wp_extend; [apply IH|]. by intros h' [|] _.
Qed.

Lemma wp_reconcilePDB h i :
  in_Meta i = in_Meta inst → wp instance_may h (reconcilePDB i) any.
Proof.
  intros Hm. unfold reconcilePDB. destruct (_ <=? _).
  - unfold deletePDBIfOwned. wp_calls. split; [done|]. intros [pdb|e]; [|done]. rewrite Hm.
    destruct (IsControlledBy _ _) eqn:Hc; [|done]. cbn. by split.
  - wp_calls. split; [done|]. by intros [|].
Qed.

(** *** The gates *)
Lemma wp_readGateUpgrade h i name :
  same i →
  wp instance_may h (readGateUpgrade i name) (λ h' res, h ⊆ h' ∧
    match res with
    | Ok (Some (phase, _)) =>
        ∃ u : OdooUpgrade, happened h' (OpGet KUpgrade (named name)) (Ok u) ∧
          ref_Name (us_InstanceRef (up_Spec u)) = m_Name (in_Meta inst) ∧
          ust_Phase (up_Status u) = phase
    | Ok None => ∃ e, happened h' (OpGet KUpgrade (named name)) (Err e) ∧ IsNotFound e = true
    | Err _ => True
    end).
Proof.
  intros [Hm _]. unfold readGateUpgrade. rewrite Hm. wp_calls. split; [done|]. intros [u|e].
  - destruct (String.eqb_spec (ref_Name (us_InstanceRef (up_Spec u))) (m_Name (in_Meta inst)));
      cbn; (split; [set_solver|]); [|done]. exists u. split; [by left|done].
  - destruct (IsNotFound e) eqn:He; cbn; (split; [set_solver|]); [|done]. exists e. split; [by left|done].
Qed.

(** The object depends on the metadata of the instance only. *)
Lemma ownedUpgrade_meta i name ms ins demo secret timeout :
  in_Meta i = in_Meta inst →
  ownedUpgrade i name ms ins demo secret timeout = ownedUpgrade inst name ms ins demo secret timeout.
Proof. unfold ownedUpgrade. by intros ->. Qed.

Lemma wp_createOwnedUpgrade h i u :
  in_Meta i = in_Meta inst → wanted_upgrade u →
  (∃ e, happened h (OpGet KUpgrade (named (m_Name (up_Meta u)))) (Err e) ∧ IsNotFound e = true) →
  wp instance_may h (createOwnedUpgrade i u) any.
Proof.
  intros Hm Hu (e & He & Hnf). unfold createOwnedUpgrade. rewrite Hm.
  destruct (SetControllerReference _ _) as [m|e'] eqn:Hset; [|done].
  wp_calls. split; [by exists u, e, m|]. intros created. by destruct (IgnoreAlreadyExists created).
Qed.

(** What [readInitState] read. *)
Definition init_read (h : list event) (got : res initInput) : Prop :=
  match got with
  | Ok st =>
      ii_requested st = true ∧ ii_initialized st = false ∧
      ii_upgradeName st = initUpgradeName (m_Name (in_Meta inst)) ∧
      (ii_upgradeExists st = true → ii_upgradePhase st = UpgradePhaseSucceeded →
         upgrade_succeeded h (initUpgradeName (m_Name (in_Meta inst)))) ∧
      (ii_upgradeExists st = false → ∃ e,
         happened h (OpGet KUpgrade (named (initUpgradeName (m_Name (in_Meta inst))))) (Err e) ∧
         IsNotFound e = true) ∧
      (0 < ii_liveReplicas st → ∃ d : Deployment,
         happened h (OpGet KDeployment (named (m_Name (in_Meta inst)))) (Ok d) ∧
         0 < dep_StatusReadyReplicas d)
  | Err _ => True
  end.

Lemma wp_readInitUpgrade h i live :
  same i →
  (0 < live → ∃ d : Deployment,
     happened h (OpGet KDeployment (named (m_Name (in_Meta inst)))) (Ok d) ∧
     0 < dep_StatusReadyReplicas d) →
  wp instance_may h (readInitUpgrade i (initUpgradeName (m_Name (in_Meta inst))) live)
    (λ h' got, h ⊆ h' ∧ init_read h' got).
Proof.
  intros Hi Hlive. apply wp_try. eapply wp_mono; [by apply wp_readGateUpgrade|].
  intros h' [[[phase message]|]|e] [Hsub Hres]; cbn; (split; [set_solver|]); [| |done].
  - destruct Hres as (u & Hu & Hown & Hph). split_and!; try done.
    + intros _ ->. exists u. done.
    + intros (d & Hd & ?)%Hlive. exists d. split; [by apply Hsub|done].
  - split_and!; try done. intros (d & Hd & ?)%Hlive. exists d. split; [by apply Hsub|done].
Qed.

Lemma wp_readInitState h i :
  same i →
  wp instance_may h (readInitState i (initUpgradeName (m_Name (in_Meta inst))))
    (λ h' got, h ⊆ h' ∧ init_read h' got).
Proof.
  intros Hi. pose proof Hi as [Hm Hs]. unfold readInitState. rewrite Hm. wp_calls. split; [done|].
  intros [d|e].
  - eapply wp_mono; [apply wp_readInitUpgrade; [done|]|].
    + intros Hlive. exists d. split; [by left|done].
    + intros h' got [Hsub ?]. split; [set_solver|done].
  - destruct (IsNotFound e); [|cbn; split; [set_solver|done]].
    eapply wp_mono; [apply wp_readInitUpgrade; [done|lia]|].
    intros h' got [Hsub ?]. split; [set_solver|done].
Qed.

Lemma wp_decideInitialization h i :
  same i → ist_Initialized (in_Status i) = ist_Initialized (in_Status inst) →
  wp instance_may h (decideInitialization i) (λ h' res, h ⊆ h' ∧
    match res with Ok dec => id_pending dec = false → init_evidence h' | Err _ => True end).
Proof.
  intros Hi Hinit. pose proof Hi as [Hm Hs]. unfold decideInitialization. rewrite Hm, Hs, Hinit.
  destruct (is_Initialize (in_Spec inst)) as [spec|] eqn:Hspec.
  2: { cbn. split; [done|]. intros _. by left. }
  destruct (ist_Initialized (in_Status inst)) eqn:Hdone.
  { cbn. split; [done|]. intros _. right. by left. }
  apply wp_try. eapply wp_mono; [by apply wp_readInitState|]. intros h' [st|e] [Hsub Hst]; [|done].
  destruct Hst as (Hreq & Hini & Hname & Hex & Hnf & Hlive).
  destruct (initDecide_contract st) as (Hpend & Hd & Hens & Hensp & _).
  destruct (id_ensureUpgrade (initDecide st)) eqn:Hensure.
  - destruct (Hensp eq_refl) as [Hp Hn]. destruct (proj1 Hens eq_refl) as (_ & _ & Hexf & _).
    unfold checkInitSecret. wp_calls.
    split; [by split; [cbn; rewrite Hm|right; exists spec]|]. intros [sec|e].
    2: { destruct (IsNotFound e); cbn; (split; [set_solver|done]). }
    cbn [prog_bind]. apply wp_bind. eapply wp_extend.
    + unfold createInitUpgrade, initUpgrade. rewrite (ownedUpgrade_meta i), Hn, Hname by done.
      apply wp_createOwnedUpgrade; [done|left; by exists spec|].
      destruct (Hnf Hexf) as (e & He & Hnfe). exists e. split; [by right|done].
    + intros h2 [[]|e] Hsub2; cbn; (split; [set_solver|]); [congruence|done].
  - cbn. split; [done|]. intros Hp. rewrite Hp, Hreq in Hpend. cbn in Hpend.
    symmetry in Hpend. apply negb_false_iff in Hpend.
    destruct (proj1 Hd Hpend) as [?|[_ [[? ?]|[? ?]]]]; [congruence|..].
    + right; right; left. by apply Hex.
    + right; right; right. by apply Hlive.
Qed.

(** What [gateAddonsRollout] answers. *)
Definition gate_read (h : list event) (got : res (OdooInstance * gateDecision)) : Prop :=
  match got with
  | Ok (i, gate) => same i ∧ roll_evidence h (gd_templateHash gate)
  | Err _ => True
  end.

Lemma wp_gateFinish h i gi message current :
  same i →
  gi_applied gi = ist_AppliedAddonsHash (in_Status inst) →
  (rolls gi → roll_evidence h (gi_current gi)) →
  (gd_ensureUpgrade (gateDecide gi) = true →
     gi_upgradeName gi = gateUpgradeName (m_Name (in_Meta inst)) current ∧
     ∃ e, happened h (OpGet KUpgrade (named (gi_upgradeName gi))) (Err e) ∧ IsNotFound e = true) →
  wp instance_may h (gateFinish i gi message) (λ h' got, h ⊆ h' ∧ gate_read h' got).
Proof.
  intros Hi Hgapp Hroll Hens. pose proof Hi as [Hm Hs]. unfold gateFinish. rewrite Hs.
  assert (roll_evidence h (gd_templateHash (gateDecide gi))) as Hev.
  { destruct (gateDecide_contract gi) as (_ & Hr & Hnr).
    assert (Decision (rolls gi)) as [Hyes|Hno] by (unfold rolls; apply _).
    - destruct (Hr Hyes) as (-> & _). by apply Hroll.
    - destruct (Hnr Hno) as (-> & _). right; right; left. done. }
  apply wp_try. eapply wp_extend.
  - destruct (gd_ensureUpgrade (gateDecide gi)) eqn:He; [|done].
    destruct (is_Upgrade (in_Spec inst)) as [us|] eqn:Hus; [|done].
    destruct (Hens eq_refl) as (Hn & Hnf). unfold gateCreateUpgrade, gateUpgrade.
    rewrite (ownedUpgrade_meta i) by done.
    apply wp_createOwnedUpgrade; [done|right; exists us, current; by rewrite <-Hn|done].
  - intros h2 [[]|e] Hsub2; cbn; (split; [done|]); [|done].
    split; [by destruct Hi|]. by eapply roll_evidence_mono.
Qed.

Lemma wp_gateAddonsRollout h i current :
  same i → ist_AppliedAddonsHash (in_Status i) = ist_AppliedAddonsHash (in_Status inst) →
  wp instance_may h (gateAddonsRollout i current) (λ h' got, h ⊆ h' ∧ gate_read h' got).
Proof.
  intros Hi Happ. pose proof Hi as [Hm Hs]. unfold gateAddonsRollout. rewrite Hm, Hs, Happ.
  destruct (is_Upgrade (in_Spec inst)) as [us|] eqn:Hup; cbn [andb].
  2: { apply (wp_gateFinish _ _ _ _ current); try done. intros _. by left. }
  destruct (String.eqb_spec (ist_AppliedAddonsHash (in_Status inst)) "") as [Ha|Ha]; cbn [negb andb].
  { apply (wp_gateFinish _ _ _ _ current); try done.
    - intros _. right. by left.
    - unfold gateDecide. cbn [gi_upgradeSet gi_applied negb orb]. by rewrite Ha. }
  destruct (String.eqb_spec (ist_AppliedAddonsHash (in_Status inst)) current) as [Hc|Hc]; cbn [negb].
  { apply (wp_gateFinish _ _ _ _ current); try done.
    - intros _. right. right. by left.
    - unfold gateDecide. cbn [gi_upgradeSet gi_applied gi_current negb orb].
      by rewrite (proj2 (String.eqb_neq _ _) Ha), Hc, String.eqb_refl. }
  apply wp_try. eapply wp_mono; [by apply wp_readGateUpgrade|].
  intros h1 [[[phase message]|]|e] [Hsub Hres]; [..|done].
  - destruct Hres as (u & Hu & Hown & Hph). eapply wp_mono; [apply (wp_gateFinish _ _ _ _ current); try done|].
    + intros [?|[?|[?|[_ Hs']]]]; [done..|by right; right; left|].
      right; right; right. exists u. cbn in Hs'. by rewrite Hph.
    + unfold gateDecide. cbn. by split_cases.
    + intros h2 got [? ?]. split; [set_solver|done].
  - eapply wp_mono; [apply (wp_gateFinish _ _ _ _ current); try done|].
    + intros [?|[?|[?|[? _]]]]; [done..|by right; right; left|done].
    + intros h2 got [? ?]. split; [set_solver|done].
Qed.

(** *** The Deployments *)
Definition replicas_ok (h : list event) (n : Z) (hash : string) : Prop :=
  n = 0 ∨ (init_evidence h ∧ roll_evidence h hash).

Lemma pod_addons_hash i hashes :
  pt_Annotations (buildPodTemplate i hashes) !! annotationAddonsHash = Some (rh_addons hashes).
Proof. done. Qed.

Lemma mutateDeployment_ok h i hashes n :
  replicas_ok h n (rh_addons hashes) → deployment_ok h (mutateDeployment i hashes n).
Proof.
  intros Hok d d'. unfold mutateDeployment. intros (m & _ & <-%(inj Ok))%res_bind_Ok.
  exists n, (rh_addons hashes). split_and!; [done|done|exact Hok].
Qed.

Lemma mutateCronDeployment_ok h i hashes n :
  replicas_ok h n (rh_addons hashes) → deployment_ok h (mutateCronDeployment i hashes n).
Proof.
  intros Hok d d'. unfold mutateCronDeployment. intros (m & _ & <-%(inj Ok))%res_bind_Ok.
  exists n, (rh_addons hashes). split_and!; [done|done|exact Hok].
Qed.

Lemma wp_reconcileDeployment h i hashes n :
  replicas_ok h n (rh_addons hashes) → wp instance_may h (reconcileDeployment i hashes n) any.
Proof.
  intros Hok. unfold reconcileDeployment, createOrUpdate. wp_calls. split.
  - by apply mutateDeployment_ok.
  - by intros [|].
Qed.

Lemma wp_reconcileCron h i hashes held :
  in_Meta i = in_Meta inst → replicas_ok h (cronReplicas held) (rh_addons hashes) →
  wp instance_may h (reconcileCron i hashes held) any.
Proof.
  intros Hm Hok. unfold reconcileCron. destruct (cronEnabled _); cbn [negb].
  - unfold reconcileCronDeployment, createOrUpdate. wp_calls. split.
    + by apply mutateCronDeployment_ok.
    + by intros [[d op]|].
  - unfold deleteCronDeployment. wp_calls. split; [done|]. intros [d|e].
    + rewrite Hm. destruct (IsControlledBy _ _) eqn:Hc; [|done]. cbn. split; [done|].
      intros x. by destruct (IgnoreNotFound x).
    + by destruct (IsNotFound e).
Qed.

Lemma wp_finishPass h before i addons gate dec cron :
  wp instance_may h (finishPass r before i addons gate dec cron) any.
Proof.
  unfold finishPass. wp_calls. split; [done|]. intros got. split; [done|]. intros now.
  split; [done|]. intros [i'|e]; [|done]. apply wp_bind. by apply wp_emitEvents.
Qed.

Lemma wp_try_with {A B} h i (p : prog (res A)) (f : A → prog (OdooInstance * res B)) (Q : list event → A → Prop) :
  wp instance_may h p (λ h' got, match got with Ok a => Q h' a | Err _ => True end) →
  (∀ h' a, Q h' a → wp instance_may h' (f a) any) →
  wp instance_may h (try_with i p f) any.
Proof.
  intros Hp Hf. apply wp_bind. eapply wp_mono; [exact Hp|]. intros h' [a|e]; [apply Hf|done].
Qed.

Lemma wp_step_with {A B} h i (p : prog (res A)) (f : A → prog (OdooInstance * res B)) :
  wp instance_may h p any → (∀ h' a, h ⊆ h' → wp instance_may h' (f a) any) →
  wp instance_may h (try_with i p f) any.
Proof.
  intros Hp Hf. apply (wp_try_with _ _ _ _ (λ h' _, h ⊆ h')).
  - eapply wp_extend; [exact Hp|]. by intros h' [|].
  - auto.
Qed.

Lemma replicas_ok_mono h h' n hash : h ⊆ h' → replicas_ok h n hash → replicas_ok h' n hash.
Proof.
  intros Hsub [?|[Hi Hr]]; [by left|]. right.
  split; [by eapply init_evidence_mono|by eapply roll_evidence_mono].
Qed.

(** The writes after the gates have decided. *)
Lemma wp_rollout h before i addons gate dec hashes n held :
  same i → replicas_ok h n (rh_addons hashes) →
  replicas_ok h (cronReplicas held) (rh_addons hashes) →
  wp instance_may h
    (let?[i] _ := reconcileDeployment i hashes n in
     let?[i] _ := reconcilePDB i in
     let?[i] _ := reconcileService i in
     let?[i] cron := reconcileCron i hashes held in
     finishPass r before i addons gate dec cron) any.
Proof.
  intros [Hm Hs] Hok Hcron. apply wp_step_with; [by apply wp_reconcileDeployment|]. intros h1 _ Hs1.
  apply wp_step_with; [by apply wp_reconcilePDB|]. intros h2 _ Hs2.
  apply wp_step_with.
  { unfold reconcileService, createOrUpdate. wp_calls. split; [done|]. by intros [|]. }
  intros h3 _ Hs3. apply wp_step_with; [|intros; apply wp_finishPass].
  apply wp_reconcileCron; [done|]. eapply replicas_ok_mono; [|exact Hcron]. set_solver.
Qed.

Lemma wp_reconcileOdooInstance : wp instance_may [] (reconcileOdooInstance r inst) any.
Proof.
  unfold reconcileOdooInstance. set (i1 := set_observed _ _).
  apply wp_step_with; [apply wp_reconcilePVC|]. intros h1 _ _.
  destruct (renderOdooConf _) as [conf|e]; [|done].
  apply wp_step_with. { unfold reconcileConfigMap, createOrUpdate. wp_calls. split; [done|]. by intros [|]. }
  intros h2 _ _. apply wp_step_with.
  { apply wp_fetchSecrets; [done|]. apply Forall_cons_2; [by left|]. apply Forall_cons_2; [by right|constructor]. }
  intros h3 secrets _.
  apply wp_step_with. { unfold listReadyAddons. wp_calls. split; [done|]. by intros [|]. }
  intros h4 addons _.
  apply (wp_try_with _ _ _ _ (λ h' dec, id_pending dec = false → init_evidence h')).
  { eapply wp_mono; [by apply wp_decideInitialization|]. by intros h' [dec|e] [_ ?]. }
  intros h5 dec Hdec. set (i2 := set_init _ _ i1). cbv zeta.
  apply (wp_try_with _ _ _ _ (λ h' gated, h5 ⊆ h' ∧ same gated.1 ∧
    (id_pending dec = false → roll_evidence h' (gd_templateHash gated.2)))).
  { destruct (id_pending dec); [done|]. eapply wp_mono; [by apply wp_gateAddonsRollout|].
    intros h' [[i gate]|e] [Hsub Hg]; [|done]. by destruct Hg. }
  intros h6 [i3 gate] (Hsub & Hsame & Hgate). cbn [fst snd] in *.
  apply wp_rollout; [done|..].
  - destruct (id_pending dec); [by left|]. right. split; [|by apply Hgate].
    eapply init_evidence_mono; [done|]. by apply Hdec.
  - destruct (id_pending dec); [by left|]. right. split; [|by apply Hgate].
    eapply init_evidence_mono; [done|]. by apply Hdec.
Qed.
End InstanceSafety.

(** ** Properties *)
Definition deployment_write (o : op) : option (Deployment → res Deployment) :=
  match o with OpCreateOrUpdate KDeployment _ mutate => Some mutate | _ => None end.
Definition upgrade_create (o : op) : option OdooUpgrade :=
  match o with OpCreate KUpgrade u => Some u | _ => None end.
(** C4: no pod before the database is ready, and no new revision before its upgrade. Whatever the
    API server answers in one pass, the web and cron Deployments are written with zero replicas,
    or both gates were passed: the database counts as initialised (nothing to initialise, the
    status says so, the initialisation OdooUpgrade of this instance was read as Succeeded, or a
    Deployment with ready pods was read), and the addons hash on the pods is the applied one, or
    there is no upgrade gate, or nothing was applied yet, or the OdooUpgrade named after this hash
    was read as Succeeded for this instance. *)
Theorem reconcileOdooInstance_rollout `{Unicode} `{KubeLib} r inst tr a :
  execs (reconcileOdooInstance r inst) [] tr a →
  Forall (λ c, deployment_ok inst c.2 c.1) (calls_of deployment_write tr).
Proof.
  intros He. apply (calls_allowed _ _ tr a deployment_write (deployment_ok inst)
    (wp_reconcileOdooInstance r inst) He).
  intros h o b. by destruct o as [| | | | | | |[] ? ?| | |]; intros [= ->].
Qed.

Lemma created_upgrades_wanted `{Unicode} `{KubeLib} r inst tr a :
  execs (reconcileOdooInstance r inst) [] tr a →
  Forall (λ c, upgrade_create_ok inst c.2 c.1) (calls_of upgrade_create tr).
Proof.
  intros He. apply (calls_allowed _ _ tr a upgrade_create (upgrade_create_ok inst)
    (wp_reconcileOdooInstance r inst) He).
  intros h o b. by destruct o as [| |[] ?| | | | | | | |]; intros [= ->].
Qed.

(** C25: what a pass creates and deletes. Every OdooUpgrade a pass creates is the one of the
    initialisation or of the gate (modules, timeout and secret as in the spec of the instance, under
    the init or a gate name), has the instance as its controller, and is created only after the
    server said that no object of that name exists; every object it deletes is a PodDisruptionBudget or Deployment
    that the instance controls. In particular a pass never deletes a volume claim. *)
Theorem reconcileOdooInstance_footprint `{Unicode} `{KubeLib} r inst tr a :
  execs (reconcileOdooInstance r inst) [] tr a →
  Forall (λ c, upgrade_create_ok inst c.2 c.1) (calls_of upgrade_create tr) ∧
  Forall (λ c, (c.1.1 = KPDB ∨ c.1.1 = KDeployment) ∧ IsControlledBy c.1.2 (in_Meta inst) = true)
    (calls_of deletion tr).
Proof.
  intros He. split.
  - exact (created_upgrades_wanted r inst tr a He).
  - apply (calls_allowed _ _ tr a deletion (λ _ m, (m.1 = KPDB ∨ m.1 = KDeployment) ∧
      IsControlledBy m.2 (in_Meta inst) = true) (wp_reconcileOdooInstance r inst) He).
    intros h o b. destruct o as [| | | | | |[] ? ?| | | |]; try done; intros [= <-]; cbn; auto.
Qed.

(** The settled status. Ready is true exactly when the Deployment was read back with enough
    ready pods, the last upgrade did not fail and no initialisation is pending; the phase is the
    initialisation's while it is pending, else the gate's when it has one, else Running or
    Creating by the ready pods. *)
Theorem settle_spec gate dec got desired i :
  let i' := settleGates gate dec (settleDeployment got desired i) in
  let enough := match got with Ok d => desired <=? dep_StatusReadyReplicas d | Err _ => false end in
  (ist_Ready (in_Status i') = true ↔
     enough = true ∧ gd_phase gate ≠ gatePhaseUpgradeFailed ∧ id_pending dec = false) ∧
  ist_Phase (in_Status i') =
    (if id_pending dec then id_phase dec
     else if String.eqb (gd_phase gate) "" then (if enough then phaseRunning else phaseCreating)
     else gd_phase gate) ∧
  in_Spec i' = in_Spec i ∧ in_Meta i' = in_Meta i.
Proof.
  unfold settleGates. cbv zeta.
  destruct got as [d|e]; cbn [settleDeployment]; [destruct (desired <=? dep_StatusReadyReplicas d)|];
    destruct (id_pending dec), (String.eqb_spec (gd_phase gate) gatePhaseUpgradeFailed) as [->|],
      (String.eqb_spec (gd_phase gate) ""); cbn; naive_solver.
Qed.

(** *** The volume claims *)
Definition pvc_write (o : op) : option PersistentVolumeClaim :=
  match o with
  | OpCreate KPVC p => Some p
  | OpPatch KPVC _ p => Some p
  | OpUpdate KPVC p => Some p
  | _ => None
  end.

Lemma hasOwnerRef_without refs uid : hasOwnerRef (ownerRefsWithoutUID refs uid) uid = false.
Proof.
  unfold hasOwnerRef, ownerRefsWithoutUID. induction refs as [|x refs IH]; cbn; [done|].
  destruct (String.eqb (owner_UID x) uid) eqn:Hx; cbn; [done|by rewrite Hx].
Qed.

Lemma hasOwnerRef_elem refs uid : (∃ r, r ∈ refs ∧ owner_UID r = uid) → hasOwnerRef refs uid = true.
Proof.
  intros (r & Hr & <-). apply existsb_exists. exists r. split; [by apply list_elem_of_In|].
  apply String.eqb_refl.
Qed.


(** *** Witnesses: an instance with both gates, against a server that runs the old revision *)
Definition example_instance : OdooInstance :=
  {| in_Meta := newMeta "shop" "shop"; in_Spec :=
       {| is_Image := "odoo:19.0"; is_Replicas := 2; is_Version := "19.0"; is_Edition := "community";
          is_Addons := {| av_StorageClass := None; av_Size := ""; av_AccessMode := "" |};
          is_Data := {| dv_StorageClass := None; dv_Size := ""; dv_AccessMode := "";
                        dv_RetainOnDelete := None |};
          is_Postgres := {| pg_Host := "pg"; pg_Port := 0; pg_Database := "shop"; pg_User := "odoo";
                            pg_PasswordSecret := "pgpw" |};
          is_Config := ∅; is_Resources := noResources; is_AdminPasswordSecret := "";
          is_Upgrade := Some {| usp_Modules := ["all"]; usp_TimeoutSeconds := None |};
          is_Initialize := None; is_Cron := None |};
     in_Status := {| ist_Ready := true; ist_Phase := "Running"; ist_AddonPaths := [];
       ist_ObservedGeneration := 1; ist_Conditions := []; ist_Message := ""; ist_Initialized := true;
       ist_InitUpgrade := ""; ist_AppliedAddonsHash := "old"; ist_ActiveUpgrade := "" |} |}.

Definition instance_server (s : unit) (o : op) : answer o * unit :=
  (match o return answer o with
   | OpGet KSecret _ => Ok {| sec_Meta := newMeta "pgpw" "shop"; sec_Data := {["password" := "x"]} |}
   | OpList KAddon _ _ => Ok example_addons
   | OpCreate KUpgrade u => Ok u
   | OpCreate KPVC p => Ok p
   | OpCreateOrUpdate KDeployment _ mutate =>
       d ← mutate {| dep_Meta := newMeta "shop" "shop"; dep_Replicas := None; dep_Selector := None;
         dep_Strategy := Recreate; dep_Template := {| pt_Labels := ∅; pt_Annotations := ∅;
           pt_Spec := odooPodSpec example_instance noContainer None |};
         dep_StatusReplicas := 2; dep_StatusReadyReplicas := 2 |}; Ok (d, OperationResultUpdated)
   | OpCreateOrUpdate KConfigMap _ mutate =>
       c ← mutate {| cm_Meta := newMeta "shop-config" "shop"; cm_Data := ∅ |};
       Ok (c, OperationResultUpdated)
   | OpCreateOrUpdate KPDB _ mutate =>
       c ← mutate {| pdb_Meta := newMeta "shop" "shop"; pdb_MinAvailable := None;
                     pdb_MaxUnavailable := None; pdb_Selector := None |};
       Ok (c, OperationResultUpdated)
   | OpCreateOrUpdate KService _ mutate =>
       c ← mutate {| svc_Meta := newMeta "shop" "shop"; svc_Type := ""; svc_Selector := ∅;
                     svc_Ports := [] |}; Ok (c, OperationResultUpdated)
   | OpStatusUpdate KInstance i => Ok i
   | o => refuse o
   end, s).

Definition instance_trace : list event :=
  (run instance_server tt (reconcileOdooInstance {| rec_Recorder := true; rec_Clientset := true |}
     example_instance) []).2.

Lemma reconcileOdooInstance_rollout_witness :
  length (calls_of deployment_write instance_trace) = 1%nat ∧
  Forall (λ c, deployment_ok example_instance c.2 c.1) (calls_of deployment_write instance_trace).
Proof.
  split; [by vm_compute|].
  unfold instance_trace. exact (reconcileOdooInstance_rollout _ _ _ _ (run_execs instance_server tt _ [])).
Defined.

Lemma reconcileOdooInstance_footprint_witness :
  (λ c, len (m_Name (up_Meta c.1))) <$> calls_of upgrade_create instance_trace = [17%nat] ∧
  Forall (λ c, upgrade_create_ok example_instance c.2 c.1) (calls_of upgrade_create instance_trace).
Proof.
  split; [by vm_compute|].
  unfold instance_trace. exact (proj1 (reconcileOdooInstance_footprint _ _ _ _ (run_execs instance_server tt _ []))).
Defined.


Close Scope Z_scope.
