(* ===== verification/InstanceFailure.v ===== *)
(** * A pass that fails

    Whatever the API server answers, a pass on an instance touches the pods only after it has the
    configuration file and every Secret the pods use, and it ends in one of two ways: with the status
    stored, or with a status that says why it failed and the same error for the runtime. *)
From S2P Require Export InstanceController.

Open Scope Z_scope.

(** The call is the last one but for events. *)
Definition is_event (e : event) : Prop := ∃ m rel ev, projT1 e = OpEvent m rel ev.
Definition last_write (h : list event) (o : op) (a : answer o) : Prop :=
  ∃ evs before, h = evs ++ did o a :: before ∧ Forall is_event evs.

Lemma last_write_here h o a : last_write (did o a :: h) o a.
Proof. by exists [], h. Qed.
Lemma last_write_events evs h o a : Forall is_event evs → last_write h o a → last_write (evs ++ h) o a.
Proof.
  intros Hevs (evs' & before & -> & Hevs'). exists (evs ++ evs'), before. rewrite app_assoc. split; [done|].
  by apply Forall_app_2.
Qed.

Lemma wp_events may h rec m evs :
  (∀ h m rel e, may h (OpEvent m rel e)) →
  wp may h (emitEvents rec m evs) (λ h' _, ∃ l, h' = l ++ h ∧ Forall is_event l).
Proof.
  intros Hmay. revert h. induction evs as [|e evs IH]; intros h; cbn; [by exists []|].
  destruct rec; cbn; [|by exists []]. split; [done|]. intros x. eapply wp_mono; [apply IH|].
  intros h' _ (l & -> & Hl). eexists (l ++ [_]). rewrite <-app_assoc. split; [reflexivity|].
  apply Forall_app_2; [done|]. constructor; [|constructor]. by eexists _, _, _.
Qed.

Section Failure.
Context `{Unicode} `{KubeLib} `{!ConditionLaws}.
Context (r : Reconciler) (inst : OdooInstance).

(** ** What the pods need first *)
Definition secret_names : list string :=
  filter (λ n, n ≠ "") [pg_PasswordSecret (is_Postgres (in_Spec inst)); is_AdminPasswordSecret (in_Spec inst)].

(** The configuration file is written from a valid [spec.config], and these Secrets were read. *)
Definition inputs (h : list event) (conf : string) (secrets : list Secret) : Prop :=
  renderOdooConf (in_Spec inst) = Ok conf ∧
  Forall2 (λ n (s : Secret), happened h (OpGet KSecret (named inst n)) (Ok s)) secret_names secrets.

(** The pods of a Deployment are stamped with the hashes of both. *)
Definition stamps (conf : string) (secrets : list Secret) (mutate : Deployment → res Deployment) : Prop :=
  ∀ d d', mutate d = Ok d' → ∃ hash, pt_Annotations (dep_Template d') =
    podAnnotations {| rh_config := configHash conf; rh_secrets := secretsHash secrets; rh_addons := hash |}.

Definition failure_may (h : list event) (o : op) : Prop :=
  match o with
  | OpCreateOrUpdate KDeployment _ mutate => ∃ conf secrets, inputs h conf secrets ∧ stamps conf secrets mutate
  | OpCreateOrUpdate KPDB _ _ | OpCreateOrUpdate KService _ _ | OpDelete _ _ _ | OpCreate KUpgrade _ =>
      ∃ conf secrets, inputs h conf secrets
  | _ => True
  end.

Lemma inputs_mono h h' conf secrets : h ⊆ h' → inputs h conf secrets → inputs h' conf secrets.
Proof.
  intros Hsub [Hc Hs]. split; [done|]. eapply Forall2_impl; [exact Hs|]. intros n s. by apply happened_mono.
Qed.

(** With the inputs at hand every call but the Deployments' is free. *)
Definition no_deployment (o : op) : Prop := match o with OpCreateOrUpdate KDeployment _ _ => False | _ => True end.

Lemma wp_inputs {A} h (p : prog A) Q conf secrets :
  inputs h conf secrets → wp (λ _, no_deployment) h p Q → wp failure_may h p (λ h' a, h ⊆ h' ∧ Q h' a).
Proof.
  intros Hin. assert (∀ h', h ⊆ h' → wp (λ _, no_deployment) h' p Q → wp failure_may h' p (λ h' a, h ⊆ h' ∧ Q h' a)) as Hgen;
    [|by apply Hgen].
  induction p as [a|o k IH]; cbn; intros h' Hsub; [done|]. intros [Ho Hk]. split; [|intros a; apply IH; [set_solver|done]].
  pose proof (inputs_mono _ _ _ _ Hsub Hin) as Hin'.
  destruct o as [| |[]| | | | |[]| | |]; try done; by exists conf, secrets.
Qed.

(** ** The steps *)
Abbreviation any := (λ _ _, True).
Abbreviation same := (InstanceController.same inst).

Lemma wp_pvc h i : wp failure_may h (reconcilePVC i) any.
Proof.
  assert (∀ h req, wp failure_may h (reconcileSinglePVC i req) any) as Hone.
  { intros h' req. unfold reconcileSinglePVC, syncPVCOwnership. wp_calls. wp_go ltac:(done). all: done. }
  apply wp_try. eapply wp_mono; [apply Hone|]. intros h' [|] _; [apply Hone|done].
Qed.

(** A secret that is read is in the history, in the order of the names. *)
Lemma wp_secrets h i refs :
  in_Meta i = in_Meta inst →
  wp failure_may h (fetchSecrets i refs) (λ h' got, h ⊆ h' ∧ ∀ secrets, got = Ok secrets →
    Forall2 (λ n (s : Secret), happened h' (OpGet KSecret (named inst n)) (Ok s)) (filter (λ n, n ≠ "") refs.*2) secrets).
Proof.
  intros Hm. revert h. induction refs as [|[f n] refs IH]; intros h; cbn [fetchSecrets].
  - split; [done|]. intros secrets [= <-]. constructor.
  - rewrite fmap_cons, filter_cons. cbn [snd]. destruct (String.eqb_spec n "") as [->|Hn]; [apply IH|].
    rewrite decide_True by done. wp_calls. split; [done|].
    intros [s|e]; [|by destruct (IsNotFound e); (split; [set_solver|])].
    apply wp_bind. eapply wp_mono; [apply IH|]. intros h' [l|e] [Hsub Hl]; (split; [set_solver|]); [|done].
    intros secrets [= <-]. constructor; [|by apply Hl]. unfold named. rewrite <-Hm. apply Hsub. by left.
Qed.

(** *** The gates and the other objects are free *)
Definition free {A} (p : prog A) : Prop := ∀ h, wp (λ _, no_deployment) h p any.

Lemma free_bind {A B} (p : prog A) (f : A → prog B) : free p → (∀ a, free (f a)) → free (prog_bind p f).
Proof. intros Hp Hf h. apply wp_bind. eapply wp_mono; [apply Hp|]. intros h' a _. apply Hf. Qed.
Lemma free_try {A B} (p : prog (res A)) (f : A → prog (res B)) : free p → (∀ a, free (f a)) → free (try_bind p f).
Proof. intros Hp Hf. apply free_bind; [done|]. intros [a|e]; [apply Hf|by intros h]. Qed.
Lemma free_call o : no_deployment o → free (call o).
Proof. intros Ho h. by split. Qed.

Ltac free := repeat first [ progress intros | progress cbv zeta | by apply free_call | apply free_try | apply free_bind
  | match goal with |- free (match ?x with _ => _ end) => destruct x end | match goal with |- free _ => by intros ? end ].

Lemma free_read i n : free (readGateUpgrade i n).
Proof. unfold readGateUpgrade. free. Qed.
Lemma free_create i u : free (createOwnedUpgrade i u).
Proof. unfold createOwnedUpgrade. free. Qed.

Lemma free_init i : free (decideInitialization i).
Proof.
  unfold decideInitialization, readInitState, readInitUpgrade, checkInitSecret, createInitUpgrade. free. apply free_create.
Qed.

Lemma wp_gate h i current :
  wp (λ _, no_deployment) h (gateAddonsRollout i current) (λ _ got, ∀ i' gd, got = Ok (i', gd) → ∃ a b, i' = set_gate a b i).
Proof.
  assert (∀ h gi message, wp (λ _, no_deployment) h (gateFinish i gi message)
    (λ _ got, ∀ i' gd, got = Ok (i', gd) → ∃ a b, i' = set_gate a b i)) as Hfinish.
  { intros h' gi message. unfold gateFinish. cbv zeta. apply wp_try. eapply wp_mono.
    - match goal with |- wp _ _ ?p _ => assert (free p) as Hp end; [|apply Hp].
      destruct (gd_ensureUpgrade _), (is_Upgrade (in_Spec i)); try by intros ?. apply free_create.
    - intros h2 [[]|e] _; [|done]. intros i' gd [= <- <-]. by eexists _, _. }
  unfold gateAddonsRollout. destruct (_ && _ && _); [|apply Hfinish]. apply wp_try. eapply wp_mono; [apply free_read|].
  intros h' [[[phase message]|]|e] _; [apply Hfinish..|done].
Qed.

Lemma free_pdb i : free (reconcilePDB i).
Proof. unfold reconcilePDB, deletePDBIfOwned. free. Qed.
Lemma free_service i : free (reconcileService i).
Proof. unfold reconcileService. free. Qed.

(** *** The Deployments *)
Lemma stamps_web i conf secrets hash replicas :
  stamps conf secrets (mutateDeployment i {| rh_config := configHash conf; rh_secrets := secretsHash secrets; rh_addons := hash |} replicas).
Proof. intros d d' (m & _ & [= <-])%res_bind_Ok. by exists hash. Qed.
Lemma stamps_cron i conf secrets hash replicas :
  stamps conf secrets (mutateCronDeployment i {| rh_config := configHash conf; rh_secrets := secretsHash secrets; rh_addons := hash |} replicas).
Proof. intros d d' (m & _ & [= <-])%res_bind_Ok. by exists hash. Qed.

Lemma wp_web h i conf secrets hash replicas :
  inputs h conf secrets →
  wp failure_may h (reconcileDeployment i {| rh_config := configHash conf; rh_secrets := secretsHash secrets; rh_addons := hash |} replicas) any.
Proof.
  intros Hin. unfold reconcileDeployment, createOrUpdate. wp_calls. split; [|by intros [|]].
  exists conf, secrets. split; [done|apply stamps_web].
Qed.

Lemma wp_cron h i conf secrets hash held :
  inputs h conf secrets →
  wp failure_may h (reconcileCron i {| rh_config := configHash conf; rh_secrets := secretsHash secrets; rh_addons := hash |} held) any.
Proof.
  intros Hin. unfold reconcileCron. destruct (negb _).
  - assert (free (deleteCronDeployment i)) as Hfree by (unfold deleteCronDeployment; free).
    apply wp_try. eapply wp_mono; [by eapply wp_inputs|]. by intros h' [|] _.
  - unfold reconcileCronDeployment, createOrUpdate. wp_calls. split; [|by intros [[]|]].
    exists conf, secrets. split; [done|apply stamps_cron].
Qed.

(** ** The result of a pass *)
Definition stamped (i : OdooInstance) : Prop := same i ∧ ist_ObservedGeneration (in_Status i) = m_Generation (in_Meta inst).

(** The status was stored, or the error goes up with the instance as it is. *)
Definition reconciled (h : list event) (out : OdooInstance * res Result) : Prop :=
  match out with
  | (_, Ok _) => ∃ i i', stamped i ∧ last_write h (OpStatusUpdate KInstance i) (Ok i')
  | (i, Err _) => stamped i
  end.

Lemma settle_same got desired gate dec i :
  ∃ st, settleGates gate dec (settleDeployment got desired i) = in_with_status st i ∧
    ist_ObservedGeneration st = ist_ObservedGeneration (in_Status i).
Proof.
  unfold settleGates, settleDeployment.
  repeat match goal with |- context [if ?b then _ else _] => destruct b | |- context [match got with _ => _ end] => destruct got end;
    destruct i; by eexists.
Qed.

Lemma wp_finish h before i addons gate dec cron :
  stamped i → wp failure_may h (finishPass r before i addons gate dec cron) reconciled.
Proof.
  intros [[Hm Hs] Hg]. unfold finishPass. cbv zeta. wp_calls. split; [done|]. intros got. split; [done|]. intros now.
  match goal with |- context [set_conds ?c ?m ?x] => set (conds := c); set (message := m); set (i1 := x) end.
  assert (stamped (set_conds conds message i1)) as Hst.
  { destruct (settle_same got (desiredReplicas (in_Spec (set_paths (addonMountPaths addons) i))) gate dec (set_paths (addonMountPaths addons) i))
      as (st & Heq & Hgen). subst i1. rewrite Heq. split; [by split|]. cbn. rewrite Hgen. exact Hg. }
  split; [done|]. intros [i'|e]; [|exact Hst]. apply wp_bind. eapply wp_mono; [by apply wp_events|].
  intros h' _ (l & -> & Hl). eexists _, i'. split; [exact Hst|]. apply last_write_events; [done|apply last_write_here].
Qed.

Lemma wp_with {A} h i (p : prog (res A)) (f : A → prog (OdooInstance * res Result)) (Q : list event → A → Prop) :
  stamped i → wp failure_may h p (λ h' got, match got with Ok a => Q h' a | Err _ => True end) →
  (∀ h' a, Q h' a → wp failure_may h' (f a) reconciled) → wp failure_may h (try_with i p f) reconciled.
Proof.
  intros Hi Hp Hf. apply wp_bind. eapply wp_mono; [exact Hp|]. intros h' [a|e]; [apply Hf|by intros _].
Qed.

(** A free step keeps the inputs. *)
Lemma wp_with_free {A} h i (p : prog (res A)) (f : A → prog (OdooInstance * res Result)) conf secrets :
  stamped i → inputs h conf secrets → free p →
  (∀ h' a, inputs h' conf secrets → wp failure_may h' (f a) reconciled) → wp failure_may h (try_with i p f) reconciled.
Proof.
  intros Hi Hin Hp Hf. apply (wp_with _ _ _ _ (λ h' _, inputs h' conf secrets)); [done| |done].
  eapply wp_mono; [by eapply wp_inputs|]. intros h' [a|e] [Hsub _]; [|done]. by eapply inputs_mono.
Qed.

Lemma wp_pods h before i addons gate dec conf secrets hash replicas held :
  stamped i → inputs h conf secrets →
  let hashes := {| rh_config := configHash conf; rh_secrets := secretsHash secrets; rh_addons := hash |} in
  wp failure_may h
    (let?[i] _ := reconcileDeployment i hashes replicas in
     let?[i] _ := reconcilePDB i in
     let?[i] _ := reconcileService i in
     let?[i] cron := reconcileCron i hashes held in
     finishPass r before i addons gate dec cron) reconciled.
Proof.
  intros Hi Hin hashes. apply (wp_with _ _ _ _ (λ h' _, inputs h' conf secrets)); [done| |].
  { eapply wp_extend; [by apply wp_web|]. intros h' [|e] Hsub; [by eapply inputs_mono|done]. }
  intros h1 _ Hin1. eapply wp_with_free; [done|exact Hin1|apply free_pdb|]. intros h2 _ Hin2.
  eapply wp_with_free; [done|exact Hin2|apply free_service|]. intros h3 _ Hin3.
  apply (wp_with _ _ _ _ (λ _ _, True)); [done| |by intros; apply wp_finish].
  eapply wp_mono; [by apply wp_cron|]. by intros h' [].
Qed.

Lemma wp_reconcile : wp failure_may [] (reconcileOdooInstance r inst) reconciled.
Proof.
  unfold reconcileOdooInstance. set (i1 := set_observed _ _). assert (stamped i1) as Hi1 by done. cbv zeta.
  apply (wp_with _ _ _ _ (λ _ _, True)); [done| |].
  { eapply wp_mono; [apply wp_pvc|]. by intros h' []. }
  intros h1 _ _. change (in_Spec i1) with (in_Spec inst). destruct (renderOdooConf (in_Spec inst)) as [conf|e] eqn:Hconf; [|done].
  apply (wp_with _ _ _ _ (λ _ _, True)); [done| |].
  { unfold reconcileConfigMap, createOrUpdate. wp_calls. split; [done|]. by intros [|]. }
  intros h2 _ _. apply (wp_with _ _ _ _ (λ h' secrets, inputs h' conf secrets)); [done| |].
  { eapply wp_mono; [by apply wp_secrets|]. intros h' [secrets|e] [_ Hs]; [|done]. split; [done|]. by apply Hs. }
  intros h3 secrets Hin3. eapply wp_with_free; [done|exact Hin3| |].
  { unfold listReadyAddons. free. }
  intros h4 addons Hin4. eapply wp_with_free; [done|exact Hin4|apply free_init|]. intros h5 dec Hin5.
  set (i2 := set_init _ _ i1). assert (stamped i2) as Hi2 by done.
  apply (wp_with _ _ _ _ (λ h' gated, inputs h' conf secrets ∧ stamped gated.1)); [done| |].
  { destruct (id_pending dec); [by split|]. eapply wp_mono; [eapply wp_inputs; [exact Hin5|apply wp_gate]|].
    intros h' [[i gd]|e] [Hsub Hg]; [|done]. destruct (Hg i gd eq_refl) as (a & b & ->). split; [by eapply inputs_mono|done]. }
  intros h6 [i3 gate] [Hin6 Hi3]. by apply wp_pods.
Qed.

(** What the status of a failed pass says. *)
Definition reported_reason (e : error) : string :=
  if String.eqb (reconcileErrorReason e) "" then ReasonReconcileError else reconcileErrorReason e.
Definition shows (conds : list Condition) (t status reason message : string) : Prop :=
  ∃ c, FindStatusCondition conds t = Some c ∧ c_Status c = status ∧ c_Reason c = reason ∧ c_Message c = message.
Definition reports (i : OdooInstance) (e : error) : Prop :=
  let st := in_Status i in
  stamped i ∧ ist_Phase st = phaseFailing ∧ ist_Ready st = false ∧
  if String.eqb (error_text e) "" then
    shows (ist_Conditions st) ConditionTypeReady condFalse ReasonDeploymentNotReady "Deployment not created yet" ∧
    shows (ist_Conditions st) ConditionTypeDegraded condFalse ReasonAsExpected "no reconcile errors" ∧
    ist_Message st = "Deployment not created yet"
  else
    shows (ist_Conditions st) ConditionTypeReady condFalse (reported_reason e) (error_text e) ∧
    shows (ist_Conditions st) ConditionTypeDegraded condTrue (reported_reason e) (error_text e) ∧
    ist_Message st = error_text e.

Definition pass_ends (h : list event) (out : res Result) : Prop :=
  match out with
  | Ok result => result = requeue conflictRequeue ∨
      ∃ i i', stamped i ∧ last_write h (OpStatusUpdate KInstance i) (Ok i')
  | Err e => isConflict e = false ∧ ∃ i a, last_write h (OpStatusUpdate KInstance i) a ∧ reports i e
  end.

(** The conditions of a list of three are found again, and the summary follows the last one. *)
Lemma three_conditions now cs gen a b c :
  c_Type a = ConditionTypeReady → c_Type b = ConditionTypeProgressing → c_Type c = ConditionTypeDegraded →
  c_Status a = condFalse →
  let conds := setConditions now cs gen [a; b; c] in
  shows conds ConditionTypeReady condFalse (c_Reason a) (c_Message a) ∧
  shows conds ConditionTypeDegraded (c_Status c) (c_Reason c) (c_Message c) ∧
  instanceSummary conds = if String.eqb (c_Status c) condTrue then c_Message c else c_Message a.
Proof.
  intros Ta Tb Tc Sa. cbv zeta.
  assert (NoDup (c_Type <$> [a; b; c])) as Hn
    by (cbn; rewrite Ta, Tb, Tc; apply (bool_decide_unpack _); by vm_compute).
  destruct (setConditions_wanted now cs gen [a; b; c] a Hn) as (a' & Ha & Hsa & Hra & Hma & _); [by left|].
  destruct (setConditions_wanted now cs gen [a; b; c] c Hn) as (c' & Hc & Hs & Hrc & Hmc & _); [by do 2 right; left|].
  rewrite Ta in Ha. rewrite Tc in Hc.
  split; [exists a'; split_and!; congruence|]. split; [by exists c'|]. unfold instanceSummary.
  rewrite Hc, Ha, Hs, Hsa, Sa, Hmc, Hma. by destruct (String.eqb (c_Status c) condTrue).
Qed.

Lemma failed_conditions now cs gen i e :
  stamped i → ist_Phase (in_Status i) = phaseFailing → ist_Ready (in_Status i) = false →
  let facts := {| f_Phase := phaseFailing; f_DeploymentFound := false; f_ReadyReplicas := 0;
                  f_DesiredReplicas := 0; f_ActiveUpgrade := ""; f_UpgradeMessage := "";
                  f_InitUpgrade := ""; f_InitMessage := ""; f_ErrReason := reconcileErrorReason e;
                  f_ErrMessage := error_text e |} in
  let conds := setConditions now cs gen (instanceConditions facts) in
  reports (set_conds conds (instanceSummary conds) i) e.
Proof.
  intros Hi Hp Hr. cbv zeta. unfold reports, instanceConditions. cbn [f_ErrMessage f_ErrReason f_Phase].
  split_and!; [done|done|done|]. cbn [in_Status set_conds in_with_status ist_Conditions ist_Message].
  destruct (String.eqb (error_text e) ""); cbn [negb].
  - exact (three_conditions now cs gen
      (newCondition ConditionTypeReady condFalse ReasonDeploymentNotReady "Deployment not created yet")
      (newCondition ConditionTypeProgressing condTrue ReasonReconciling "rolling out the Deployment")
      cond_healthy eq_refl eq_refl eq_refl eq_refl).
  - exact (three_conditions now cs gen (newCondition ConditionTypeReady condFalse (reported_reason e) (error_text e))
      (newCondition ConditionTypeProgressing condFalse ReasonReconcileError "reconcile stopped by an error; it is retried")
      (newCondition ConditionTypeDegraded condTrue (reported_reason e) (error_text e)) eq_refl eq_refl eq_refl eq_refl).
Qed.

Lemma wp_failPass h before i e :
  stamped i → isConflict e = false → wp failure_may h (failPass r before i e) pass_ends.
Proof.
  intros [Hi Hg] He. unfold failPass. wp_calls. split; [done|]. intros now.
  set (i' := set_conds _ _ _).
  assert (reports i' e) as Hr
    by exact (failed_conditions now _ _ (set_phase phaseFailing false i) e (conj Hi Hg) eq_refl eq_refl).
  split; [done|]. intros [i2|e']; [|split; [done|]; exists i', (Err e'); split; [apply last_write_here|done]].
  apply wp_bind. eapply wp_mono; [by apply wp_events|]. intros h' _ (l & -> & Hl). split; [done|].
  exists i', (Ok i2). split; [|done]. apply last_write_events; [done|apply last_write_here].
Qed.

Lemma wp_failing_pass : wp failure_may [] (instancePass r inst) pass_ends.
Proof.
  unfold instancePass. apply wp_bind. eapply wp_mono; [apply wp_reconcile|]. intros h [i [result|e]] Hout; [by right|].
  destruct (isConflict e) eqn:He; [|by apply wp_failPass]. unfold conflictResult. rewrite He. by left.
Qed.

(** ** Properties *)

(** Calls that change what runs: the Deployments, the service and budget of the pods, upgrades, and
    every deletion. *)
Definition workload_call (o : op) : option op :=
  match o with
  | OpCreateOrUpdate KDeployment _ _ | OpCreateOrUpdate KPDB _ _ | OpCreateOrUpdate KService _ _
  | OpDelete _ _ _ | OpCreate KUpgrade _ => Some o
  | _ => None
  end.

End Failure.

(** *** Witness: the Secret of the database password is missing *)
Definition no_secret_server (s : unit) (o : op) : answer o * unit :=
  match o return answer o * unit with
  | OpGet KSecret _ => (Err (StatusError CodeNotFound "not found"), s)
  | o => instance_server s o
  end.
Definition failed_run := run no_secret_server tt
  (instancePass {| rec_Recorder := true; rec_Clientset := true |} example_instance) [].


Close Scope Z_scope.
