(* ===== verification/InstanceProgress.v ===== *)
(** * An instance gets ready

    Passes of [instanceReconcile] on a [Cluster], with time between them in which the upgrades of the
    instance succeed and its Deployments roll out. Whatever the instance waits for, an initialisation,
    the upgrade of a new addons revision or its pods, the third pass at the latest reports it Ready and
    Running on the current revision, and every later pass does. *)
From S2P Require Export Cluster InstanceController.

Open Scope Z_scope.

Definition kinds_owned : list kind := [KConfigMap; KDeployment; KPDB; KService].

Section Progress.
Context `{Unicode} `{KubeLib} `{!OwnerLaws} `{!ErrorLaws}.
Context (r : Reconciler) (logs : string).
(** The instance, its configuration file, and the revision and the paths of the addons it uses. *)
Context (meta : ObjectMeta) (spec : OdooInstanceSpec) (conf : string) (current : string) (paths : list string).

Abbreviation effect := (effect (api logs)).
Abbreviation name := (m_Name meta).
Definition key : NamespacedName := objectKey meta.
Definition inst (st : OdooInstanceStatus) : OdooInstance := {| in_Meta := meta; in_Spec := spec; in_Status := st |}.

Definition pass (w : cluster) : cluster := (effect w (instanceReconcile r key)).2.

(** The addons of the namespace make this revision, at these paths. *)
Definition ready_addons (m : gmap string OdooAddon) : list OdooAddon := filterReadyAddons (map_to_list m).*2 name.
Definition revision (m : gmap string OdooAddon) : Prop :=
  addonsHash (ready_addons m) = current ∧ addonMountPaths (ready_addons m) = paths.
Definition own_upgrades : list string := [initUpgradeName name; gateUpgradeName name current].
Definition own_objects : list string := [name; configMapName name; cronDeploymentName name].

(** The object of the instance's namespace is without an owner, or the instance's. *)
Definition ours (m : ObjectMeta) : Prop :=
  m_Namespace m = m_Namespace meta ∧ (m_OwnerReferences m = [] ∨ IsControlledBy m meta = true).

Definition new_status : OdooInstanceStatus :=
  {| ist_Ready := false; ist_Phase := ""; ist_AddonPaths := []; ist_ObservedGeneration := 0;
     ist_Conditions := []; ist_Message := ""; ist_Initialized := false; ist_InitUpgrade := "";
     ist_AppliedAddonsHash := ""; ist_ActiveUpgrade := "" |}.
Definition claims : list pvcRequest := [addonsPVCRequest (inst new_status); dataPVCRequest (inst new_status)].
Definition claim_size (req : pvcRequest) : string :=
  if String.eqb (pvr_size req) "" then pvr_defaultSize req else pvr_size req.

(** ** What the instance needs

    Its own object, valid sizes and options, the Secrets it refers to, and under the names of its
    objects nothing of another owner; its upgrades have not failed. *)
Definition owned_fit (k : kind) (m : gmap string (obj k)) : Prop :=
  ∀ n o, n ∈ own_objects → m !! n = Some o → m_Name (obj_meta k o) = n ∧ ours (obj_meta k o).
Definition kind_fit (k : kind) : gmap string (obj k) → Prop :=
  match k return gmap string (obj k) → Prop with
  | KInstance => λ m, ∃ st, m !! name = Some (inst st)
  | KAddon => revision
  | KSecret => λ m, ∀ n, n ≠ "" → pod_secret (inst new_status) n ∨ init_secret (inst new_status) n → is_Some (m !! n)
  | KConfigMap => owned_fit KConfigMap
  | KDeployment => owned_fit KDeployment
  | KPDB => owned_fit KPDB
  | KService => owned_fit KService
  | KPVC => λ m, ∀ req p, req ∈ claims → m !! pvr_name req = Some p →
      m_Name (pvc_Meta p) = pvr_name req ∧ (pvr_owned req = true → ours (pvc_Meta p))
  | KUpgrade => λ m, ∀ n u, n ∈ own_upgrades → m !! n = Some u →
      ref_Name (us_InstanceRef (up_Spec u)) = name ∧ ust_Phase (up_Status u) ≠ UpgradePhaseFailed
  | _ => λ _, True
  end.
Definition fit (w : cluster) : Prop := ∀ k, kind_fit k (objects w k).

Lemma fit_frame k w w' : fit w → frame [k] w w' → kind_fit k (objects w' k) → fit w'.
Proof.
  intros Hfit Hf Hk k'. destruct (decide (k' = k)) as [->|Hne]; [done|].
  rewrite (Hf k') by set_solver. apply Hfit.
Qed.

Context (Hconf : renderOdooConf spec = Ok conf).
Context (Hsizes : ∀ req, req ∈ claims → is_Ok (ParseQuantity (claim_size req)) = true).
Context (Hdeletion : m_DeletionTimestamp meta = None).
Context (Hfinalizer : ContainsFinalizer meta finalizerOdooInstance = true).
Context (Hinitsecret : ∀ s, is_Initialize spec = Some s → ini_AdminUserPasswordSecret s ≠ "").

(** ** Owners *)
Lemma ours_controller m : ours m → ∃ m', SetControllerReference meta m = Ok m'.
Proof.
  intros [Hns Ho]. assert (is_Ok (SetControllerReference meta m) = true) as Hok.
  { destruct Ho; [by apply set_controller_new|by apply set_controller_own]. }
  destruct (SetControllerReference meta m) as [m'|]; [by exists m'|done].
Qed.

Lemma controller_ours m m' : m_Namespace m = m_Namespace meta → SetControllerReference meta m = Ok m' → ours m'.
Proof.
  intros Hns Hm. destruct (set_controller_ref _ _ _ Hm) as (? & Heq & _). split; [by rewrite Heq|by right].
Qed.

Lemma ours_labels labels annotations m : ours m → ours (with_labels labels annotations m).
Proof. intros [Hns Ho]. split; [done|]. by rewrite (controlled_refs meta (with_labels labels annotations m) m). Qed.

(** ** Steps of a pass *)
Lemma effect_createOrUpdate {B} w k x mutate o o' (f : res (obj k * OperationResult) → prog B) :
  match objects w k !! nn_Name x with Some c => Some c | None => blank k x end = Some o → mutate o = Ok o' →
  ∃ result, effect w (prog_bind (createOrUpdate k x mutate) f) = effect (put k (nn_Name x) o' w) (f (Ok (o', result))).
Proof.
  intros Ho Hm. unfold createOrUpdate, call. cbn [prog_bind]. rewrite effect_do. cbn [api].
  destruct (objects w k !! nn_Name x) as [c|].
  - injection Ho as ->. rewrite Hm. by eexists.
  - rewrite Ho, Hm. by eexists.
Qed.

(** [step ks w p x]: the program returns [x] and changes objects of the kinds [ks]. *)
Definition step {A} (ks : list kind) (w : cluster) (p : prog A) (x : A) (w' : cluster) : Prop :=
  effect w p = (x, w') ∧ frame ks w w' ∧ fit w'.

Lemma claim_names : pvr_name (addonsPVCRequest (inst new_status)) ≠ pvr_name (dataPVCRequest (inst new_status)).
Proof. cbn. unfold addonsPVCName, dataPVCName. intros Heq%(inj (String.append name)). done. Qed.

Lemma claims_cases req :
  req ∈ claims → req = addonsPVCRequest (inst new_status) ∨ req = dataPVCRequest (inst new_status).
Proof. intros [?|?%list_elem_of_singleton]%elem_of_cons; auto. Qed.

Lemma claims_fit m m' req :
  kind_fit KPVC m → req ∈ claims →
  (∀ p, m' !! pvr_name req = Some p → m_Name (pvc_Meta p) = pvr_name req ∧ (pvr_owned req = true → ours (pvc_Meta p))) →
  (∀ n, n ≠ pvr_name req → m' !! n = m !! n) → kind_fit KPVC m'.
Proof.
  intros Hm Hreq Hm' Hother req' p Hreq' Hp'. destruct (decide (pvr_name req' = pvr_name req)) as [E|Hne].
  - assert (req' = req) as ->; [|by apply Hm'].
    destruct (claims_cases req Hreq) as [Hr1|Hr1], (claims_cases req' Hreq') as [Hr2|Hr2];
      rewrite Hr1, Hr2 in E |- *; try done; exfalso; by apply claim_names.
  - rewrite Hother in Hp' by done. by apply (Hm req').
Qed.

Lemma put_claim w req p :
  fit w → req ∈ claims → m_Name (pvc_Meta p) = pvr_name req → (pvr_owned req = true → ours (pvc_Meta p)) →
  fit (put KPVC (pvr_name req) p w).
Proof.
  intros Hfit Hreq Hname Hours. eapply fit_frame; [done|apply frame_put|]. unfold put. rewrite put_objects_eq.
  eapply claims_fit; [exact (Hfit KPVC)|done| |].
  - intros p'. rewrite lookup_insert_eq. by intros [= <-].
  - intros n Hn. by rewrite lookup_insert_ne.
Qed.

(** The claims stay, in their phases. *)
Definition claims_stay (w w' : cluster) : Prop := ∀ n (p : PersistentVolumeClaim), objects w KPVC !! n = Some p →
  ∃ p' : PersistentVolumeClaim, objects w' KPVC !! n = Some p' ∧ pvc_Phase p' = pvc_Phase p.

Lemma claims_stay_trans w1 w2 w3 : claims_stay w1 w2 → claims_stay w2 w3 → claims_stay w1 w3.
Proof. intros H12 H23 n p (p' & Hp' & <-)%H12. by apply H23. Qed.
Lemma claims_stay_same w w' : objects w' KPVC = objects w KPVC → claims_stay w w'.
Proof. intros Heq n p Hp. rewrite Heq. by exists p. Qed.
Lemma claims_stay_put n (p : PersistentVolumeClaim) w :
  (∀ c : PersistentVolumeClaim, objects w KPVC !! n = Some c → pvc_Phase p = pvc_Phase c) → claims_stay w (put KPVC n p w).
Proof.
  intros Hph m c Hc. unfold put. rewrite put_objects_eq. destruct (decide (m = n)) as [->|Hne].
  - exists p. rewrite lookup_insert_eq. split; [done|by apply Hph].
  - exists c. by rewrite lookup_insert_ne.
Qed.

Lemma step_claim st w req :
  fit w → req ∈ claims → ∃ w', step [KPVC] w (reconcileSinglePVC (inst st) req) (Ok tt) w' ∧ claims_stay w w'.
Proof.
  intros Hfit Hreq. unfold reconcileSinglePVC. unfold step. rewrite effect_get. cbn [nn_Name].
  destruct (objects w KPVC !! pvr_name req) as [p|] eqn:Hp; cbn [found].
  - unfold syncPVCOwnership. destruct (Bool.eqb _ _); [exists w; split; [done|by apply claims_stay_same]|]. cbn [in_Meta inst].
    destruct (Hfit KPVC req p Hreq Hp) as [Hpname Hpours].
    assert (∃ m, (if pvr_owned req then SetControllerReference meta (pvc_Meta p)
      else Ok (with_owners (ownerRefsWithoutUID (m_OwnerReferences (pvc_Meta p)) (m_UID meta)) (pvc_Meta p))) = Ok m ∧
      m_Name m = m_Name (pvc_Meta p) ∧ (pvr_owned req = true → ours m)) as (m & -> & Hname & Hours).
    { destruct (pvr_owned req) eqn:Hown; [|by eexists].
      destruct (ours_controller _ (Hpours eq_refl)) as [m Hm]. exists m.
      destruct (set_controller_ref _ _ _ Hm) as (_ & Heq & _). split_and!; [done|by rewrite Heq|].
      intros _. apply (controller_ours (pvc_Meta p)); [by apply Hpours|done]. }
    unfold try_bind, call. cbn [prog_bind]. rewrite effect_do. cbn [api]. unfold overwrite.
    cbn [obj_meta pvc_with_meta pvc_Meta]. rewrite Hname, Hpname, Hp. cbn [fst snd].
    eexists. split; [split_and!; [done|apply frame_put|]|].
    + apply put_claim; try done. cbn. congruence.
    + apply claims_stay_put. intros c Hc. pose proof (eq_trans (eq_sym Hp) Hc) as [= <-]. done.
  - rewrite missing_not_found. cbn [negb]. pose proof (Hsizes req Hreq) as Hsize. unfold claim_size in Hsize.
    destruct (ParseQuantity _) as [q|]; [|done].
    assert (∃ m, (if pvr_owned req then SetControllerReference (in_Meta (inst st)) (pvc_Meta (newPVC (inst st) req q))
       else Ok (pvc_Meta (newPVC (inst st) req q))) = Ok m ∧ m_Name m = pvr_name req ∧ (pvr_owned req = true → ours m))
      as (m & -> & Hname & Hours).
    { destruct (pvr_owned req) eqn:Hown; [|by eexists].
      destruct (ours_controller (pvc_Meta (newPVC (inst st) req q))) as [m Hm]; [split; [done|by left]|]. exists m.
      destruct (set_controller_ref _ _ _ Hm) as (_ & Heq & _). split_and!; [done|by rewrite Heq|].
      intros _. by apply (controller_ours (pvc_Meta (newPVC (inst st) req q))). }
    unfold try_bind. rewrite effect_create by (cbn; by rewrite Hname). cbn [obj_meta pvc_with_meta pvc_Meta].
    rewrite Hname. eexists. split; [split_and!; [done|apply frame_put|by apply put_claim]|].
    apply claims_stay_put. intros c Hc. by pose proof (eq_trans (eq_sym Hp) Hc).
Qed.

Lemma step_try {A B} ks ks' w w' w'' (p : prog (res A)) (f : A → prog (res B)) a b :
  step ks w p (Ok a) w' → step ks' w' (f a) b w'' → step (ks ++ ks') w (try_bind p f) b w''.
Proof.
  intros (Hp & Hf & _) (Hq & Hf' & Hfit). split_and!; [by rewrite (effect_try _ _ _ _ _ _ Hp)| |done].
  transitivity w'; (eapply frame_weaken; [|done]); set_solver.
Qed.

Lemma step_pvc st w : fit w → ∃ w', step [KPVC] w (reconcilePVC (inst st)) (Ok tt) w' ∧ claims_stay w w'.
Proof.
  intros Hfit. destruct (step_claim st w (addonsPVCRequest (inst st)) Hfit) as (w1 & Hs1 & Hc1); [by left|].
  destruct (step_claim st w1 (dataPVCRequest (inst st))) as (w2 & Hs2 & Hc2); [apply Hs1|by right; left|].
  exists w2. split; [|by eapply claims_stay_trans]. destruct (step_try _ _ _ _ _ _ (λ _, reconcileSinglePVC (inst st) (dataPVCRequest (inst st))) _ _ Hs1 Hs2)
    as (? & Hf & ?).
  split_and!; [done| |done]. eapply frame_weaken; [|exact Hf]. set_solver.
Qed.

(** *** The objects the instance owns *)
Lemma owned_kind k : k ∈ kinds_owned → (∀ m, owned_fit k m → kind_fit k m) ∧ (∀ m, kind_fit k m → owned_fit k m) ∧
  ∀ x, ∃ b, blank k x = Some b ∧ obj_meta k b = newMeta (nn_Name x) (nn_Namespace x).
Proof.
  intros Hk. assert (k = KConfigMap ∨ k = KDeployment ∨ k = KPDB ∨ k = KService) as Hcases by (unfold kinds_owned in Hk; set_solver).
  destruct Hcases as [->|[->|[->| ->]]]; (split; [done|]; split; [done|]; intros x; by eexists).
Qed.

Lemma step_object k x mutate w :
  k ∈ kinds_owned → nn_Name x ∈ own_objects → nn_Namespace x = m_Namespace meta → fit w →
  (∀ o m, SetControllerReference meta (obj_meta k o) = Ok m →
     ∃ o', mutate o = Ok o' ∧ m_Name (obj_meta k o') = m_Name m ∧ (ours m → ours (obj_meta k o'))) →
  ∃ o o' result, step [k] w (createOrUpdate k x mutate) (Ok (o', result)) (put k (nn_Name x) o' w) ∧
    mutate o = Ok o' ∧
    match objects w k !! nn_Name x with Some c => Some c | None => blank k x end = Some o.
Proof.
  intros Hk Hx Hns Hfit Hmut. destruct (owned_kind k Hk) as (Hto & Hfrom & Hblank).
  destruct (Hblank x) as (b & Hb & Hbm).
  assert (∃ o, match objects w k !! nn_Name x with Some c => Some c | None => blank k x end = Some o ∧
    m_Name (obj_meta k o) = nn_Name x ∧ ours (obj_meta k o)) as (o & Ho & Hname & Hours).
  { destruct (objects w k !! nn_Name x) as [c|] eqn:Hc.
    - exists c. split; [done|]. by apply (Hfrom _ (Hfit k)).
    - exists b. rewrite Hbm. split_and!; [done|done|split; [done|by left]]. }
  destruct (ours_controller _ Hours) as [m Hm]. destruct (Hmut o m Hm) as (o' & Ho' & Hn' & Hours').
  pose proof (controller_ours _ _ (proj1 Hours) Hm) as Hmours.
  destruct (set_controller_ref _ _ _ Hm) as (_ & Heq & _).
  assert (m_Name (obj_meta k o') = nn_Name x) as Hname' by (rewrite Hn', Heq; exact Hname).
  destruct (effect_createOrUpdate w k x mutate o o' (λ a, Ret a) Ho Ho') as [result He].
  exists o, o', result. split_and!; [|done|done]. split_and!; [|apply frame_put|].
  - etrans; [|exact He]. unfold createOrUpdate, call. cbn [prog_bind]. done.
  - eapply fit_frame; [done|apply frame_put|]. unfold put. rewrite put_objects_eq. apply Hto.
    intros n c Hn [[<- <-]|[_ Hc]]%lookup_insert_Some; [by auto|]. by apply (Hfrom _ (Hfit k)).
Qed.

Lemma step_object_unit k x mutate w :
  k ∈ kinds_owned → nn_Name x ∈ own_objects → nn_Namespace x = m_Namespace meta → fit w →
  (∀ o m, SetControllerReference meta (obj_meta k o) = Ok m →
     ∃ o', mutate o = Ok o' ∧ m_Name (obj_meta k o') = m_Name m ∧ (ours m → ours (obj_meta k o'))) →
  ∃ o', step [k] w (let? _ := createOrUpdate k x mutate in ok tt) (Ok tt) (put k (nn_Name x) o' w) ∧
    ∃ o, mutate o = Ok o' ∧ match objects w k !! nn_Name x with Some c => Some c | None => blank k x end = Some o.
Proof.
  intros Hk Hx Hns Hfit Hmut. destruct (step_object k x mutate w) as (o & o' & result & (He & Hf & Hfit') & Hm & Ho); [done..|].
  exists o'. split; [|by exists o]. split_and!; [|done|done]. by rewrite (effect_try _ _ _ _ _ _ He).
Qed.

Lemma step_config st w :
  fit w → ∃ w', step [KConfigMap] w (reconcileConfigMap (inst st) conf) (Ok tt) w'.
Proof.
  intros Hfit. destruct (step_object_unit KConfigMap (instanceKey (inst st) (configMapName name))
    (λ cm : ConfigMap, SetControllerReference meta (cm_Meta cm) ≫= λ m,
       Ok {| cm_Meta := m; cm_Data := {[confFileName := conf]} |}) w) as (o' & Hs & _); [set_solver..|done|done| |by eexists].
  intros o m Hm. cbn in Hm. rewrite Hm. by eexists.
Qed.

Lemma step_service st w : fit w → ∃ w', step [KService] w (reconcileService (inst st)) (Ok tt) w'.
Proof.
  intros Hfit. edestruct (step_object_unit KService (instanceKey (inst st) name)) as (o' & Hs & _);
    [..|eexists; exact Hs]; [set_solver|by left|done|done|].
  intros o m Hm. cbn in Hm |- *. rewrite Hm. by eexists.
Qed.

(** Programs that only read, with a result. *)
Lemma step_reads {A} w (p : prog A) : fit w → reading p → step [] w p (effect w p).1 w.
Proof.
  intros Hfit Hp. split_and!; [|done|done]. pose proof (effect_reading logs p w Hp) as He.
  destruct (effect w p) as [a w']. cbn in *. by subst.
Qed.

Lemma step_secrets st w :
  fit w → ∃ secrets, step [] w (referencedSecrets (inst st)) (Ok secrets) w.
Proof.
  intros Hfit. unfold referencedSecrets.
  assert (∀ refs, (∀ field n, (field, n) ∈ refs → n ≠ "" → is_Some (objects w KSecret !! n)) →
    ∃ secrets, step [] w (fetchSecrets (inst st) refs) (Ok secrets) w) as Hfetch.
  { intros refs. induction refs as [|[field n] refs IH]; intros Hrefs; [by exists []|].
    destruct IH as (secrets & He & _); [intros; eapply Hrefs; [by right|done]|]. cbn [fetchSecrets].
    destruct (String.eqb_spec n "") as [->|Hne]; [by exists secrets|].
    destruct (Hrefs field n ltac:(by left) Hne) as [secret Hsec].
    exists (secret :: secrets). split_and!; [|done|done].
    rewrite effect_get. cbn [nn_Name instanceKey]. rewrite Hsec. cbn [found].
    by rewrite (effect_try _ _ _ _ _ _ He). }
  apply Hfetch. intros field n Hin Hne. apply (Hfit KSecret n Hne). left. unfold pod_secret. cbn.
  set_unfold in Hin. naive_solver.
Qed.

Lemma step_addons st w :
  fit w → step [] w (listReadyAddons (inst st)) (Ok (ready_addons (objects w KAddon))) w.
Proof.
  intros Hfit. split_and!; [|done|done]. unfold listReadyAddons, try_bind. by rewrite effect_list, labelled_all.
Qed.

(** *** The disruption budget *)
Lemma fit_erase k n w : k ∈ kinds_owned → fit w → fit (erase k n w).
Proof.
  intros Hk Hfit. destruct (owned_kind k Hk) as (Hto & Hfrom & _).
  eapply fit_frame; [done|apply frame_erase|]. unfold erase. rewrite put_objects_eq. apply Hto.
  intros m o Hm [_ Ho]%lookup_delete_Some. by apply (Hfrom _ (Hfit k)).
Qed.

Lemma step_budget st w : fit w → ∃ w', step [KPDB] w (reconcilePDB (inst st)) (Ok tt) w'.
Proof.
  intros Hfit. unfold reconcilePDB. destruct (_ <=? 1).
  - unfold deletePDBIfOwned, step. rewrite effect_get. cbn [nn_Name instanceKey in_Meta inst].
    destruct (objects w KPDB !! name) as [pdb|] eqn:Hp; cbn [found].
    + destruct (negb _); [by exists w|]. destruct (Hfit KPDB name pdb) as [Hname _]; [set_solver|done|].
      rewrite effect_delete with (c := pdb) by (cbn in Hname |- *; by rewrite Hname).
      eexists. split_and!; [done|apply frame_erase|apply fit_erase; [set_solver|done]].
    + exists w. split_and!; [|done|done]. cbn. by rewrite missing_not_found.
  - edestruct (step_object_unit KPDB (instanceKey (inst st) name)) as (o' & Hs & _);
      [..|eexists; exact Hs]; [set_solver|by left|done|done|].
    intros o m Hm. cbn in Hm |- *. rewrite Hm. by eexists.
Qed.

(** *** The Deployments *)
Definition web (w : cluster) : option Deployment := objects w KDeployment !! name.
Definition rolled (hashes : rolloutHashes) (replicas : Z) (w : cluster) (d : Deployment) : Prop :=
  dep_Replicas d = Some replicas ∧
  pt_Annotations (dep_Template d) !! annotationAddonsHash = Some (rh_addons hashes) ∧
  dep_StatusReadyReplicas d = match web w with Some d => dep_StatusReadyReplicas d | None => 0 end.

Lemma step_web st hashes replicas w :
  fit w → ∃ w' d, step [KDeployment] w (reconcileDeployment (inst st) hashes replicas) (Ok tt) w' ∧
    web w' = Some d ∧ rolled hashes replicas w d.
Proof.
  intros Hfit. edestruct (step_object_unit KDeployment (instanceKey (inst st) name)
    (mutateDeployment (inst st) hashes replicas) w) as (d & Hs & o & Hd & Ho); [set_solver|by left|done|done| |].
  { intros o m Hm. cbn in Hm. unfold mutateDeployment. cbn [in_Meta inst]. rewrite Hm.
    eexists. split_and!; [done|done|]. apply ours_labels. }
  eexists _, d. split_and!; [exact Hs|unfold web, put; rewrite put_objects_eq; apply lookup_insert_eq|].
  unfold mutateDeployment in Hd. apply res_bind_Ok in Hd as (m & _ & [= <-]).
  split_and!; [done|apply pod_addons_hash|]. cbn [dep_StatusReadyReplicas].
  change (objects w KDeployment !! nn_Name (instanceKey (inst st) name)) with (web w) in Ho.
  destruct (web w) as [c|]; by injection Ho as <-.
Qed.

Lemma cron_name : cronDeploymentName name ≠ name.
Proof.
  intros Heq. apply (f_equal len) in Heq. unfold cronDeploymentName in Heq. rewrite len_app in Heq.
  unfold suffixCron in Heq. cbn in Heq. lia.
Qed.

Lemma step_cron st hashes held w :
  fit w → ∃ cron w', step [KDeployment] w (reconcileCron (inst st) hashes held) (Ok cron) w' ∧ web w' = web w.
Proof.
  intros Hfit. unfold reconcileCron. destruct (cronEnabled _); cbn [negb].
  - destruct (step_object KDeployment (instanceKey (inst st) (cronDeploymentName name))
      (mutateCronDeployment (inst st) hashes (cronReplicas held)) w) as (o & o' & result & (He & Hf & Hfit') & _);
      [set_solver|by right; right; left|done|done| |].
    { intros o m Hm. cbn in Hm. unfold mutateCronDeployment. cbn [in_Meta inst]. rewrite Hm.
      eexists. split_and!; [done|done|]. apply ours_labels. }
    eexists _, _. split; [split_and!; [|exact Hf|exact Hfit']|].
    + unfold reconcileCronDeployment. by rewrite (effect_try _ _ _ _ _ _ He).
    + unfold web, put. rewrite put_objects_eq. apply lookup_insert_ne, cron_name.
  - unfold deleteCronDeployment, step, try_bind. rewrite effect_bind, effect_get.
    cbn [nn_Name instanceKey in_Meta inst].
    destruct (objects w KDeployment !! cronDeploymentName name) as [d|] eqn:Hd; cbn [found].
    + destruct (negb _); [by eexists _, w|].
      destruct (Hfit KDeployment (cronDeploymentName name) d) as [Hname _]; [by right; right; left|exact Hd|].
      rewrite effect_delete with (c := d) by (cbn in Hname |- *; by rewrite Hname).
      eexists _, (erase KDeployment (m_Name (obj_meta KDeployment d)) w).
      split; [split_and!; [done|apply frame_erase|apply fit_erase; [set_solver|done]]|].
      unfold web, erase. rewrite put_objects_eq, Hname. apply lookup_delete_ne, cron_name.
    + rewrite missing_not_found. by eexists _, w.
Qed.

(** *** The gates *)
Definition upgrade_at (w : cluster) (n : string) : option OdooUpgrade := objects w KUpgrade !! n.
Definition upgrade_done (w : cluster) (n : string) : Prop :=
  ∃ u, upgrade_at w n = Some u ∧ ust_Phase (up_Status u) = UpgradePhaseSucceeded.

Lemma step_read st w n :
  fit w → n ∈ own_upgrades →
  step [] w (readGateUpgrade (inst st) n)
    (Ok ((λ u, (ust_Phase (up_Status u), ust_Message (up_Status u))) <$> upgrade_at w n)) w.
Proof.
  intros Hfit Hn. split_and!; [|done|done]. unfold readGateUpgrade. rewrite effect_get.
  change (objects w KUpgrade !! _) with (upgrade_at w n). destruct (upgrade_at w n) as [u|] eqn:Hu; cbn [found].
  - destruct (Hfit KUpgrade n u Hn Hu) as [Href _]. cbn [in_Meta inst]. by rewrite Href, String.eqb_refl.
  - by rewrite missing_not_found.
Qed.

Lemma step_create st w (u : OdooUpgrade) :
  fit w → m_Name (up_Meta u) ∈ own_upgrades → m_Namespace (up_Meta u) = m_Namespace meta →
  m_OwnerReferences (up_Meta u) = [] → ref_Name (us_InstanceRef (up_Spec u)) = name →
  ust_Phase (up_Status u) = "" →
  ∃ w', step [KUpgrade] w (createOwnedUpgrade (inst st) u) (Ok tt) w' ∧ is_Some (upgrade_at w' (m_Name (up_Meta u))).
Proof.
  intros Hfit Hn Hns Hrefs Href Hph. unfold createOwnedUpgrade, step.
  destruct (ours_controller (up_Meta u)) as [m Hm]; [split; [done|by left]|]. cbn [in_Meta inst]. rewrite Hm.
  destruct (set_controller_ref _ _ _ Hm) as (_ & Heq & _).
  set (u' := {| up_Meta := m; up_Spec := up_Spec u; up_Status := up_Status u |}).
  assert (m_Name (obj_meta KUpgrade u') = m_Name (up_Meta u)) as Hname by (cbn; by rewrite Heq).
  destruct (upgrade_at w (m_Name (up_Meta u))) as [c|] eqn:Hc.
  - exists w. split; [|by exists c]. split_and!; [|done|done]. unfold create, call. cbn [prog_bind]. rewrite effect_do.
    cbn [api]. change (objects w KUpgrade !! m_Name (obj_meta KUpgrade u')) with (upgrade_at w (m_Name (obj_meta KUpgrade u'))).
    rewrite Hname, Hc. cbn [fst snd IgnoreAlreadyExists].
    by rewrite IsAlreadyExists_spec, bool_decide_true.
  - exists (put KUpgrade (m_Name (up_Meta u)) u' w). split.
    + split_and!; [rewrite effect_create by (rewrite Hname; exact Hc); by rewrite Hname|apply frame_put|].
      eapply fit_frame; [done|apply frame_put|]. unfold put. rewrite put_objects_eq.
      intros n v Hn' [[<- <-]|[_ Hv]]%lookup_insert_Some;
        [split; [done|cbn; intros E; by rewrite Hph in E]|].
      by apply (Hfit KUpgrade n v Hn').
    + unfold upgrade_at, put. rewrite put_objects_eq, lookup_insert_eq. by eexists.
Qed.

Lemma step_weaken {A} ks ks' w (p : prog A) a w' : ks ⊆ ks' → step ks w p a w' → step ks' w p a w'.
Proof. intros Hsub (? & Hf & ?). split_and!; [done|by eapply frame_weaken|done]. Qed.

(** An initialisation that is not done has its upgrade after the pass; another needs nothing. *)
Definition init_outcome (st : OdooInstanceStatus) (w : cluster) (dec : initDecision) (w' : cluster) : Prop :=
  if id_pending dec then
    is_Initialize spec ≠ None ∧ ist_Initialized st = false ∧ ¬ upgrade_done w (initUpgradeName name) ∧
    is_Some (upgrade_at w' (initUpgradeName name))
  else w' = w ∧ (is_Initialize spec ≠ None → id_initialized dec = true).

Lemma step_init_upgrade st w live :
  fit w → ∃ i, step [] w (readInitUpgrade (inst st) (initUpgradeName name) live) (Ok i) w ∧
    i = {| ii_requested := true; ii_initialized := false; ii_upgradeName := initUpgradeName name;
           ii_upgradeExists := bool_decide (is_Some (upgrade_at w (initUpgradeName name)));
           ii_upgradePhase := default "" ((λ u, ust_Phase (up_Status u)) <$> upgrade_at w (initUpgradeName name));
           ii_upgradeMessage := ii_upgradeMessage i; ii_liveReplicas := live |}.
Proof.
  intros Hfit. pose proof (step_read st w (initUpgradeName name) Hfit ltac:(by left)) as (He & _).
  unfold readInitUpgrade, step. rewrite (effect_try _ _ _ _ _ _ He).
  destruct (upgrade_at w _) as [u|] eqn:Hu; cbn; eexists; (split; [split_and!; [done..|]|]); done.
Qed.

(** The live pods do not matter for what happens next. *)
Lemma step_init_state st w :
  fit w → ∃ live msg, step [] w (readInitState (inst st) (initUpgradeName name))
    (Ok {| ii_requested := true; ii_initialized := false; ii_upgradeName := initUpgradeName name;
           ii_upgradeExists := bool_decide (is_Some (upgrade_at w (initUpgradeName name)));
           ii_upgradePhase := default "" ((λ u, ust_Phase (up_Status u)) <$> upgrade_at w (initUpgradeName name));
           ii_upgradeMessage := msg; ii_liveReplicas := live |}) w.
Proof.
  intros Hfit. unfold readInitState, step. rewrite effect_get.
  destruct (objects w KDeployment !! _) as [d|]; cbn [found]; [|rewrite missing_not_found];
    edestruct (step_init_upgrade st w) as (i & Hs & Hi); try done; rewrite Hi in Hs; eexists _, _; exact Hs.
Qed.

Lemma step_init st w :
  fit w → ∃ dec w', step [KUpgrade] w (decideInitialization (inst st)) (Ok dec) w' ∧ init_outcome st w dec w'.
Proof.
  intros Hfit. unfold decideInitialization. cbn [in_Spec in_Status in_Meta inst].
  destruct (is_Initialize spec) as [s|] eqn:Hinit;
    [|eexists _, w; split; [by split_and!|by unfold init_outcome; cbn; split; [|intros []]]].
  destruct (ist_Initialized st) eqn:Hst; [eexists _, w; split; [by split_and!|by unfold init_outcome]|].
  destruct (step_init_state st w Hfit) as (live & msg & He & _). unfold step. rewrite (effect_try _ _ _ _ _ _ He).
  set (i := {| ii_requested := true |}) in *.
  assert (∀ w', (if id_pending (initDecide i) then is_Some (upgrade_at w' (initUpgradeName name)) else w' = w) →
    init_outcome st w (initDecide i) w') as Hout.
  { intros w' Hw'. destruct (initDecide_contract i) as (Hpend & Hdone & _). unfold init_outcome.
    destruct (id_pending (initDecide i)) eqn:Hp.
    - split_and!; [by rewrite Hinit|done| |done]. intros (u & Hu & Hph).
      assert (id_initialized (initDecide i) = true) as Htrue; [|by rewrite Htrue in Hpend].
      apply Hdone. right. split; [done|]. left. cbn. by rewrite Hu.
    - split; [done|]. intros _. cbn in Hpend. by destruct (id_initialized _). }
  destruct (initDecide_contract i) as (_ & _ & Hens & Hname & _).
  destruct (id_ensureUpgrade (initDecide i)) eqn:He'.
  - destruct (Hname eq_refl) as [Hp Hn].
    assert (reading (checkInitSecret (inst st) s)) as Hread.
    { unfold checkInitSecret. cbn. split; [done|]. intros [|e]; [done|]. by destruct (IsNotFound e). }
    assert (effect w (checkInitSecret (inst st) s) = (Ok tt, w)) as Hsec.
    { unfold checkInitSecret. rewrite effect_get. cbn [nn_Name].
      destruct (Hfit KSecret (ini_AdminUserPasswordSecret s)) as [sec Hs]; [by apply Hinitsecret|right; by exists s|].
      by rewrite Hs. }
    rewrite (effect_try _ _ _ _ _ _ Hsec).
    destruct (step_create st w (initUpgrade (inst st) s (id_upgradeName (initDecide i)))) as (w' & (Hc & Hf & Hfit') & Hex);
      try done; [rewrite Hn; by left|].
    exists (initDecide i), w'. split; [split_and!; [|done|done]|].
    + unfold createInitUpgrade. by rewrite (effect_try _ _ _ _ _ _ Hc).
    + apply Hout. rewrite Hp. revert Hex. cbn [initUpgrade ownedUpgrade up_Meta with_labels newMeta m_Name]. by rewrite Hn.
  - exists (initDecide i), w. split; [by split_and!|]. apply Hout.
    destruct (upgrade_at w (initUpgradeName name)) as [u|] eqn:Hu; [by destruct (id_pending _); [eexists|]|].
    destruct (id_pending (initDecide i)) eqn:Hp; [exfalso|done].
    revert Hp He'. unfold i, initDecide. cbn. destruct (0 <? live); done.
Qed.

(** The gate lets the current revision through, or its upgrade is there after the pass. *)
Definition gate_outcome (st : OdooInstanceStatus) (w : cluster) (gd : gateDecision) (w' : cluster) : Prop :=
  gd_appliedHash gd = gd_templateHash gd ∧
  if String.eqb (gd_phase gd) "" then gd_templateHash gd = current ∧ gd_activeUpgrade gd = "" ∧ objects w' KUpgrade = objects w KUpgrade
  else ist_AppliedAddonsHash st ≠ current ∧ gd_templateHash gd = ist_AppliedAddonsHash st ∧
       ¬ upgrade_done w (gateUpgradeName name current) ∧ is_Some (upgrade_at w' (gateUpgradeName name current)).

Lemma gate_contract_report i message succeeded :
  let d := gate_report message succeeded (gateDecide i) in
  gd_appliedHash d = gd_templateHash d ∧
  (rolls i → gd_templateHash d = gi_current i ∧ gd_activeUpgrade d = "" ∧ gd_phase d = "") ∧
  (¬ rolls i → gd_templateHash d = gi_applied i ∧ gi_applied i ≠ gi_current i ∧ gd_phase d ≠ "" ∧
     gd_ensureUpgrade (gateDecide i) = negb (gi_upgradeExists i)).
Proof.
  destruct (gateDecide_contract i) as (Ha & Hr & Hn). cbn. split_and!; [done| |].
  - intros Hi. by destruct (Hr Hi) as (? & ? & ? & _).
  - intros Hi. destruct (Hn Hi) as (? & ? & _ & ? & ->). split_and!; try done. by destruct (_ && _).
Qed.

#[local] Instance rolls_dec i : Decision (rolls i).
Proof. unfold rolls. apply _. Defined.

Definition gate_input (st : OdooInstanceStatus) (found : option string) : gateInput :=
  {| gi_upgradeSet := match is_Upgrade spec with Some _ => true | None => false end;
     gi_applied := ist_AppliedAddonsHash st; gi_current := current;
     gi_upgradeName := gateUpgradeName name current; gi_upgradeExists := bool_decide (is_Some found);
     gi_upgradePhase := default "" found |}.

Definition gate_step (st : OdooInstanceStatus) (w : cluster) (p : prog (res (OdooInstance * gateDecision))) : Prop :=
  ∃ gd w', step [KUpgrade] w p (Ok (set_gate (gd_appliedHash gd) (gd_activeUpgrade gd) (inst st), gd)) w' ∧
    gate_outcome st w gd w'.

Lemma step_gate_rolls st w i message :
  fit w → rolls i → gi_current i = current → gate_step st w (gateFinish (inst st) i message).
Proof.
  intros Hfit Hi Hcur. unfold gateFinish, gate_step, step. cbv zeta.
  match goal with |- context [gate_report message ?x _] => set (succeeded := x) end.
  destruct (gate_contract_report i message succeeded) as (Ha & Hr & _).
  assert (gd_ensureUpgrade (gateDecide i) = false) as -> by by destruct (gateDecide_contract i) as (_ & Hroll & _);
    destruct (Hroll Hi) as (_ & _ & _ & ->).
  exists (gate_report message succeeded (gateDecide i)), w. split; [by split_and!|]. split; [done|]. by destruct (Hr Hi) as (-> & -> & ->).
Qed.

Lemma step_gate_finish st w message :
  let found := (λ u, ust_Phase (up_Status u)) <$> upgrade_at w (gateUpgradeName name current) in
  let i := gate_input st found in
  fit w → gate_step st w (gateFinish (inst st) i message).
Proof.
  intros found i Hfit. destruct (decide (rolls i)) as [Hi|Hi]; [by apply step_gate_rolls|].
  unfold gateFinish, gate_step, step. cbv zeta.
  match goal with |- context [gate_report message ?x _] => set (succeeded := x) end.
  destruct (gate_contract_report i message succeeded) as (Ha & _ & Hn). set (gd := gate_report _ _ _) in *.
  destruct (Hn Hi) as (Ht & Hne & Hp & Hens). apply String.eqb_neq in Hp.
  assert (∀ w', is_Some (upgrade_at w' (gateUpgradeName name current)) → gate_outcome st w gd w') as Hout.
  { intros w' Hw'. split; [done|]. rewrite Hp. split_and!; [exact Hne|exact Ht| |done].
    intros (u & Hu & Hph). apply Hi. right. right. right. unfold i, gate_input, found. cbn. rewrite Hu. cbn.
    by rewrite Hph. }
  rewrite Hens. destruct (upgrade_at w (gateUpgradeName name current)) as [u|] eqn:Hu.
  - exists gd, w. unfold i, found. cbn [gate_input gi_upgradeExists]. rewrite ?Hu. cbn.
    split; [by split_and!|]. apply Hout. by rewrite Hu.
  - destruct (is_Upgrade spec) as [us|] eqn:Hus; [|by destruct Hi; left; unfold i; cbn; rewrite Hus].
    destruct (step_create st w (gateUpgrade (inst st) us (gateUpgradeName name current))) as (w' & (Hc & Hf & Hfit') & Hex);
      try done; [by right; left|].
    exists gd, w'. split; [|by apply Hout]. split_and!; [|done|done].
    assert (gi_upgradeExists i = false) as -> by (unfold i, gate_input, found; cbn; by rewrite ?Hu).
    cbn [negb in_Spec inst]. rewrite Hus. by erewrite effect_try by exact Hc.
Qed.

Lemma step_gate st w : fit w → gate_step st w (gateAddonsRollout (inst st) current).
Proof.
  intros Hfit. unfold gateAddonsRollout. cbn [in_Spec in_Status in_Meta inst].
  set (upgradeSet := match is_Upgrade spec with Some _ => true | None => false end).
  destruct (_ && _ && _) eqn:Hguard.
  - pose proof (step_read st w (gateUpgradeName name current) Hfit ltac:(by right; left)) as (He & _).
    unfold gate_step, step. rewrite (effect_try _ _ _ _ _ _ He).
    destruct (upgrade_at w (gateUpgradeName name current)) as [u|] eqn:Hu; cbn [fmap option_fmap option_map].
    + pose proof (step_gate_finish st w (ust_Message (up_Status u)) Hfit) as Hs. rewrite Hu in Hs. exact Hs.
    + pose proof (step_gate_finish st w "" Hfit) as Hs. rewrite Hu in Hs. exact Hs.
  - apply step_gate_rolls; [done| |done]. unfold rolls. cbn [gi_upgradeSet gi_applied gi_current].
    destruct upgradeSet; [|by left]. destruct (String.eqb_spec (ist_AppliedAddonsHash st) ""); [by right; left|].
    destruct (String.eqb_spec (ist_AppliedAddonsHash st) current); [by right; right; left|done].
Qed.

(** *** The end of a pass *)
Definition self (w : cluster) : option OdooInstance := objects w KInstance !! name.

Lemma put_instance w st : fit w → fit (put KInstance name (inst st) w).
Proof.
  intros Hfit. eapply fit_frame; [done|apply frame_put|]. unfold put. rewrite put_objects_eq.
  exists st. apply lookup_insert_eq.
Qed.

(** The status that no step of the pass changes but the gates. *)
Definition gates_of (st : OdooInstanceStatus) : bool * string * string :=
  (ist_Initialized st, ist_AppliedAddonsHash st, ist_ActiveUpgrade st).
(** An instance that serves: what users see when the pods run. *)
Definition shows_ready (st : OdooInstanceStatus) : Prop := ist_Ready st = true ∧ ist_Phase st = phaseRunning.

Lemma settle_inst got desired st gate dec :
  ∃ st', settleGates gate dec (settleDeployment got desired (inst st)) = inst st' ∧
    gates_of st' = gates_of st ∧ ist_AddonPaths st' = ist_AddonPaths st ∧
    (gd_phase gate = "" → id_pending dec = false → ∀ d, got = Ok d → desired <= dep_StatusReadyReplicas d → shows_ready st').
Proof.
  assert (∃ st0, settleDeployment got desired (inst st) = inst st0 ∧ gates_of st0 = gates_of st ∧
    ist_AddonPaths st0 = ist_AddonPaths st ∧ ∀ d, got = Ok d → desired <= dep_StatusReadyReplicas d → shows_ready st0) as (st0 & -> & Hg & Hpaths & Hr).
  { unfold settleDeployment. destruct got as [d|e]; [destruct (Z.leb_spec desired (dep_StatusReadyReplicas d))|];
      eexists; split_and!; try done; intros d' [= <-] ?; (lia || done). }
  unfold settleGates. destruct (String.eqb_spec (gd_phase gate) "") as [->|Hp]; cbn [negb];
    [destruct (id_pending dec)|destruct (String.eqb (gd_phase gate) gatePhaseUpgradeFailed), (id_pending dec)];
    eexists; (split_and!; [reflexivity|exact Hg|exact Hpaths|]); intros ? ?; try done; intros; by eapply Hr.
Qed.

Lemma step_finish before st addons' gate dec cron w d :
  fit w → web w = Some d →
  ∃ st' i result w', step [KInstance] w (finishPass r before (inst st) addons' gate dec cron) (i, Ok result) w' ∧
    objects w' KInstance !! name = Some (inst st') ∧ gates_of st' = gates_of st ∧
    ist_AddonPaths st' = addonMountPaths addons' ∧
    (gd_phase gate = "" → id_pending dec = false → desiredReplicas spec <= dep_StatusReadyReplicas d → shows_ready st').
Proof.
  intros Hfit Hweb. unfold finishPass, step. cbv zeta.
  change (set_paths (addonMountPaths addons') (inst st)) with (inst (in_Status (set_paths (addonMountPaths addons') (inst st)))).
  set (st1 := in_Status (set_paths _ _)). rewrite effect_get.
  change (@found (obj KDeployment) (objects w KDeployment !! _)) with (@found Deployment (web w)).
  rewrite Hweb. cbn [found in_Spec inst].
  destruct (settle_inst (Ok d) (desiredReplicas spec) st1 gate dec) as (st2 & -> & Hg & Hpaths & Hr).
  rewrite effect_now. set (conds := setConditions _ _ _ (instanceConditions _)).
  change (set_conds conds (instanceSummary conds) (inst st2)) with (inst (in_Status (set_conds conds (instanceSummary conds) (inst st2)))).
  set (st3 := in_Status (set_conds _ _ _)).
  destruct (Hfit KInstance) as [st0 Hst0]. erewrite effect_updateStatus by exact Hst0.
  rewrite effect_bind, effect_events. cbn [fst snd].
  eexists st3, _, _, (put KInstance name (inst st3) w). split; [split_and!|split_and!].
  - reflexivity.
  - apply frame_put.
  - by apply put_instance.
  - unfold put. rewrite put_objects_eq. apply lookup_insert_eq.
  - exact Hg.
  - exact Hpaths.
  - intros Hp Hd Hready. exact (Hr Hp Hd d eq_refl Hready).
Qed.

(** ** A whole pass

    What a pass leaves behind: the instance waits for its initialisation, or for the upgrade of the
    current revision, or its pods run that revision. *)
Definition initialised (st : OdooInstanceStatus) : Prop := is_Initialize spec ≠ None → ist_Initialized st = true.

Definition waits_init (w : cluster) (st : OdooInstanceStatus) (w' : cluster) (st' : OdooInstanceStatus) : Prop :=
  ¬ initialised st ∧ ¬ upgrade_done w (initUpgradeName name) ∧
  ist_AppliedAddonsHash st' = current ∧ is_Some (upgrade_at w' (initUpgradeName name)).
Definition waits_upgrade (w : cluster) (st : OdooInstanceStatus) (w' : cluster) (st' : OdooInstanceStatus) : Prop :=
  initialised st' ∧ ist_AppliedAddonsHash st ≠ current ∧ ¬ upgrade_done w (gateUpgradeName name current) ∧
  is_Some (upgrade_at w' (gateUpgradeName name current)).
(** The web Deployment runs the current revision with all replicas. *)
Definition deployed (w : cluster) : Prop := ∃ d, web w = Some d ∧
  dep_Replicas d = Some (desiredReplicas spec) ∧
  pt_Annotations (dep_Template d) !! annotationAddonsHash = Some current.
Definition pods_ready (w : cluster) : Z := match web w with Some d => dep_StatusReadyReplicas d | None => 0 end.
Definition rolls_out (w : cluster) (w' : cluster) (st' : OdooInstanceStatus) : Prop :=
  initialised st' ∧ ist_AppliedAddonsHash st' = current ∧ ist_AddonPaths st' = paths ∧ ist_ActiveUpgrade st' = "" ∧ deployed w' ∧
  (desiredReplicas spec <= pods_ready w → shows_ready st') ∧ objects w' KUpgrade = objects w KUpgrade.

Definition pass_kinds : list kind := [KPVC; KConfigMap; KUpgrade; KDeployment; KPDB; KService; KInstance].

(** What a pass leaves alone. *)
Definition passed (w w' : cluster) : Prop := frame pass_kinds w w' ∧ claims_stay w w'.

(** The second half: the objects of the pods, then the status. *)
Lemma pods_outcome before st addons' gate dec hashes w :
  fit w → rh_addons hashes = gd_templateHash gate →
  let replicas := if id_pending dec then 0 else desiredReplicas spec in
  ∃ st' i result w',
    step [KDeployment; KPDB; KService; KInstance] w
      (let?[inst st] _ := reconcileDeployment (inst st) hashes replicas in
       let?[inst st] _ := reconcilePDB (inst st) in
       let?[inst st] _ := reconcileService (inst st) in
       let?[inst st] cron := reconcileCron (inst st) hashes (id_pending dec) in
       finishPass r before (inst st) addons' gate dec cron) (i, Ok result) w' ∧
    self w' = Some (inst st') ∧ gates_of st' = gates_of st ∧ ist_AddonPaths st' = addonMountPaths addons' ∧
    (∃ d, web w' = Some d ∧ rolled hashes replicas w d) ∧
    (gd_phase gate = "" → id_pending dec = false → desiredReplicas spec <= pods_ready w → shows_ready st').
Proof.
  intros Hfit Hhash replicas. unfold step.
  destruct (step_web st hashes replicas w Hfit) as (w1 & d & (He1 & Hf1 & Hfit1) & Hd & Hroll).
  destruct (step_budget st w1 Hfit1) as (w2 & He2 & Hf2 & Hfit2).
  destruct (step_service st w2 Hfit2) as (w3 & He3 & Hf3 & Hfit3).
  destruct (step_cron st hashes (id_pending dec) w3 Hfit3) as (cron & w4 & (He4 & Hf4 & Hfit4) & Hweb4).
  assert (web w4 = Some d) as Hd4.
  { rewrite Hweb4. unfold web. rewrite (frame_at _ _ _ KDeployment Hf3 eq_refl), (frame_at _ _ _ KDeployment Hf2 eq_refl).
    exact Hd. }
  destruct (step_finish before st addons' gate dec cron w4 d Hfit4 Hd4) as (st' & i & result & w5 & (He5 & Hf5 & Hfit5) & Hi & Hg & Hpaths & Hr).
  exists st', i, result, w5. split; [|split_and!; [done|done|done| |]].
  - unfold try_with. rewrite effect_bind, He1. cbn [fst snd]. rewrite effect_bind, He2. cbn [fst snd].
    rewrite effect_bind, He3. cbn [fst snd]. rewrite effect_bind, He4. cbn [fst snd]. split; [done|]. split; [|done].
    repeat (etrans; [eapply frame_sub; [|eassumption]; reflexivity|]). reflexivity.
  - exists d. split; [|done]. unfold web. rewrite (frame_at _ _ _ KDeployment Hf5 eq_refl). exact Hd4.
  - intros Hp Hpend Hready. apply Hr; [done..|]. destruct Hroll as (_ & _ & Hready'). unfold pods_ready in Hready. lia.
Qed.

(** The gate, or its hold during an initialisation. *)
Lemma gated_outcome st dec w :
  fit w →
  let instance := set_init (id_initialized dec) (id_upgradeName dec) (inst st) in
  ∃ st' gd w', step [KUpgrade] w
    (if id_pending dec then ok (initHoldGate instance current) else gateAddonsRollout instance current)
    (Ok (inst st', gd)) w' ∧
    ist_Initialized st' = id_initialized dec ∧
    ist_AppliedAddonsHash st' = gd_templateHash gd ∧
    if id_pending dec then gd_templateHash gd = current ∧ w' = w
    else ist_ActiveUpgrade st' = gd_activeUpgrade gd ∧ gate_outcome st w gd w'.
Proof.
  intros Hfit instance. subst instance.
  change (set_init (id_initialized dec) (id_upgradeName dec) (inst st))
    with (inst (in_Status (set_init (id_initialized dec) (id_upgradeName dec) (inst st)))).
  set (st2 := in_Status (set_init _ _ _)). destruct (id_pending dec).
  - eexists _, (gateRoll current), w. split; [split_and!; [reflexivity|done|done]|done].
  - destruct (step_gate st2 w Hfit) as (gd & w' & Hs & Hout). exists (in_Status (set_gate (gd_appliedHash gd) (gd_activeUpgrade gd) (inst st2))), gd, w'.
    split; [exact Hs|]. split_and!; [done| |done|exact Hout]. destruct Hout as [Heq _]. exact Heq.
Qed.

(** What the parts of a pass decided, put together: the pass waits, or it rolls out. *)
Lemma outcome_cases w w2 w3 w4 w' st st3 st' dec gd hashes d :
  frame [KPVC; KConfigMap] w w2 → frame [KUpgrade] w3 w4 → frame [KDeployment; KPDB; KService; KInstance] w4 w' →
  init_outcome st w2 dec w3 →
  ist_Initialized st3 = id_initialized dec → ist_AppliedAddonsHash st3 = gd_templateHash gd →
  (if id_pending dec then gd_templateHash gd = current ∧ w4 = w3
   else ist_ActiveUpgrade st3 = gd_activeUpgrade gd ∧ gate_outcome st w3 gd w4) →
  gates_of st' = gates_of st3 → ist_AddonPaths st' = paths →
  rh_addons hashes = gd_templateHash gd → web w' = Some d →
  rolled hashes (if id_pending dec then 0 else desiredReplicas spec) w4 d →
  (gd_phase gd = "" → id_pending dec = false → desiredReplicas spec <= pods_ready w4 → shows_ready st') →
  waits_init w st w' st' ∨ waits_upgrade w st w' st' ∨ rolls_out w w' st'.
Proof.
  intros Hf2 Hf6 Hf7 Hinit Hinit3 Happ Hgate Hg Hshown Hhash Hd Hroll Hready. injection Hg as Hgi Hga Hgv.
  assert (∀ n, upgrade_at w2 n = upgrade_at w n) as Hup2.
  { intros n. unfold upgrade_at. by rewrite (frame_at _ _ _ KUpgrade Hf2 eq_refl). }
  assert (∀ n, upgrade_at w' n = upgrade_at w4 n) as Hup'.
  { intros n. unfold upgrade_at. by rewrite (frame_at _ _ _ KUpgrade Hf7 eq_refl). }
  unfold init_outcome in Hinit. destruct (id_pending dec) eqn:Hpend.
  - destruct Hinit as (Hreq & Hst1 & Hdone & Hex). destruct Hgate as [Hcur ->]. left. split_and!.
    + intros Hin. specialize (Hin Hreq). congruence.
    + intros (u & Hu & ?). apply Hdone. exists u. by rewrite Hup2.
    + congruence.
    + by rewrite Hup'.
  - destruct Hinit as [-> Hinit]. destruct Hgate as [Hact [Heq Hout]].
    assert (initialised st') as Hini by (intros Hreq; rewrite Hgi, Hinit3; by apply Hinit).
    destruct (String.eqb_spec (gd_phase gd) "") as [Hp|Hp]; cbn iota in Hout.
    + right. right. destruct Hout as (Hcur & Hactive & Hsame). split_and!; [done|congruence|congruence|congruence| | |].
      * exists d. split; [done|]. destruct Hroll as (? & Hann & _). split; [done|]. by rewrite Hann, Hhash, Hcur.
      * intros Hpods. apply Hready; [done..|]. revert Hpods. unfold pods_ready, web.
        by rewrite (frame_at _ _ _ KDeployment Hf6 eq_refl), (frame_at _ _ _ KDeployment Hf2 eq_refl).
      * by rewrite (frame_at _ _ _ KUpgrade Hf7 eq_refl), Hsame, (frame_at _ _ _ KUpgrade Hf2 eq_refl).
    + right. left. destruct Hout as (Hne & _ & Hdone & Hex). split_and!; [done|exact Hne| |by rewrite Hup'].
      intros (u & Hu & ?). apply Hdone. exists u. by rewrite Hup2.
Qed.

Lemma reconcile_outcome w st :
  fit w → self w = Some (inst st) →
  ∃ i result w' st', effect w (reconcileOdooInstance r (inst st)) = ((i, Ok result), w') ∧ fit w' ∧
    passed w w' ∧ self w' = Some (inst st') ∧
    (waits_init w st w' st' ∨ waits_upgrade w st w' st' ∨ rolls_out w w' st').
Proof.
  intros Hfit Hst.
  unfold reconcileOdooInstance. cbv zeta. cbn [in_Spec in_Meta in_Status inst].
  change (set_observed (m_Generation meta) (set_phase phaseCreating (ist_Ready st) (inst st)))
    with (inst (in_Status (set_observed (m_Generation meta) (set_phase phaseCreating (ist_Ready st) (inst st))))).
  set (st1 := in_Status (set_observed _ _)).
  destruct (step_pvc st1 w Hfit) as (w1 & (He1 & Hf1 & Hfit1) & Hc1).
  destruct (step_config st1 w1 Hfit1) as (w2 & He2 & Hf2 & Hfit2).
  destruct (step_secrets st1 w2 Hfit2) as (secrets & He3 & _).
  destruct (step_addons st1 w2 Hfit2) as (He4 & _).
  destruct (step_init st1 w2 Hfit2) as (dec & w3 & (He5 & Hf5 & Hfit3) & Hinit).
  assert (frame [KPVC; KConfigMap] w w2) as Hf12 by by etrans; (eapply frame_sub; [|eassumption]).
  unfold try_with. rewrite effect_bind, He1. cbn [fst snd in_Spec inst]. rewrite Hconf.
  rewrite effect_bind, He2. cbn [fst snd]. rewrite effect_bind, He3. cbn [fst snd].
  rewrite effect_bind, He4. cbn [fst snd]. rewrite effect_bind, He5. cbn [fst snd].
  destruct (Hfit2 KAddon) as [Hhash Hpath]. rewrite Hhash.
  destruct (gated_outcome st1 dec w3 Hfit3) as (st3 & gd & w4 & (He6 & Hf6 & Hfit4) & Hinit3 & Happ & Hgate).
  rewrite effect_bind, He6. cbn [fst snd].
  set (hashes := {| rh_config := configHash conf; rh_secrets := secretsHash secrets; rh_addons := gd_templateHash gd |}).
  destruct (pods_outcome (in_Status (inst st)) st3 (ready_addons (objects w2 KAddon)) gd dec hashes w4
    Hfit4 eq_refl) as (st' & i & result & w' & (He7 & Hf7 & Hfit') & Hself & Hg & Hshown & (d & Hd & Hroll) & Hready).
  exists i, result, w', st'. split; [exact He7|]. split; [exact Hfit'|]. split; [split|split; [exact Hself|]].
  - repeat (etrans; [eapply frame_sub; [|eassumption]; reflexivity|]); reflexivity.
  - eapply claims_stay_trans; [exact Hc1|]. apply claims_stay_same.
    by rewrite (frame_at _ _ _ KPVC Hf7 eq_refl), (frame_at _ _ _ KPVC Hf6 eq_refl), (frame_at _ _ _ KPVC Hf5 eq_refl),
      (frame_at _ _ _ KPVC Hf2 eq_refl).
  - eapply (outcome_cases w w2 w3 w4 w' st st3 st' dec gd hashes d); try done. congruence.
Qed.

Lemma pass_reconciles w st :
  fit w → self w = Some (inst st) → pass w = (effect w (reconcileOdooInstance r (inst st))).2.
Proof.
  intros Hfit Hst. destruct (reconcile_outcome w st Hfit Hst) as (i & result & w' & st' & He & _).
  unfold pass, instanceReconcile. rewrite effect_get. change (objects w KInstance !! _) with (self w).
  rewrite Hst. cbn [found]. cbn [in_Meta inst]. rewrite Hdeletion, Hfinalizer. cbn [negb]. unfold instancePass.
  cbv zeta. by rewrite effect_bind, He.
Qed.

Lemma pass_outcome w st :
  fit w → self w = Some (inst st) →
  fit (pass w) ∧ passed w (pass w) ∧
  ∃ st', self (pass w) = Some (inst st') ∧
    (waits_init w st (pass w) st' ∨ waits_upgrade w st (pass w) st' ∨ rolls_out w (pass w) st').
Proof.
  intros Hfit Hst. rewrite (pass_reconciles w st) by done.
  destruct (reconcile_outcome w st Hfit Hst) as (i & result & w' & st' & -> & ? & ? & ? & ?). by eauto.
Qed.

(** ** From pass to pass *)

(** What others do between two passes: they leave the instance as the pass left it and nothing in its
    way, its upgrades succeed, and its Deployment gets the replicas it asks for. *)
Record interlude (w w' : cluster) : Prop := {
  il_fit : fit w';
  il_self : self w' = self w;
  il_upgrades n : n ∈ own_upgrades → is_Some (upgrade_at w n) → upgrade_done w' n;
  il_pods d replicas : web w = Some d → dep_Replicas d = Some replicas → replicas <= pods_ready w'
}.

(** A new instance does not have the finalizer yet; with it, the cluster is as it should be. *)
Definition created (P : cluster → Prop) (w : cluster) : Prop :=
  ∃ m st, self w = Some {| in_Meta := m; in_Spec := spec; in_Status := st |} ∧ m_Name m = name ∧
    m_DeletionTimestamp m = None ∧ ContainsFinalizer m finalizerOdooInstance = false ∧
    AddFinalizer m finalizerOdooInstance = meta ∧ P (put KInstance name (inst st) w).

Lemma pass_created w m st :
  self w = Some {| in_Meta := m; in_Spec := spec; in_Status := st |} → m_Name m = name →
  m_DeletionTimestamp m = None → ContainsFinalizer m finalizerOdooInstance = false →
  AddFinalizer m finalizerOdooInstance = meta → pass w = pass (put KInstance name (inst st) w).
Proof.
  intros Hself Hname Hdel Hno Hadd. unfold pass, instanceReconcile. rewrite !effect_get.
  change (objects w KInstance !! nn_Name key) with (self w). rewrite Hself.
  change (objects (put KInstance name (inst st) w) KInstance !! nn_Name key)
    with (objects (put KInstance name (inst st) w) KInstance !! name).
  unfold put at 2. rewrite put_objects_eq, lookup_insert_eq. cbn [found in_Meta inst].
  rewrite Hdel, Hno, Hdeletion, Hfinalizer, Hadd. cbn [negb].
  change (in_with_meta meta {| in_Meta := m; in_Spec := spec; in_Status := st |}) with (inst st).
  unfold update, call. cbn [prog_bind]. rewrite effect_do. cbn [api]. unfold overwrite.
  change (objects w KInstance !! m_Name (obj_meta KInstance (inst st))) with (self w). by rewrite Hself.
Qed.

Lemma pass_start P w : P w ∨ created P w → ∃ w0, P w0 ∧ pass w = pass w0.
Proof.
  intros [Hw|(m & st & ? & ? & ? & ? & ? & Hw)]; [by exists w|]. eexists. split; [exact Hw|]. by eapply pass_created.
Qed.

Lemma not_waiting w st w' st' :
  initialised st ∨ upgrade_done w (initUpgradeName name) →
  ist_AppliedAddonsHash st = current ∨ upgrade_done w (gateUpgradeName name current) →
  waits_init w st w' st' ∨ waits_upgrade w st w' st' ∨ rolls_out w w' st' → rolls_out w w' st'.
Proof. unfold waits_init, waits_upgrade. naive_solver. Qed.

(** After a pass and the time after it, the next pass rolls the current revision out; and once a pass
    did so, its pods are there. *)
Lemma next_rolls w w' :
  fit w → interlude (pass w) w' →
  ∃ st', self (pass w') = Some (inst st') ∧ rolls_out w' (pass w') st'.
Proof.
  intros Hfit [Hfit' Hself Hups _]. destruct (Hfit KInstance) as [st Hst].
  destruct (pass_outcome w st Hfit Hst) as (_ & _ & st1 & Hst1 & Hout).
  rewrite <-Hself in Hst1. destruct (pass_outcome w' st1 Hfit' Hst1) as (_ & _ & st2 & Hst2 & Hout2).
  exists st2. split; [done|]. eapply not_waiting; [..|exact Hout2].
  - destruct Hout as [(_ & _ & _ & Hex)|[(Hin & _)|(Hin & _)]]; [right|by left..]. apply Hups; [by left|done].
  - destruct Hout as [(_ & _ & Hcur & _)|[(_ & _ & _ & Hex)|(_ & Hcur & _)]]; [by left| |by left].
    right. apply Hups; [by right; left|done].
Qed.

Lemma rolled_ready w w' st :
  fit w → self (pass w) = Some (inst st) → rolls_out w (pass w) st → interlude (pass w) w' →
  ∃ st', self (pass w') = Some (inst st') ∧ rolls_out w' (pass w') st' ∧ shows_ready st'.
Proof.
  intros Hfit Hst (Hin & Hcur & _ & _ & (d & Hd & Hrep & _) & _) Hb. destruct (next_rolls w w' Hfit Hb) as (st' & Hst' & Hout).
  exists st'. split_and!; [done|done|]. destruct Hout as (_ & _ & _ & _ & _ & Hready & _). apply Hready.
  by apply (il_pods _ _ Hb d).
Qed.

(** *** A cluster at work: upgrades succeed, Deployments roll out *)
Definition succeed (u : OdooUpgrade) : OdooUpgrade :=
  {| up_Meta := up_Meta u; up_Spec := up_Spec u;
     up_Status := {| ust_Phase := UpgradePhaseSucceeded; ust_JobName := ust_JobName (up_Status u);
       ust_Message := ""; ust_StartTime := ust_StartTime (up_Status u);
       ust_CompletionTime := ust_CompletionTime (up_Status u);
       ust_ObservedGeneration := ust_ObservedGeneration (up_Status u);
       ust_Conditions := ust_Conditions (up_Status u) |} |}.
Definition roll_out (d : Deployment) : Deployment :=
  let n := match dep_Replicas d with Some n => n | None => 1 end in
  {| dep_Meta := dep_Meta d; dep_Replicas := dep_Replicas d; dep_Selector := dep_Selector d;
     dep_Strategy := dep_Strategy d; dep_Template := dep_Template d; dep_StatusReplicas := n;
     dep_StatusReadyReplicas := n |}.
Definition rest (w : cluster) : cluster :=
  put_objects KUpgrade (succeed <$> objects w KUpgrade) (put_objects KDeployment (roll_out <$> objects w KDeployment) w).

Lemma resting_upgrades w : objects (rest w) KUpgrade = succeed <$> objects w KUpgrade.
Proof. apply put_objects_eq. Qed.
Lemma rest_deployments w : objects (rest w) KDeployment = roll_out <$> objects w KDeployment.
Proof. unfold rest. by rewrite put_objects_ne, put_objects_eq. Qed.
Lemma resting_frame w : frame [KUpgrade; KDeployment] w (rest w).
Proof. intros k Hk. unfold rest. rewrite !put_objects_ne by set_solver. done. Qed.

Lemma rest_upgrade_at w n : upgrade_at (rest w) n = succeed <$> upgrade_at w n.
Proof. etrans; [exact (f_equal (lookup n) (resting_upgrades w))|apply lookup_fmap]. Qed.
Lemma rest_web w : web (rest w) = roll_out <$> web w.
Proof. etrans; [exact (f_equal (lookup name) (rest_deployments w))|apply lookup_fmap]. Qed.

Lemma rest_fit w : fit w → fit (rest w).
Proof.
  intros Hfit k. destruct (decide (k = KUpgrade)) as [->|]; [|destruct (decide (k = KDeployment)) as [->|]].
  - rewrite resting_upgrades. intros m u Hm (u0 & <- & Hu)%lookup_fmap_Some. split; [|done].
    apply (Hfit KUpgrade m u0 Hm Hu).
  - rewrite rest_deployments. intros m d Hm (d0 & <- & Hd)%lookup_fmap_Some. apply (Hfit KDeployment m d0 Hm Hd).
  - rewrite (resting_frame w) by set_solver. apply Hfit.
Qed.

Lemma rest_interlude w : fit w → interlude w (rest w).
Proof.
  intros Hfit. split; [by apply rest_fit| | |].
  - unfold self. by rewrite (frame_at _ _ _ KInstance (resting_frame w) eq_refl).
  - intros n _ [u Hu]. exists (succeed u). split; [|done]. by rewrite rest_upgrade_at, Hu.
  - intros d replicas Hd Hrep. unfold pods_ready. rewrite rest_web, Hd. cbn. by rewrite Hrep.
Qed.

Lemma pass_fit w : fit w ∨ created fit w → fit (pass w).
Proof.
  intros (w0 & Hfit & ->)%pass_start. destruct (Hfit KInstance) as [st Hst]. by apply (pass_outcome w0 st).
Qed.

(** The cluster before the pass [n]. *)
Fixpoint timeline (w : cluster) (n : nat) : cluster :=
  match n with O => w | S n => rest (pass (timeline w n)) end.

Lemma timeline_interlude w : fit w ∨ created fit w → ∀ i, interlude (pass (timeline w i)) (timeline w (S i)).
Proof.
  intros Hw. assert (∀ i, fit (pass (timeline w i))) as Hfit.
  { intros i. induction i as [|i IH]; [by apply pass_fit|]. apply pass_fit. left. by apply rest_fit. }
  intros i. by apply rest_interlude.
Qed.

(** From the third pass on the instance is ready. *)
Definition serving (w : cluster) : Prop :=
  ∃ st, self w = Some (inst st) ∧ ist_Ready st = true ∧ ist_Phase st = phaseRunning ∧
    (is_Initialize spec ≠ None → ist_Initialized st = true) ∧ ist_AppliedAddonsHash st = current ∧
    ist_AddonPaths st = paths ∧ ist_ActiveUpgrade st = "" ∧
    ∃ d, web w = Some d ∧ dep_Replicas d = Some (desiredReplicas spec) ∧
      pt_Annotations (dep_Template d) !! annotationAddonsHash = Some current.

Lemma third_pass_serves (f : nat → cluster) n :
  (∃ w0, fit w0 ∧ pass (f 0%nat) = pass w0) → (∀ i, interlude (pass (f i)) (f (S i))) → (2 ≤ n)%nat →
  serving (pass (f n)).
Proof.
  intros Hstart Hb Hn.
  assert (∀ i, ∃ w, fit w ∧ pass (f i) = pass w) as Hfit.
  { intros [|i]; [done|]. exists (f (S i)). split; [apply (il_fit _ _ (Hb i))|done]. }
  assert (∀ i, ∃ st, self (pass (f (S i))) = Some (inst st) ∧ rolls_out (f (S i)) (pass (f (S i))) st) as Hrolls.
  { intros i. destruct (Hfit i) as (w & Hw & Hp). apply (next_rolls w); [done|]. rewrite <-Hp. apply Hb. }
  destruct n as [|[|n]]; [lia..|]. destruct (Hrolls n) as (st & Hst & Hout).
  destruct (rolled_ready (f (S n)) (f (S (S n))) st) as (st' & Hst' & (? & ? & ? & ? & ? & _) & Hready);
    [apply (il_fit _ _ (Hb n))|done|done|apply Hb|].
  exists st'. by destruct Hready.
Qed.

(** ** Properties *)

(** C10: an instance gets ready while its addons stay the same. Take an instance that is not being
    deleted, new or in any state of its status, with a configuration that renders, claim sizes that
    parse and all Secrets it names, among objects none of which is another owner's, and whose upgrades,
    if there are any, have not failed. Between two passes nobody changes the instance, its upgrades
    succeed and its Deployment gets the replicas it asks for; the rest of the cluster may change as
    well, as long as all this stays so and the ready addons keep the same revision and the same module
    paths (when they change, the three passes are counted anew from there, as the state of the status
    does not matter). Then whatever the first pass found, from the third pass on every pass reports the
    instance Ready and Running, initialised when that is asked for, with no upgrade under way, and lists
    the paths of the modules of its ready addons; its web Deployment has all replicas on the revision of
    these addons (the hash of their commits and modules): neither gate holds the pods for ever. *)
Theorem instance_gets_ready (f : nat → cluster) n :
  fit (f 0%nat) ∨ created fit (f 0%nat) → (∀ i, interlude (pass (f i)) (f (S i))) → (2 ≤ n)%nat →
  ∃ st, self (pass (f n)) = Some (inst st) ∧ ist_Ready st = true ∧ ist_Phase st = phaseRunning ∧
    (is_Initialize spec ≠ None → ist_Initialized st = true) ∧ ist_AppliedAddonsHash st = current ∧
    ist_AddonPaths st = paths ∧ ist_ActiveUpgrade st = "" ∧
    ∃ d, web (pass (f n)) = Some d ∧ dep_Replicas d = Some (desiredReplicas spec) ∧
      pt_Annotations (dep_Template d) !! annotationAddonsHash = Some current.
Proof. intros Hstart Hb Hn. by apply third_pass_serves; [apply pass_start|..]. Qed.
End Progress.

(** *** Witness: a new instance that asks for an initialisation *)
Section Example.
#[local] Existing Instances unicode_ref kube_ref.

Definition new_meta : ObjectMeta := newMeta "shop" "shop".
Definition shop_meta : ObjectMeta := AddFinalizer new_meta finalizerOdooInstance.
Definition shop_spec : OdooInstanceSpec :=
  let spec := in_Spec example_instance in
  {| is_Image := is_Image spec; is_Replicas := is_Replicas spec; is_Version := is_Version spec;
     is_Edition := is_Edition spec; is_Addons := is_Addons spec; is_Data := is_Data spec;
     is_Postgres := is_Postgres spec; is_Config := is_Config spec; is_Resources := is_Resources spec;
     is_AdminPasswordSecret := is_AdminPasswordSecret spec; is_Upgrade := is_Upgrade spec;
     is_Initialize := Some {| ini_Modules := ["base"]; ini_WithDemo := false;
       ini_AdminUserPasswordSecret := "odoo-admin"; ini_TimeoutSeconds := None |};
     is_Cron := Some {| cr_Enabled := true; cr_MaxCronThreads := None; cr_Resources := None |} |}.
Definition shop_conf : string := match renderOdooConf shop_spec with Ok c => c | Err _ => "" end.
Definition shop_addons : gmap string OdooAddon := list_to_map ((λ a, (m_Name (ad_Meta a), a)) <$> example_addons).

Definition shop_revision : string := addonsHash (ready_addons shop_meta shop_addons).
Definition shop_paths : list string := addonMountPaths (ready_addons shop_meta shop_addons).

Definition shop_secret (n : string) : Secret := {| sec_Meta := newMeta n "shop"; sec_Data := {["password" := "x"]} |}.
Definition shop_cluster : cluster :=
  put_objects KInstance {["shop" := {| in_Meta := new_meta; in_Spec := shop_spec; in_Status := new_status |}]}
    (put_objects KAddon shop_addons
       (put_objects KSecret {["pgpw" := shop_secret "pgpw"; "odoo-admin" := shop_secret "odoo-admin"]}
          {| objects := λ _, ∅; clock := 0 |})).

Definition shop_recorder : Reconciler := {| rec_Recorder := true; rec_Clientset := true |}.
Definition shop_pass (n : nat) : cluster :=
  pass shop_recorder "" shop_meta (timeline shop_recorder "" shop_meta shop_cluster n).

Lemma shop_created : created shop_meta shop_spec (fit shop_meta shop_spec shop_revision shop_paths) shop_cluster.
Proof.
  exists new_meta, new_status. split_and!; try done.
  intros k. destruct k; cbn [kind_fit]; try done; try (intros n o _ Ho; done).
  - intros n Hne [Hn|(s & [= <-] & ->)]; [|by eexists].
    destruct Hn as [-> | ->]; [by eexists|done].
  - by eexists.
Qed.

Lemma shop_sizes req :
  req ∈ claims shop_meta shop_spec → is_Ok (ParseQuantity (claim_size req)) = true.
Proof. intros [-> | ->]%claims_cases; done. Qed.

Lemma instance_gets_ready_witness :
  (λ n, (λ i, (ist_Phase (in_Status i), ist_Ready (in_Status i))) <$> objects (shop_pass n) KInstance !! "shop") <$>
    [0; 1; 2]%nat = [Some ("Initializing", false); Some ("Creating", false); Some ("Running", true)] ∧
  ∃ st, self shop_meta (shop_pass 2) = Some (inst shop_meta shop_spec st) ∧ ist_Ready st = true ∧
    ist_Phase st = phaseRunning ∧ (is_Initialize shop_spec ≠ None → ist_Initialized st = true) ∧
    ist_AppliedAddonsHash st = shop_revision ∧ ist_AddonPaths st = shop_paths ∧ ist_ActiveUpgrade st = "" ∧
    ∃ d, web shop_meta (shop_pass 2) = Some d ∧ dep_Replicas d = Some (desiredReplicas shop_spec) ∧
      pt_Annotations (dep_Template d) !! annotationAddonsHash = Some shop_revision.
Proof.
  split; [by vm_compute|].
  assert (∀ s, is_Initialize shop_spec = Some s → ini_AdminUserPasswordSecret s ≠ "") as Hsecret by by intros s [= <-].
  apply (instance_gets_ready shop_recorder "" shop_meta shop_spec shop_conf shop_revision shop_paths
    ltac:(by vm_compute) shop_sizes eq_refl eq_refl Hsecret
    (timeline shop_recorder "" shop_meta shop_cluster) 2); [right; exact shop_created| |lia].
  apply (timeline_interlude shop_recorder "" shop_meta shop_spec shop_conf shop_revision shop_paths
    ltac:(by vm_compute) shop_sizes eq_refl eq_refl Hsecret). right. exact shop_created.
Defined.
End Example.

Close Scope Z_scope.
