(* ===== verification/InstanceSteady.v ===== *)
(** * A pass is idempotent

    [InstanceProgress] says where the passes on an instance lead; this file says that they stop there:
    when nothing else changes the cluster, the pass after a pass leaves every object as it is. The
    operator does not wake itself up for ever by what it writes. *)
From S2P Require Export InstanceProgress.

Open Scope Z_scope.

Section Steady.
Context `{Unicode} `{KubeLib} `{!OwnerLaws} `{!ErrorLaws} `{!ConditionLaws}.
Context (r : Reconciler) (logs : string).
Context (meta : ObjectMeta) (spec : OdooInstanceSpec) (conf : string) (current : string) (paths : list string).

Abbreviation effect := (effect (api logs)).
Abbreviation name := (m_Name meta).
Abbreviation inst := (InstanceProgress.inst meta spec).
Abbreviation fit := (InstanceProgress.fit meta spec current paths).
Abbreviation ready_addons w := (InstanceProgress.ready_addons meta (objects w KAddon)).
Abbreviation self := (InstanceProgress.self meta).
Abbreviation web := (InstanceProgress.web meta).
Abbreviation claims := (InstanceProgress.claims meta spec).

Context (Hconf : renderOdooConf spec = Ok conf).
Context (Hsizes : ∀ req, req ∈ claims → is_Ok (ParseQuantity (claim_size req)) = true).
Context (Hdeletion : m_DeletionTimestamp meta = None).
Context (Hfinalizer : ContainsFinalizer meta finalizerOdooInstance = true).
Context (Hinitsecret : ∀ s, is_Initialize spec = Some s → ini_AdminUserPasswordSecret s ≠ "").

(** ** Objects that stay as they are *)

(** Nothing changed but, perhaps, the clock. *)
Abbreviation unchanged := (frame []).

Lemma unchanged_at k w w' : unchanged w w' → objects w' k = objects w k.
Proof. intros Hf. apply Hf. set_solver. Qed.

Lemma put_unchanged k n o w : objects w k !! n = Some o → unchanged w (put k n o w).
Proof.
  intros Ho k' _. destruct (decide (k' = k)) as [->|Hne]; [|by apply put_objects_ne].
  unfold put. rewrite put_objects_eq. by apply insert_id.
Qed.

Lemma unchanged_fit w w' : unchanged w w' → fit w → fit w'.
Proof. intros Hf Hfit k. rewrite (unchanged_at k w w' Hf). apply Hfit. Qed.

(** The object is there, and the mutate closure leaves it as it is. *)
Definition kept (k : kind) (x : NamespacedName) (mutate : obj k → res (obj k)) (w : cluster) : Prop :=
  ∃ o, objects w k !! nn_Name x = Some o ∧ mutate o = Ok o.
Definition idempotent {k} (mutate : obj k → res (obj k)) : Prop := ∀ o o', mutate o = Ok o' → mutate o' = Ok o'.

Lemma kept_at k x mutate w w' : objects w' k !! nn_Name x = objects w k !! nn_Name x → kept k x mutate w → kept k x mutate w'.
Proof. intros Heq. unfold kept. by rewrite Heq. Qed.

Lemma made k x mutate w w' (o : obj k) result :
  idempotent mutate → effect w (createOrUpdate k x mutate) = (Ok (o, result), w') →
  objects w' k !! nn_Name x = Some o ∧ mutate o = Ok o.
Proof.
  intros Hid. unfold createOrUpdate, call. rewrite effect_do. cbn [api].
  assert (∀ (c c' : obj k) result', mutate c = Ok c' →
    effect (put k (nn_Name x) c' w) (Ret (Ok (c', result') : res (obj k * OperationResult))) = (Ok (o, result), w') →
    objects w' k !! nn_Name x = Some o ∧ mutate o = Ok o) as Hput.
  { intros c c' result' Hc. cbn. intros [= <- _ <-]. split; [unfold put; by rewrite put_objects_eq, lookup_insert_eq|].
    by apply (Hid c). }
  destruct (objects w k !! nn_Name x) as [c|].
  - destruct (mutate c) as [c'|] eqn:Hc; [by apply (Hput c)|done].
  - destruct (blank k x) as [c|]; [|done]. destruct (mutate c) as [c'|] eqn:Hc; [by apply (Hput c)|done].
Qed.

Lemma made_kept k x mutate w w' a :
  idempotent mutate → effect w (let? _ := createOrUpdate k x mutate in ok tt) = (Ok a, w') → kept k x mutate w'.
Proof.
  intros Hid. unfold try_bind. rewrite effect_bind.
  destruct (effect w (createOrUpdate k x mutate)) as [[[o result]|e] w1] eqn:He; [|done].
  cbn. intros [= _ <-]. exists o. by eapply made.
Qed.

Lemma kept_again k x mutate w :
  kept k x mutate w →
  ∃ o w', objects w k !! nn_Name x = Some o ∧ unchanged w w' ∧
    effect w (createOrUpdate k x mutate) = (Ok (o, OperationResultUpdated), w').
Proof.
  intros (o & Ho & Hm). exists o, (put k (nn_Name x) o w). split_and!; [done|by apply put_unchanged|].
  unfold createOrUpdate, call. rewrite effect_do. cbn [api]. by rewrite Ho, Hm.
Qed.

Lemma kept_step k x mutate w :
  kept k x mutate w →
  ∃ w', effect w (let? _ := createOrUpdate k x mutate in ok tt) = (Ok tt, w') ∧ unchanged w w'.
Proof.
  intros Hk. destruct (kept_again k x mutate w Hk) as (o & w' & _ & Hf & He). exists w'. split; [|done].
  by rewrite (effect_try _ _ _ _ _ _ He).
Qed.

(** *** The closures of the reconciler *)
Lemma config_idempotent : idempotent (k := KConfigMap)
  (λ cm, SetControllerReference meta (cm_Meta cm) ≫= λ m, Ok {| cm_Meta := m; cm_Data := {[confFileName := conf]} |}).
Proof.
  intros o o' (m & Hm & [= <-])%res_bind_Ok. cbn [cm_Meta]. by rewrite (set_controller_again _ _ _ m Hm).
Qed.

Lemma budget_idempotent : idempotent (k := KPDB)
  (λ pdb, SetControllerReference meta (pdb_Meta pdb) ≫= λ m,
     Ok {| pdb_Meta := m; pdb_MinAvailable := None; pdb_MaxUnavailable := Some 1; pdb_Selector := Some (podLabels name) |}).
Proof.
  intros o o' (m & Hm & [= <-])%res_bind_Ok. cbn [pdb_Meta]. by rewrite (set_controller_again _ _ _ m Hm).
Qed.

Lemma service_idempotent : idempotent (k := KService)
  (λ svc, SetControllerReference meta (svc_Meta svc) ≫= λ m,
     Ok {| svc_Meta := m; svc_Type := ServiceTypeClusterIP; svc_Selector := selectorLabels name;
           svc_Ports := buildServicePorts |}).
Proof.
  intros o o' (m & Hm & [= <-])%res_bind_Ok. cbn [svc_Meta]. by rewrite (set_controller_again _ _ _ m Hm).
Qed.

Lemma web_idempotent st hashes replicas : idempotent (k := KDeployment) (mutateDeployment (inst st) hashes replicas).
Proof.
  intros o o' (m & Hm & [= <-])%res_bind_Ok. unfold mutateDeployment. cbn [dep_Meta].
  by rewrite (set_controller_again _ _ _ (with_labels _ _ m) Hm).
Qed.

Lemma cron_idempotent st hashes replicas : idempotent (k := KDeployment) (mutateCronDeployment (inst st) hashes replicas).
Proof.
  intros o o' (m & Hm & [= <-])%res_bind_Ok. unfold mutateCronDeployment. cbn [dep_Meta].
  by rewrite (set_controller_again _ _ _ (with_labels _ _ m) Hm).
Qed.

(** ** The steps, and the steps again *)

(** *** Volumes *)
Definition claim_kept (req : pvcRequest) (w : cluster) : Prop :=
  ∃ p : obj KPVC, objects w KPVC !! pvr_name req = Some p ∧ hasOwnerRef (m_OwnerReferences (pvc_Meta p)) (m_UID meta) = pvr_owned req.

Lemma put_claim_kept req p w :
  hasOwnerRef (m_OwnerReferences (pvc_Meta p)) (m_UID meta) = pvr_owned req →
  claim_kept req (put KPVC (pvr_name req) p w) ∧
  ∀ n, n ≠ pvr_name req → objects (put KPVC (pvr_name req) p w) KPVC !! n = objects w KPVC !! n.
Proof.
  intros Hp. unfold claim_kept, put. rewrite put_objects_eq. split.
  - exists p. by rewrite lookup_insert_eq.
  - intros n Hn. by rewrite lookup_insert_ne.
Qed.

Lemma claim_made st w w' req :
  fit w → req ∈ claims → effect w (reconcileSinglePVC (inst st) req) = (Ok tt, w') →
  claim_kept req w' ∧ ∀ n, n ≠ pvr_name req → objects w' KPVC !! n = objects w KPVC !! n.
Proof.
  intros Hfit Hreq. unfold reconcileSinglePVC. rewrite effect_get. cbn [nn_Name].
  destruct (objects w KPVC !! pvr_name req) as [p|] eqn:Hp; cbn [found].
  - unfold syncPVCOwnership. cbn [in_Meta InstanceProgress.inst].
    destruct (Bool.eqb _ _) eqn:Heq; [intros [= <-]; split; [|done]; exists p; by apply Bool.eqb_prop in Heq|].
    destruct (Hfit KPVC req p Hreq Hp) as [Hpname _].
    destruct (if pvr_owned req then _ else _) as [m|] eqn:Hm; [|done].
    assert (m_Name m = m_Name (pvc_Meta p) ∧ hasOwnerRef (m_OwnerReferences m) (m_UID meta) = pvr_owned req) as [Hname Href].
    { destruct (pvr_owned req).
      - destruct (set_controller_ref _ _ _ Hm) as (_ & Hmeta & Hin). split; [by rewrite Hmeta|by apply hasOwnerRef_elem].
      - injection Hm as <-. split; [done|apply hasOwnerRef_without]. }
    unfold try_bind, call. cbn [prog_bind]. rewrite effect_do. cbn [api]. unfold overwrite.
    cbn [obj_meta pvc_with_meta pvc_Meta]. rewrite Hname, Hpname, Hp. cbn. intros [= <-]. by apply put_claim_kept.
  - rewrite missing_not_found. cbn [negb]. destruct (ParseQuantity _) as [q|]; [|done].
    destruct (if pvr_owned req then _ else _) as [m|] eqn:Hm; [|done].
    assert (m_Name m = pvr_name req ∧ hasOwnerRef (m_OwnerReferences m) (m_UID meta) = pvr_owned req) as [Hname Href].
    { destruct (pvr_owned req).
      - destruct (set_controller_ref _ _ _ Hm) as (_ & Hmeta & Hin). split; [by rewrite Hmeta|by apply hasOwnerRef_elem].
      - by injection Hm as <-. }
    unfold try_bind. rewrite effect_create by (cbn; by rewrite Hname). cbn [obj_meta pvc_with_meta pvc_Meta].
    rewrite Hname. cbn. intros [= <-]. by apply put_claim_kept.
Qed.

Lemma claim_again st w req : claim_kept req w → effect w (reconcileSinglePVC (inst st) req) = (Ok tt, w).
Proof.
  intros (p & Hp & Hrefs). unfold reconcileSinglePVC. rewrite effect_get. cbn [nn_Name]. rewrite Hp. cbn [found].
  unfold syncPVCOwnership. cbn [in_Meta InstanceProgress.inst]. by rewrite Hrefs, Bool.eqb_reflx.
Qed.

Definition claims_kept (w : cluster) : Prop := ∀ req, req ∈ claims → claim_kept req w.

Lemma claims_made st w w' :
  fit w → effect w (reconcilePVC (inst st)) = (Ok tt, w') → claims_kept w'.
Proof.
  intros Hfit He. set (r1 := addonsPVCRequest (inst new_status)). set (r2 := dataPVCRequest (inst new_status)).
  destruct (step_claim logs meta spec current paths Hsizes st w r1 Hfit) as (w1 & (He1 & _ & Hfit1) & _); [by left|].
  unfold reconcilePVC in He. change (addonsPVCRequest (inst st)) with r1 in He. change (dataPVCRequest (inst st)) with r2 in He.
  rewrite (effect_try _ _ _ _ _ _ He1) in He.
  destruct (claim_made st w w1 r1 Hfit ltac:(by left) He1) as [Hk1 _].
  destruct (claim_made st w1 w' r2 Hfit1 ltac:(by right; left) He) as [Hk2 Hother].
  intros req [-> | ->]%claims_cases; [|done]. destruct Hk1 as (p & Hp & Hrefs). exists p. split; [|done].
  rewrite Hother; [done|apply claim_names].
Qed.

Lemma claims_again st w : claims_kept w → effect w (reconcilePVC (inst st)) = (Ok tt, w).
Proof.
  intros Hk. unfold reconcilePVC.
  rewrite (effect_try _ _ _ _ _ _ (claim_again st w (addonsPVCRequest (inst st)) (Hk _ ltac:(by left)))).
  apply claim_again, Hk. by right; left.
Qed.

(** *** Configuration, service and disruption budget *)
Abbreviation key_for := (instanceKey (inst new_status)).

Definition config_kept : cluster → Prop := kept KConfigMap (key_for (configMapName name))
  (λ cm, SetControllerReference meta (cm_Meta cm) ≫= λ m, Ok {| cm_Meta := m; cm_Data := {[confFileName := conf]} |}).
Definition service_kept : cluster → Prop := kept KService (key_for name)
  (λ svc, SetControllerReference meta (svc_Meta svc) ≫= λ m,
     Ok {| svc_Meta := m; svc_Type := ServiceTypeClusterIP; svc_Selector := selectorLabels name; svc_Ports := buildServicePorts |}).
Definition budget_kept (w : cluster) : Prop :=
  if desiredReplicas spec <=? 1 then ∀ pdb : obj KPDB, objects w KPDB !! name = Some pdb → IsControlledBy (pdb_Meta pdb) meta = false
  else kept KPDB (key_for name)
    (λ pdb, SetControllerReference meta (pdb_Meta pdb) ≫= λ m,
       Ok {| pdb_Meta := m; pdb_MinAvailable := None; pdb_MaxUnavailable := Some 1; pdb_Selector := Some (podLabels name) |}) w.

Lemma config_made st w w' : effect w (reconcileConfigMap (inst st) conf) = (Ok tt, w') → config_kept w'.
Proof. apply made_kept, config_idempotent. Qed.
Lemma config_again st w : config_kept w → ∃ w', effect w (reconcileConfigMap (inst st) conf) = (Ok tt, w') ∧ unchanged w w'.
Proof. apply kept_step. Qed.

Lemma service_made st w w' : effect w (reconcileService (inst st)) = (Ok tt, w') → service_kept w'.
Proof. apply made_kept, service_idempotent. Qed.
Lemma service_again st w : service_kept w → ∃ w', effect w (reconcileService (inst st)) = (Ok tt, w') ∧ unchanged w w'.
Proof. apply kept_step. Qed.

Lemma budget_made st w w' : fit w → effect w (reconcilePDB (inst st)) = (Ok tt, w') → budget_kept w'.
Proof.
  intros Hfit. unfold reconcilePDB, budget_kept. cbn [in_Spec InstanceProgress.inst]. destruct (_ <=? 1); [|apply made_kept, budget_idempotent].
  unfold deletePDBIfOwned. rewrite effect_get. cbn [nn_Name instanceKey in_Meta InstanceProgress.inst].
  destruct (objects w KPDB !! name) as [pdb|] eqn:Hp; cbn [found].
  - destruct (IsControlledBy (pdb_Meta pdb) meta) eqn:Hc; cbn [negb].
    + destruct (Hfit KPDB name pdb) as [Hname _]; [by left|exact Hp|].
      rewrite effect_delete with (c := pdb) by (cbn in Hname |- *; by rewrite Hname).
      cbn. cbn in Hname. rewrite Hname. intros [= <-] pdb'. unfold erase. rewrite put_objects_eq. by rewrite lookup_delete_eq.
    + intros [= <-] pdb'. rewrite Hp. by intros [= <-].
  - cbn. rewrite missing_not_found. intros [= <-] pdb' Hp'. by pose proof (eq_trans (eq_sym Hp) Hp').
Qed.

Lemma budget_again st w : budget_kept w → ∃ w', effect w (reconcilePDB (inst st)) = (Ok tt, w') ∧ unchanged w w'.
Proof.
  unfold reconcilePDB, budget_kept. cbn [in_Spec InstanceProgress.inst]. destruct (_ <=? 1); [|apply kept_step].
  intros Hk. exists w. split; [|done]. unfold deletePDBIfOwned. rewrite effect_get. cbn [nn_Name instanceKey in_Meta InstanceProgress.inst].
  destruct (objects w KPDB !! name) as [pdb|] eqn:Hp; cbn [found]; [by rewrite (Hk pdb)|].
  cbn. by rewrite missing_not_found.
Qed.

(** *** The Deployments *)
Definition web_kept (hashes : rolloutHashes) (replicas : Z) : cluster → Prop :=
  kept KDeployment (key_for name) (mutateDeployment (inst new_status) hashes replicas).

Lemma web_made st hashes replicas w w' :
  effect w (reconcileDeployment (inst st) hashes replicas) = (Ok tt, w') → web_kept hashes replicas w'.
Proof. apply made_kept, web_idempotent. Qed.
Lemma web_again st hashes replicas w :
  web_kept hashes replicas w → ∃ w', effect w (reconcileDeployment (inst st) hashes replicas) = (Ok tt, w') ∧ unchanged w w'.
Proof. apply kept_step. Qed.

Abbreviation cron_name := (cronDeploymentName name).
(** What the status shows of the cron Deployment. *)
Definition shown (cron : cronOutcome) : cronOutcome :=
  {| cron_enabled := cron_enabled cron; cron_deployFound := cron_deployFound cron; cron_held := cron_held cron;
     cron_replicas := cron_replicas cron; cron_ready := cron_ready cron; cron_events := [] |}.

Definition cron_kept (hashes : rolloutHashes) (held : bool) (cron : cronOutcome) (w : cluster) : Prop :=
  if cronEnabled spec then ∃ d : obj KDeployment, objects w KDeployment !! cron_name = Some d ∧
    mutateCronDeployment (inst new_status) hashes (cronReplicas held) d = Ok d ∧
    cron = {| cron_enabled := true; cron_deployFound := true; cron_held := held; cron_replicas := dep_StatusReplicas d;
              cron_ready := dep_StatusReadyReplicas d; cron_events := [] |}
  else cron = cronOff [] ∧ ∀ d : obj KDeployment, objects w KDeployment !! cron_name = Some d → IsControlledBy (dep_Meta d) meta = false.

Lemma cron_made st hashes held w w' cron :
  fit w → effect w (reconcileCron (inst st) hashes held) = (Ok cron, w') → cron_kept hashes held (shown cron) w'.
Proof.
  intros Hfit. unfold reconcileCron, cron_kept. cbn [in_Spec in_Meta InstanceProgress.inst].
  destruct (cronEnabled spec); cbn [negb]; unfold try_bind; rewrite effect_bind.
  - destruct (effect w (reconcileCronDeployment _ _ _)) as [[[d result]|e] w1] eqn:He; [|done].
    cbn. intros [= <- <-]. exists d.
    apply (made KDeployment) in He as [Hd Hm]; [|apply cron_idempotent]. split; [exact Hd|]. split; [exact Hm|done].
  - unfold deleteCronDeployment. rewrite effect_get. cbn [nn_Name instanceKey in_Meta InstanceProgress.inst].
    destruct (objects w KDeployment !! cron_name) as [d|] eqn:Hd; cbn [found].
    + destruct (IsControlledBy (dep_Meta d) meta) eqn:Hc; cbn [negb].
      * destruct (Hfit KDeployment cron_name d) as [Hname _]; [by right; right; left|exact Hd|].
        rewrite effect_delete with (c := d) by (cbn in Hname |- *; by rewrite Hname).
        cbn. cbn in Hname. rewrite Hname. intros [= <- <-]. split; [done|]. intros d'. unfold erase.
        rewrite put_objects_eq. by rewrite lookup_delete_eq.
      * intros [= <- <-]. split; [done|]. intros d'. rewrite Hd. by intros [= <-].
    + rewrite missing_not_found. cbn. intros [= <- <-]. split; [done|]. intros d' Hd'. by pose proof (eq_trans (eq_sym Hd) Hd').
Qed.

Lemma cron_again st hashes held w seen :
  cron_kept hashes held seen w →
  ∃ cron w', effect w (reconcileCron (inst st) hashes held) = (Ok cron, w') ∧ unchanged w w' ∧ shown cron = seen.
Proof.
  unfold reconcileCron, cron_kept. cbn [in_Spec in_Meta InstanceProgress.inst].
  destruct (cronEnabled spec); cbn [negb].
  - intros (d & Hd & Hm & ->).
    destruct (kept_again KDeployment (key_for cron_name) (mutateCronDeployment (inst st) hashes (cronReplicas held)) w)
      as (d' & w' & Hd' & Hf & He); [by exists d|].
    assert (d' = d) as ->. { apply (inj Some). rewrite <-Hd. exact (eq_sym Hd'). }
    eexists _, w'. split_and!; [by rewrite (effect_try _ _ _ _ _ _ He)|done|done].
  - intros [-> Hk]. exists (cronOff []), w. split_and!; [|done|done].
    unfold deleteCronDeployment, try_bind. rewrite effect_bind, effect_get. cbn [nn_Name instanceKey in_Meta InstanceProgress.inst].
    destruct (objects w KDeployment !! cron_name) as [d|] eqn:Hd; cbn [found]; [by rewrite (Hk d)|].
    by rewrite missing_not_found.
Qed.

(** ** The status *)
Lemma instance_types f :
  c_Type <$> instanceConditions f = [ConditionTypeReady; ConditionTypeProgressing; ConditionTypeDegraded].
Proof.
  unfold instanceConditions.
  repeat match goal with |- context [if ?b then _ else _] => match type of b with bool => destruct b end end; try done.
  all: unfold readyCond; by destruct (_ && _).
Qed.

Lemma cron_type cron : c_Type (cronCondition cron) = ConditionTypeCronReady.
Proof.
  unfold cronCondition.
  by repeat match goal with |- context [if ?b then _ else _] => match type of b with bool => destruct b end end.
Qed.

Definition conditions_for (now : Time) (cs : list Condition) (facts : instanceCondFacts) (cron : cronOutcome) : list Condition :=
  setConditions now (applyCronCondition now cs (m_Generation meta) cron) (m_Generation meta) (instanceConditions facts).

Lemma cron_condition_shown cron cron' : shown cron' = shown cron → cronCondition cron' = cronCondition cron.
Proof. intros Heq. unfold cronCondition. by injection Heq as _ -> -> -> ->. Qed.

Lemma conditions_again now later cs facts cron cron' :
  shown cron' = shown cron →
  conditions_for later (conditions_for now cs facts cron) facts cron' = conditions_for now cs facts cron.
Proof.
  intros Hcron. unfold conditions_for at 1. set (C := conditions_for now cs facts cron).
  assert (applyCronCondition later C (m_Generation meta) cron' = C) as ->.
  - assert (∀ t, t ∉ [ConditionTypeReady; ConditionTypeProgressing; ConditionTypeDegraded] →
      FindStatusCondition C t = FindStatusCondition (applyCronCondition now cs (m_Generation meta) cron) t) as HC.
    { intros t Ht. apply setConditions_other. by rewrite instance_types. }
    assert (ConditionTypeCronReady ∉ [ConditionTypeReady; ConditionTypeProgressing; ConditionTypeDegraded]) as Hne
      by (apply (bool_decide_unpack _); by vm_compute).
    specialize (HC _ Hne). revert HC. unfold applyCronCondition. rewrite (cron_condition_shown _ _ Hcron).
    assert (cron_enabled cron' = cron_enabled cron) as -> by by injection Hcron.
    destruct (cron_enabled cron); cbn [negb]; intros HC.
    + apply setConditions_same, Forall_forall. intros c ->%list_elem_of_singleton.
      destruct (setConditions_wanted now cs (m_Generation meta) [cronCondition cron] (cronCondition cron)) as (c' & Hf & ? & ? & ? & ? & _);
        [apply NoDup_singleton|by left|]. exists c'. rewrite cron_type in *. by rewrite HC.
    + apply remove_absent. rewrite HC. apply find_remove_eq.
  - apply setConditions_again. rewrite instance_types. apply (bool_decide_unpack _). by vm_compute.
Qed.

(** What a pass decides, as far as the status shows it. *)
Definition shows_init (dec : initDecision) := (id_pending dec, id_initialized dec, id_upgradeName dec, id_phase dec, id_failMessage dec).
Definition shows_gate (gd : gateDecision) := (gd_templateHash gd, gd_appliedHash gd, gd_activeUpgrade gd, gd_phase gd).

Definition settled (st : OdooInstanceStatus) (ps : list string) (gd : gateDecision) (dec : initDecision) (d : Deployment)
    : OdooInstanceStatus :=
  in_Status (settleGates gd dec (settleDeployment (Ok d) (desiredReplicas spec) (set_paths ps (inst st)))).
Definition finished (now : Time) (st : OdooInstanceStatus) (ps : list string) (gd : gateDecision) (dec : initDecision)
    (d : Deployment) (cron : cronOutcome) : OdooInstanceStatus :=
  let i := inst (settled st ps gd dec d) in
  let C := conditions_for now (ist_Conditions st) (passFacts i (Ok d) (desiredReplicas spec) gd dec) cron in
  in_Status (set_conds C (instanceSummary C) i).

(** The phase and readiness depend on the decisions and the Deployment alone. *)
Definition serves (d : Deployment) : bool := desiredReplicas spec <=? dep_StatusReadyReplicas d.
Definition phase_of (gd : gateDecision) (dec : initDecision) (d : Deployment) : string :=
  if id_pending dec then id_phase dec else if String.eqb (gd_phase gd) "" then if serves d then phaseRunning else phaseCreating
  else gd_phase gd.
Definition ready_of (gd : gateDecision) (dec : initDecision) (d : Deployment) : bool :=
  negb (id_pending dec) && negb (String.eqb (gd_phase gd) gatePhaseUpgradeFailed) && serves d.

Lemma settled_status st ps gd dec d :
  settled st ps gd dec d =
    {| ist_Ready := ready_of gd dec d; ist_Phase := phase_of gd dec d; ist_AddonPaths := ps;
       ist_ObservedGeneration := ist_ObservedGeneration st; ist_Conditions := ist_Conditions st;
       ist_Message := ist_Message st; ist_Initialized := ist_Initialized st; ist_InitUpgrade := ist_InitUpgrade st;
       ist_AppliedAddonsHash := ist_AppliedAddonsHash st; ist_ActiveUpgrade := ist_ActiveUpgrade st |}.
Proof.
  unfold settled, settleGates, settleDeployment, ready_of, phase_of, serves.
  destruct (id_pending dec), (_ <=? _), (String.eqb_spec (gd_phase gd) "") as [->|]; cbn; try done;
    by destruct (String.eqb (gd_phase gd) gatePhaseUpgradeFailed).
Qed.

Lemma message_unused i got desired gd gd' dec dec' :
  ist_Phase (in_Status i) ≠ gatePhaseUpgradeFailed → id_failMessage dec' = id_failMessage dec →
  instanceConditions (passFacts i got desired gd' dec') = instanceConditions (passFacts i got desired gd dec).
Proof.
  intros Hp Hm. apply String.eqb_neq in Hp. unfold instanceConditions, readyCond, cond_replicas, passFacts; cbn.
  by rewrite Hp, Hm.
Qed.

(** The fields of the status that the steps before the end of the pass set. *)
Definition set_so_far (st : OdooInstanceStatus) :=
  (ist_ObservedGeneration st, ist_Initialized st, ist_InitUpgrade st, ist_AppliedAddonsHash st, ist_ActiveUpgrade st).

Lemma finished_again now later st st' ps gd gd' dec dec' d cron cron' :
  set_so_far st' = set_so_far st → ist_Conditions st' = ist_Conditions (finished now st ps gd dec d cron) →
  shows_gate gd' = shows_gate gd → shows_init dec' = shows_init dec → phase_of gd dec d ≠ gatePhaseUpgradeFailed →
  shown cron' = shown cron →
  finished later st' ps gd' dec' d cron' = finished now st ps gd dec d cron.
Proof.
  intros Hset Hconds Hg Hi Hp Hcron. injection Hset as Hset1 Hset2 Hset3 Hset4 Hset5.
  injection Hg as _ _ _ Hg. injection Hi as Hi1 _ _ Hi4 Hi5.
  assert (phase_of gd' dec' d = phase_of gd dec d ∧ ready_of gd' dec' d = ready_of gd dec d) as [Hphase Hready]
    by (unfold phase_of, ready_of; by rewrite Hi1, Hi4, Hg).
  unfold finished in Hconds |- *. cbv zeta in Hconds |- *. rewrite settled_status in Hconds |- *. cbn [in_Status set_conds in_with_status ist_Conditions] in Hconds.
  rewrite Hconds, settled_status, Hphase, Hready, Hset1, Hset2, Hset3, Hset4, Hset5.
  set (C := conditions_for now _ _ _) in *.
  match goal with |- context [conditions_for later C ?f cron'] => assert (conditions_for later C f cron' = C) as -> end; [|done].
  unfold conditions_for at 1. erewrite message_unused; [|exact Hp|exact Hi5].
  by apply (conditions_again now later).
Qed.

Lemma finish_run before st addons' gd dec cron w d :
  fit w → InstanceProgress.web meta w = Some d →
  ∃ i result, effect w (finishPass r before (inst st) addons' gd dec cron) =
    ((i, Ok result), put KInstance name (inst (finished (clock w) st (addonMountPaths addons') gd dec d cron)) w).
Proof.
  intros Hfit Hweb. unfold finishPass. cbv zeta. rewrite effect_get.
  change (@found (obj KDeployment) (objects w KDeployment !! _)) with (@found Deployment (InstanceProgress.web meta w)).
  rewrite Hweb. cbn [found in_Spec InstanceProgress.inst].
  assert (∃ st2, settleGates gd dec (settleDeployment (Ok d) (desiredReplicas spec) (set_paths (addonMountPaths addons') (inst st)))
    = inst st2) as [st2 Hst2] by (edestruct settle_inst as (st2 & Hst2 & _); exists st2; exact Hst2).
  assert (st2 = settled st (addonMountPaths addons') gd dec d) as -> by (unfold settled; by rewrite Hst2).
  change (in_Spec (set_paths _ (inst st))) with spec. rewrite Hst2, effect_now.
  set (conds := setConditions _ _ _ (instanceConditions _)).
  destruct (Hfit KInstance) as [st0 Hst0]. erewrite effect_updateStatus by exact Hst0.
  rewrite effect_bind, effect_events. cbn [fst snd]. eexists _, _. unfold finished. cbv zeta.
  do 2 f_equal. unfold conds, conditions_for. by rewrite settled_status.
Qed.

(** ** The decisions, and the decisions again *)
Abbreviation init_name := (initUpgradeName name).
Abbreviation gate_name := (gateUpgradeName name current).
Abbreviation upgrade_at := InstanceProgress.upgrade_at.
Abbreviation upgrade_done := InstanceProgress.upgrade_done.

(** Creating the upgrade of a gate completes none. *)
Lemma created_not_done st w w' u :
  ust_Phase (up_Status u) = "" → effect w (createOwnedUpgrade (inst st) u) = (Ok tt, w') →
  ∀ n, upgrade_done w' n → upgrade_done w n.
Proof.
  intros Hp. unfold createOwnedUpgrade. destruct (SetControllerReference _ _) as [m|]; [|done].
  unfold create, call. cbn [prog_bind]. rewrite effect_do. cbn [api].
  destruct (objects w KUpgrade !! _) as [c|] eqn:Hc; cbn [fst snd].
  - unfold IgnoreAlreadyExists. rewrite IsAlreadyExists_spec, bool_decide_true by done. by intros [= <-].
  - intros [= <-] n (v & Hv & Hdone). revert Hv. unfold InstanceProgress.upgrade_at, put. rewrite put_objects_eq.
    intros [[_ <-]|[_ Hv]]%lookup_insert_Some; [cbn in Hdone; by rewrite Hp in Hdone|]. by exists v.
Qed.

Lemma init_shape i :
  ii_requested i = true → ii_initialized i = false → ii_upgradePhase i ≠ UpgradePhaseFailed →
  shows_init (initDecide i) = if id_pending (initDecide i) then (true, false, ii_upgradeName i, phaseInitializing, "")
                              else (false, true, "", "", "").
Proof.
  intros Hr Hi Hp%String.eqb_neq. unfold shows_init, initDecide. rewrite Hr, Hi, Hp. cbn [negb orb].
  by destruct (ii_upgradeExists i), (0 <? ii_liveReplicas i), (String.eqb _ UpgradePhaseSucceeded).
Qed.

(** The decision stands: an initialisation under way has its upgrade, which is not done. *)
Definition init_kept (dec : initDecision) (w : cluster) : Prop :=
  if id_pending dec then
    is_Initialize spec ≠ None ∧ shows_init dec = (true, false, init_name, phaseInitializing, "") ∧
    is_Some (upgrade_at w init_name) ∧ ¬ upgrade_done w init_name
  else shows_init dec = (false, id_initialized dec, "", "", "") ∧ (is_Initialize spec ≠ None → id_initialized dec = true).

Lemma not_failed w n : fit w → n ∈ own_upgrades meta current →
  default "" ((λ u, ust_Phase (up_Status u)) <$> upgrade_at w n) ≠ UpgradePhaseFailed.
Proof.
  intros Hfit Hn. destruct (upgrade_at w n) as [u|] eqn:Hu; [|done]. cbn. by apply (Hfit KUpgrade n u Hn Hu).
Qed.

Lemma init_created st w w' s n :
  effect w (let? _ := checkInitSecret (inst st) s in let? _ := createInitUpgrade (inst st) s n in ok tt) = (Ok tt, w') →
  ∀ n', upgrade_done w' n' → upgrade_done w n'.
Proof.
  unfold try_bind at 1. rewrite effect_bind.
  assert ((effect w (checkInitSecret (inst st) s)).2 = w) as Hw.
  { apply effect_reading. unfold checkInitSecret. cbn. split; [done|]. intros [|e]; [done|]. by destruct (IsNotFound e). }
  destruct (effect w (checkInitSecret _ _)) as [[|] w1]; [|done]. cbn in Hw. subst w1. cbn [fst snd].
  unfold try_bind. rewrite effect_bind. destruct (effect w (createInitUpgrade _ _ _)) as [[[]|] w1] eqn:He; [|done].
  cbn. intros [= <-]. by apply (created_not_done st w w1 (initUpgrade (inst st) s n)).
Qed.

Lemma init_made st w dec w' :
  fit w → effect w (decideInitialization (inst st)) = (Ok dec, w') → init_kept dec w'.
Proof.
  intros Hfit He. destruct (step_init logs meta spec current paths Hinitsecret st w Hfit) as (dec' & w0 & (He' & _) & Hout).
  rewrite He in He'. injection He' as <- <-. unfold init_outcome in Hout. unfold init_kept.
  unfold decideInitialization in He. cbn [in_Spec in_Status in_Meta InstanceProgress.inst] in He.
  destruct (is_Initialize spec) as [s|] eqn:Hinit; [|by injection He as <- <-].
  destruct (ist_Initialized st) eqn:Hst; [by injection He as <- <-|].
  destruct (step_init_state logs meta spec current paths st w Hfit) as (live & msg & Hi & _). rewrite (effect_try _ _ _ _ _ _ Hi) in He.
  set (i := {| ii_requested := true |}) in *.
  assert (dec = initDecide i ∧ (∀ n', upgrade_done w' n' → upgrade_done w n')) as [-> Hdone].
  { destruct (id_ensureUpgrade (initDecide i)); [|by injection He as <- <-].
    destruct (effect w (let? _ := checkInitSecret (inst st) s in
      let? _ := createInitUpgrade (inst st) s (id_upgradeName (initDecide i)) in ok tt)) as [[[]|e] w1] eqn:Hc.
    - pose proof (init_created st w w1 s _ Hc) as Hd. revert He Hc. unfold try_bind. rewrite !effect_bind.
      destruct (effect w (checkInitSecret _ _)) as [[|] w2]; [|done]. cbn [fst snd]. rewrite !effect_bind.
      destruct (effect w2 (createInitUpgrade _ _ _)) as [[|] w3]; [|done]. cbn. intros [= <- <-] [= <-]. done.
    - revert He Hc. unfold try_bind. rewrite !effect_bind.
      destruct (effect w (checkInitSecret _ _)) as [[|] w2]; [|done]. cbn [fst snd]. rewrite !effect_bind.
      by destruct (effect w2 (createInitUpgrade _ _ _)) as [[|] w3]. }
  assert (ii_upgradePhase i ≠ UpgradePhaseFailed) as Hp by (apply not_failed; [done|by left]).
  pose proof (init_shape i eq_refl eq_refl Hp) as Hshape. destruct (id_pending (initDecide i)).
  - destruct Hout as (_ & _ & Hnot & Hex). split_and!; [done|done|done|]. by intros Hd%Hdone.
  - rewrite Hshape. injection Hshape as _ -> _ _ _. done.
Qed.

Lemma init_again st w dec :
  fit w → init_kept dec w → ist_Initialized st = id_initialized dec →
  ∃ dec', effect w (decideInitialization (inst st)) = (Ok dec', w) ∧ shows_init dec' = shows_init dec.
Proof.
  intros Hfit Hk Hst. unfold init_kept in Hk. unfold decideInitialization. cbn [in_Spec in_Status in_Meta InstanceProgress.inst]. rewrite Hst.
  destruct (id_pending dec) eqn:Hpend.
  - destruct Hk as (Hreq & Hs & [u Hu] & Hdone). destruct (is_Initialize spec) as [s|]; [|done].
    rewrite Hs. injection Hs as _ -> _ _ _.
    destruct (step_init_state logs meta spec current paths st w Hfit) as (live & msg & Hi & _). rewrite (effect_try _ _ _ _ _ _ Hi).
    set (i := {| ii_requested := true |}). assert (ii_upgradePhase i ≠ UpgradePhaseFailed) as Hp by (apply not_failed; [done|by left]).
    pose proof (init_shape i eq_refl eq_refl Hp) as Hshape.
    assert (ii_upgradePhase i ≠ UpgradePhaseSucceeded) as Hns.
    { intros Hph. apply Hdone. exists u. split; [exact Hu|]. unfold i in Hph. cbn in Hph. by rewrite Hu in Hph. }
    assert (id_pending (initDecide i) = true ∧ id_ensureUpgrade (initDecide i) = false) as [Hpd He].
    { apply String.eqb_neq in Hp, Hns. unfold initDecide. rewrite Hp, Hns. unfold i. cbn. by rewrite Hu. }
    rewrite He. rewrite Hpd in Hshape. by exists (initDecide i).
  - destruct Hk as [Hs Hini]. rewrite Hs. destruct (is_Initialize spec) as [s|].
    + rewrite Hini by done. by eexists.
    + eexists. split; [done|]. by destruct (id_initialized dec).
Qed.

(** The gate's decision stands: the current revision is out, or its upgrade runs. *)
Definition gate_kept (gd : gateDecision) (w : cluster) : Prop :=
  gd_appliedHash gd = gd_templateHash gd ∧
  if String.eqb (gd_phase gd) "" then gd_templateHash gd = current ∧ gd_activeUpgrade gd = ""
  else gd_phase gd = gatePhaseUpgrading ∧ gd_activeUpgrade gd = gate_name ∧ is_Upgrade spec ≠ None ∧
       gd_templateHash gd ≠ "" ∧ gd_templateHash gd ≠ current ∧
       is_Some (upgrade_at w gate_name) ∧ ¬ upgrade_done w gate_name.

Lemma gate_finish_run st i message w x gd w' :
  effect w (gateFinish (inst st) i message) = (Ok (x, gd), w') →
  x = set_gate (gd_appliedHash gd) (gd_activeUpgrade gd) (inst st) ∧ (∀ n, upgrade_done w' n → upgrade_done w n) ∧
  ∃ succeeded, gd = gate_report message succeeded (gateDecide i).
Proof.
  unfold gateFinish. cbv zeta. set (p := match gd_ensureUpgrade (gateDecide i) with true => _ | false => _ end).
  assert (∀ w1, effect w p = (Ok tt, w1) → ∀ n, upgrade_done w1 n → upgrade_done w n) as Hp.
  { intros w1. unfold p. destruct (gd_ensureUpgrade _); [|by intros [= <-]]. destruct (is_Upgrade _) as [us|]; [|by intros [= <-]].
    by apply (created_not_done st w w1 (gateUpgrade (inst st) us (gi_upgradeName i))). }
  unfold try_bind. rewrite effect_bind. destruct (effect w p) as [[[]|] w1]; [|done]. cbn. intros [= <- <- <-].
  split_and!; [done|by apply Hp|by eexists].
Qed.

Lemma gate_finish_quiet st i message w :
  gd_ensureUpgrade (gateDecide i) = false →
  ∃ x gd, effect w (gateFinish (inst st) i message) = (Ok (x, gd), w) ∧ shows_gate gd = shows_gate (gateDecide i) ∧
    x = set_gate (gd_appliedHash gd) (gd_activeUpgrade gd) (inst st).
Proof. intros He. unfold gateFinish. cbv zeta. rewrite He. by eexists _, _. Qed.

Lemma gate_made st w x gd w' :
  fit w → effect w (gateAddonsRollout (inst st) current) = (Ok (x, gd), w') →
  x = set_gate (gd_appliedHash gd) (gd_activeUpgrade gd) (inst st) ∧ gate_kept gd w'.
Proof.
  intros Hfit He. destruct (step_gate logs meta spec current paths st w Hfit) as (gd' & w0 & (He' & _) & Ha & Hout).
  rewrite He in He'. injection He' as -> -> ->. split; [done|]. split; [done|].
  destruct (String.eqb_spec (gd_phase gd') "") as [Hp|Hp]; [by destruct Hout as (? & ? & _)|]. destruct Hout as (Hne & Ht & Hnot & Hex).
  unfold gateAddonsRollout in He. cbn [in_Spec in_Status in_Meta InstanceProgress.inst] in He.
  set (upgradeSet := match is_Upgrade spec with Some _ => true | None => false end) in *.
  destruct (upgradeSet && _ && _) eqn:Hguard.
  - apply andb_true_iff in Hguard as [[Hset Happ]%andb_true_iff _]. apply negb_true_iff, String.eqb_neq in Happ.
    pose proof (step_read logs meta spec current paths st w gate_name Hfit ltac:(by right; left)) as (Hr & _).
    rewrite (effect_try _ _ _ _ _ _ Hr) in He.
    assert (∃ e p m, effect w (gateFinish (inst st) {| gi_upgradeSet := upgradeSet; gi_applied := ist_AppliedAddonsHash st;
        gi_current := current; gi_upgradeName := gate_name; gi_upgradeExists := e; gi_upgradePhase := p |} m) =
        (Ok (set_gate (gd_appliedHash gd') (gd_activeUpgrade gd') (inst st), gd'), w0) ∧ p ≠ UpgradePhaseFailed) as (e & p & m & Hf & Hph).
    { pose proof (not_failed w gate_name Hfit ltac:(by right; left)) as Hph.
      destruct (upgrade_at w gate_name) as [u|]; eexists _, _, _; (split; [exact He|exact Hph]). }
    destruct (gate_finish_run _ _ _ _ _ _ _ Hf) as (_ & Hdone & succeeded & Heq).
    clear He. set (i := {| gi_upgradeSet := upgradeSet |}) in *. destruct (gateDecide_contract i) as (_ & Hroll & Hheld).
    assert (¬ rolls i) as Hno by (intros Hi; apply Hp; rewrite Heq; cbn; by apply Hroll).
    destruct (Hheld Hno) as (_ & _ & Hact & _ & Hphase). apply String.eqb_neq in Hph. cbn in Hact, Hphase.
    rewrite Hph, andb_false_r in Hphase.
    split_and!; [by rewrite Heq|by rewrite Heq|by intros Hn; unfold upgradeSet in Hset; rewrite Hn in Hset|by rewrite Ht|by rewrite Ht|done|].
    by intros Hd%Hdone.
  - exfalso. apply Hp. destruct (gate_finish_run _ _ _ _ _ _ _ He) as (_ & _ & succeeded & ->). cbn.
    apply (gateDecide_contract _). unfold rolls. cbn [gi_upgradeSet gi_applied gi_current].
    destruct upgradeSet; [|by left]. destruct (String.eqb_spec (ist_AppliedAddonsHash st) ""); [by right; left|].
    destruct (String.eqb_spec (ist_AppliedAddonsHash st) current); [by right; right; left|done].
Qed.

Lemma gate_again st w gd :
  fit w → gate_kept gd w → ist_AppliedAddonsHash st = gd_appliedHash gd →
  ∃ x gd', effect w (gateAddonsRollout (inst st) current) = (Ok (x, gd'), w) ∧ shows_gate gd' = shows_gate gd ∧
    x = set_gate (gd_appliedHash gd') (gd_activeUpgrade gd') (inst st).
Proof.
  intros Hfit [Ha Hk] Hst. unfold gateAddonsRollout. cbn [in_Spec in_Status in_Meta InstanceProgress.inst]. rewrite Hst, Ha.
  assert (∀ i message, gd_ensureUpgrade (gateDecide i) = false → shows_gate (gateDecide i) = shows_gate gd →
    ∃ x gd', effect w (gateFinish (inst st) i message) = (Ok (x, gd'), w) ∧ shows_gate gd' = shows_gate gd ∧
      x = set_gate (gd_appliedHash gd') (gd_activeUpgrade gd') (inst st)) as Hquiet.
  { intros i message He Hs. destruct (gate_finish_quiet st i message w He) as (x & gd' & ? & Hs' & ?). exists x, gd'.
    by rewrite Hs', Hs. }
  destruct (String.eqb_spec (gd_phase gd) "") as [Hp|Hp].
  - destruct Hk as [Ht Hact]. rewrite Ht, String.eqb_refl, andb_false_r.
    match goal with |- context [gateFinish _ ?i ""] => set (i0 := i) end.
    destruct (gateDecide_contract i0) as (Ha0 & Hroll & _).
    destruct Hroll as (Ht0 & Hact0 & Hp0 & He0); [by right; right; left|].
    apply Hquiet; [done|]. unfold shows_gate. by rewrite Ha0, Ht0, Hact0, Hp0, Ha, Ht, Hact, Hp.
  - destruct Hk as (Hphase & Hact & Hset & Hne & Hcur & [u Hu] & Hdone). destruct (is_Upgrade spec) as [us|]; [|done].
    rewrite (proj2 (String.eqb_neq _ _) Hne), (proj2 (String.eqb_neq _ _) Hcur). cbn [andb negb].
    pose proof (step_read logs meta spec current paths st w gate_name Hfit ltac:(by right; left)) as (Hr & _).
    rewrite (effect_try _ _ _ _ _ _ Hr). pose proof (not_failed w gate_name Hfit ltac:(by right; left)) as Hf.
    rewrite Hu in Hf |- *. change (ust_Phase (up_Status u) ≠ UpgradePhaseFailed) in Hf. cbn [fmap option_fmap option_map].
    match goal with |- context [gateFinish _ ?i _] => set (i0 := i) end.
    destruct (gateDecide_contract i0) as (Ha0 & _ & Hheld). destruct Hheld as (Ht0 & _ & Hact0 & He0 & Hp0).
    { intros [?|[?|[?|[_ ?]]]]; [done|done|by apply Hcur|]. apply Hdone. by exists u. }
    cbn in Hact0, He0, Ht0. unfold i0 in Hp0. cbn [gi_upgradeExists gi_upgradePhase andb] in Hp0.
    rewrite (proj2 (String.eqb_neq _ _) Hf) in Hp0. apply Hquiet; [done|]. unfold shows_gate. fold i0 in Hp0.
    by rewrite Ha0, Ht0, Hact0, Hp0, Ha, Hphase, Hact.
Qed.

(** The gate, or its hold during an initialisation. *)
Definition gated (pending : bool) (st : OdooInstanceStatus) : prog (res (OdooInstance * gateDecision)) :=
  if pending then ok (initHoldGate (inst st) current) else gateAddonsRollout (inst st) current.
Definition gated_kept (pending : bool) (gd : gateDecision) (w : cluster) : Prop :=
  gate_kept gd w ∧ (pending = true → shows_gate gd = shows_gate (gateRoll current)).

Lemma gated_made pending st w x gd w' :
  fit w → effect w (gated pending st) = (Ok (x, gd), w') →
  x = set_gate (gd_appliedHash gd) (gd_activeUpgrade gd) (inst st) ∧ gated_kept pending gd w'.
Proof.
  intros Hfit. unfold gated, gated_kept. destruct pending; [by intros [= <- <- <-]|].
  intros [-> ?]%gate_made; [|done]. by split_and!.
Qed.

Lemma gated_again pending st w gd :
  fit w → gated_kept pending gd w → ist_AppliedAddonsHash st = gd_appliedHash gd →
  ∃ x gd', effect w (gated pending st) = (Ok (x, gd'), w) ∧ shows_gate gd' = shows_gate gd ∧
    x = set_gate (gd_appliedHash gd') (gd_activeUpgrade gd') (inst st).
Proof.
  intros Hfit [Hk Hroll] Hst. unfold gated. destruct pending; [|by apply gate_again].
  rewrite Hroll by done. by eexists _, _.
Qed.

(** ** What a pass leaves *)

(** The facts about the objects do not depend on the other kinds. *)
Lemma claims_at w w' : objects w' KPVC = objects w KPVC → claims_kept w → claims_kept w'.
Proof. intros Heq. unfold claims_kept, claim_kept. by rewrite Heq. Qed.
Lemma config_at w w' : objects w' KConfigMap = objects w KConfigMap → config_kept w → config_kept w'.
Proof. intros Heq. unfold config_kept, kept. by rewrite Heq. Qed.
Lemma service_at w w' : objects w' KService = objects w KService → service_kept w → service_kept w'.
Proof. intros Heq. unfold service_kept, kept. by rewrite Heq. Qed.
Lemma budget_at w w' : objects w' KPDB = objects w KPDB → budget_kept w → budget_kept w'.
Proof. intros Heq. unfold budget_kept, kept. by rewrite Heq. Qed.
Lemma web_at hashes replicas w w' : InstanceProgress.web meta w' = InstanceProgress.web meta w → web_kept hashes replicas w → web_kept hashes replicas w'.
Proof. intros Heq. by apply (kept_at KDeployment (key_for name)). Qed.
Lemma cron_at hashes held seen w w' :
  objects w' KDeployment = objects w KDeployment → cron_kept hashes held seen w → cron_kept hashes held seen w'.
Proof. intros Heq. unfold cron_kept. by rewrite Heq. Qed.
Lemma init_at dec w w' : objects w' KUpgrade = objects w KUpgrade → init_kept dec w → init_kept dec w'.
Proof. intros Heq. unfold init_kept, InstanceProgress.upgrade_done, InstanceProgress.upgrade_at. by rewrite Heq. Qed.
Lemma gated_at pending gd w w' : objects w' KUpgrade = objects w KUpgrade → gated_kept pending gd w → gated_kept pending gd w'.
Proof. intros Heq. unfold gated_kept, gate_kept, InstanceProgress.upgrade_done, InstanceProgress.upgrade_at. by rewrite Heq. Qed.

Lemma secrets_at st st' w w' secrets :
  objects w' KSecret = objects w KSecret → effect w (referencedSecrets (inst st)) = (Ok secrets, w) →
  effect w' (referencedSecrets (inst st')) = (Ok secrets, w').
Proof.
  intros Heq. change (referencedSecrets (inst st')) with (referencedSecrets (inst st)). unfold referencedSecrets.
  generalize [("spec.postgres.passwordSecret", pg_PasswordSecret (is_Postgres (in_Spec (inst st))));
    ("spec.adminPasswordSecret", is_AdminPasswordSecret (in_Spec (inst st)))].
  intros refs. revert secrets. induction refs as [|[field n] refs IH]; intros secrets; cbn [fetchSecrets]; [by intros [= <-]|].
  destruct (String.eqb n ""); [apply IH|]. rewrite !effect_get, Heq.
  destruct (objects w KSecret !! _) as [s|]; cbn [found]; [|by destruct (IsNotFound _)].
  intros He. unfold try_bind in He. rewrite effect_bind in He.
  destruct (effect w (fetchSecrets _ _)) as [[l|] w1] eqn:Hl; [|done]. cbn in He. injection He as <- ->.
  by rewrite (effect_try _ _ _ _ _ _ (IH l eq_refl)).
Qed.

Abbreviation step_pvc := (InstanceProgress.step_pvc logs meta spec conf current paths Hconf Hsizes Hdeletion Hfinalizer Hinitsecret).
Abbreviation step_config := (InstanceProgress.step_config logs meta spec conf current paths Hconf Hsizes Hdeletion Hfinalizer Hinitsecret).
Abbreviation step_web := (InstanceProgress.step_web logs meta spec conf current paths Hconf Hsizes Hdeletion Hfinalizer Hinitsecret).
Abbreviation step_budget := (InstanceProgress.step_budget logs meta spec conf current paths Hconf Hsizes Hdeletion Hfinalizer Hinitsecret).
Abbreviation step_service := (InstanceProgress.step_service logs meta spec conf current paths Hconf Hsizes Hdeletion Hfinalizer Hinitsecret).
Abbreviation step_cron := (InstanceProgress.step_cron logs meta spec conf current paths Hconf Hsizes Hdeletion Hfinalizer Hinitsecret).

(** The objects of the pods, and the status at the end. *)
Definition pods (before st : OdooInstanceStatus) (addons' : list OdooAddon) (gd : gateDecision) (dec : initDecision)
    (hashes : rolloutHashes) : prog (OdooInstance * res Result) :=
  let?[inst st] _ := reconcileDeployment (inst st) hashes (if id_pending dec then 0 else desiredReplicas spec) in
  let?[inst st] _ := reconcilePDB (inst st) in
  let?[inst st] _ := reconcileService (inst st) in
  let?[inst st] cron := reconcileCron (inst st) hashes (id_pending dec) in
  finishPass r before (inst st) addons' gd dec cron.

Record pods_kept (pending : bool) (hashes : rolloutHashes) (cron : cronOutcome) (d : Deployment) (w : cluster) : Prop := {
  pk_web : InstanceProgress.web meta w = Some d;
  pk_deployment : web_kept hashes (if pending then 0 else desiredReplicas spec) w;
  pk_budget : budget_kept w;
  pk_service : service_kept w;
  pk_cron : cron_kept hashes pending (shown cron) w
}.

Lemma pods_at pending hashes cron d w w' :
  frame [KPVC; KConfigMap; KUpgrade; KInstance] w w' → pods_kept pending hashes cron d w → pods_kept pending hashes cron d w'.
Proof.
  intros Hf [Hd ????]. assert (InstanceProgress.web meta w' = InstanceProgress.web meta w) as Hweb
    by (unfold InstanceProgress.web; by rewrite (frame_at _ _ _ KDeployment Hf eq_refl)).
  split; [by rewrite Hweb|by apply (web_at _ _ w)|apply (budget_at w)|apply (service_at w)|apply (cron_at _ _ _ w)]; try done; by apply (frame_at _ _ _ _ Hf).
Qed.

Lemma pods_made before st addons' gd dec hashes w :
  fit w →
  ∃ now d cron i result w', effect w (pods before st addons' gd dec hashes) = ((i, Ok result), w') ∧
    frame [KDeployment; KPDB; KService; KInstance] w w' ∧ pods_kept (id_pending dec) hashes cron d w' ∧
    self w' = Some (inst (finished now st (addonMountPaths addons') gd dec d cron)).
Proof.
  intros Hfit. set (replicas := if id_pending dec then 0 else desiredReplicas spec).
  destruct (step_web st hashes replicas w Hfit) as (w1 & d & (He1 & Hf1 & Hfit1) & Hd & _).
  destruct (step_budget st w1 Hfit1) as (w2 & He2 & Hf2 & Hfit2).
  destruct (step_service st w2 Hfit2) as (w3 & He3 & Hf3 & Hfit3).
  destruct (step_cron st hashes (id_pending dec) w3 Hfit3) as (cron & w4 & (He4 & Hf4 & Hfit4) & Hweb4).
  assert (InstanceProgress.web meta w3 = InstanceProgress.web meta w1) as Hweb3.
  { unfold InstanceProgress.web. by rewrite (frame_at _ _ _ KDeployment Hf3 eq_refl), (frame_at _ _ _ KDeployment Hf2 eq_refl). }
  assert (pods_kept (id_pending dec) hashes cron d w4) as Hpods.
  { split.
    - by rewrite Hweb4, Hweb3.
    - apply (web_at _ _ w1); [by rewrite Hweb4|]. exact (web_made st hashes replicas w w1 He1).
    - apply (budget_at w2); [by rewrite (frame_at _ _ _ KPDB Hf4 eq_refl), (frame_at _ _ _ KPDB Hf3 eq_refl)|]. exact (budget_made st w1 w2 Hfit1 He2).
    - apply (service_at w3); [by rewrite (frame_at _ _ _ KService Hf4 eq_refl)|]. exact (service_made st w2 w3 He3).
    - exact (cron_made st hashes (id_pending dec) w3 w4 cron Hfit3 He4). }
  destruct (finish_run before st addons' gd dec cron w4 d Hfit4 (pk_web _ _ _ _ _ Hpods)) as (i & result & He5).
  eexists (clock w4), d, cron, i, result, _. split_and!.
  - unfold pods, try_with. fold replicas. rewrite effect_bind, He1. cbn [fst snd]. rewrite effect_bind, He2. cbn [fst snd].
    rewrite effect_bind, He3. cbn [fst snd]. rewrite effect_bind, He4. cbn [fst snd]. exact He5.
  - etrans; [|eapply frame_sub; [|apply frame_put]; reflexivity].
    repeat (etrans; [eapply frame_sub; [|eassumption]; reflexivity|]). reflexivity.
  - eapply pods_at; [|exact Hpods]. by eapply frame_sub; [|apply frame_put].
  - unfold self, put. rewrite put_objects_eq. apply lookup_insert_eq.
Qed.

Lemma pods_again before st addons' gd dec hashes cron d w :
  fit w → pods_kept (id_pending dec) hashes cron d w →
  ∃ now cron' w' i result, shown cron' = shown cron ∧ unchanged w w' ∧
    effect w (pods before st addons' gd dec hashes) =
      ((i, Ok result), put KInstance name (inst (finished now st (addonMountPaths addons') gd dec d cron')) w').
Proof.
  intros Hfit [Hd Hk1 Hk2 Hk3 Hk4].
  destruct (web_again st _ _ _ Hk1) as (w1 & He1 & Hf1). apply (budget_at w w1) in Hk2; [|by apply unchanged_at].
  destruct (budget_again st w1 Hk2) as (w2 & He2 & Hf2). assert (unchanged w w2) as Hu2 by by transitivity w1.
  apply (service_at w w2) in Hk3; [|by apply unchanged_at].
  destruct (service_again st w2 Hk3) as (w3 & He3 & Hf3). assert (unchanged w w3) as Hu3 by by transitivity w2.
  apply (cron_at _ _ _ w w3) in Hk4; [|by apply unchanged_at].
  destruct (cron_again st _ _ w3 _ Hk4) as (cron' & w4 & He4 & Hf4 & Hshown). assert (unchanged w w4) as Hu4 by by transitivity w3.
  destruct (finish_run before st addons' gd dec cron' w4 d) as (i & result & He5).
  { by apply (unchanged_fit w). }
  { unfold InstanceProgress.web. by rewrite (unchanged_at _ _ _ Hu4). }
  eexists (clock w4), cron', w4, i, result. split_and!; [done|done|]. unfold pods, try_with.
  rewrite effect_bind, He1. cbn [fst snd]. rewrite effect_bind, He2. cbn [fst snd].
  rewrite effect_bind, He3. cbn [fst snd]. rewrite effect_bind, He4. cbn [fst snd]. by rewrite He5.
Qed.

(** ** The pass and the pass again *)
Abbreviation pass := (InstanceProgress.pass r logs meta).
Definition hashes_for (secrets : list Secret) (gd : gateDecision) : rolloutHashes :=
  {| rh_config := configHash conf; rh_secrets := secretsHash secrets; rh_addons := gd_templateHash gd |}.

(** What the steps before the end of the pass set in the status. *)
Definition decided (st : OdooInstanceStatus) (gd : gateDecision) (dec : initDecision) : Prop :=
  set_so_far st = (m_Generation meta, id_initialized dec, id_upgradeName dec, gd_appliedHash gd, gd_activeUpgrade gd).

(** The cluster as a pass leaves it. *)
Definition steady (w : cluster) : Prop := ∃ now st gd dec secrets d cron,
  fit w ∧ self w = Some (inst (finished now st paths gd dec d cron)) ∧ decided st gd dec ∧
  claims_kept w ∧ config_kept w ∧ effect w (referencedSecrets (inst st)) = (Ok secrets, w) ∧
  init_kept dec w ∧ gated_kept (id_pending dec) gd w ∧ pods_kept (id_pending dec) (hashes_for secrets gd) cron d w.

(** The steps of a pass up to the gates. *)
Lemma pass_steps w st w1 w2 secrets dec w3 st3 gd w4 :
  fit w2 → self w = Some (inst st) →
  let st1 := in_Status (set_observed (m_Generation meta) (set_phase phaseCreating (ist_Ready st) (inst st))) in
  let st2 := in_Status (set_init (id_initialized dec) (id_upgradeName dec) (inst st1)) in
  effect w (reconcilePVC (inst st1)) = (Ok tt, w1) → effect w1 (reconcileConfigMap (inst st1) conf) = (Ok tt, w2) →
  effect w2 (referencedSecrets (inst st1)) = (Ok secrets, w2) →
  effect w2 (decideInitialization (inst st1)) = (Ok dec, w3) →
  effect w3 (gated (id_pending dec) st2) = (Ok (inst st3, gd), w4) →
  ∀ i result w', effect w4 (pods st st3 (ready_addons w2) gd dec (hashes_for secrets gd)) = ((i, Ok result), w') → pass w = w'.
Proof.
  intros Hfit Hst st1 st2 He1 He2 He3 He4 He5 i result w' He6. unfold InstanceProgress.pass, instanceReconcile. rewrite effect_get.
  change (objects w KInstance !! _) with (self w). rewrite Hst. cbn [found]. cbn [in_Meta InstanceProgress.inst].
  rewrite Hdeletion, Hfinalizer. cbn [negb]. unfold instancePass. cbv zeta. rewrite effect_bind.
  unfold reconcileOdooInstance. cbv zeta. cbn [in_Spec in_Meta in_Status InstanceProgress.inst].
  change (set_observed (m_Generation meta) (set_phase phaseCreating (ist_Ready st) (inst st))) with (inst st1).
  unfold try_with. rewrite effect_bind, He1. cbn [fst snd in_Spec InstanceProgress.inst]. rewrite Hconf.
  rewrite effect_bind, He2. cbn [fst snd]. rewrite effect_bind, He3. cbn [fst snd].
  destruct (step_addons logs meta spec current paths st1 w2 Hfit) as (Ha & _). rewrite effect_bind, Ha. cbn [fst snd].
  rewrite effect_bind, He4. cbn [fst snd].
  change (set_init (id_initialized dec) (id_upgradeName dec) (inst st1)) with (inst st2).
  rewrite effect_bind, (proj1 (Hfit KAddon)).
  change (if id_pending dec then ok (initHoldGate (inst st2) current) else gateAddonsRollout (inst st2) current)
    with (gated (id_pending dec) st2). rewrite He5. cbn [fst snd]. unfold pods, hashes_for, try_with in He6.
  change (in_Spec (inst st3)) with spec. rewrite He6. done.
Qed.

Lemma pass_steady w : fit w → steady (pass w).
Proof.
  intros Hfit. destruct (Hfit KInstance) as [st0 Hst0].
  set (st1 := in_Status (set_observed (m_Generation meta) (set_phase phaseCreating (ist_Ready st0) (inst st0)))).
  destruct (step_pvc st1 w Hfit) as (w1 & (He1 & Hf1 & Hfit1) & _).
  destruct (step_config st1 w1 Hfit1) as (w2 & He2 & Hf2 & Hfit2).
  destruct (step_secrets logs meta spec current paths st1 w2 Hfit2) as (secrets & He3 & _).
  destruct (step_init logs meta spec current paths Hinitsecret st1 w2 Hfit2) as (dec & w3 & (He4 & Hf4 & Hfit3) & _).
  set (st2 := in_Status (set_init (id_initialized dec) (id_upgradeName dec) (inst st1))).
  destruct (gated_outcome logs meta spec current paths st1 dec w3 Hfit3) as (st3 & gd & w4 & (He5 & Hf5 & Hfit4) & _).
  destruct (gated_made (id_pending dec) st2 w3 _ gd w4 Hfit3 He5) as [Hst3 Hgate].
  destruct (pods_made st0 st3 (ready_addons w2) gd dec (hashes_for secrets gd) w4 Hfit4)
    as (now & d & cron & i & result & w' & He6 & Hf6 & Hpods & Hself).
  assert (fit (pass w)) as Hfit'
    by (apply (pass_fit r logs meta spec conf current paths Hconf Hsizes Hdeletion Hfinalizer Hinitsecret); by left).
  revert Hfit'. rewrite (pass_steps w st0 w1 w2 secrets dec w3 st3 gd w4 Hfit2 Hst0 He1 He2 He3 He4 He5 i result w' He6).
  rewrite (proj2 (Hfit2 KAddon)) in Hself.
  intros Hfit'. exists now, st3, gd, dec, secrets, d, cron. split_and!; [exact Hfit'|exact Hself|..].
  - unfold decided. by rewrite (f_equal in_Status Hst3 : st3 = _).
  - apply (claims_at w1); [|by apply (claims_made st1 w)].
    by rewrite (frame_at _ _ _ KPVC Hf6 eq_refl), (frame_at _ _ _ KPVC Hf5 eq_refl), (frame_at _ _ _ KPVC Hf4 eq_refl),
      (frame_at _ _ _ KPVC Hf2 eq_refl).
  - apply (config_at w2); [|by apply (config_made st1 w1)].
    by rewrite (frame_at _ _ _ KConfigMap Hf6 eq_refl), (frame_at _ _ _ KConfigMap Hf5 eq_refl), (frame_at _ _ _ KConfigMap Hf4 eq_refl).
  - apply (secrets_at st1 st3 w2 w' secrets); [|exact He3].
    by rewrite (frame_at _ _ _ KSecret Hf6 eq_refl), (frame_at _ _ _ KSecret Hf5 eq_refl), (frame_at _ _ _ KSecret Hf4 eq_refl).
  - apply (init_at dec w4); [by apply (frame_at _ _ _ _ Hf6)|]. pose proof (init_made st1 w2 dec w3 Hfit2 He4) as Hk.
    destruct (id_pending dec) eqn:Hp; [by injection He5 as _ _ <-|]. unfold init_kept in Hk |- *. by rewrite Hp in Hk |- *.
  - apply (gated_at _ gd w4); [by apply (frame_at _ _ _ _ Hf6)|done].
  - exact Hpods.
Qed.

Lemma finished_keeps now st ps gd dec d cron : set_so_far (finished now st ps gd dec d cron) = set_so_far st.
Proof. unfold finished. cbv zeta. by rewrite settled_status. Qed.

Lemma kept_phase gd dec d w :
  init_kept dec w → gated_kept (id_pending dec) gd w → phase_of gd dec d ≠ gatePhaseUpgradeFailed.
Proof.
  unfold init_kept, gated_kept, gate_kept, phase_of. destruct (id_pending dec); [by intros (_ & [= _ _ _ -> _] & _)|].
  intros _ [[_ Hk] _]. destruct (String.eqb (gd_phase gd) ""); [by destruct (serves d)|]. by destruct Hk as (-> & _).
Qed.

(** Passing over a steady cluster changes nothing. *)
Lemma steady_again w : steady w → unchanged w (pass w).
Proof.
  intros (now & st & gd & dec & secrets & d & cron & Hfit & Hself & Hdec & Hclaims & Hconfig & Hsecrets & Hinit & Hgate & Hpods).
  set (st0 := finished now st paths gd dec d cron) in Hself.
  set (st1 := in_Status (set_observed (m_Generation meta) (set_phase phaseCreating (ist_Ready st0) (inst st0)))).
  pose proof (claims_again st1 w Hclaims) as He1.
  destruct (config_again st1 w Hconfig) as (w2 & He2 & Hu2). pose proof (unchanged_fit _ _ Hu2 Hfit) as Hfit2.
  pose proof (secrets_at st st1 w w2 secrets (unchanged_at KSecret _ _ Hu2) Hsecrets) as He3.
  pose proof (kept_phase gd dec d w Hinit Hgate) as Hphase.
  pose proof (eq_trans (finished_keeps now st paths gd dec d cron) Hdec) as Hkeeps. fold st0 in Hkeeps.
  injection Hkeeps as Hobs Hini Hup Happ Hact.
  destruct (init_again st1 w2 dec Hfit2 (init_at dec w w2 (unchanged_at KUpgrade _ _ Hu2) Hinit) Hini) as (dec' & He4 & Hdec').
  assert (id_pending dec' = id_pending dec) as Hpending by by injection Hdec'.
  set (st2 := in_Status (set_init (id_initialized dec') (id_upgradeName dec') (inst st1))).
  destruct (gated_again (id_pending dec) st2 w2 gd Hfit2) as (x & gd' & He5 & Hgd' & Hx);
    [by apply (gated_at _ _ w); [by apply (unchanged_at KUpgrade)|]|exact Happ|].
  set (st3 := in_Status x). assert (x = inst st3) as Hx3 by (unfold st3; by rewrite Hx).
  assert (hashes_for secrets gd' = hashes_for secrets gd) as Hhashes by (unfold hashes_for; by injection Hgd' as ->).
  destruct (pods_again st0 st3 (ready_addons w2) gd' dec' (hashes_for secrets gd') cron d w2 Hfit2)
    as (later & cron' & w3 & i & result & Hcron & Hu3 & He6).
  { rewrite Hpending, Hhashes. apply (pods_at _ _ _ _ w); [by eapply frame_sub; [|exact Hu2]|done]. }
  rewrite Hx3 in He5. rewrite <-Hpending in He5.
  rewrite (pass_steps w st0 w w2 secrets dec' w2 st3 gd' w2 Hfit2 Hself He1 He2 He3 He4 He5 i result _ He6).
  assert (finished later st3 (addonMountPaths (ready_addons w2)) gd' dec' d cron' = st0) as ->.
  { rewrite (proj2 (Hfit2 KAddon)). apply finished_again; [|by unfold st3; rewrite Hx|done..].
    unfold decided in Hdec. rewrite Hdec. unfold st3. rewrite Hx. injection Hdec' as _ Hi2 Hi3 _ _. injection Hgd' as _ Hg2 Hg3 _.
    unfold set_so_far. cbn [in_Status set_gate in_with_status]. cbn. by rewrite Hi2, Hi3, Hg2, Hg3. }
  transitivity w3; [by transitivity w2|]. apply put_unchanged.
  by rewrite (unchanged_at _ _ _ Hu3), (unchanged_at _ _ _ Hu2).
Qed.

Lemma passes_steady w n : fit w → steady (Nat.iter n pass (pass w)).
Proof.
  intros Hfit. assert (∀ w, fit w → fit (pass w)) as Hkeep
    by (intros w' Hw'; apply (pass_fit r logs meta spec conf current paths Hconf Hsizes Hdeletion Hfinalizer Hinitsecret); by left).
  induction n as [|n IH]; [by apply pass_steady|]. cbn. apply pass_steady. by destruct IH as (? & ? & ? & ? & ? & ? & ? & ? & _).
Qed.

(** ** Properties *)

(** C11: the operator comes to rest. Whatever state its status is in, a pass on an instance that has
    what it needs (a valid configuration, its Secrets, no other owner's objects in its way, no failed
    upgrade) leaves a cluster in which a further pass, and any number of them, changes no object of
    any kind: claims, configuration, upgrades, Deployments, disruption budget, service and the status
    are written as they are already. Only what others do (an upgrade that ends, pods that start) gives
    the next pass something to do, so the operator's own writes never wake it up for ever. *)
Theorem instance_pass_idempotent w n k :
  fit w ∨ created meta spec fit w → objects (Nat.iter n pass (pass w)) k = objects (pass w) k.
Proof.
  intros (w0 & Hfit & ->)%(pass_start r logs meta spec Hdeletion Hfinalizer).
  induction n as [|n IH]; [done|]. rewrite <-IH. cbn. apply (unchanged_at k), steady_again, passes_steady, Hfit.
Qed.
End Steady.

(** *** Witness: the new instance of [InstanceProgress] *)
Section Example.
#[local] Existing Instances unicode_ref kube_ref.

(** The first pass creates the objects and the initialisation; the passes after it have nothing to do. *)
Lemma instance_pass_idempotent_witness :
  let first := pass shop_recorder "" shop_meta shop_cluster in
  let later := Nat.iter 3 (pass shop_recorder "" shop_meta) first in
  objects shop_cluster KDeployment = ∅ ∧ size (objects first KDeployment) = 2%nat ∧ size (objects first KUpgrade) = 1%nat ∧
  ∀ k, objects later k = objects first k.
Proof.
  assert (∀ s, is_Initialize shop_spec = Some s → ini_AdminUserPasswordSecret s ≠ "") as Hsecret by by intros s [= <-].
  cbv zeta. split; [done|]. split; [by vm_compute|]. split; [by vm_compute|]. intros k.
  apply (instance_pass_idempotent shop_recorder "" shop_meta shop_spec shop_conf shop_revision shop_paths
    ltac:(by vm_compute) shop_sizes eq_refl eq_refl Hsecret shop_cluster 3 k). right. exact shop_created.
Defined.
End Example.

Close Scope Z_scope.
