(* ===== verification/SystemProgress.v ===== *)
(** * The operator brings an instance up

    [InstanceProgress] lets the upgrades of an instance succeed between two passes of its controller;
    [UpgradeProgress] shows that the upgrade controller makes them. Here both controllers work on one
    cluster, with the upgrades of other instances in the same queue: what is left to the environment
    is that Jobs succeed and Deployments roll out. *)
From S2P Require Export InstanceProgress UpgradeProgress.

Section System.
Context `{Unicode} `{KubeLib} `{RetryLib} `{!OwnerLaws} `{!ErrorLaws} `{!EqualityLaws} `{!RetryLaws}.
Context (r : Reconciler) (logs : string) (finish : Job → Job).
Context (meta : ObjectMeta) (spec : OdooInstanceSpec) (conf : string) (current : string) (paths : list string).

Abbreviation name := (m_Name meta).
Abbreviation ns := (m_Namespace meta).
Abbreviation inst := (InstanceProgress.inst meta spec).
Abbreviation fit := (InstanceProgress.fit meta spec current paths).

Context (Hconf : renderOdooConf spec = Ok conf).
Context (Hsizes : ∀ req, req ∈ claims meta spec → is_Ok (ParseQuantity (claim_size req)) = true).
Context (Hdeletion : m_DeletionTimestamp meta = None).
Context (Hfinalizer : ContainsFinalizer meta finalizerOdooInstance = true).
Context (Hinitsecret : ∀ s, is_Initialize spec = Some s → ini_AdminUserPasswordSecret s ≠ "").
(** What the upgrades of the instance need to be accepted. *)
Context (Hname : name ≠ "") (Hdatabase : pg_Database (is_Postgres spec) ≠ "").
Context (Hinitmodules : ∀ s, is_Initialize spec = Some s → ini_Modules s ≠ []).
Context (Hmodules : ∀ s, is_Upgrade spec = Some s → upgradeAllModules ∈ usp_Modules s → usp_Modules s = [upgradeAllModules]).
Context (Hends : ∀ j, job_ended (finish j)) (Hfine : ∀ j, job_fine (finish j)).

(** ** The state of the whole

    The instance is fit, the upgrades are in order and no Job failed; its own upgrades, for whatever
    revision, are valid and have not failed. *)
Definition own (n : string) : Prop := n = initUpgradeName name ∨ ∃ hash, n = gateUpgradeName name hash.
Definition own_fine (w : cluster) (u : OdooUpgrade) : Prop :=
  accepted w u ∧ ref_Name (us_InstanceRef (up_Spec u)) = name ∧ ust_Phase (up_Status u) ≠ UpgradePhaseFailed.
Definition owns_fine (w : cluster) : Prop := ∀ n u, own n → upgrades w !! n = Some u → own_fine w u.

Record sound (w : cluster) : Prop := {
  so_fit : fit w;
  so_upgrades : upgrades_ok ns w;
  so_jobs : jobs_fine KUpgrade w;
  so_own : owns_fine w
}.

Lemma own_current n : n ∈ own_upgrades meta current → own n.
Proof. unfold own_upgrades. intros [->|[->|?%elem_of_nil]%elem_of_cons]%elem_of_cons; [by left|by right; eexists|done]. Qed.

(** *** What keeps the part about upgrades *)
Definition in_order (w : cluster) : Prop :=
  upgrades_ok ns w ∧ jobs_fine KUpgrade w ∧ owns_fine w ∧
  ∃ st, self meta w = Some (inst st).
Definition spec_at (w : cluster) (n : string) : option OdooInstanceSpec := in_Spec <$> (objects w KInstance !! n : option OdooInstance).

(** The instance of every upgrade exists. *)
Definition homed (w : cluster) : Prop :=
  ∀ n u, upgrades w !! n = Some u → is_Some (spec_at w (ref_Name (us_InstanceRef (up_Spec u)))).

Lemma homed_specs w w' :
  (∀ n, up_Spec <$> upgrades w' !! n = up_Spec <$> upgrades w !! n) → (∀ n, spec_at w' n = spec_at w n) →
  homed w → homed w'.
Proof.
  intros Hups Hs Hh n u Hu. rewrite Hs. specialize (Hups n). rewrite Hu in Hups.
  destruct (upgrades w !! n) as [u0|] eqn:Hu0; [|done]. injection Hups as ->. by apply (Hh n).
Qed.
Lemma homed_live w n u : homed w → upgrades w !! n = Some u → live w (qi_group u).
Proof. intros Hh Hu. destruct (Hh n u Hu) as [s (i & Hi & _)%fmap_Some]. by exists i. Qed.

Lemma upgrades_ok_spec w : (∀ n u, upgrades w !! n = Some u → item_ok KUpgrade ns w n u) → upgrades_ok ns w.
Proof. done. Qed.

Lemma accepted_specs w w' u : (∀ n, spec_at w' n = spec_at w n) → accepted w u → accepted w' u.
Proof.
  intros Hs (Hval & i & Hi & Hdb). split; [done|]. pose proof (Hs (ref_Name (us_InstanceRef (up_Spec u)))) as Heq.
  unfold spec_at in Heq. rewrite Hi in Heq. apply fmap_Some in Heq as (i' & Hi' & Heq). exists i'. split; [done|].
  unfold upgradeDatabase in *. by rewrite <-Heq.
Qed.

Lemma own_fine_specs w w' u : (∀ n, spec_at w' n = spec_at w n) → own_fine w u → own_fine w' u.
Proof. intros Hs [Hacc ?]. split; [|done]. by eapply accepted_specs. Qed.

Lemma upgrade_ok_specs w w' n u :
  (has_job KUpgrade w u → has_job KUpgrade w' u) → item_ok KUpgrade ns w n u → item_ok KUpgrade ns w' n u.
Proof. intros Hj [? ? ? ? Hjob ?]. split; try done. by apply Hj. Qed.

Lemma has_job_same w w' u : jobs w' = jobs w → has_job KUpgrade w u → has_job KUpgrade w' u.
Proof. unfold has_job. by intros ->. Qed.

Lemma in_order_specs w w' st :
  in_order w → upgrades w' = upgrades w → jobs w' = jobs w → (∀ n, spec_at w' n = spec_at w n) →
  self meta w' = Some (inst st) → in_order w'.
Proof.
  intros (Hok & Hj & Hacc & _) Hups Hjobs Hs Hself. split_and!; [| | |by exists st].
  - apply upgrades_ok_spec. intros n u. rewrite Hups. intros Hu. eapply upgrade_ok_specs; [by apply has_job_same|by apply Hok].
  - unfold jobs_fine. by rewrite Hjobs.
  - intros n u Hn. rewrite Hups. intros Hu. eapply own_fine_specs; [done|by apply (Hacc n)].
Qed.

(** The upgrades the instance asks for are valid. *)
Lemma wanted_accepted st w u m :
  wanted_upgrade (inst st) u → self meta w = Some (inst st) → m_Name m = m_Name (up_Meta u) → m_Namespace m = ns →
  let u' := {| up_Meta := m; up_Spec := up_Spec u; up_Status := up_Status u |} in
  own_fine w u' ∧ item_ok KUpgrade ns w (m_Name m) u'.
Proof.
  intros Hw Hself Hm Hns u'.
  assert (ref_Name (us_InstanceRef (up_Spec u)) = name ∧ ref_Namespace (us_InstanceRef (up_Spec u)) = "" ∧
    us_Database (up_Spec u) = "" ∧ up_Status u = noUpgradeStatus ∧
    (bool_decide (upgradeAllModules ∈ us_Modules (up_Spec u)) && (1 <? length (us_Modules (up_Spec u))) = false) ∧
    (negb (String.eqb (us_AdminUserPasswordSecret (up_Spec u)) "") &&
      (length (us_InstallModules (up_Spec u)) =? 0) = false)) as (Href & Hrns & Hdb & Hst & Hall & Hadmin).
  { destruct Hw as [(s & Hs & ->)|(s & hash & Hs & ->)]; cbn; split_and!; try done.
    - specialize (Hinitmodules s Hs). destruct (ini_Modules s); [done|]. by rewrite andb_false_r.
    - specialize (Hmodules s Hs). case_bool_decide as Hin; [|done]. by rewrite Hmodules. }
  assert (instance_of KUpgrade w u' = Some (inst st)) as Hinst.
  { unfold instance_of. change (qi_group u') with (ref_Name (us_InstanceRef (up_Spec u))). rewrite Href. exact Hself. }
  split.
  - split; [split|split].
    + unfold upgradeValidateSpec. cbn [u' up_Spec up_Meta]. rewrite Href, Hrns, Hall, Hadmin.
      apply String.eqb_neq in Hname. by rewrite Hname.
    + exists (inst st). split; [exact Hinst|]. unfold upgradeDatabase. cbn [u' up_Spec]. by rewrite Hdb.
    + exact Href.
    + cbn [u' up_Status]. by rewrite Hst.
  - split; try done.
    + intros _. right. right. left. cbn. by rewrite Hst.
    + intros _ Hr. exfalso. change (ust_Phase (up_Status u) = UpgradePhaseRunning) in Hr. by rewrite Hst in Hr.
Qed.

(** ** The pass of the instance *)
Lemma spec_at_frame ks w w' n : frame ks w w' → bool_decide (KInstance ∈ ks) = false → spec_at w' n = spec_at w n.
Proof. intros Hf Hk. unfold spec_at. by rewrite (frame_at _ _ _ KInstance Hf Hk). Qed.

Lemma in_order_frame k w w' st :
  in_order w → self meta w = Some (inst st) → frame [k] w w' →
  bool_decide (k ∈ [KUpgrade; KJob; KInstance]) = false → in_order w'.
Proof.
  intros Hin Hself Hf Hk%bool_decide_eq_false. set_unfold in Hk.
  apply (in_order_specs w w' st); [done|exact (Hf KUpgrade ltac:(set_solver))|exact (Hf KJob ltac:(set_solver))| |].
  - intros n. unfold spec_at. rewrite (Hf KInstance) by set_solver. done.
  - unfold self. rewrite (Hf KInstance) by set_solver. exact Hself.
Qed.

Lemma put_at k n (o : obj k) w : objects (put k n o w) k = <[n := o]> (objects w k).
Proof. apply put_objects_eq. Qed.

(** A status write keeps the specs. *)
Lemma status_specs (i : OdooInstance) w n :
  spec_at (api logs w (OpStatusUpdate KInstance i)).2 n = spec_at w n.
Proof.
  cbn [api]. unfold overwrite.
  destruct (objects w KInstance !! m_Name (obj_meta KInstance i)) as [cur|] eqn:Hcur; [|done]. cbn [snd].
  unfold spec_at. rewrite put_at. destruct (decide (m_Name (in_Meta i) = n)) as [<-|Hi].
  - rewrite lookup_insert_eq. change (m_Name (obj_meta KInstance i)) with (m_Name (in_Meta i)) in Hcur.
    change (obj KInstance) with OdooInstance in *. by rewrite Hcur.
  - by rewrite lookup_insert_ne.
Qed.

Lemma status_in_order (i : OdooInstance) w : in_order w → in_order (api logs w (OpStatusUpdate KInstance i)).2.
Proof.
  intros Hin. pose proof Hin as (_ & _ & _ & st & Hself). pose proof (status_specs i w) as Hspecs. revert Hspecs.
  cbn [api]. unfold overwrite.
  destruct (objects w KInstance !! m_Name (obj_meta KInstance i)) as [cur|] eqn:Hcur; [|done]. cbn [snd].
  set (w' := put _ _ _ w). intros Hspecs. assert (frame [KInstance] w w') as Hf by apply frame_put.
  assert (∃ st', self meta w' = Some (inst st')) as [st' Hst'].
  { unfold self, w'. rewrite put_at. change (m_Name (obj_meta KInstance i)) with (m_Name (in_Meta i)). destruct (decide (m_Name (in_Meta i) = name)) as [Hi|Hi].
    - rewrite Hi, lookup_insert_eq. exists (in_Status i). change (m_Name (obj_meta KInstance i)) with (m_Name (in_Meta i)) in Hcur.
      rewrite Hi in Hcur. pose proof (eq_trans (eq_sym Hcur) Hself) as Hc. by injection Hc as ->.
    - exists st. rewrite lookup_insert_ne by done. exact Hself. }
  by apply (in_order_specs w w' st'); [|exact (Hf KUpgrade ltac:(set_solver))|exact (Hf KJob ltac:(set_solver))|..].
Qed.

(** An upgrade the instance asks for joins the queue. *)
Lemma create_in_order st want m w :
  wanted_upgrade (inst st) want → SetControllerReference meta (up_Meta want) = Ok m → in_order w →
  in_order (api logs w (OpCreate KUpgrade {| up_Meta := m; up_Spec := up_Spec want; up_Status := up_Status want |})).2.
Proof.
  intros Hwant Hm Hin. set (u := {| up_Meta := m |}). cbn [api]. change (m_Name (obj_meta KUpgrade u)) with (m_Name m).
  destruct (objects w KUpgrade !! m_Name m) as [c|] eqn:Hc; [done|]. cbn [snd].
  pose proof Hin as (Hok & Hj & Hacc & st0 & Hself). set (w' := put _ _ _ w).
  assert (frame [KUpgrade] w w') as Hf by apply frame_put.
  assert (upgrades w' = <[m_Name m := u]> (upgrades w)) as Hups by exact (proj1 (writes_put KUpgrade (m_Name m) u w)).
  assert (∀ n, spec_at w' n = spec_at w n) as Hs by (intros n; exact (spec_at_frame _ _ _ n Hf eq_refl)).
  assert (jobs w' = jobs w) as Hjobs by exact (frame_at _ _ _ KJob Hf eq_refl).
  assert (self meta w' = Some (inst st0)) as Hself'.
  { unfold self. rewrite (frame_at _ _ _ KInstance Hf eq_refl). exact Hself. }
  assert (wanted_upgrade (inst st0) want) as Hwant0 by exact Hwant.
  assert (m_Name m = m_Name (up_Meta want) ∧ m_Namespace m = ns) as [Hmn Hmns].
  { destruct (set_controller_ref _ _ _ Hm) as (_ & -> & _). cbn. split; [done|].
    by destruct Hwant as [(? & ? & ->)|(? & ? & ? & ->)]. }
  destruct (wanted_accepted st0 w' want m Hwant0 Hself' Hmn Hmns) as [Hu Huok].
  split_and!; [| | |by exists st0].
  - apply upgrades_ok_spec. intros n v. rewrite Hups. intros [[<- <-]|[_ Hv]]%lookup_insert_Some; [exact Huok|].
    eapply upgrade_ok_specs; [by apply has_job_same|by apply Hok].
  - unfold jobs_fine. by rewrite Hjobs.
  - intros n v Hn. rewrite Hups. intros [[<- <-]|[_ Hv]]%lookup_insert_Some; [exact Hu|].
    eapply own_fine_specs; [done|by apply (Hacc n)].
Qed.

Lemma call_in_order st h o w :
  instance_may (inst st) h o → in_order w → in_order (api logs w o).2.
Proof.
  intros Hmay Hin. pose proof Hin as (Hok & Hj & Hacc & st0 & Hself).
  pose proof (api_frame logs w o) as Hf.
  assert (∀ k, written o = Some k → bool_decide (k ∈ [KUpgrade; KJob; KInstance]) = false → in_order (api logs w o).2) as Hother.
  { intros k Hk Hb. rewrite Hk in Hf. by eapply in_order_frame. }
  destruct o as [k x|k ns' l|k o|k o|k o|k o' o|k o opts|k x mutate| | |]; cbn [written] in *;
    try (by rewrite Hf); destruct k; try done; try (by eapply Hother).
  - destruct Hmay as (want & e & m & Hwant & _ & _ & Hm & ->). by apply (create_in_order st want m w).
  - by apply status_in_order.
Qed.

(** The upgrades the instance asks for have its own instance. *)
Lemma call_homed st h o w :
  instance_may (inst st) h o → in_order w → homed w → homed (api logs w o).2.
Proof.
  intros Hmay (_ & _ & _ & st0 & Hself) Hh. pose proof (api_frame logs w o) as Hf.
  assert (∀ k, written o = Some k → bool_decide (k ∈ [KUpgrade; KInstance]) = false → homed (api logs w o).2) as Hother.
  { intros k Hk Hb%bool_decide_eq_false. rewrite Hk in Hf. set_unfold in Hb.
    apply (homed_specs w); [intros n; by rewrite (Hf KUpgrade ltac:(set_solver) : upgrades _ = upgrades w)| |done].
    intros n. apply (spec_at_frame _ _ _ n Hf). apply bool_decide_eq_false. set_solver. }
  destruct o as [k x|k ns' l|k o|k o|k o|k o' o|k o opts|k x mutate| | |]; cbn [written] in *;
    try (by rewrite Hf); destruct k; try done; try (by eapply Hother).
  - destruct Hmay as (want & e & m & Hwant & _ & _ & Hm & ->). cbn [api].
    change (m_Name (obj_meta KUpgrade _)) with (m_Name m). destruct (objects w KUpgrade !! m_Name m); [done|]. cbn [snd].
    set (u := {| up_Meta := m |}). set (w' := put _ _ _ w). intros n v Hv.
    rewrite (spec_at_frame [KUpgrade] w w') by (done || apply frame_put).
    change (upgrades w' !! n = Some v) in Hv. unfold upgrades, w' in Hv. rewrite put_at in Hv.
    apply lookup_insert_Some in Hv as [[_ <-]|[_ Hv]]; [|by apply (Hh n)]. cbn [u up_Spec].
    assert (ref_Name (us_InstanceRef (up_Spec want)) = name) as -> by by destruct Hwant as [(? & ? & ->)|(? & ? & ? & ->)].
    exists spec. unfold spec_at. change (objects w KInstance !! name) with (self meta w). by rewrite Hself.
  - apply (homed_specs w); [|by apply status_specs|done]. intros n.
    by rewrite (Hf KUpgrade ltac:(set_solver) : upgrades _ = upgrades w).
Qed.

Lemma instance_pass_homed w : sound w → homed w → homed (InstanceProgress.pass r logs meta w).
Proof.
  intros [Hfit Hok Hj Hacc] Hh. destruct (Hfit KInstance) as [st Hst].
  rewrite (pass_reconciles r logs meta spec conf current paths) with (st := st); try done.
  eapply (effect_invariant logs (λ w, in_order w ∧ homed w)); [apply wp_reconcileOdooInstance| |].
  - intros h o w' Hmay [Hin Hh']. split; [by eapply call_in_order|by eapply call_homed].
  - split; [split_and!; [done..|by exists st]|done].
Qed.

Lemma instance_pass_sound w : sound w → sound (InstanceProgress.pass r logs meta w).
Proof.
  intros [Hfit Hok Hj Hacc]. destruct (Hfit KInstance) as [st Hst].
  assert (in_order (InstanceProgress.pass r logs meta w)) as (Hok' & Hj' & Hacc' & _).
  { rewrite (pass_reconciles r logs meta spec conf current paths) with (st := st); try done.
    eapply (effect_invariant logs in_order); [apply wp_reconcileOdooInstance| |].
    - intros h o w'. apply call_in_order.
    - split_and!; [done..|by exists st]. }
  split; try done.
  by apply (pass_outcome r logs meta spec conf current paths) with (st := st).
Qed.

(** ** The rounds of the upgrades *)
Abbreviation upgrade_pass := (UpgradeProgress.pass r ns logs).
Abbreviation upgrade_rest := (UpgradeProgress.rest finish).

(** The upgrade controller works until its queue is empty. *)
Definition upgrade_rounds (w : cluster) : cluster :=
  rounds upgrade_pass upgrade_rest (map_to_list (upgrades w)).*1 (3 * size (upgrades w)) w.

Definition specs_kept (w w' : cluster) : Prop :=
  frame [KUpgrade; KJob; KCronJob] w w' ∧ ∀ n, up_Spec <$> upgrades w' !! n = up_Spec <$> upgrades w !! n.

Lemma upgrade_pass_specs w0 n w : upgrades_ok ns w → specs_kept w0 w → specs_kept w0 (upgrade_pass n w).
Proof.
  intros Hok [Hf Hs]. destruct (upgrades w !! n) as [u|] eqn:Hu; [|by rewrite pass_none].
  destruct (pass_turned r ns logs w n u Hok Hu) as [u' [Hups Hf' _ Hsame _ _ _ _ _ _ _ _ _]].
  assert (up_Spec u' = up_Spec u) as Hspec by by rewrite <-Hsame.
  split; [by transitivity w|]. intros m. change (upgrades (upgrade_pass n w)) with (queued KUpgrade (upgrade_pass n w)).
  rewrite Hups, <-Hs. change (queued KUpgrade w) with (upgrades w).
  destruct (decide (m = n)) as [->|Hne]; [by rewrite lookup_insert_eq, Hu; cbn; rewrite Hspec|by rewrite lookup_insert_ne].
Qed.

Lemma upgrade_rest_specs w0 w : specs_kept w0 w → specs_kept w0 (upgrade_rest w).
Proof.
  intros [Hf Hs]. split; [|by rewrite UpgradeProgress.rest_upgrades].
  transitivity w; [done|]. by eapply frame_sub; [|apply (rest_frame finish upgradeRequeueRunning)].
Qed.

Lemma names_cover w m : m ∈ (map_to_list (upgrades w)).*1 ↔ is_Some (upgrades w !! m).
Proof.
  rewrite list_elem_of_fmap. split.
  - intros ([n u] & -> & Hin). apply elem_of_map_to_list in Hin. by exists u.
  - intros [u Hu]. exists (m, u). split; [done|]. by apply elem_of_map_to_list.
Qed.

(** When the queue is empty, the upgrades of the instance succeeded; nothing else happened. *)
Lemma upgrade_rounds_outcome w :
  sound w → let w' := upgrade_rounds w in
  specs_kept w w' ∧ upgrades_ok ns w' ∧ jobs_fine KUpgrade w' ∧
  ∀ n, own n → is_Some (upgrade_at w n) → upgrade_done w' n.
Proof.
  intros [Hfit Hok Hj Hacc] w'.
  destruct (rounds_invariant r ns logs finish Hends (λ w', specs_kept w w' ∧ jobs_fine KUpgrade w')
    (map_to_list (upgrades w)).*1 w (3 * size (upgrades w))) as (Hok' & Hkept & Hj'); [| |done|done|].
  - intros m w1 Hok1 [Hs Hj1]. split; [by apply upgrade_pass_specs|].
    destruct (upgrades w1 !! m) as [u|] eqn:Hu; [|by rewrite pass_none].
    destruct (pass_turned r ns logs w1 m u Hok1 Hu) as [u' Ht]. by apply (td_fine _ _ _ _ _ _ Ht).
  - intros w1 _ [Hs Hj1]. split; [by apply upgrade_rest_specs|].
    intros n j. change (upgrade_rest w1) with (rest_for finish upgradeRequeueRunning w1). rewrite rest_jobs. intros (j' & <- & _)%lookup_fmap_Some. apply Hfine.
  - split_and!; [done..|]. intros n Hn [u Hu].
    destruct (rounds_on_course r ns logs finish Hends n (map_to_list (upgrades w)).*1 w (3 * size (upgrades w)))
      as (_ & u' & Hu' & Hacc' & Hp'); [done|done| |].
    + split; [done|]. exists u. split_and!; [done|by apply (Hacc n)..].
    + assert (settled upgrades live w') as Hs by (apply (rounds_settle r ns logs finish Hends); [done|apply names_cover|done]).
      exists u'. split; [done|]. destruct Hacc' as (_ & i & Hi & _).
      by destruct (Hs n u' Hu' eq_refl (or_introl (mk_is_Some _ _ Hi))).
Qed.

(** ** Both controllers *)

(** Between two passes of the instance: the upgrade controller empties its queue, and the Deployments
    get the replicas they ask for. *)
Definition rolled_out (w : cluster) : cluster :=
  put_objects KDeployment (roll_out <$> objects w KDeployment) w.
Definition meanwhile (w : cluster) : cluster := rolled_out (upgrade_rounds w).

Lemma rolled_out_web w : web meta (rolled_out w) = roll_out <$> web meta w.
Proof. etrans; [exact (f_equal (lookup name) (put_objects_eq KDeployment _ w))|apply lookup_fmap]. Qed.
Lemma rolled_out_frame w : frame [KDeployment] w (rolled_out w).
Proof. intros k Hk. apply put_objects_ne. set_solver. Qed.

Lemma meanwhile_fit w : sound w → fit (meanwhile w).
Proof.
  intros Hw k. destruct (upgrade_rounds_outcome w Hw) as ([Hf Hs] & _ & _ & Hdone). destruct Hw as [Hfit _ _ Hown].
  unfold meanwhile. destruct (decide (k = KDeployment)) as [->|Hk].
  - unfold rolled_out. rewrite put_objects_eq. intros m d Hm (d0 & <- & Hd)%lookup_fmap_Some.
    rewrite (frame_at _ _ _ KDeployment Hf eq_refl) in Hd. exact (Hfit KDeployment m d0 Hm Hd).
  - rewrite (rolled_out_frame _ k) by set_solver. destruct (decide (k = KUpgrade)) as [->|Hu].
    + intros n u Hn Hu. specialize (Hs n). change (objects (upgrade_rounds w) KUpgrade !! n) with (upgrades (upgrade_rounds w) !! n) in Hu.
      rewrite Hu in Hs. destruct (upgrades w !! n) as [u0|] eqn:Hu0; [|done]. injection Hs as Hs.
      destruct (Hdone n (own_current n Hn)) as (u' & Hu' & Hp); [by exists u0|].
      assert (u' = u) as -> by (apply (inj Some); rewrite <-Hu; exact (eq_sym Hu')).
      split; [|by rewrite Hp]. rewrite Hs. by apply (Hown n u0 (own_current n Hn)).
    + destruct (decide (k = KJob)) as [->|Hj]; [done|]. destruct (decide (k = KCronJob)) as [->|Hc]; [done|]. rewrite (Hf k) by set_solver. apply Hfit.
Qed.

Lemma meanwhile_sound w : sound w → sound (meanwhile w).
Proof.
  intros Hw. pose proof (meanwhile_fit w Hw) as Hfit.
  destruct (upgrade_rounds_outcome w Hw) as ([Hf Hs] & Hok & Hj & Hdone).
  pose proof (rolled_out_frame (upgrade_rounds w)) as Hr.
  assert (upgrades (meanwhile w) = upgrades (upgrade_rounds w)) as Hups by exact (frame_at _ _ _ KUpgrade Hr eq_refl).
  assert (jobs (meanwhile w) = jobs (upgrade_rounds w)) as Hjobs by exact (frame_at _ _ _ KJob Hr eq_refl).
  assert (∀ n, spec_at (meanwhile w) n = spec_at (upgrade_rounds w) n) as Hspec
    by (intros n; exact (spec_at_frame _ _ _ n Hr eq_refl)).
  split; [done| | |].
  - apply upgrades_ok_spec. intros n u. rewrite Hups. intros Hu. eapply upgrade_ok_specs; [by apply has_job_same|by apply Hok].
  - unfold jobs_fine. by rewrite Hjobs.
  - intros n u Hn. rewrite Hups. intros Hu. eapply own_fine_specs; [done|].
    specialize (Hs n). rewrite Hu in Hs. destruct (upgrades w !! n) as [u0|] eqn:Hu0; [|done]. injection Hs as Hs.
    assert (own_fine (upgrade_rounds w) u0) as ((Hval & i & Hi & Hdb) & Href & _).
    { eapply own_fine_specs; [|by apply (so_own w Hw n)]. intros m. exact (spec_at_frame _ _ _ m Hf eq_refl). }
    destruct (Hdone n Hn) as (u' & Hu' & Hp); [by exists u0|].
    assert (u' = u) as -> by (apply (inj Some); rewrite <-Hu; exact (eq_sym Hu')).
    split; [|split; [by rewrite Hs|by rewrite Hp]]. split; [|exists i; unfold upgradeDatabase in *; by rewrite Hs].
    + pose proof (io_namespace _ _ _ _ _ (Hok n u Hu)) as Hn1. pose proof (io_namespace _ _ _ _ _ (so_upgrades w Hw n u0 Hu0)) as Hn2.
      cbn [obj_meta] in Hn1, Hn2. revert Hval. unfold upgradeValidateSpec. by rewrite Hs, Hn1, Hn2.
Qed.

Lemma meanwhile_homed w : sound w → homed w → homed (meanwhile w).
Proof.
  intros Hw Hh. destruct (upgrade_rounds_outcome w Hw) as ([Hf Hs] & _ & _ & _).
  pose proof (rolled_out_frame (upgrade_rounds w)) as Hr. apply (homed_specs w); [|..|done].
  - intros n. rewrite <-Hs. by rewrite (frame_at _ _ _ KUpgrade Hr eq_refl : upgrades (meanwhile w) = upgrades (upgrade_rounds w)).
  - intros n. unfold meanwhile. by rewrite (spec_at_frame _ _ _ n Hr eq_refl), (spec_at_frame _ _ _ n Hf eq_refl).
Qed.

Lemma meanwhile_interlude w : sound w → interlude meta spec current paths w (meanwhile w).
Proof.
  intros Hw. destruct (upgrade_rounds_outcome w Hw) as ([Hf Hs] & _ & _ & Hdone).
  pose proof (rolled_out_frame (upgrade_rounds w)) as Hr. split; [by apply meanwhile_fit| | |].
  - unfold self, meanwhile. by rewrite (frame_at _ _ _ KInstance Hr eq_refl), (frame_at _ _ _ KInstance Hf eq_refl).
  - intros n Hn%own_current Hex. destruct (Hdone n Hn Hex) as (u & Hu & Hp). exists u. split; [|done].
    etrans; [exact (f_equal (lookup n) (frame_at _ _ _ KUpgrade Hr eq_refl))|exact Hu].
  - intros d replicas Hd Hrep. unfold pods_ready. unfold meanwhile. rewrite rolled_out_web.
    assert (web meta (upgrade_rounds w) = web meta w) as -> by (unfold web; by rewrite (frame_at _ _ _ KDeployment Hf eq_refl)).
    rewrite Hd. cbn. by rewrite Hrep.
Qed.

(** The cluster before the pass [n] of the instance. *)
Fixpoint history (w : cluster) (n : nat) : cluster :=
  match n with O => w | S n => meanwhile (InstanceProgress.pass r logs meta (history w n)) end.

Lemma history_start w : sound w ∨ created meta spec sound w →
  ∃ w0, sound w0 ∧ InstanceProgress.pass r logs meta w = InstanceProgress.pass r logs meta w0.
Proof. apply (pass_start r logs meta spec Hdeletion Hfinalizer sound). Qed.

Lemma history_interlude w i :
  sound w ∨ created meta spec sound w →
  sound (InstanceProgress.pass r logs meta (history w i)) ∧
  interlude meta spec current paths (InstanceProgress.pass r logs meta (history w i)) (history w (S i)).
Proof.
  intros (w0 & Hw0 & Hp)%history_start.
  assert (sound (InstanceProgress.pass r logs meta (history w i))) as Hs.
  { induction i as [|i IH]; [cbn; rewrite Hp|]; apply instance_pass_sound; [done|by apply meanwhile_sound]. }
  split; [done|by apply meanwhile_interlude].
Qed.

(** ** Properties *)

(** C2: the operator brings an instance up. Both controllers work on the objects of a namespace, with
    the upgrades of other instances in the same queue: a pass of the instance controller, then passes
    of the upgrade controller until its queue is empty, and so on; in between Jobs end without failing
    and Deployments get their replicas. Take a valid instance, new or in any state of its status, whose
    Secrets exist and whose upgrades, if there are any, have not failed. From the third pass on its
    status says Ready and Running, initialised when that is asked for, with no upgrade under way, and
    lists the paths of the modules of its ready addons; its web Deployment has all replicas on the
    revision of these addons. *)
Theorem operator_brings_instance_up w n :
  sound w ∨ created meta spec sound w → 2 ≤ n →
  let w' := InstanceProgress.pass r logs meta (history w n) in
  ∃ st, self meta w' = Some (inst st) ∧ ist_Ready st = true ∧ ist_Phase st = phaseRunning ∧
    (is_Initialize spec ≠ None → ist_Initialized st = true) ∧
    ist_AppliedAddonsHash st = current ∧ ist_AddonPaths st = paths ∧ ist_ActiveUpgrade st = "" ∧
    ∃ d, web meta w' = Some d ∧ dep_Replicas d = Some (desiredReplicas spec) ∧
      pt_Annotations (dep_Template d) !! annotationAddonsHash = Some current.
Proof.
  intros Hw Hn. apply (third_pass_serves r logs meta spec conf current paths); try done.
  - destruct (history_start w Hw) as (w0 & [Hfit _ _ _] & Hp). by exists w0.
  - intros i. by apply history_interlude.
Qed.
End System.

(** *** Witness: the new instance of [InstanceProgress], whose upgrade has to queue *)
Section Example.
#[local] Existing Instances unicode_ref kube_ref retry_ref.

Definition manual_upgrade : OdooUpgrade := queue_upgrade "manual" "shop" "" 0.
Definition busy_cluster : cluster := put_objects KUpgrade {["manual" := manual_upgrade]} shop_cluster.
Definition succeed_job (j : Job) : Job := UpgradeProgress.example_finish None j.

Definition shop_history (n : nat) : cluster := history shop_recorder "" succeed_job shop_meta busy_cluster n.
Definition system_pass (n : nat) : cluster := InstanceProgress.pass shop_recorder "" shop_meta (shop_history n).

Definition settled_cluster : cluster := put KInstance "shop" (inst shop_meta shop_spec new_status) busy_cluster.

Lemma manual_not_own : ¬ own shop_meta "manual".
Proof. intros [Hn|[hash Hn]]; [done|]. by apply (f_equal (str_take 1)) in Hn. Qed.

Lemma busy_fit : InstanceProgress.fit shop_meta shop_spec shop_revision shop_paths settled_cluster.
Proof.
  intros k. destruct k; cbn [kind_fit]; try done; try (intros n o _ Ho; done).
  - intros n Hne [Hn|(s & [= <-] & ->)]; [|by eexists].
    destruct Hn as [-> | ->]; [by eexists|done].
  - by eexists.
  - intros n u Hn Hu. change (({["manual" := manual_upgrade]} : gmap string OdooUpgrade) !! n = Some u) in Hu.
    apply lookup_singleton_Some in Hu as [<- _]. by destruct manual_not_own; apply (own_current _ shop_revision).
Qed.

Lemma busy_created : created shop_meta shop_spec (sound shop_meta shop_spec shop_revision shop_paths) busy_cluster.
Proof.
  exists new_meta, new_status. split_and!; try done. split; [exact busy_fit| |done|].
  - intros n u Hu. change (({["manual" := manual_upgrade]} : gmap string OdooUpgrade) !! n = Some u) in Hu.
    apply lookup_singleton_Some in Hu as [<- <-]. split; try done. by right; right; left.
  - intros n u Hn Hu. change (({["manual" := manual_upgrade]} : gmap string OdooUpgrade) !! n = Some u) in Hu.
    apply lookup_singleton_Some in Hu as [<- _]. by destruct manual_not_own.
Qed.

Lemma operator_brings_instance_up_witness :
  (λ n, ((λ i, (ist_Phase (in_Status i), ist_Ready (in_Status i))) <$> self shop_meta (system_pass n),
         (λ u, ust_Phase (up_Status u)) <$> upgrades (system_pass n) !! "manual")) <$> [0; 1; 2] =
  [(Some ("Initializing", false), Some ""); (Some ("Creating", false), Some "Succeeded");
   (Some ("Running", true), Some "Succeeded")] ∧
  ∃ st, self shop_meta (system_pass 2) = Some (inst shop_meta shop_spec st) ∧ ist_Ready st = true ∧
    ist_Phase st = phaseRunning ∧ (is_Initialize shop_spec ≠ None → ist_Initialized st = true) ∧
    ist_AppliedAddonsHash st = shop_revision ∧ ist_AddonPaths st = shop_paths ∧ ist_ActiveUpgrade st = "" ∧
    ∃ d, web shop_meta (system_pass 2) = Some d ∧ dep_Replicas d = Some (desiredReplicas shop_spec) ∧
      pt_Annotations (dep_Template d) !! annotationAddonsHash = Some shop_revision.
Proof.
  split; [by vm_compute|].
  apply (operator_brings_instance_up shop_recorder "" succeed_job shop_meta shop_spec shop_conf shop_revision shop_paths);
    [by vm_compute|exact shop_sizes|done|done|by intros s [= <-]|done|done|by intros s [= <-]| |exact (example_ends None)|
     |right; exact busy_created|lia].
  - intros s [= <-] _. done.
  - intros j. by left.
Defined.
End Example.
