(* ===== verification/SystemSteady.v ===== *)
(** * The operator comes to rest

    [SystemProgress] brings an instance up; here it stays up without work: once the instance is ready and
    the upgrade controller has looked at every upgrade once more, no pass of either controller, in
    whatever order, changes an object. *)
From S2P Require Export InstanceSteady SystemProgress.

Section Rest.
Context `{Unicode} `{KubeLib} `{RetryLib} `{!OwnerLaws} `{!ErrorLaws} `{!EqualityLaws} `{!RetryLaws} `{!ConditionLaws}.
Context (r : Reconciler) (logs : string) (finish : Job → Job).
Context (meta : ObjectMeta) (spec : OdooInstanceSpec) (conf : string) (current : string) (paths : list string).

Abbreviation name := (m_Name meta).
Abbreviation ns := (m_Namespace meta).
Abbreviation inst := (InstanceProgress.inst meta spec).
Abbreviation fit := (InstanceProgress.fit meta spec current paths).
Abbreviation steady := (InstanceSteady.steady logs meta spec conf current paths).
Abbreviation upgrade_pass := (UpgradeProgress.pass r ns logs).
Abbreviation instance_pass := (InstanceProgress.pass r logs meta).

(** ** Upgrades that are done *)

(** Every upgrade has finished. *)
Definition all_done (w : cluster) : Prop :=
  ∀ m u, upgrades w !! m = Some u → m_Name (up_Meta u) = m ∧ QueueLog.finished u.
(** ... and has its conditions, which an older operator did not write. *)
Definition recorded (w : cluster) (m : string) : Prop := ∀ u, upgrades w !! m = Some u →
  QueueLog.finished u ∧ ust_Conditions (up_Status u) ≠ [].

(** Nothing but the conditions of upgrades changed. *)
Definition unstamped (u : OdooUpgrade) := (up_Meta u, up_Spec u, ust_Phase (up_Status u)).
Definition restamped (w w' : cluster) : Prop :=
  frame [KUpgrade] w w' ∧ ∀ n, unstamped <$> upgrades w' !! n = unstamped <$> upgrades w !! n.

Lemma restamped_refl w : restamped w w.
Proof. by split. Qed.
Lemma restamped_trans w1 w2 w3 : restamped w1 w2 → restamped w2 w3 → restamped w1 w3.
Proof. intros [Hf Hs] [Hf' Hs']. split; [by transitivity w2|]. intros n. by rewrite Hs', Hs. Qed.

Lemma restamped_at w w' n u : restamped w w' → upgrades w' !! n = Some u → ∃ u0, upgrades w !! n = Some u0 ∧ unstamped u = unstamped u0.
Proof.
  intros [_ Hs] Hu. specialize (Hs n). rewrite Hu in Hs. destruct (upgrades w !! n) as [u0|]; [|done].
  injection Hs as Hm Hsp Hp. exists u0. split; [done|]. unfold unstamped. by rewrite Hm, Hsp, Hp.
Qed.

Lemma finished_unstamped u u0 : unstamped u = unstamped u0 → QueueLog.finished u0 → QueueLog.finished u.
Proof. intros [= _ _ Hp]. unfold QueueLog.finished. cbn. by rewrite Hp. Qed.

Lemma all_done_restamped w w' : restamped w w' → all_done w → all_done w'.
Proof.
  intros Hr Hd m u Hu. destruct (restamped_at _ _ _ _ Hr Hu) as (u0 & Hu0 & Hs). destruct (Hd m u0 Hu0) as [Hm Hf].
  split; [by injection Hs as -> _ _|]. by eapply finished_unstamped.
Qed.

Lemma finished_phase u : QueueLog.finished u → upgradePhaseTerminal (ust_Phase (up_Status u)) = true ∧ ust_Phase (up_Status u) ≠ "".
Proof. intros [Hp|Hp]; cbn in Hp; by rewrite Hp. Qed.

Lemma setConditions_nonempty now cs gen want : want ≠ [] → setConditions now cs gen want ≠ [].
Proof.
  destruct want as [|c want _] using rev_ind; [done|]. intros _ Hn. unfold setConditions in Hn. rewrite foldl_app in Hn. cbn in Hn.
  match type of Hn with SetStatusCondition _ ?cs' _ = _ => destruct (find_set_eq now cs' (stamp gen c)) as (c' & Hf & _) end.
  by rewrite Hn, find_nil in Hf.
Qed.

Lemma upgradeConditions_nonempty st reason : upgradeConditions st reason ≠ [].
Proof. unfold upgradeConditions. by repeat match goal with |- context [if ?b then _ else _] => match type of b with bool => destruct b end end. Qed.

(** A pass over a finished upgrade does nothing, or it writes the conditions. *)
Lemma recorded_pass w m : recorded w m → upgrade_pass m w = w.
Proof.
  intros Hrec. destruct (upgrades w !! m) as [u|] eqn:Hu; [|by apply UpgradeProgress.pass_none].
  destruct (Hrec u Hu) as [Hf Hc]. destruct (finished_phase u Hf) as [Hp _].
  unfold UpgradeProgress.pass, upgradeReconcile. rewrite get_upgrade. change (nn_Name (upgrade_key ns m)) with m. rewrite Hu. cbn [found].
  destruct (ust_Conditions (up_Status u)); [done|]. cbn [length Nat.eqb]. rewrite andb_false_r.
  unfold upgradeReconcilePhase. cbv zeta. by rewrite Hp.
Qed.

Lemma done_pass w m :
  all_done w → let w' := upgrade_pass m w in
  restamped w w' ∧ recorded w' m ∧ ∀ m', recorded w m' → recorded w' m'.
Proof.
  intros Hd w'. destruct (upgrades w !! m) as [u|] eqn:Hu.
  2: { assert (w' = w) as -> by by apply UpgradeProgress.pass_none. split_and!; [apply restamped_refl| |done].
       intros u. by rewrite Hu. }
  destruct (Hd m u Hu) as [Hm Hf]. destruct (finished_phase u Hf) as [Hp Hne].
  destruct (decide (ust_Conditions (up_Status u) = [])) as [Hc|Hc].
  2: { assert (w' = w) as ->; [|split_and!; [apply restamped_refl| |done]].
       - apply recorded_pass. intros u1 Hu1. by pose proof (eq_trans (eq_sym Hu) Hu1) as [= <-].
       - intros u1 Hu1. by pose proof (eq_trans (eq_sym Hu) Hu1) as [= <-]. }
  assert (∃ g conds, writes KUpgrade m (stamped u g conds) w w' ∧ conds ≠ []) as (g & conds & [Hw Hfr] & Hconds).
  { unfold w', UpgradeProgress.pass, upgradeReconcile. rewrite get_upgrade. change (nn_Name (upgrade_key ns m)) with m. rewrite Hu. cbn [found].
    apply String.eqb_neq in Hne. cbv zeta. rewrite Hne, Hc. cbn [negb andb length Nat.eqb].
    assert (∃ g conds w1, effect (api logs) w (upgradeBackfillAttempt (upgrade_key ns m)) = (Ok tt, w1) ∧
      writes KUpgrade m (stamped u g conds) w w1 ∧ conds ≠ []) as (g & conds & w1 & Hw & Hwr & Hcs).
    { unfold upgradeBackfillAttempt, try_bind. rewrite get_upgrade. cbn [upgrade_key nn_Name]. rewrite Hu. cbn [found].
      rewrite Hne, Hc. cbn [orb length Nat.ltb Nat.leb]. rewrite effect_now. erewrite effect_updateStatus by (cbn; rewrite Hm; exact Hu).
      eexists _, _, _. split; [done|]. cbn [obj_meta up_with_status up_Meta]. rewrite Hm. split; [apply writes_put|].
      apply setConditions_nonempty, upgradeConditions_nonempty. }
    exists g, conds. unfold upgradeBackfillConditions, try_bind. rewrite effect_bind, effect_bind, (effect_retry _ _ _ _ _ Hw).
    cbn [fst snd]. unfold upgradeReconcilePhase. cbv zeta. rewrite Hp. by split. }
  assert (∀ n, upgrades w' !! n = if decide (n = m) then Some (stamped u g conds) else upgrades w !! n) as Hlook.
  { intros n. etrans; [exact (f_equal (lookup n) Hw)|]. destruct (decide (n = m)) as [->|Hn]; [apply lookup_insert_eq|by apply lookup_insert_ne]. }
  split_and!.
  - split; [done|]. intros n. rewrite Hlook. destruct (decide (n = m)) as [->|]; [|done]. by rewrite Hu.
  - intros u1. rewrite Hlook, decide_True by done. intros [= <-]. split; [exact Hf|done].
  - intros m' Hrec u1. rewrite Hlook. destruct (decide (m' = m)) as [->|]; [|apply Hrec]. intros [= <-]. split; [exact Hf|done].
Qed.

(** The upgrade controller looks at the upgrades, one after another. *)
Definition look_over (names : list string) (w : cluster) : cluster := foldl (λ w m, upgrade_pass m w) w names.

Lemma look_over_spec names w :
  all_done w → restamped w (look_over names w) ∧ ∀ m, recorded w m ∨ m ∈ names → recorded (look_over names w) m.
Proof.
  revert w. induction names as [|m names IH]; intros w Hd; cbn.
  - split; [apply restamped_refl|]. intros m [?|?%elem_of_nil]; done.
  - destruct (done_pass w m Hd) as (Hr & Hm & Hkeep).
    destruct (IH (upgrade_pass m w) (all_done_restamped _ _ Hr Hd)) as [Hr' Hrec]. split; [by eapply restamped_trans|].
    intros m' [Hm'|[->|Hm']%elem_of_cons]; apply Hrec; [left; by apply Hkeep|by left|by right].
Qed.

(** The conditions of upgrades do not matter to the instance. *)
Lemma restamped_upgrade w w' n : restamped w w' →
  (is_Some (upgrade_at w n) → is_Some (upgrade_at w' n)) ∧ (upgrade_done w' n → upgrade_done w n).
Proof.
  intros Hr. split.
  - intros [u Hu]. destruct Hr as [_ Hs]. specialize (Hs n). change (upgrades w !! n) with (upgrade_at w n) in Hs. rewrite Hu in Hs.
    change (upgrades w' !! n) with (upgrade_at w' n) in Hs. destruct (upgrade_at w' n); [by eexists|done].
  - intros (u & Hu & Hp). destruct (restamped_at _ _ _ _ Hr Hu) as (u0 & Hu0 & Hs). exists u0. split; [exact Hu0|].
    by injection Hs as _ _ <-.
Qed.

Lemma restamped_fit w w' : restamped w w' → fit w → fit w'.
Proof.
  intros Hr Hfit. apply (fit_frame meta spec current paths KUpgrade w); [done|apply Hr|]. intros n u Hn Hu.
  destruct (restamped_at _ _ _ _ Hr Hu) as (u0 & Hu0 & Hs). injection Hs as _ -> ->. by apply (Hfit KUpgrade n u0 Hn).
Qed.

Lemma restamped_steady w w' : restamped w w' → steady w → steady w'.
Proof.
  intros Hr (now & st & gd & dec & secrets & d & cron & Hfit & Hself & Hdec & Hclaims & Hconfig & Hsecrets & Hinit & Hgate & Hpods).
  pose proof Hr as [Hf _]. exists now, st, gd, dec, secrets, d, cron. split_and!.
  - by eapply restamped_fit.
  - unfold self. by rewrite (frame_at _ _ _ KInstance Hf eq_refl).
  - done.
  - by apply (claims_at meta spec w); [apply (frame_at _ _ _ _ Hf)|].
  - by apply (config_at meta spec conf w); [apply (frame_at _ _ _ _ Hf)|].
  - apply (secrets_at logs meta spec st st w); [by apply (frame_at _ _ _ _ Hf)|done].
  - unfold init_kept in *. destruct (id_pending dec); [|done]. destruct Hinit as (? & ? & ? & Hno).
    split_and!; [done|done|by apply (restamped_upgrade w)|]. intros Hd. apply Hno. by apply (restamped_upgrade w w').
  - unfold gated_kept, gate_kept in *. destruct (String.eqb (gd_phase gd) ""); [done|].
    destruct Hgate as [(? & ? & ? & ? & ? & ? & ? & Hno) ?]. split_and!; try done; [by apply (restamped_upgrade w)|].
    intros Hd. apply Hno. by apply (restamped_upgrade w w').
  - eapply pods_at; [|exact Hpods]. by eapply frame_sub; [|exact Hf].
Qed.

(** ** The whole *)
Context (Hconf : renderOdooConf spec = Ok conf).
Context (Hsizes : ∀ req, req ∈ claims meta spec → is_Ok (ParseQuantity (claim_size req)) = true).
Context (Hdeletion : m_DeletionTimestamp meta = None).
Context (Hfinalizer : ContainsFinalizer meta finalizerOdooInstance = true).
Context (Hinitsecret : ∀ s, is_Initialize spec = Some s → ini_AdminUserPasswordSecret s ≠ "").
Context (Hname : name ≠ "") (Hdatabase : pg_Database (is_Postgres spec) ≠ "").
Context (Hinitmodules : ∀ s, is_Initialize spec = Some s → ini_Modules s ≠ []).
Context (Hmodules : ∀ s, is_Upgrade spec = Some s → upgradeAllModules ∈ usp_Modules s → usp_Modules s = [upgradeAllModules]).
Context (Hends : ∀ j, job_ended (finish j)) (Hfine : ∀ j, job_fine (finish j)).

Abbreviation sound := (SystemProgress.sound meta spec current paths).
Abbreviation history := (SystemProgress.history r logs finish meta).
Abbreviation interludes := (history_interlude r logs finish meta spec conf current paths Hconf Hsizes Hdeletion Hfinalizer Hinitsecret Hname
  Hdatabase Hinitmodules Hmodules Hends Hfine).

(** A pass of the instance controller, or of the upgrade controller on an upgrade. *)
Definition step (w : cluster) (c : option string) : cluster :=
  match c with None => instance_pass w | Some m => upgrade_pass m w end.

Lemma steps_rest w cs :
  steady w → (∀ m, recorded w m) → ∀ k, objects (foldl step w cs) k = objects w k.
Proof.
  revert w. induction cs as [|c cs IH]; intros w Hs Hrec k; [done|]. cbn [foldl]. destruct c as [m|]; cbn [step].
  - rewrite recorded_pass by done. by apply IH.
  - assert (∀ k, objects (instance_pass w) k = objects w k) as Hsame.
    { intros k'. apply (steady_again r logs meta spec conf current paths Hconf Hsizes Hdeletion Hfinalizer Hinitsecret w Hs). set_solver. }
    rewrite <-Hsame. apply IH.
    + apply (pass_steady r logs meta spec conf current paths); try done. by destruct Hs as (? & ? & ? & ? & ? & ? & ? & ? & _).
    + intros m u Hu. apply (Hrec m). unfold upgrades in *. by rewrite Hsame in Hu.
Qed.

(** The whole is in order, and no upgrade waits for an instance that does not exist. *)
Definition complete (w : cluster) : Prop := sound w ∧ homed w.

Lemma complete_start w : complete w ∨ created meta spec complete w → sound w ∨ created meta spec sound w.
Proof. intros [[]|(m & st & ? & ? & ? & ? & ? & [])]; [by left|right; by exists m, st]. Qed.

Lemma homed_history w n :
  complete w ∨ created meta spec complete w → homed (instance_pass (history w n)).
Proof.
  intros Hw. pose proof (λ i, proj1 (interludes w i (complete_start w Hw))) as Hsound.
  destruct (pass_start r logs meta spec Hdeletion Hfinalizer complete w Hw) as (w0 & [Hs Hh] & Hp).
  induction n as [|n IH].
  - change (SystemProgress.history r logs finish meta w 0) with w. rewrite Hp.
    by apply (instance_pass_homed r logs finish meta spec conf current paths).
  - change (history w (S n)) with (meanwhile r logs finish meta (instance_pass (history w n))).
    apply (instance_pass_homed r logs finish meta spec conf current paths); try done.
    + by apply (meanwhile_sound r logs finish meta spec conf current paths).
    + by apply (meanwhile_homed r logs finish meta spec conf current paths).
Qed.

(** Before the pass [n] of the instance all upgrades have finished, and the pass asks for no other. *)
Lemma all_done_history w n :
  complete w ∨ created meta spec complete w → all_done (instance_pass (history w (S n))).
Proof.
  intros Hw'. pose proof (complete_start w Hw') as Hw. destruct (interludes w n Hw) as [Hsound Hb].
  pose proof (meanwhile_sound r logs finish meta spec conf current paths Hconf Hsizes Hdeletion Hfinalizer Hinitsecret Hname
    Hdatabase Hinitmodules Hmodules Hends Hfine _ Hsound) as Hnext.
  assert (∃ w0, fit w0 ∧ instance_pass (history w n) = instance_pass w0) as (w0 & Hw0 & Hp).
  { destruct n as [|n].
    - destruct (history_start r logs meta spec current paths Hdeletion Hfinalizer w Hw) as (w0 & Hs & Hp). exists w0. split; [apply Hs|exact Hp].
    - exists (history w (S n)). split; [apply (interludes w n Hw)|done]. }
  rewrite Hp in Hb. destruct (next_rolls r logs meta spec conf current paths Hconf Hsizes Hdeletion Hfinalizer Hinitsecret _ _ Hw0 Hb)
    as (st & _ & _ & _ & _ & _ & _ & _ & Hups).
  intros m u Hu. unfold upgrades in Hu. rewrite Hups in Hu. set (w1 := instance_pass (history w n)) in *.
  change (history w (S n)) with (meanwhile r logs finish meta w1) in Hu. split; [by apply (so_upgrades _ _ _ _ _ Hnext m u)|].
  assert (settled upgrades live (upgrade_rounds r logs finish meta w1)) as Hset.
  { apply (rounds_settle r ns logs finish Hends); [apply Hsound|apply names_cover|done]. }
  assert (upgrades (upgrade_rounds r logs finish meta w1) !! m = Some u) as Hu'.
  { rewrite <-Hu. unfold upgrades, meanwhile, rolled_out. by rewrite put_objects_ne by done. }
  apply (Hset m u Hu' eq_refl). left.
  assert (homed (meanwhile r logs finish meta w1)) as Hh.
  { apply (meanwhile_homed r logs finish meta spec conf current paths); try done. by apply homed_history. }
  pose proof (homed_live _ m u Hh Hu) as Hl. unfold live, meanwhile, rolled_out in *.
  by rewrite put_objects_ne in Hl by done.
Qed.

(** ** Properties *)

(** C3: the operator comes to rest. In the setting of [operator_brings_instance_up], where moreover the
    OdooInstance of every upgrade of the namespace exists, take the cluster
    after the third or a later pass of the instance controller, and let the upgrade controller look once
    more at every upgrade. Then the instance is Ready and Running, and no further passes of the instance
    controller and of the upgrade controller, on whatever upgrades and in whatever order, change any
    object of any kind: the two controllers do not keep each other busy, and what they brought up stays
    as it is until something else changes. *)
Theorem operator_comes_to_rest w n cs k :
  complete w ∨ created meta spec complete w → 2 ≤ n →
  let w1 := instance_pass (history w n) in
  let w' := look_over (map_to_list (upgrades w1)).*1 w1 in
  objects (foldl step w' cs) k = objects w' k ∧
  ∃ st, self meta w' = Some (inst st) ∧ ist_Ready st = true ∧ ist_Phase st = phaseRunning.
Proof.
  intros Hw' Hn w1 w'. destruct n as [|n]; [lia|]. pose proof (all_done_history w n Hw') as Hdone. fold w1 in Hdone.
  apply complete_start in Hw' as Hw.
  destruct (look_over_spec (map_to_list (upgrades w1)).*1 w1 Hdone) as [Hr Hrec]. fold w' in Hr, Hrec. split.
  - apply steps_rest.
    + eapply restamped_steady; [exact Hr|]. apply (pass_steady r logs meta spec conf current paths); try done.
      apply (interludes w n Hw).
    + intros m. apply Hrec. destruct (upgrades w1 !! m) as [u|] eqn:Hu; [right; apply names_cover; by eexists|].
      left. intros u. by rewrite Hu.
  - destruct (third_pass_serves r logs meta spec conf current paths Hconf Hsizes Hdeletion Hfinalizer Hinitsecret (history w) (S n))
      as (st & Hst & Hready & Hphase & _); [|intros i; by apply interludes|done|].
    + destruct (history_start r logs meta spec current paths Hdeletion Hfinalizer w Hw) as (w0 & Hs & Hp). exists w0. split; [apply Hs|exact Hp].
    + exists st. split_and!; [|done|done]. destruct Hr as [Hf _]. unfold self. by rewrite (frame_at _ _ _ KInstance Hf eq_refl).
Qed.
End Rest.

(** *** Witness: the shop of [SystemProgress], with its upgrades and another in the queue *)
Section Example.
#[local] Existing Instances unicode_ref kube_ref retry_ref.

Definition at_peace : cluster :=
  look_over shop_recorder "" shop_meta (map_to_list (upgrades (system_pass 2))).*1 (system_pass 2).
Definition more_passes : list (option string) := [None; Some "manual"; Some "shop-init"; None; Some "absent"].

Lemma busy_complete :
  created shop_meta shop_spec (complete shop_meta shop_spec shop_revision shop_paths) busy_cluster.
Proof.
  destruct busy_created as (m & st & Hs & ? & ? & ? & ? & Hsound). exists m, st. split_and!; try done. split; [done|].
  intros n u Hu. change (({["manual" := manual_upgrade]} : gmap string OdooUpgrade) !! n = Some u) in Hu.
  apply lookup_singleton_Some in Hu as [_ <-]. by eexists.
Qed.

Lemma operator_comes_to_rest_witness :
  (∀ k, objects (foldl (step shop_recorder "" shop_meta) at_peace more_passes) k = objects at_peace k) ∧
  ∃ st, self shop_meta at_peace = Some (inst shop_meta shop_spec st) ∧ ist_Ready st = true ∧ ist_Phase st = phaseRunning.
Proof.
  assert (∀ k, objects (foldl (step shop_recorder "" shop_meta) at_peace more_passes) k = objects at_peace k ∧
    ∃ st, self shop_meta at_peace = Some (inst shop_meta shop_spec st) ∧ ist_Ready st = true ∧ ist_Phase st = phaseRunning) as Hrest.
  { intros k. unfold at_peace, system_pass, shop_history.
    apply (operator_comes_to_rest shop_recorder "" succeed_job shop_meta shop_spec shop_conf shop_revision shop_paths) with (w := busy_cluster) (n := 2);
      [by vm_compute|exact shop_sizes|done|done|by intros s [= <-]|done|done|by intros s [= <-]| |exact (example_ends None)|
       |right; exact busy_complete|lia].
    - intros s [= <-] _. done.
    - intros j. by left. }
  split; [intros k; apply Hrest|exact (proj2 (Hrest KInstance))].
Defined.
End Example.
