(* ===== verification/AddonSpec.v ===== *)
(** * Validation of an OdooAddon (odooaddon_sync.go, first half; api/v1/odooaddon_webhook.go)

    The checks between a spec and the shell script of the sync Job, and the reader of the Job's
    output. [url.Parse] is library code: the class [UrlLib] gives its answer, the user info of the
    parsed URL (whether a password is in it). *)
From S2P Require Export GoHash Conditions KubeRef InstanceAddons.

Open Scope Z_scope.

Class UrlLib := {
  (** [None] for no user info, [Some b] for user info with ([b]) or without a password. *)
  ParseURL : string → res (option bool)
}.

Definition defaultSyncImage : string := "alpine/git:2.47.2".
Definition syncImageEnvVar : string := "OPERATOR_SYNC_IMAGE".
Definition defaultGitRef : string := "main".
Definition schemeHTTPS : string := "https://".
Definition schemeHTTP : string := "http://".
Definition schemeSSH : string := "ssh://".
Definition scpStylePrefix : string := "git@".
Definition credentialsErrText : string :=
  "gitUrl must not embed credentials; put them in gitSecretRef instead".
Definition syncSpecHashLen : nat := 16.
Definition modulesLinePrefix : string := "modules: ".

Inductive gitAuthMode := authNone | authHTTPSToken | authSSH.
#[export] Instance gitAuthMode_eq_dec : EqDecision gitAuthMode.
Proof. solve_decision. Defined.

Record syncSpec := {
  s_GitURL : string;
  s_GitRef : string;
  s_AddonName : string;
  s_ModuleName : string;
  s_AddonPath : string;
  s_SingleAddon : bool;
  s_SecretName : string;
  s_Auth : gitAuthMode
}.

(** [os.Getenv] is the argument. *)
Definition syncImage (Getenv : string → string) : string :=
  if negb (String.eqb (Getenv syncImageEnvVar) "") then Getenv syncImageEnvVar else defaultSyncImage.

(** ** The regular expressions *)
Definition git_ref_byte (c : ascii) : bool := is_alnum c || has_byte c "._/-".
Definition path_byte (c : ascii) : bool := is_alnum c || has_byte c "._-".
Definition validGitRef (s : string) : bool := matches_plus git_ref_byte s.
Definition validPathSegment (s : string) : bool := matches_plus path_byte s.
Definition commitSHA (s : string) : bool := (len s =? 40)%nat && all_bytes is_lower_hex s.

(** [fmt.Sprint] of a bool. *)
Definition Sprint_bool (b : bool) : string := if b then "true" else "false".

(** The fields [syncSpecHash] marshals. *)
Definition sync_fields (s : syncSpec) : list string :=
  [s_GitURL s; s_GitRef s; s_AddonPath s; s_ModuleName s; Sprint_bool (s_SingleAddon s);
   s_SecretName s; s_AddonName s].

Definition syncSpecHash (s : syncSpec) : string :=
  str_take syncSpecHashLen (sha256Hex (json_strings (sync_fields s))).

Definition isCommitSHA (ref : string) : bool := commitSHA ref.

Definition canSkipResync (addon : OdooAddon) : bool :=
  let ref := if String.eqb (ad_GitRef (ad_Spec addon)) "" then defaultGitRef
             else ad_GitRef (ad_Spec addon) in
  isCommitSHA ref && String.eqb (ads_Phase (ad_Status addon)) phaseSynced &&
  String.eqb (ads_ClonedCommit (ad_Status addon)) ref &&
  (0 <? length (ads_Modules (ad_Status addon)))%nat.

Section Validation.
Context `{Unicode} `{UrlLib}.

Definition validateGitUrl (raw : string) : res unit :=
  if negb (HasPrefix raw schemeHTTPS) && negb (HasPrefix raw schemeHTTP) &&
     negb (HasPrefix raw schemeSSH) && negb (HasPrefix raw scpStylePrefix)
  then Err (ErrorString "gitUrl scheme not allowed")
  else if HasPrefix raw scpStylePrefix then Ok tt
  else match ParseURL raw with
       | Err _ => Err (ErrorString "gitUrl is not a valid URL")
       | Ok None => Ok tt
       | Ok (Some hasPassword) =>
           if negb (HasPrefix raw schemeSSH) || hasPassword
           then Err (ErrorString credentialsErrText) else Ok tt
       end.

Definition validateGitRef (ref : string) : res unit :=
  if Contains ref ".." || HasPrefix ref "-" then Err (ErrorString ("invalid gitRef: " +:+ Quote ref))
  else if negb (validGitRef ref)
  then Err (ErrorString ("gitRef contains disallowed characters: " +:+ Quote ref))
  else Ok tt.

Definition validatePathSegment (name : string) : res unit :=
  if String.eqb name "" || Contains name ".." || HasPrefix name "/"
  then Err (ErrorString ("invalid path segment: " +:+ Quote name))
  else if negb (validPathSegment name)
  then Err (ErrorString ("path segment contains disallowed characters: " +:+ Quote name))
  else Ok tt.

Definition validateModuleName (name : string) : res unit :=
  if HasPrefix name "." then Err (ErrorString ("moduleName must not start with '.': " +:+ Quote name))
  else validatePathSegment name.

Definition resolveGitAuth (gitURL : string) (secret : option LocalSecretRef) : res gitAuthMode :=
  match secret with
  | None => Ok authNone
  | Some s =>
      if String.eqb (lsr_Name s) "" then Err (ErrorString "gitSecretRef.name must not be empty")
      else if HasPrefix gitURL schemeSSH || HasPrefix gitURL scpStylePrefix then Ok authSSH
      else if HasPrefix gitURL schemeHTTP
      then Err (ErrorString "refusing to send git credentials over plain http; use https")
      else Ok authHTTPSToken
  end.

(** [fmt.Errorf] around an error. *)
Definition wrapErr {A} (prefix : string) (r : res A) : res A :=
  match r with Ok a => Ok a | Err e => Err (WrapError (prefix +:+ error_text e) e) end.

Definition resolveSyncSpec (addon : OdooAddon) : res syncSpec :=
  let spec := ad_Spec addon in
  let name := m_Name (ad_Meta addon) in
  let ref := if String.eqb (ad_GitRef spec) "" then defaultGitRef else ad_GitRef spec in
  let module := if String.eqb (ad_ModuleName spec) "" then name else ad_ModuleName spec in
  validateGitUrl (ad_GitUrl spec) ≫= λ _,
  validateGitRef ref ≫= λ _,
  wrapErr "invalid addon name: " (validatePathSegment name) ≫= λ _,
  wrapErr "invalid moduleName: " (validateModuleName module) ≫= λ _,
  (if negb (String.eqb (ad_AddonPath spec) "")
   then wrapErr "invalid addonPath: " (validatePathSegment (ad_AddonPath spec)) else Ok tt) ≫= λ _,
  resolveGitAuth (ad_GitUrl spec) (ad_GitSecretRef spec) ≫= λ auth,
  Ok {| s_GitURL := ad_GitUrl spec; s_GitRef := ref; s_AddonName := name; s_ModuleName := module;
        s_AddonPath := ad_AddonPath spec; s_SingleAddon := ad_SingleAddon spec;
        s_SecretName := match ad_GitSecretRef spec with Some s => lsr_Name s | None => "" end;
        s_Auth := auth |}.

(** ** The admission webhook *)
Definition validAddonGitRef (s : string) : bool := matches_plus git_ref_byte s.

Definition validateOdooAddonSpec (addon : OdooAddon) : res unit :=
  let spec := ad_Spec addon in
  let ns := ref_Namespace (ad_InstanceRef spec) in
  let ref := ad_GitRef spec in
  if negb (existsb (HasPrefix (ad_GitUrl spec)) ["https://"; "http://"; "git@"; "ssh://"]) then
    Err (ErrorString ("gitUrl scheme not allowed: " +:+ Quote (ad_GitUrl spec) +:+
                      "; must start with one of: https://, http://, git@, ssh://"))
  else if negb (String.eqb ref "") && (Contains ref ".." || HasPrefix ref "-") then
    Err (ErrorString ("invalid gitRef " +:+ Quote ref +:+ ": must not contain '..' or start with '-'"))
  else if negb (String.eqb ref "") && negb (validAddonGitRef ref) then
    Err (ErrorString ("gitRef " +:+ Quote ref +:+
      " contains disallowed characters; only alphanumeric, '.', '_', '-', '/' allowed"))
  else if negb (String.eqb ns "") && negb (String.eqb ns (m_Namespace (ad_Meta addon))) then
    Err (ErrorString ("cross-namespace instanceRef is not permitted: instanceRef.namespace " +:+
      Quote ns +:+ " must equal addon namespace " +:+ Quote (m_Namespace (ad_Meta addon))))
  else Ok tt.

Definition ValidateCreate (addon : OdooAddon) : res unit := validateOdooAddonSpec addon.
Definition ValidateUpdate (_ addon : OdooAddon) : res unit := validateOdooAddonSpec addon.
Definition ValidateDelete (_ : OdooAddon) : res unit := Ok tt.

(** ** The output of the sync Job *)

(** The loop over the parts of a modules line, [None] for an invalid name. *)
Fixpoint checkModules (parts : list string) : option (list string) :=
  match parts with
  | [] => Some []
  | p :: parts =>
      match validateModuleName p with
      | Err _ => None
      | Ok _ => cons p <$> checkModules parts
      end
  end.

Definition parseModulesLine (line : string) : list string :=
  match CutPrefix line modulesLinePrefix with
  | None => []
  | Some rest =>
      match checkModules (Split rest ",") with
      | None => []
      | Some modules => Compact (sort_strings modules)
      end
  end.

(** The trimmed, non-empty lines, last line first. *)
Definition output_lines (logs : string) : list string :=
  reverse (List.filter (λ t, negb (String.eqb t "")) (TrimSpace <$> Split logs nl_byte)).

Definition parseSyncOutput (logs : string) : string * list string :=
  match output_lines logs with
  | [] => ("", [])
  | [commit] => (commit, [])
  | commit :: line :: _ => (commit, parseModulesLine line)
  end.
End Validation.

(** [shQuote]: a safe word stays as it is. *)
Definition sh_path_byte (c : ascii) : bool := is_alnum c || has_byte c "._/+-".
Definition shSafe (s : string) : bool := matches_plus sh_path_byte s.
Definition shQuote (s : string) : string :=
  if shSafe s then s else sq +:+ ReplaceAll s sq_byte (sq +:+ str1 bs_byte +:+ sq +:+ sq) +:+ sq.

(** ** What the checks guarantee *)

(** A path segment that no shell word splitting, expansion or path traversal can reach out of. *)
Definition plain_segment (s : string) : Prop :=
  s ≠ "" ∧ all_bytes path_byte s = true ∧ Contains s ".." = false.

Lemma matches_plus_ne class s : matches_plus class s = true → s ≠ "" ∧ all_bytes class s = true.
Proof. unfold matches_plus. intros ?. to_prop. destruct s; done. Qed.

Section ValidationLemmas.
Context `{Unicode} `{UrlLib}.

Lemma validatePathSegment_ok name u :
  validatePathSegment name = Ok u → plain_segment name ∧ HasPrefix name "/" = false.
Proof.
  unfold validatePathSegment. destruct (_ || _) eqn:H1; [done|].
  destruct (validPathSegment name) eqn:H2; [|done]. intros _.
  to_prop. apply matches_plus_ne in H2 as [? ?]. split; [by split_and!|done].
Qed.

Lemma validateModuleName_ok name u :
  validateModuleName name = Ok u → plain_segment name ∧ HasPrefix name "." = false.
Proof.
  unfold validateModuleName. destruct (HasPrefix name ".") eqn:Hp; [done|].
  intros [? _]%validatePathSegment_ok. done.
Qed.

Lemma validateGitRef_ok ref u :
  validateGitRef ref = Ok u →
  ref ≠ "" ∧ all_bytes git_ref_byte ref = true ∧ Contains ref ".." = false ∧ HasPrefix ref "-" = false.
Proof.
  unfold validateGitRef. destruct (_ || _) eqn:H1; [done|].
  destruct (validGitRef ref) eqn:H2; [|done]. intros _.
  to_prop. apply matches_plus_ne in H2 as [? ?]. by split_and!.
Qed.

Lemma wrapErr_ok {A} prefix (r : res A) a : wrapErr prefix r = Ok a → r = Ok a.
Proof. by destruct r. Qed.

(** A module name is one directory name: what [addonMountPaths_spec] asks for. *)
Lemma plain_module_segment name :
  plain_segment name → HasPrefix name "." = false →
  has_byte "/" name = false ∧ name ∉ [""; "."; ".."].
Proof.
  intros (Hne & Hb & Hdd) Hdot. split; [by eapply all_bytes_no_byte|].
  rewrite !not_elem_of_cons. split_and!; [done|by intros ->|by intros ->|apply not_elem_of_nil].
Qed.

Lemma shQuote_plain s : plain_segment s → shQuote s = s.
Proof.
  intros (Hne & Hb & _). unfold shQuote, shSafe, matches_plus.
  rewrite (all_bytes_impl path_byte sh_path_byte s); [by destruct s| |done].
  intros c. unfold path_byte, sh_path_byte. rewrite !orb_true_iff. intros [?|Hc]; [by left|right].
  revert Hc. rewrite !has_byte_cons, !orb_true_iff. naive_solver.
Qed.

Lemma checkModules_ok parts ms :
  checkModules parts = Some ms → ms = parts ∧ Forall (λ m, is_Ok (validateModuleName m) = true) ms.
Proof.
  revert ms. induction parts as [|p parts IH]; intros ms; cbn; [by intros [= <-]|].
  destruct (validateModuleName p) eqn:Hp; [|done]. destruct (checkModules parts) as [l|]; [|done].
  intros [= <-]. destruct (IH l eq_refl) as [-> ?]. split; [done|]. constructor; [by rewrite Hp|done].
Qed.

Lemma checkModules_all parts :
  Forall (λ m, is_Ok (validateModuleName m) = true) parts → checkModules parts = Some parts.
Proof. induction 1 as [|p parts Hp _ IH]; cbn; [done|]. destruct (validateModuleName p); [by rewrite IH|done]. Qed.
End ValidationLemmas.

(** ** Properties *)

(** C26: an accepted addon spec is safe to put into the sync script. When [resolveSyncSpec] accepts
    an OdooAddon, the addon name, the module name and the addon path are plain path segments (only
    letters, digits, dot, underscore and hyphen, and no double dot), so they stay one shell word
    and one directory; the module name does not start with a dot, the git ref neither starts with
    a hyphen nor holds a double dot; the URL carries no password (and no user info at all except
    for ssh); and credentials are used only when a Secret is named, never over plain http. *)
Theorem resolveSyncSpec_safe `{Unicode} `{UrlLib} addon s :
  resolveSyncSpec addon = Ok s →
  plain_segment (s_AddonName s) ∧ plain_segment (s_ModuleName s) ∧
  (s_AddonPath s = "" ∨ plain_segment (s_AddonPath s)) ∧
  HasPrefix (s_ModuleName s) "." = false ∧
  shQuote (s_ModuleName s) = s_ModuleName s ∧
  (all_bytes git_ref_byte (s_GitRef s) = true ∧ Contains (s_GitRef s) ".." = false ∧
   HasPrefix (s_GitRef s) "-" = false) ∧
  (∀ b, ParseURL (s_GitURL s) = Ok (Some b) →
     HasPrefix (s_GitURL s) "git@" = true ∨ (HasPrefix (s_GitURL s) "ssh://" = true ∧ b = false)) ∧
  (s_Auth s ≠ authNone → s_SecretName s ≠ "" ∧ HasPrefix (s_GitURL s) "http://" = false).
Proof.
  unfold resolveSyncSpec.
  intros (u1 & Hurl & (u2 & Href & (u3 & Hname%wrapErr_ok & (u4 & Hmod%wrapErr_ok &
    (u5 & Hpath & (auth & Hauth & [= <-])%res_bind_Ok)%res_bind_Ok)%res_bind_Ok)%res_bind_Ok)%res_bind_Ok)%res_bind_Ok.
  apply validatePathSegment_ok in Hname as [Hname _]. apply validateModuleName_ok in Hmod as [Hmod Hdot].
  apply validateGitRef_ok in Href as (_ & Href).
  cbn [s_AddonName s_ModuleName s_AddonPath s_GitRef s_GitURL s_Auth s_SecretName].
  split_and!; try done; try apply Href.
  - destruct (String.eqb_spec (ad_AddonPath (ad_Spec addon)) ""); [by left|right].
    cbn in Hpath. by apply wrapErr_ok, validatePathSegment_ok in Hpath as [? _].
  - by apply shQuote_plain.
  - intros b Hparse. unfold validateGitUrl in Hurl. rewrite Hparse in Hurl.
    unfold schemeHTTPS, schemeHTTP, schemeSSH, scpStylePrefix in Hurl.
    destruct (HasPrefix (ad_GitUrl (ad_Spec addon)) "git@"); [by left|right].
    destruct (HasPrefix (ad_GitUrl (ad_Spec addon)) "ssh://"), b; cbn in Hurl; split_cases.
  - intros Hne. unfold resolveGitAuth in Hauth. destruct (ad_GitSecretRef _) as [sec|]; [|naive_solver].
    destruct (String.eqb_spec (lsr_Name sec) ""); [done|].
    unfold schemeSSH, schemeHTTP, scpStylePrefix in Hauth.
    destruct (_ || _) eqn:Hssh; [|by destruct (HasPrefix _ "http://")].
    split; [done|]. destruct (ad_GitUrl (ad_Spec addon)) as [|c url]; [done|].
    apply orb_true_iff in Hssh. cbn [HasPrefix] in *.
    destruct (Ascii.eqb_spec "h" c) as [<-|]; [|done]. by destruct Hssh.
Qed.

(** The webhook admits every addon the controller can sync. A spec that [resolveSyncSpec]
    accepts, bound to an instance of its own namespace, passes the admission checks. *)
Lemma webhook_admits_syncable `{Unicode} `{UrlLib} addon s :
  resolveSyncSpec addon = Ok s →
  ref_Namespace (ad_InstanceRef (ad_Spec addon)) ∈ [""; m_Namespace (ad_Meta addon)] →
  ValidateCreate addon = Ok tt.
Proof.
  unfold resolveSyncSpec. intros (u1 & Hurl & (u2 & Href & _)%res_bind_Ok)%res_bind_Ok Hns.
  unfold ValidateCreate, validateOdooAddonSpec.
  assert (existsb (HasPrefix (ad_GitUrl (ad_Spec addon))) ["https://"; "http://"; "git@"; "ssh://"] = true)
    as ->.
  { unfold validateGitUrl, schemeHTTPS, schemeHTTP, schemeSSH, scpStylePrefix in Hurl. cbn [existsb].
    destruct (HasPrefix _ "https://"), (HasPrefix _ "http://"), (HasPrefix _ "ssh://"),
      (HasPrefix _ "git@"); done. }
  cbn [negb]. destruct (String.eqb_spec (ad_GitRef (ad_Spec addon)) "") as [He|He]; cbn [negb andb].
  2: { unfold validateGitRef in Href. destruct (_ || _); [done|].
       change (validAddonGitRef (ad_GitRef (ad_Spec addon))) with (validGitRef (ad_GitRef (ad_Spec addon))).
       destruct (validGitRef _); [|done]. cbn [negb].
       apply elem_of_cons in Hns as [->| ->%list_elem_of_singleton]; [done|].
       by rewrite String.eqb_refl, andb_false_r. }
  apply elem_of_cons in Hns as [->| ->%list_elem_of_singleton]; [done|].
  by rewrite String.eqb_refl, andb_false_r.
Qed.

(** The module list read from a sync log can be trusted, whatever the log holds: it is sorted,
    without duplicates, and every name in it is a valid module folder name (one plain directory
    name that does not start with a dot). A module can therefore never make the instance mount a
    path outside the addons volume. *)
Theorem parseSyncOutput_modules `{Unicode} logs :
  let modules := (parseSyncOutput logs).2 in
  StronglySorted String.le modules ∧ NoDup modules ∧
  ∀ m, m ∈ modules → plain_segment m ∧ has_byte "/" m = false ∧ m ∉ [""; "."; ".."].
Proof.
  assert (∀ line, let ms := parseModulesLine line in
    StronglySorted String.le ms ∧ NoDup ms ∧
    ∀ m, m ∈ ms → plain_segment m ∧ has_byte "/" m = false ∧ m ∉ [""; "."; ".."]) as Hline.
  { intros line. unfold parseModulesLine.
    assert (StronglySorted String.le [] ∧ NoDup (@nil string) ∧ ∀ m, m ∈ @nil string →
      plain_segment m ∧ has_byte "/" m = false ∧ m ∉ [""; "."; ".."]) as Hnil.
    { split_and!; [constructor|constructor|]. intros m Hm. by apply elem_of_nil in Hm. }
    destruct (CutPrefix line modulesLinePrefix) as [rest|]; [|done].
    destruct (checkModules (Split rest ",")) as [ms|] eqn:Hms; [|done].
    apply checkModules_ok in Hms as [_ Hok].
    destruct (Compact_sorted (sort_strings ms)) as (Hs & Hn & He); [apply Sorted_merge_sort, _|].
    split_and!; [done..|]. intros m Hm%He. rewrite elem_of_sort_strings in Hm.
    eapply Forall_forall in Hok; [|exact Hm]. destruct (validateModuleName m) eqn:Hv; [|done].
    apply validateModuleName_ok in Hv as [? ?]. split; [done|]. by apply plain_module_segment. }
  unfold parseSyncOutput. destruct (output_lines logs) as [|c [|l ls]]; cbn [snd].
  - apply (Hline "").
  - apply (Hline "").
  - apply Hline.
Qed.
(** *** The output of a sync that worked is read back *)
Definition word_byte (c : ascii) : bool := path_byte c || Ascii.eqb "," c.

Lemma word_byte_trim c : word_byte c = true → ascii_byte c = true ∧ space_byte c = false.
Proof. destruct c as [[] [] [] [] [] [] [] []]; by vm_compute. Qed.

Lemma all_bytes_Join p l sep :
  p sep = true → Forall (λ s, all_bytes p s = true) l → all_bytes p (Join l (str1 sep)) = true.
Proof.
  intros Hsep Hl. induction Hl as [|x l Hx Hl IH]; [done|]. destruct l as [|y l]; [done|].
  change (Join (x :: y :: l) (str1 sep)) with (x +:+ String sep (Join (y :: l) (str1 sep))).
  rewrite all_bytes_app, Hx. cbn [all_bytes]. by rewrite Hsep, IH.
Qed.

Lemma commitSHA_trim c : commitSHA c = true → TrimSpace c = c ∧ c ≠ "" ∧ has_byte nl_byte c = false.
Proof.
  unfold commitSHA. intros [Hlen Hc]%andb_true_iff. destruct c as [|a [|b c]]; [done..|].
  assert (all_bytes word_byte (String a (String b c)) = true) as Hw.
  { eapply all_bytes_impl, Hc. intros x. destruct x as [[] [] [] [] [] [] [] []]; by vm_compute. }
  split_and!; [|done|by eapply all_bytes_no_byte].
  cbn [all_bytes] in Hw. apply andb_true_iff in Hw as [Ha Hw].
  by apply (TrimSpace_word word_byte a "" (String b c) word_byte_trim).
Qed.

(** The modules a sync publishes, as it prints them. *)
Definition module_list (modules : list string) : Prop :=
  modules ≠ [] ∧ StronglySorted String.le modules ∧ NoDup modules ∧
  Forall (λ m, plain_segment m ∧ HasPrefix m "." = false) modules.

Lemma validateModuleName_plain `{Unicode} m :
  plain_segment m → HasPrefix m "." = false → is_Ok (validateModuleName m) = true.
Proof.
  intros (Hne & Hb & Hdd) Hdot. unfold validateModuleName. rewrite Hdot. unfold validatePathSegment.
  rewrite Hdd. destruct (String.eqb_spec m ""); [done|]. cbn [orb].
  assert (HasPrefix m "/" = false) as ->.
  { pose proof (all_bytes_no_byte path_byte "/" m Hb eq_refl) as Hs. destruct m as [|c m]; [done|].
    rewrite has_byte_cons in Hs. cbn [HasPrefix]. by destruct (Ascii.eqb "/" c). }
  unfold validPathSegment, matches_plus. rewrite Hb. by destruct m.
Qed.

Lemma Compact_NoDup l : NoDup l → Compact l = l.
Proof.
  induction 1 as [|x l Hx Hl IH]; [done|]. destruct l as [|y l]; [done|].
  change (Compact (x :: y :: l)) with (if String.eqb x y then Compact (y :: l) else x :: Compact (y :: l)).
  destruct (String.eqb_spec x y) as [->|]; [set_solver|]. by rewrite IH.
Qed.

Lemma parseModulesLine_ok `{Unicode} modules :
  module_list modules → parseModulesLine (modulesLinePrefix +:+ Join modules ",") = modules.
Proof.
  intros (Hne & Hs & Hn & Hf). unfold parseModulesLine.
  assert (∀ s, CutPrefix (modulesLinePrefix +:+ s) modulesLinePrefix = Some s) as ->
    by (by intros [|??]).
  change "," with (str1 ","). rewrite Split_Join; [|done|].
  2: { eapply Forall_impl; [exact Hf|]. intros m [[_ [Hb _]] _]. by eapply all_bytes_no_byte. }
  rewrite checkModules_all.
  2: { eapply Forall_impl; [exact Hf|]. intros m [? ?]. by apply validateModuleName_plain. }
  assert (sort_strings modules = modules) as ->; [|by apply Compact_NoDup].
  apply (merge_sort_sorted_id String.le). by apply StronglySorted_Sorted.
Qed.

(** C35: the report of a sync is read back exactly. Whatever text comes before, the output that
    ends in the line of the (sorted, distinct, valid) module names and the line of the commit id
    is read as that commit with those modules. *)
Theorem parseSyncOutput_report `{Unicode} before commit modules :
  commitSHA commit = true → module_list modules →
  parseSyncOutput (before +:+ nl +:+ (modulesLinePrefix +:+ Join modules ",") +:+ nl +:+
                   commit +:+ nl) = (commit, modules).
Proof.
  intros Hc Hm. destruct (commitSHA_trim commit Hc) as (Htc & Hne & Hnl).
  set (line := modulesLinePrefix +:+ Join modules ",").
  assert (all_bytes word_byte (Join modules ",") = true ∧ Join modules "," ≠ "") as [Hw Hj].
  { destruct Hm as (Hnil & _ & _ & Hf). split.
    - apply (all_bytes_Join word_byte modules ","); [done|]. eapply Forall_impl; [exact Hf|].
      intros m [(_ & Hb & _) _]. eapply all_bytes_impl, Hb. intros c Hp. unfold word_byte. by rewrite Hp.
    - destruct Hf as [|m ms [[Hmne _] _] _]; [done|]. by destruct m, ms. }
  assert (TrimSpace line = line ∧ has_byte nl_byte line = false) as [Htl Hll].
  { split; [by apply (TrimSpace_word word_byte "m" "odules: " _ word_byte_trim)|].
    subst line. rewrite has_byte_app. by rewrite (all_bytes_no_byte word_byte nl_byte _ Hw eq_refl). }
  unfold parseSyncOutput, output_lines, nl. cbn [str1 String.append].
  change (str1 nl_byte) with (String nl_byte ""). rewrite Split_app, !Split_app_sep by done.
  rewrite fmap_app, !fmap_cons, List.filter_app, reverse_app, Htl, Htc.
  change (TrimSpace <$> Split "" nl_byte) with [""]. generalize (TrimSpace <$> Split before nl_byte).
  intros ls. cbn [List.filter]. destruct (String.eqb_spec commit ""); [done|].
  change (String.eqb line "") with false. cbn. f_equal. by apply parseModulesLine_ok.
Qed.

(** *** Witnesses: an addon of a monorepository *)
#[export] Instance url_ref : UrlLib := {|
  ParseURL s := if Contains s "@" then Ok (Some (Contains s ":pw@")) else Ok None |}.

Definition sync_addon (name url ref secret : string) : OdooAddon :=
  {| ad_Meta := newMeta name "shop";
     ad_Spec := {| ad_GitUrl := url; ad_GitRef := ref;
       ad_GitSecretRef := if String.eqb secret "" then None else Some {| lsr_Name := secret |};
       ad_AddonPath := "addons"; ad_SingleAddon := false; ad_ModuleName := "sale_x";
       ad_InstanceRef := {| ref_Name := "shop"; ref_Namespace := "" |}; ad_ReadOnly := false |};
     ad_Status := {| ads_Ready := false; ads_Phase := ""; ads_ClonedCommit := "";
       ads_LastSyncTime := None; ads_Modules := []; ads_Message := ""; ads_Conditions := [] |} |}.

Definition sync_spec : syncSpec :=
  {| s_GitURL := "ssh://git@host/repo"; s_GitRef := "main"; s_AddonName := "sale-x";
     s_ModuleName := "sale_x"; s_AddonPath := "addons"; s_SingleAddon := false;
     s_SecretName := "key"; s_Auth := authSSH |}.

Lemma resolveSyncSpec_safe_witness :
  @resolveSyncSpec unicode_ref url_ref (sync_addon "sale-x" "ssh://git@host/repo" "" "key") =
    Ok sync_spec ∧ plain_segment (s_AddonName sync_spec).
Proof.
  split; [by vm_compute|].
  apply (@resolveSyncSpec_safe unicode_ref url_ref (sync_addon "sale-x" "ssh://git@host/repo" "" "key")).
  by vm_compute.
Defined.

Lemma webhook_admits_syncable_witness :
  @ValidateCreate unicode_ref (sync_addon "sale-x" "ssh://git@host/repo" "" "key") = Ok tt.
Proof.
  apply (@webhook_admits_syncable unicode_ref url_ref _ sync_spec); [by vm_compute|].
  by left.
Defined.

Definition example_sha : string := "0123456789abcdef0123456789abcdef01234567".

Lemma parseSyncOutput_report_witness :
  @parseSyncOutput unicode_ref ("cloning" +:+ nl +:+ (modulesLinePrefix +:+ Join ["a"; "sale_x"] ",") +:+
    nl +:+ example_sha +:+ nl) = (example_sha, ["a"; "sale_x"]).
Proof.
  apply (@parseSyncOutput_report unicode_ref); [by vm_compute|]. split_and!; [done| | |].
  - apply Sorted_StronglySorted; [apply _|]. repeat constructor.
  - apply NoDup_cons. split; [set_solver|apply NoDup_singleton].
  - repeat constructor; by vm_compute.
Defined.

Close Scope Z_scope.
