(* ===== verification/AddonState.v ===== *)
(** * The sync state machine of an addon (internal/controller/odooaddon_state.go)

    The pure decision from the facts of a pass (spec, sync Job, status, clock) to the next step.
    [decideAddonSync_spec] is its contract, stated per fact rather than per branch. *)
From S2P Require Export AddonSpec UpgradeController.

Open Scope Z_scope.

Inductive addonSyncAction :=
  | addonActionInvalidSpec | addonActionJobConflict | addonActionDeleteStaleJob
  | addonActionRecordSuccess | addonActionRecordFailure | addonActionAwaitJob
  | addonActionCooldown | addonActionSkipResync | addonActionCreateJob.
#[export] Instance addonSyncAction_eq_dec : EqDecision addonSyncAction.
Proof. solve_decision. Defined.

Definition addonSyncActionNames (a : addonSyncAction) : string :=
  match a with
  | addonActionInvalidSpec => "InvalidSpec"
  | addonActionJobConflict => "JobConflict"
  | addonActionDeleteStaleJob => "DeleteStaleJob"
  | addonActionRecordSuccess => "RecordSuccess"
  | addonActionRecordFailure => "RecordFailure"
  | addonActionAwaitJob => "AwaitJob"
  | addonActionCooldown => "Cooldown"
  | addonActionSkipResync => "SkipResync"
  | addonActionCreateJob => "CreateJob"
  end.

Record addonJobObservation := {
  ao_Exists : bool;
  ao_ControlledByAddon : bool;
  ao_SpecHash : string;
  ao_Succeeded : bool;
  ao_Failed : bool
}.

Record addonSyncInput := {
  ai_SpecErr : string;
  ai_SpecHash : string;
  ai_Job : addonJobObservation;
  ai_Phase : string;
  ai_LastSyncTime : option Time;
  ai_SkipResync : bool;
  ai_Now : Time
}.

Record addonSyncDecision := {
  de_Action : addonSyncAction;
  de_Phase : string;
  de_Message : string;
  de_DeleteJob : bool;
  de_Requeue : Z
}.

Definition decision (a : addonSyncAction) (phase msg : string) (del : bool) (after : Z)
    : addonSyncDecision :=
  {| de_Action := a; de_Phase := phase; de_Message := msg; de_DeleteJob := del; de_Requeue := after |}.

Definition syncingPhaseFor (current : string) : string :=
  if String.eqb current phaseSynced then "" else phaseSyncing.

(** The interval between two syncs of an addon in this phase. *)
Definition syncInterval (phase : string) : Z :=
  if String.eqb phase phaseFailed then failureBackoff else resyncInterval.

(** The part of [decideAddonSync] for an addon without a Job, after the cooldown. *)
Definition decideIdle (inp : addonSyncInput) : addonSyncDecision :=
  if ai_SkipResync inp then decision addonActionSkipResync "" "" false resyncInterval
  else decision addonActionCreateJob (syncingPhaseFor (ai_Phase inp)) "" false addonCreateRequeue.

Definition decideAddonSync (inp : addonSyncInput) : addonSyncDecision :=
  let job := ai_Job inp in
  if negb (String.eqb (ai_SpecErr inp) "") then
    decision addonActionInvalidSpec phaseFailed (ai_SpecErr inp)
      (ao_Exists job && ao_ControlledByAddon job) failureBackoff
  else if ao_Exists job then
    if negb (ao_ControlledByAddon job) then
      decision addonActionJobConflict phaseFailed addonMsgJobConflict false failureBackoff
    else if negb (String.eqb (ao_SpecHash job) (ai_SpecHash inp)) then
      decision addonActionDeleteStaleJob "" "" true addonStaleJobRequeue
    else if ao_Succeeded job then decision addonActionRecordSuccess phaseSynced "" true resyncInterval
    else if ao_Failed job then decision addonActionRecordFailure phaseFailed "" true failureBackoff
    else decision addonActionAwaitJob (syncingPhaseFor (ai_Phase inp)) "" false addonAwaitRequeue
  else
    match ai_LastSyncTime inp with
    | Some last =>
        let elapsed := time_Sub (ai_Now inp) last in
        if elapsed <? syncInterval (ai_Phase inp)
        then decision addonActionCooldown "" "" false (wrap64 (syncInterval (ai_Phase inp) - elapsed))
        else decideIdle inp
    | None => decideIdle inp
    end.

(** [annotationSyncSpecHash] *)
Definition annotationSyncSpecHash : string := "odoo.operator.io/sync-spec-hash".

Definition observeSyncJob `{KubeLib} (job : option Job) (addon : OdooAddon) : addonJobObservation :=
  match job with
  | None => {| ao_Exists := false; ao_ControlledByAddon := false; ao_SpecHash := "";
               ao_Succeeded := false; ao_Failed := false |}
  | Some j =>
      {| ao_Exists := true;
         ao_ControlledByAddon := IsControlledBy (job_Meta j) (ad_Meta addon);
         ao_SpecHash := map_get (m_Annotations (job_Meta j)) annotationSyncSpecHash;
         ao_Succeeded := (0 <? jst_Succeeded (job_Status j)) || upgradeHasCondition j JobComplete;
         ao_Failed := upgradeHasCondition j JobFailed |}
  end.

(** ** The contract *)

(** The Job is the addon's, for its current spec. *)
Definition own_job (inp : addonSyncInput) : Prop :=
  ao_Exists (ai_Job inp) = true ∧ ao_ControlledByAddon (ai_Job inp) = true ∧
  ao_SpecHash (ai_Job inp) = ai_SpecHash inp.

(** A sync may start now: never synced, or long enough ago. *)
Definition sync_due (inp : addonSyncInput) : Prop :=
  ∀ last, ai_LastSyncTime inp = Some last →
    syncInterval (ai_Phase inp) ≤ time_Sub (ai_Now inp) last.

Lemma syncInterval_range phase : failureBackoff ≤ syncInterval phase ≤ resyncInterval.
Proof.
  unfold syncInterval, failureBackoff, resyncInterval, Minute, Second.
  destruct (String.eqb phase phaseFailed); lia.
Qed.

(** Settles a fully reduced branch of [decideAddonSync]. *)
Ltac branch :=
  cbn; unfold sync_due in *; split_and!; intros; try discriminate; try done; try congruence;
  repeat match goal with
  | H : ?x = ?x → _ |- _ => specialize (H eq_refl)
  end; try tauto; try naive_solver.

(** The contract, branch by branch. *)
Definition sync_contract (inp : addonSyncInput) (d : addonSyncDecision) : Prop :=
  (de_Action d = addonActionRecordSuccess ↔
     ai_SpecErr inp = "" ∧ own_job inp ∧ ao_Succeeded (ai_Job inp) = true) ∧
  (de_Action d = addonActionRecordFailure ↔
     ai_SpecErr inp = "" ∧ own_job inp ∧ ao_Succeeded (ai_Job inp) = false ∧
     ao_Failed (ai_Job inp) = true) ∧
  (de_Action d = addonActionCreateJob ↔
     ai_SpecErr inp = "" ∧ ao_Exists (ai_Job inp) = false ∧ sync_due inp ∧
     ai_SkipResync inp = false) ∧
  (de_DeleteJob d = true → ao_Exists (ai_Job inp) = true ∧ ao_ControlledByAddon (ai_Job inp) = true) ∧
  (de_Phase d = phaseSynced ↔ de_Action d = addonActionRecordSuccess) ∧
  (de_Phase d = phaseSyncing → ai_Phase inp ≠ phaseSynced) ∧
  (de_Phase d = phaseFailed →
     ai_SpecErr inp ≠ "" ∨ ao_ControlledByAddon (ai_Job inp) = false ∨ ao_Failed (ai_Job inp) = true).

Lemma decideAddonSync_contract inp : sync_contract inp (decideAddonSync inp).
Proof.
  unfold sync_contract, decideAddonSync, own_job, syncingPhaseFor.
  destruct (String.eqb_spec (ai_SpecErr inp) "") as [He|He]; cbn [negb].
  2: { destruct (ao_Exists _), (ao_ControlledByAddon _); branch. }
  destruct (ao_Exists (ai_Job inp)) eqn:Hex.
  - destruct (ao_ControlledByAddon (ai_Job inp)) eqn:Hc; cbn [negb]; [|branch].
    destruct (String.eqb_spec (ao_SpecHash (ai_Job inp)) (ai_SpecHash inp)) as [Hh|Hh]; cbn [negb];
      [|branch].
    destruct (ao_Succeeded (ai_Job inp)) eqn:Hs; [branch|].
    destruct (ao_Failed (ai_Job inp)) eqn:Hf; [branch|].
    destruct (String.eqb_spec (ai_Phase inp) phaseSynced); branch.
  - unfold decideIdle, syncingPhaseFor, sync_due.
    destruct (ai_LastSyncTime inp) as [last|]; [destruct (Z.ltb_spec (time_Sub (ai_Now inp) last)
      (syncInterval (ai_Phase inp))) as [Hlt|Hge]|].
    + cbn. split_and!; try naive_solver. split; [done|]. intros (_ & _ & Hdue & _).
      specialize (Hdue last eq_refl). lia.
    + destruct (ai_SkipResync inp); [branch|].
      destruct (String.eqb_spec (ai_Phase inp) phaseSynced); cbn; split_and!; naive_solver.
    + destruct (ai_SkipResync inp); [branch|].
      destruct (String.eqb_spec (ai_Phase inp) phaseSynced); cbn; split_and!; naive_solver.
Qed.

Lemma decideAddonSync_stale inp :
  de_Action (decideAddonSync inp) = addonActionDeleteStaleJob → de_DeleteJob (decideAddonSync inp) = true.
Proof. unfold decideAddonSync, decideIdle. cbn zeta. split_cases. Qed.

Lemma decideAddonSync_phase inp :
  let d := decideAddonSync inp in
  de_Action d ∈ [addonActionAwaitJob; addonActionCooldown; addonActionSkipResync; addonActionCreateJob] →
  de_Phase d ∈ [""; phaseSyncing].
Proof.
  unfold decideAddonSync, decideIdle, syncingPhaseFor. cbn zeta. split_cases; cbn; set_solver.
Qed.

(** The contract of the sync decision. A result is recorded only from a Job that the addon
    owns and that was built from its current spec, success before failure; an addon never counts
    as synced by another's or an outdated Job. A new Job is asked for only with a valid spec, with
    no Job of that name, once the cooldown since the last sync is over, and not for a pinned
    commit that is already synced. A Job is asked to be deleted only when the addon owns it. An
    addon that is already synced keeps its phase during a resync, and only an error or an owned
    failed Job gives the phase Failed. *)
Theorem decideAddonSync_spec inp :
  let d := decideAddonSync inp in
  (de_Action d = addonActionRecordSuccess ↔
     ai_SpecErr inp = "" ∧ own_job inp ∧ ao_Succeeded (ai_Job inp) = true) ∧
  (de_Action d = addonActionRecordFailure ↔
     ai_SpecErr inp = "" ∧ own_job inp ∧ ao_Succeeded (ai_Job inp) = false ∧
     ao_Failed (ai_Job inp) = true) ∧
  (de_Action d = addonActionCreateJob ↔
     ai_SpecErr inp = "" ∧ ao_Exists (ai_Job inp) = false ∧ sync_due inp ∧
     ai_SkipResync inp = false) ∧
  (de_DeleteJob d = true → ao_Exists (ai_Job inp) = true ∧ ao_ControlledByAddon (ai_Job inp) = true) ∧
  (de_Phase d = phaseSynced ↔ de_Action d = addonActionRecordSuccess) ∧
  (de_Phase d = phaseSyncing → ai_Phase inp ≠ phaseSynced) ∧
  (de_Phase d = phaseFailed →
     ai_SpecErr inp ≠ "" ∨ ao_ControlledByAddon (ai_Job inp) = false ∨ ao_Failed (ai_Job inp) = true).
Proof. apply decideAddonSync_contract. Qed.

(** How far in the future of a pass the last sync may lie: some 292 years. *)
Definition farthest : Z := int64_max - resyncInterval.

(** C36: the sync loop never stops and never spins. As long as the last sync, if there was one, does not
    lie more than 292 years in the future of the pass ([farthest]), every decision asks for another pass
    after a positive time: the difference of the interval and the elapsed time, which saturates, does
    not wrap around. When the last sync does not lie in the future at all, that time is at most the
    resync interval. *)
Theorem decideAddonSync_requeue inp :
  (∀ last, ai_LastSyncTime inp = Some last → last - ai_Now inp ≤ farthest) →
  0 < de_Requeue (decideAddonSync inp) ∧
  ((∀ last, ai_LastSyncTime inp = Some last → last ≤ ai_Now inp) →
   de_Requeue (decideAddonSync inp) ≤ resyncInterval).
Proof.
  intros Hfar. unfold decideAddonSync, decideIdle.
  assert (0 < failureBackoff ≤ resyncInterval ∧ 0 < addonStaleJobRequeue ≤ resyncInterval ∧
    0 < addonAwaitRequeue ≤ resyncInterval ∧ 0 < addonCreateRequeue ≤ resyncInterval ∧
    0 < resyncInterval ≤ resyncInterval) as (? & ? & ? & ? & ?).
  { unfold failureBackoff, resyncInterval, addonStaleJobRequeue, addonAwaitRequeue,
      addonCreateRequeue, Minute, Second. lia. }
  pose proof (syncInterval_range (ai_Phase inp)) as Hr.
  destruct (negb (String.eqb (ai_SpecErr inp) "")); [done|].
  destruct (ao_Exists (ai_Job inp)); [split_cases|].
  destruct (ai_LastSyncTime inp) as [t|]; [|by destruct (ai_SkipResync inp)].
  destruct (Z.ltb_spec (time_Sub (ai_Now inp) t) (syncInterval (ai_Phase inp)));
    [|by destruct (ai_SkipResync inp)].
  specialize (Hfar t eq_refl). cbn [de_Requeue decision]. revert Hr Hfar.
  unfold farthest, time_Sub, failureBackoff, resyncInterval, Minute, Second, int64_min, int64_max in *.
  intros Hr Hfar. rewrite wrap64_small; [|unfold in_int64, int64_min, int64_max; lia].
  split; [lia|]. intros Hpast. specialize (Hpast t eq_refl). lia.
Qed.

Definition example_input : addonSyncInput :=
  {| ai_SpecErr := ""; ai_SpecHash := "h";
     ai_Job := {| ao_Exists := false; ao_ControlledByAddon := false; ao_SpecHash := "";
                  ao_Succeeded := false; ao_Failed := false |};
     ai_Phase := phaseFailed; ai_LastSyncTime := Some 1000; ai_SkipResync := false; ai_Now := 3000 |}.

Lemma decideAddonSync_requeue_witness :
  de_Action (decideAddonSync example_input) = addonActionCooldown ∧
  0 < de_Requeue (decideAddonSync example_input) ≤ resyncInterval.
Proof.
  split; [by vm_compute|].
  destruct (decideAddonSync_requeue example_input) as [Hpos Hle]; [by intros last [= <-]|].
  split; [exact Hpos|]. apply Hle. by intros last [= <-].
Defined.

(** A last sync that lies farther in the future makes the time negative: no pass is asked for. *)
Definition far_input : addonSyncInput :=
  {| ai_SpecErr := ""; ai_SpecHash := "h"; ai_Job := ai_Job example_input; ai_Phase := phaseFailed;
     ai_LastSyncTime := Some (int64_max + 1); ai_SkipResync := false; ai_Now := 0 |}.
Example far_requeue : de_Requeue (decideAddonSync far_input) < 0.
Proof. by vm_compute. Qed.

Close Scope Z_scope.
