(* ===== verification/AddonJob.v ===== *)
(** * The Jobs of an addon (internal/controller/odooaddon_sync.go, second half)

    The shell scripts of the sync and cleanup Jobs, and the Jobs that run them. *)
From S2P Require Export AddonState.

Open Scope Z_scope.

Definition defaultGitUser : string := "x-access-token".
Definition syncJobSuffix : string := "-sync".
Definition cleanupJobSuffix : string := "-cleanup".
Definition syncContainerName : string := "sync".
Definition syncBackoffLimit : Z := 1.
Definition syncTTLSeconds : Z := 300.
Definition syncActiveDeadlineSeconds : Z := 180.
Definition syncUID : Z := 65532.
Definition syncRepoDir : string := "/tmp/repo".
Definition syncReleasesDir : string := ".releases".
Definition syncManifest : string := "__manifest__.py".
Definition syncModulesFile : string := ".modules".
Definition volumeScratch : string := "scratch".
Definition scratchMount : string := "/tmp".
Definition syncModulesScratch : string := scratchMount +:+ "/modules.list".
Definition syncPrevScratch : string := scratchMount +:+ "/modules.prev".
Definition gitSecretMountPath : string := "/etc/git-secret".
Definition gitSecretVolume : string := "git-secret".
Definition gitSecretSSHKeyFile : string := "ssh-privatekey".
Definition gitSecretKnownHosts : string := "known_hosts".
Definition gitSecretTokenKey : string := "token".
Definition gitSecretUserKey : string := "username".
Definition gitSSHSecretMode : Z := 288.
Definition envGitURL : string := "GIT_URL".
Definition envGitRef : string := "GIT_REF".
Definition envGitToken : string := "GIT_TOKEN".
Definition envGitUsername : string := "GIT_USERNAME".
Definition envGitSSHCommand : string := "GIT_SSH_COMMAND".
Definition envHome : string := "HOME".
Definition labelAddonOwner : string := "odoo.operator.io/addon".

(** ** The sync script

    [raw] text has a backquote for each double quote of the Go literal. *)
Definition sync_gitCmd (s : syncSpec) : string :=
  match s_Auth s with
  | authHTTPSToken => raw "git -c `http.extraHeader=Authorization: Basic $AUTH`"
  | _ => "git"
  end.

Definition sync_authSetup (s : syncSpec) : string :=
  match s_Auth s with
  | authHTTPSToken =>
      raw "GIT_USERNAME=`${" +:+ envGitUsername +:+ ":-" +:+ defaultGitUser +:+ raw "}`" +:+ nl +:+
      raw "AUTH=$(printf '%s:%s' `$GIT_USERNAME` `$GIT_TOKEN` | base64 | tr -d '\n')" +:+ nl
  | _ => ""
  end.

Definition sync_fetch (s : syncSpec) : string :=
  if isCommitSHA (s_GitRef s) then
    "git init " +:+ syncRepoDir +:+ nl +:+
    "git -C " +:+ syncRepoDir +:+ raw " remote add origin `$GIT_URL`" +:+ nl +:+
    sync_gitCmd s +:+ " -C " +:+ syncRepoDir +:+ raw " fetch --depth 1 origin `$GIT_REF`" +:+ nl +:+
    "git -C " +:+ syncRepoDir +:+ " checkout --detach FETCH_HEAD" +:+ nl
  else
    sync_gitCmd s +:+ raw " clone --depth 1 --branch `$GIT_REF` `$GIT_URL` " +:+ syncRepoDir +:+ nl.

Definition publishFn : string := raw
"publish() {
  name=$1
  src=$2
  if [ ! -d `$REL/$name` ]; then
    rm -rf `$REL/.$name.partial`
    cp -a `$src` `$REL/.$name.partial`
    rm -rf `$REL/.$name.partial/.git`
    mv `$REL/.$name.partial` `$REL/$name`
  fi
  target=`$ADDONS/$name`
  if [ -d `$target` ] && [ ! -L `$target` ]; then
    rm -rf `$target`
  fi
  ln -sfn `$REL/$name` `$ADDONS/.$name.tmp`
  mv -T `$ADDONS/.$name.tmp` `$target`
}
".

Definition sync_src (s : syncSpec) : string :=
  if negb (s_SingleAddon s) && negb (String.eqb (s_AddonPath s) "")
  then syncRepoDir +:+ "/" +:+ s_AddonPath s else syncRepoDir.

Definition sync_discover (s : syncSpec) : string :=
  if s_SingleAddon s then
    "printf '%s\n' " +:+ shQuote (s_ModuleName s) +:+ raw " > `$MODLIST`" +:+ nl
  else
    "for mod in " +:+ sync_src s +:+ "/*/; do" +:+ nl +:+
    raw "  if [ -f `$mod/" +:+ syncManifest +:+ raw "` ]; then" +:+ nl +:+
    raw "    basename `$mod` >> `$MODLIST`" +:+ nl +:+
    "  fi" +:+ nl +:+ "done" +:+ nl +:+
    raw "[ -s `$MODLIST` ] || { echo `no Odoo modules found in " +:+ sync_src s +:+
    raw "` >&2; exit 1; }" +:+ nl.

Definition sync_publishCalls (s : syncSpec) : string :=
  if s_SingleAddon s then
    "publish " +:+ shQuote (s_ModuleName s) +:+ " " +:+ syncRepoDir +:+ nl
  else
    "while IFS= read -r name; do" +:+ nl +:+
    raw "  publish `$name` `" +:+ sync_src s +:+ raw "/$name`" +:+ nl +:+
    raw "done < `$MODLIST`" +:+ nl.

Definition conflictCheck : string := raw
"while IFS= read -r name; do
  target=`$ADDONS/$name`
  if [ -L `$target` ]; then
    dest=$(readlink `$target`)
    case `$dest` in
      `$ADDONS/.releases/`*)
        case `$dest` in
          `$RELROOT/`*) ;;
          *)
            other=${dest#`$ADDONS/.releases/`}
            other=${other%%/*}
            echo `module $name is already provided by addon $other` >&2
            exit 1
            ;;
        esac
        ;;
    esac
  fi
done < `$MODLIST`
".

Definition staleRemoval : string := raw
"while IFS= read -r old; do
  [ -n `$old` ] || continue
  if grep -qxF `$old` `$MODLIST`; then continue; fi
  target=`$ADDONS/$old`
  if [ -L `$target` ]; then
    case `$(readlink `$target`)` in
      `$RELROOT/`*) rm -f `$target` ;;
    esac
  fi
done < `$PREV`
".

Definition sync_manifestCheck (s : syncSpec) : string :=
  if s_SingleAddon s then
    "[ -f " +:+ syncRepoDir +:+ "/" +:+ syncManifest +:+ raw " ] || { echo `no " +:+ syncManifest +:+
    " at the repository root of " +:+ s_ModuleName s +:+ raw "` >&2; exit 1; }" +:+ nl
  else "".

Definition addon_relroot (addonName : string) : string :=
  shQuote (addonsMountPath +:+ "/" +:+ syncReleasesDir +:+ "/" +:+ addonName).

Definition buildSyncScript (s : syncSpec) : string :=
  "set -e" +:+ nl +:+
  "set +x" +:+ nl +:+
  "export GIT_TERMINAL_PROMPT=0" +:+ nl +:+
  sync_authSetup s +:+
  sync_fetch s +:+
  sync_manifestCheck s +:+
  "SHA=$(git -C " +:+ syncRepoDir +:+ " rev-parse HEAD)" +:+ nl +:+
  "ADDONS=" +:+ addonsMountPath +:+ nl +:+
  "RELROOT=" +:+ addon_relroot (s_AddonName s) +:+ nl +:+
  raw "REL=`$RELROOT/$SHA`" +:+ nl +:+
  "MODLIST=" +:+ syncModulesScratch +:+ nl +:+
  "PREV=" +:+ syncPrevScratch +:+ nl +:+
  raw ": > `$MODLIST`" +:+ nl +:+
  sync_discover s +:+
  raw "sort -u `$MODLIST` -o `$MODLIST`" +:+ nl +:+
  conflictCheck +:+
  raw "if [ -f `$RELROOT/" +:+ syncModulesFile +:+ raw "` ]; then cp `$RELROOT/" +:+ syncModulesFile +:+
  raw "` `$PREV`; else : > `$PREV`; fi" +:+ nl +:+
  raw "mkdir -p `$REL`" +:+ nl +:+
  publishFn +:+
  sync_publishCalls s +:+
  raw "touch `$REL`" +:+ nl +:+
  staleRemoval +:+
  raw "cp `$MODLIST` `$RELROOT/" +:+ syncModulesFile +:+ raw ".tmp`" +:+ nl +:+
  raw "mv `$RELROOT/" +:+ syncModulesFile +:+ raw ".tmp` `$RELROOT/" +:+ syncModulesFile +:+ raw "`" +:+ nl +:+
  raw "ls -1t `$RELROOT` | tail -n +3 | while IFS= read -r old; do rm -rf `$RELROOT/$old`; done" +:+ nl +:+
  raw "printf 'modules: %s\n' `$(paste -sd, `$MODLIST`)`" +:+ nl +:+
  "git -C " +:+ syncRepoDir +:+ " rev-parse HEAD" +:+ nl.

Definition buildCleanupScript (addonName : string) : string :=
  "set -e" +:+ nl +:+
  "set +x" +:+ nl +:+
  "ADDONS=" +:+ addonsMountPath +:+ nl +:+
  "RELROOT=" +:+ addon_relroot addonName +:+ nl +:+
  raw "if [ -d `$ADDONS` ]; then" +:+ nl +:+
  raw "  find `$ADDONS` -mindepth 1 -maxdepth 1 -type l | while IFS= read -r link; do" +:+ nl +:+
  raw "    case `$(readlink `$link`)` in" +:+ nl +:+
  raw "      `$RELROOT/`*) rm -f `$link` ;;" +:+ nl +:+
  "    esac" +:+ nl +:+
  "  done" +:+ nl +:+
  "fi" +:+ nl +:+
  raw "rm -rf `$RELROOT`" +:+ nl.

(** ** The Jobs *)
Record syncJobOptions := {
  jo_Image : string;
  jo_PVCName : string;
  jo_NodeName : string;
  jo_AddonsAccessMode : string
}.

Definition syncJobName (addonName : string) : string := addonName +:+ syncJobSuffix.
Definition cleanupJobName (addonName : string) : string := addonName +:+ cleanupJobSuffix.

Record jobWiring := { jw_env : list EnvVar; jw_volumes : list Volume; jw_mounts : list VolumeMount }.

Definition sshCommand : string :=
  "ssh -i " +:+ gitSecretMountPath +:+ "/" +:+ gitSecretSSHKeyFile +:+
  " -o UserKnownHostsFile=" +:+ gitSecretMountPath +:+ "/" +:+ gitSecretKnownHosts +:+
  " -o StrictHostKeyChecking=yes -o IdentitiesOnly=yes".

Definition secretEnvSource (name key : string) (optional : bool) : SecretKeySelector :=
  {| sk_Name := name; sk_Key := key; sk_Optional := Some optional |}.

Definition envSource (name : string) (source : SecretKeySelector) : EnvVar :=
  {| ev_Name := name; ev_Value := ""; ev_ValueFrom := Some source |}.

(** The wiring [buildSyncJob] puts together for the authentication mode. *)
Definition syncWiring (spec : syncSpec) : jobWiring :=
  let env := [envValue envGitURL (s_GitURL spec); envValue envGitRef (s_GitRef spec)] in
  match s_Auth spec with
  | authNone => {| jw_env := env; jw_volumes := []; jw_mounts := [] |}
  | authHTTPSToken =>
      {| jw_env := env ++
           [envSource envGitToken (secretEnvSource (s_SecretName spec) gitSecretTokenKey false);
            envSource envGitUsername (secretEnvSource (s_SecretName spec) gitSecretUserKey true)];
         jw_volumes := []; jw_mounts := [] |}
  | authSSH =>
      {| jw_env := env ++ [envValue envGitSSHCommand sshCommand];
         jw_volumes := [ {| vol_Name := gitSecretVolume;
                            vol_Source := VSecret (s_SecretName spec) (Some gitSSHSecretMode) |} ];
         jw_mounts := [readOnlyMount gitSecretVolume gitSecretMountPath] |}
  end.

Section AddonJob.
Context `{KubeLib}.

Definition addonContainer (image script : string) (wiring : jobWiring) : Container :=
  {| ct_Name := syncContainerName; ct_Image := image; ct_Command := ["sh"; "-c"; script];
     ct_Args := []; ct_Ports := [];
     ct_Env := envValue envHome scratchMount :: jw_env wiring;
     ct_Resources :=
       {| rr_Requests := Some (list_to_map [(ResourceCPU, MustParse "50m");
                                            (ResourceMemory, MustParse "64Mi")]);
          rr_Limits := Some (list_to_map [(ResourceCPU, MustParse "500m");
                                          (ResourceMemory, MustParse "256Mi")]) |};
     ct_VolumeMounts := [mount volumeAddons addonsMountPath; mount volumeScratch scratchMount] ++
                        jw_mounts wiring;
     ct_StartupProbe := None; ct_ReadinessProbe := None; ct_LivenessProbe := None;
     ct_SecurityContext :=
       Some {| sc_AllowPrivilegeEscalation := Some false; sc_ReadOnlyRootFilesystem := Some true;
               sc_RunAsNonRoot := None; sc_CapabilitiesDrop := ["ALL"] |};
     ct_TerminationMessagePath := ""; ct_TerminationMessagePolicy := "" |}.

Definition buildAddonJob (addon : OdooAddon) (jobName : string) (annotations : gmap string string)
    (script : string) (wiring : jobWiring) (opts : syncJobOptions) : Job :=
  let owner := {[labelAddonOwner := m_Name (ad_Meta addon)]} in
  let podSpec :=
    {| ps_InitContainers := [];
       ps_Containers := [addonContainer (jo_Image opts) script wiring];
       ps_Volumes :=
         [ {| vol_Name := volumeAddons; vol_Source := VClaim (jo_PVCName opts) false |};
           {| vol_Name := volumeScratch; vol_Source := VEmptyDir "" None |} ] ++ jw_volumes wiring;
       ps_RestartPolicy := RestartPolicyNever;
       ps_AutomountServiceAccountToken := Some false;
       ps_TerminationGracePeriodSeconds := None; ps_DNSPolicy := ""; ps_SchedulerName := "";
       ps_SecurityContext :=
         Some {| psc_RunAsNonRoot := Some true; psc_RunAsUser := Some syncUID;
                 psc_RunAsGroup := Some syncUID; psc_FSGroup := Some syncUID;
                 psc_SeccompProfile := SeccompProfileTypeRuntimeDefault |};
       ps_Affinity := None;
       ps_NodeSelector :=
         if negb (String.eqb (jo_NodeName opts) "") &&
            negb (String.eqb (jo_AddonsAccessMode opts) ReadWriteMany)
         then {["kubernetes.io/hostname" := jo_NodeName opts]} else ∅ |} in
  {| job_Meta := with_labels (<[labelManagedBy := managedByOperator]> owner) annotations
                   (newMeta jobName (m_Namespace (ad_Meta addon)));
     job_Spec :=
       {| js_BackoffLimit := Some syncBackoffLimit;
          js_ActiveDeadlineSeconds := Some syncActiveDeadlineSeconds;
          js_TTLSecondsAfterFinished := Some syncTTLSeconds;
          js_Template := {| pt_Labels := owner; pt_Annotations := ∅; pt_Spec := podSpec |} |};
     job_Status := noJobStatus |}.

Definition buildSyncJob (addon : OdooAddon) (spec : syncSpec) (opts : syncJobOptions) : Job :=
  buildAddonJob addon (syncJobName (m_Name (ad_Meta addon)))
    {[annotationSyncSpecHash := syncSpecHash spec]} (buildSyncScript spec) (syncWiring spec) opts.

Definition buildCleanupJob (addon : OdooAddon) (opts : syncJobOptions) : Job :=
  buildAddonJob addon (cleanupJobName (m_Name (ad_Meta addon))) ∅
    (buildCleanupScript (m_Name (ad_Meta addon)))
    {| jw_env := []; jw_volumes := []; jw_mounts := [] |} opts.
End AddonJob.

(** ** Properties *)

(** The release store of an addon as the scripts name it: one shell word, not quoted. *)
Lemma addon_relroot_plain name :
  plain_segment name → addon_relroot name = addonsMountPath +:+ "/" +:+ syncReleasesDir +:+ "/" +:+ name.
Proof.
  intros (Hne & Hb & _). unfold addon_relroot, shQuote, shSafe, matches_plus.
  rewrite !all_bytes_app, (all_bytes_impl path_byte sh_path_byte name).
  - done.
  - intros c Hc. unfold path_byte, sh_path_byte in *. rewrite orb_true_iff in *.
    destruct Hc as [?|Hc]; [by left|right]. revert Hc. rewrite !has_byte_cons, !orb_true_iff. naive_solver.
  - done.
Qed.

(** C37: no secret and no unchecked text reaches a sync script. The script depends on the spec only
    through the authentication mode, whether the ref is a commit id, the single-module switch and
    the three path segments: two specs that agree on those have the same script, so neither the
    URL, the ref nor the Secret's name is ever part of its text. With the checks of
    [resolveSyncSpec] the path segments stay plain words: the release store is an unquoted path. *)
Theorem buildSyncScript_inputs `{Unicode} `{UrlLib} addon s s' :
  resolveSyncSpec addon = Ok s →
  s_Auth s' = s_Auth s → isCommitSHA (s_GitRef s') = isCommitSHA (s_GitRef s) →
  s_AddonName s' = s_AddonName s → s_ModuleName s' = s_ModuleName s →
  s_AddonPath s' = s_AddonPath s → s_SingleAddon s' = s_SingleAddon s →
  buildSyncScript s' = buildSyncScript s ∧
  addon_relroot (s_AddonName s) =
    addonsMountPath +:+ "/" +:+ syncReleasesDir +:+ "/" +:+ m_Name (ad_Meta addon).
Proof.
  intros Hr Hauth Href Hname Hmod Hpath Hsingle. split.
  - unfold buildSyncScript, sync_authSetup, sync_fetch, sync_gitCmd, sync_manifestCheck, sync_discover,
      sync_publishCalls, sync_src. by rewrite Hauth, Href, Hname, Hmod, Hpath, Hsingle.
  - unfold resolveSyncSpec in Hr.
    apply res_bind_Ok in Hr as (u1 & _ & (u2 & _ & (u3 & Hn%wrapErr_ok & (u4 & _ & (u5 & _ &
      (auth & _ & [= <-])%res_bind_Ok)%res_bind_Ok)%res_bind_Ok)%res_bind_Ok)%res_bind_Ok).
    apply validatePathSegment_ok in Hn as [Hn _]. by apply addon_relroot_plain.
Qed.

Lemma buildSyncScript_inputs_witness :
  buildSyncScript {| s_GitURL := "ssh://git@other/repo"; s_GitRef := "v2"; s_AddonName := "sale-x";
     s_ModuleName := "sale_x"; s_AddonPath := "addons"; s_SingleAddon := false;
     s_SecretName := "other"; s_Auth := authSSH |} = buildSyncScript sync_spec ∧
  addon_relroot "sale-x" = "/mnt/odoo/addons/.releases/sale-x".
Proof.
  apply (@buildSyncScript_inputs unicode_ref url_ref
    (sync_addon "sale-x" "ssh://git@host/repo" "" "key") sync_spec); by vm_compute.
Defined.

(** The credentials of an addon stay in its Secret. Whatever the spec, the sync Job has the
    Secret's contents only as a reference: no environment variable with a literal value other than
    the home directory, the URL, the ref and the fixed ssh command, and every variable or volume
    that reads a Secret names the Secret of the spec. The Job carries the hash of the spec it was
    built from, so the reconciler recognises it. *)
Theorem buildSyncJob_wiring `{KubeLib} addon spec opts :
  let job := buildSyncJob addon spec opts in
  let ps := pt_Spec (js_Template (job_Spec job)) in
  (∀ c e, c ∈ ps_Containers ps → e ∈ ct_Env c →
     (ev_ValueFrom e = None ∧
      ev_Value e ∈ [scratchMount; s_GitURL spec; s_GitRef spec; sshCommand]) ∨
     (∃ k o, ev_ValueFrom e = Some {| sk_Name := s_SecretName spec; sk_Key := k; sk_Optional := o |} ∧
        s_Auth spec = authHTTPSToken)) ∧
  (∀ v name mode, v ∈ ps_Volumes ps → vol_Source v = VSecret name mode →
     name = s_SecretName spec ∧ s_Auth spec = authSSH) ∧
  ao_SpecHash (observeSyncJob (Some job) addon) = syncSpecHash spec ∧
  pod_hardened ps = true.
Proof.
  intros job ps.
  assert (ps_Containers ps = [addonContainer (jo_Image opts) (buildSyncScript spec) (syncWiring spec)] ∧
    ps_Volumes ps = [ {| vol_Name := volumeAddons; vol_Source := VClaim (jo_PVCName opts) false |};
      {| vol_Name := volumeScratch; vol_Source := VEmptyDir "" None |} ] ++ jw_volumes (syncWiring spec))
    as [Hcs Hvs] by done.
  split_and!.
  - rewrite Hcs. intros c e [->|Hc]%elem_of_cons He; [|by apply elem_of_nil in Hc]. revert He. cbn [addonContainer ct_Env].
    unfold syncWiring. destruct (s_Auth spec); cbn; rewrite ?elem_of_cons, ?elem_of_nil;
      intros Hin; destruct_or?; subst; try done; cbn;
      first [left; split; [done|by auto 10]
            | right; unfold secretEnvSource; eexists _, _; split; reflexivity].
  - rewrite Hvs. intros v name mode Hv. unfold syncWiring in Hv.
    destruct (s_Auth spec); cbn in Hv; rewrite ?elem_of_cons, ?elem_of_nil in Hv;
      destruct_or?; subst; try done; by intros [= <- <-].
  - change (map_get {[annotationSyncSpecHash := syncSpecHash spec]} annotationSyncSpecHash =
            syncSpecHash spec).
    unfold map_get. by rewrite lookup_singleton_eq.
  - unfold pod_hardened, container_hardened, mounts_volumes. rewrite Hcs, Hvs. unfold syncWiring.
    clear. by destruct (s_Auth spec).
Qed.

Close Scope Z_scope.
