(* ===== verification/AddonController.v ===== *)
(** * The addon controller (internal/controller/odooaddon_controller.go)

    One pass of the OdooAddon reconciler as a program of API calls: the sync state machine, the
    status writes, and the deletion steps behind the finalizer. *)
From S2P Require Export AddonJob Status.

Open Scope Z_scope.

Definition ad_with_meta (m : ObjectMeta) (a : OdooAddon) : OdooAddon :=
  {| ad_Meta := m; ad_Spec := ad_Spec a; ad_Status := ad_Status a |}.
Definition ad_with_status (st : OdooAddonStatus) (a : OdooAddon) : OdooAddon :=
  {| ad_Meta := ad_Meta a; ad_Spec := ad_Spec a; ad_Status := st |}.

(** ** Assignments to status fields (the mutate closures) *)
Definition ads_synced (commit : string) (modules : list string) (now : Time) (s : OdooAddonStatus)
    : OdooAddonStatus :=
  {| ads_Ready := true; ads_Phase := phaseSynced; ads_ClonedCommit := commit;
     ads_LastSyncTime := Some now; ads_Modules := modules; ads_Message := "";
     ads_Conditions := ads_Conditions s |}.
Definition ads_failed (msg : string) (last : option Time) (s : OdooAddonStatus) : OdooAddonStatus :=
  {| ads_Ready := false; ads_Phase := phaseFailed; ads_ClonedCommit := ads_ClonedCommit s;
     ads_LastSyncTime := last; ads_Modules := ads_Modules s; ads_Message := msg;
     ads_Conditions := ads_Conditions s |}.
Definition ads_pending (s : OdooAddonStatus) : OdooAddonStatus :=
  {| ads_Ready := false; ads_Phase := phasePending; ads_ClonedCommit := ads_ClonedCommit s;
     ads_LastSyncTime := ads_LastSyncTime s; ads_Modules := ads_Modules s;
     ads_Message := ads_Message s; ads_Conditions := ads_Conditions s |}.
Definition ads_set_phase (phase : string) (s : OdooAddonStatus) : OdooAddonStatus :=
  if String.eqb phase "" then s
  else
    {| ads_Ready := ads_Ready s; ads_Phase := phase; ads_ClonedCommit := ads_ClonedCommit s;
       ads_LastSyncTime := ads_LastSyncTime s; ads_Modules := ads_Modules s; ads_Message := "";
       ads_Conditions := ads_Conditions s |}.
Definition ads_conds (conds : list Condition) (s : OdooAddonStatus) : OdooAddonStatus :=
  {| ads_Ready := ads_Ready s; ads_Phase := ads_Phase s; ads_ClonedCommit := ads_ClonedCommit s;
     ads_LastSyncTime := ads_LastSyncTime s; ads_Modules := ads_Modules s;
     ads_Message := ads_Message s; ads_Conditions := conds |}.

(** The zero [syncSpec] that [resolveSyncSpec] returns with an error. *)
Definition noSyncSpec : syncSpec :=
  {| s_GitURL := ""; s_GitRef := ""; s_AddonName := ""; s_ModuleName := ""; s_AddonPath := "";
     s_SingleAddon := false; s_SecretName := ""; s_Auth := authNone |}.

Section Addon.
Context `{Unicode} `{KubeLib} `{UrlLib}.
(** [Getenv] is the environment of the operator; [syncJobImage] is read from it at start-up. *)
Context (r : Reconciler) (Getenv : string → string).

Definition syncJobImage : string := syncImage Getenv.

Definition syncJobKey (addon : OdooAddon) : NamespacedName :=
  {| nn_Namespace := m_Namespace (ad_Meta addon); nn_Name := syncJobName (m_Name (ad_Meta addon)) |}.
Definition cleanupJobKey (addon : OdooAddon) : NamespacedName :=
  {| nn_Namespace := m_Namespace (ad_Meta addon); nn_Name := cleanupJobName (m_Name (ad_Meta addon)) |}.

Definition writeAddonStatus (addon : OdooAddon) (reason condMsg : string)
    (mutate : OdooAddonStatus → OdooAddonStatus) : prog (res unit) :=
  let before := ad_Status addon in
  let st := mutate before in
  let* now := Now in
  let after := ads_conds (setConditions now (ads_Conditions st) (m_Generation (ad_Meta addon))
                            (addonConditions st reason condMsg)) st in
  if SemanticDeepEqual before after then ok tt
  else
    let? addon := updateStatus KAddon (ad_with_status after addon) in
    let* _ := emitEvents (rec_Recorder r) (ad_Meta addon) (addonEvents before after) in
    ok tt.

Definition setPhase (addon : OdooAddon) (phase : string) : prog (res unit) :=
  let '(reason, msg) := if String.eqb phase "" then keptReasonMessage (ads_Conditions (ad_Status addon))
                        else ("", "") in
  writeAddonStatus addon reason msg (ads_set_phase phase).

Definition pending (addon : OdooAddon) (reason msg : string) : prog (res Result) :=
  with_result (requeue pendingRequeue) (writeAddonStatus addon reason msg ads_pending).

Definition markFailed (addon : OdooAddon) (reason msg : string) : prog (res Result) :=
  let* now := Now in
  with_result (requeue failureBackoff)
    (writeAddonStatus addon reason msg (λ s,
       ads_failed msg (match ads_LastSyncTime s with None => Some now | t => t end) s)).

(** ** Jobs *)

(** The get of a Job that may not exist. *)
Definition getJobIfAny (key : NamespacedName) : prog (res (option Job)) :=
  let* got := get KJob key in
  Ret (match got with
       | Ok job => Ok (Some job)
       | Err e => if IsNotFound e then Ok None else Err e
       end).
Definition getSyncJob (addon : OdooAddon) : prog (res (option Job)) := getJobIfAny (syncJobKey addon).
Definition getCleanupJob (addon : OdooAddon) : prog (res (option Job)) :=
  getJobIfAny (cleanupJobKey addon).

Definition deleteJob (job : Job) : prog (res unit) :=
  let* err := deleteObject KJob job
                (Some {| do_Background := true; do_UID := m_UID (job_Meta job) |}) in
  Ret (match err with
       | Ok u => Ok u
       | Err e => if IsNotFound e || IsConflict e then Ok tt else Err e
       end).

Definition jobFailureReason (job : Job) : string :=
  match List.find (λ c, String.eqb (jc_Type c) JobFailed && String.eqb (jc_Status c) ConditionTrue)
          (jst_Conditions (job_Status job)) with
  | Some c => job_condition_text c
  | None => "sync job " +:+ m_Name (job_Meta job) +:+ " failed"
  end.

Definition jobPod (job : Job) : prog (res Pod) :=
  let? pods := list_objects KPod (m_Namespace (job_Meta job))
                 {[batchControllerUIDLabel := m_UID (job_Meta job)]} in
  match pods with
  | [] => fail (ErrorString ("no pod found for job " +:+ m_Name (job_Meta job)))
  | p :: pods => ok (newest_pod p (p :: pods))
  end.

Definition readJobLogs (job : Job) : prog (res string) :=
  if negb (rec_Clientset r) then fail (ErrorString "no clientset configured to read job logs")
  else
    let? pod := jobPod job in
    let? data := call (OpPodLogs (m_Namespace (job_Meta job)) (m_Name (pod_Meta pod)) "" None) in
    ok (LimitRead addonLogReadLimit data).

Definition readSyncOutput (job : Job) : prog (res (string * list string)) :=
  let? logs := readJobLogs job in
  let '(commit, modules) := parseSyncOutput logs in
  if String.eqb commit ""
  then fail (ErrorString ("sync job " +:+ m_Name (job_Meta job) +:+ " produced no commit hash output"))
  else ok (commit, modules).

Definition odooPodNode (instance : OdooInstance) : prog string :=
  let* pods := list_objects KPod (m_Namespace (in_Meta instance))
                 (list_to_map [(labelApp, appOdoo); (labelInstance, m_Name (in_Meta instance))]) in
  Ret (match pods with Ok pods => running_node pods | Err _ => "" end).

(** [SetControllerReference] and [Create], where a Job of that name is not an error. *)
Definition createAddonJob (addon : OdooAddon) (job : Job) (what : string) : prog (res unit) :=
  match SetControllerReference (ad_Meta addon) (job_Meta job) with
  | Err e => fail e
  | Ok m =>
      let* created := create KJob (job_with_meta m job) in
      match IgnoreAlreadyExists created with
      | Err e => fail (WrapError (what +:+ error_text e) e)
      | Ok _ => ok tt
      end
  end.

Definition addonJobOptions (instance : OdooInstance) (pvcName nodeName : string) : syncJobOptions :=
  {| jo_Image := syncJobImage; jo_PVCName := pvcName; jo_NodeName := nodeName;
     jo_AddonsAccessMode := av_AccessMode (is_Addons (in_Spec instance)) |}.

Definition createSyncJob (addon : OdooAddon) (instance : OdooInstance) (pvcName : string)
    (spec : syncSpec) : prog (res unit) :=
  let* nodeName := odooPodNode instance in
  createAddonJob addon (buildSyncJob addon spec (addonJobOptions instance pvcName nodeName))
    "failed to create sync job: ".

Definition createCleanupJob (addon : OdooAddon) (instance : OdooInstance) (pvcName : string)
    : prog (res unit) :=
  let* nodeName := odooPodNode instance in
  createAddonJob addon (buildCleanupJob addon (addonJobOptions instance pvcName nodeName))
    "failed to create cleanup job: ".

(** ** Recording a finished sync *)
Definition finishFailedSyncJob (addon : OdooAddon) (job : Job) (reason msg : string)
    : prog (res Result) :=
  let* now := Now in
  let? _ := writeAddonStatus addon reason msg (ads_failed msg (Some now)) in
  with_result (requeue failureBackoff) (deleteJob job).

Definition recordSyncSuccess (addon : OdooAddon) (job : Job) : prog (res Result) :=
  let* output := readSyncOutput job in
  match output with
  | Err e => finishFailedSyncJob addon job ReasonSyncFailed (error_text e)
  | Ok (commit, modules) =>
      let* now := Now in
      let? _ := writeAddonStatus addon "" "" (ads_synced commit modules now) in
      with_result (requeue resyncInterval) (deleteJob job)
  end.

Definition recordSyncFailure (addon : OdooAddon) (job : Job) : prog (res Result) :=
  let* got := readJobLogs job in
  let logs := match got with Ok logs => logs | Err _ => "" end in
  let tail := upgradeTail logs addonLogTailBytes in
  let msg := if is_Ok got && negb (String.eqb tail "")
             then jobFailureReason job +:+ addonMsgLogHeader +:+ tail else jobFailureReason job in
  finishFailedSyncJob addon job (addonFailureReason logs) msg.

(** ** The sync step *)
Definition deleteIf (del : bool) (job : option Job) : prog (res unit) :=
  match job with Some j => if del then deleteJob j else ok tt | None => ok tt end.

Definition syncInputOf (addon : OdooAddon) (now : Time) (job : option Job) : addonSyncInput :=
  {| ai_SpecErr := match resolveSyncSpec addon with Ok _ => "" | Err e => error_text e end;
     ai_SpecHash := match resolveSyncSpec addon with Ok s => syncSpecHash s | Err _ => "" end;
     ai_Job := observeSyncJob job addon;
     ai_Phase := ads_Phase (ad_Status addon);
     ai_LastSyncTime := ads_LastSyncTime (ad_Status addon);
     ai_SkipResync := canSkipResync addon;
     ai_Now := now |}.

(** The switch on the action. [record_on] is the call on a Job the decision has seen. *)
Definition record_on (job : option Job) (f : Job → prog (res Result)) : prog (res Result) :=
  match job with Some j => f j | None => ok noResult end.

Definition actOnDecision (addon : OdooAddon) (instance : OdooInstance) (pvcName : string)
    (job : option Job) (d : addonSyncDecision) : prog (res Result) :=
  match de_Action d with
  | addonActionInvalidSpec | addonActionJobConflict =>
      let? _ := deleteIf (de_DeleteJob d) job in
      markFailed addon
        (if bool_decide (de_Action d = addonActionJobConflict) then ReasonJobConflict
         else ReasonInvalidSpec) (de_Message d)
  | addonActionDeleteStaleJob => with_result (requeue (de_Requeue d)) (deleteIf true job)
  | addonActionRecordSuccess => record_on job (recordSyncSuccess addon)
  | addonActionRecordFailure => record_on job (recordSyncFailure addon)
  | addonActionAwaitJob | addonActionCooldown | addonActionSkipResync =>
      with_result (requeue (de_Requeue d)) (setPhase addon (de_Phase d))
  | addonActionCreateJob =>
      let? _ := createSyncJob addon instance pvcName
                  (match resolveSyncSpec addon with Ok s => s | Err _ => noSyncSpec end) in
      with_result (requeue (de_Requeue d)) (setPhase addon (de_Phase d))
  end.

Definition syncAddon (addon : OdooAddon) (instance : OdooInstance) (pvcName : string)
    : prog (res Result) :=
  let* now := Now in
  let? job := getSyncJob addon in
  actOnDecision addon instance pvcName job (decideAddonSync (syncInputOf addon now job)).

Definition ensureVolumeMounted (instance : OdooInstance) (pvcName : string) : prog (res bool) :=
  let* got := get KPVC {| nn_Namespace := m_Namespace (in_Meta instance); nn_Name := pvcName |} in
  Ret (match got with
       | Ok pvc => Ok (String.eqb (pvc_Phase pvc) ClaimBound)
       | Err e => if IsNotFound e then Ok false else Err e
       end).

Definition reconcileOdooAddon (addon : OdooAddon) : prog (res Result) :=
  let instanceName := ref_Name (ad_InstanceRef (ad_Spec addon)) in
  let ns := ref_Namespace (ad_InstanceRef (ad_Spec addon)) in
  let instanceNamespace := m_Namespace (ad_Meta addon) in
  if negb (String.eqb ns "") && negb (String.eqb ns (m_Namespace (ad_Meta addon))) then
    markFailed addon ReasonInvalidSpec "cross-namespace instanceRef is not supported"
  else if String.eqb instanceName "" then
    pending addon ReasonInstanceNotFound "spec.instanceRef.name is empty"
  else
    let* got := get KInstance {| nn_Namespace := instanceNamespace; nn_Name := instanceName |} in
    match got with
    | Err e =>
        if IsNotFound e then
          pending addon ReasonInstanceNotFound
            ("OdooInstance " +:+ Quote instanceName +:+ " not found in namespace " +:+
             Quote instanceNamespace)
        else fail e
    | Ok instance =>
        let pvcName := addonsPVCName (m_Name (in_Meta instance)) in
        let? pvcReady := ensureVolumeMounted instance pvcName in
        if negb pvcReady then
          pending addon ReasonVolumeNotBound ("addons PVC " +:+ Quote pvcName +:+ " is not Bound yet")
        else syncAddon addon instance pvcName
    end.

(** ** Deletion *)
Definition finishDeletion (addon : OdooAddon) (syncJob : option Job) (ownedSyncJob : bool)
    (cleanup : option Job) : prog (res Result) :=
  let? _ := deleteIf ownedSyncJob syncJob in
  let? _ := deleteIf true cleanup in
  let? _ := update KAddon (ad_with_meta (RemoveFinalizer (ad_Meta addon) finalizerOdooAddon) addon) in
  ok noResult.

(** The instance and the addons claim of the addon, [None] when either is gone. *)
Definition addonVolume (addon : OdooAddon) : prog (res (option (OdooInstance * string))) :=
  let ref := ad_InstanceRef (ad_Spec addon) in
  let ns := m_Namespace (ad_Meta addon) in
  if String.eqb (ref_Name ref) "" ||
     (negb (String.eqb (ref_Namespace ref) "") && negb (String.eqb (ref_Namespace ref) ns))
  then ok None
  else
    let* got := get KInstance {| nn_Namespace := ns; nn_Name := ref_Name ref |} in
    match got with
    | Err e => if IsNotFound e then ok None else fail e
    | Ok instance =>
        let pvcName := addonsPVCName (m_Name (in_Meta instance)) in
        let* got := get KPVC {| nn_Namespace := ns; nn_Name := pvcName |} in
        match got with
        | Err e => if IsNotFound e then ok None else fail e
        | Ok _ => ok (Some (instance, pvcName))
        end
    end.

Definition cleanupFailedEvent : statusEvent :=
  mkEvent EventTypeWarning eventReasonCleanupFailed eventActionCleanup
    "cleanup Job failed; the addon's files may remain on the addons volume. The finalizer is removed anyway" "".
(** The text of [cleanupTimeout] is [3m0s]. *)
Definition cleanupTimeoutEvent : statusEvent :=
  mkEvent EventTypeWarning eventReasonCleanupTimeout eventActionCleanup
    "cleanup Job still running after 3m0s; the finalizer is removed anyway" "".

(** The judgement of an owned cleanup Job. *)
Definition judgeCleanup (addon : OdooAddon) (cleanup : Job) : prog (res Result) :=
  let observed := observeSyncJob (Some cleanup) addon in
  if ao_Succeeded observed then finishDeletion addon None false (Some cleanup)
  else if ao_Failed observed then
    let* _ := emitEvents (rec_Recorder r) (ad_Meta addon) [cleanupFailedEvent] in
    finishDeletion addon None false (Some cleanup)
  else
    let* now := Now in
    if cleanupTimeout <? time_Sub now (m_CreationTimestamp (job_Meta cleanup)) then
      let* _ := emitEvents (rec_Recorder r) (ad_Meta addon) [cleanupTimeoutEvent] in
      finishDeletion addon None false (Some cleanup)
    else ok (requeue addonCleanupRequeue).

Definition addonHandleFinalizer (addon : OdooAddon) : prog (res Result) :=
  if negb (ContainsFinalizer (ad_Meta addon) finalizerOdooAddon) then ok noResult
  else
    let? syncJob := getSyncJob addon in
    let ownedSyncJob := match syncJob with
                        | Some j => IsControlledBy (job_Meta j) (ad_Meta addon)
                        | None => false end in
    let? volume := addonVolume addon in
    match volume with
    | None => finishDeletion addon syncJob ownedSyncJob None
    | Some (instance, pvcName) =>
        if ownedSyncJob then with_result (requeue addonStaleJobRequeue) (deleteIf true syncJob)
        else
          let? cleanup := getCleanupJob addon in
          match cleanup with
          | None => with_result (requeue addonCleanupRequeue) (createCleanupJob addon instance pvcName)
          | Some job =>
              if negb (IsControlledBy (job_Meta job) (ad_Meta addon))
              then finishDeletion addon None false None
              else judgeCleanup addon job
          end
    end.

Definition addonReconcile (key : NamespacedName) : prog (res Result) :=
  let* got := get KAddon key in
  match got with
  | Err e => if IsNotFound e then ok noResult else fail e
  | Ok addon =>
      match m_DeletionTimestamp (ad_Meta addon) with
      | Some _ => addonHandleFinalizer addon
      | None =>
          let? addon :=
            if ContainsFinalizer (ad_Meta addon) finalizerOdooAddon then ok addon
            else update KAddon (ad_with_meta (AddFinalizer (ad_Meta addon) finalizerOdooAddon) addon) in
          reconcileOdooAddon addon
      end
  end.
End Addon.

(** ** What one pass may do *)
Section Safety.
Context `{Unicode} `{KubeLib} `{UrlLib}.
Context (r : Reconciler) (Getenv : string → string) (key : NamespacedName).

(** The addon this pass works on: as read, or as returned by the update that added the finalizer. *)
Definition finalized (a : OdooAddon) : OdooAddon :=
  ad_with_meta (AddFinalizer (ad_Meta a) finalizerOdooAddon) a.
Definition current (h : list event) (addon : OdooAddon) : Prop :=
  happened h (OpGet KAddon key) (Ok addon) ∨
  ∃ a0, happened h (OpGet KAddon key) (Ok a0) ∧ m_DeletionTimestamp (ad_Meta a0) = None ∧
    happened h (OpUpdate KAddon (finalized a0)) (Ok addon).

(** The addon is not being deleted, or is. *)
Definition live (h : list event) : Prop :=
  ∃ a0, happened h (OpGet KAddon key) (Ok a0) ∧ m_DeletionTimestamp (ad_Meta a0) = None.
Definition deleting (h : list event) (addon : OdooAddon) : Prop :=
  happened h (OpGet KAddon key) (Ok addon) ∧ m_DeletionTimestamp (ad_Meta addon) ≠ None ∧
  ContainsFinalizer (ad_Meta addon) finalizerOdooAddon = true.

(** A sync Job of the addon, for its current spec, that succeeded, and whose log was read. *)
Definition sync_evidence (h : list event) (addon : OdooAddon) (commit : string) (modules : list string)
    : Prop :=
  ∃ spec (job : Job) (pods : list Pod) (pod : Pod) (logs : string),
    resolveSyncSpec addon = Ok spec ∧
    happened h (OpGet KJob (syncJobKey addon)) (Ok job) ∧
    IsControlledBy (job_Meta job) (ad_Meta addon) = true ∧
    map_get (m_Annotations (job_Meta job)) annotationSyncSpecHash = syncSpecHash spec ∧
    upgradeJobSucceeded job = true ∧
    happened h (OpList KPod (m_Namespace (job_Meta job))
      {[batchControllerUIDLabel := m_UID (job_Meta job)]}) (Ok pods) ∧ pod ∈ pods ∧
    happened h (OpPodLogs (m_Namespace (job_Meta job)) (m_Name (pod_Meta pod)) "" None) (Ok logs) ∧
    parseSyncOutput (LimitRead addonLogReadLimit logs) = (commit, modules) ∧ commit ≠ "".

Definition ready_synced (st : OdooAddonStatus) : Prop :=
  ads_Ready st = true ↔ ads_Phase st = phaseSynced.

(** The Ready condition says what the phase says, for the generation of the object. *)
Definition ready_condition (a : OdooAddon) : Prop :=
  ∃ c, FindStatusCondition (ads_Conditions (ad_Status a)) ConditionTypeReady = Some c ∧
    (c_Status c = condTrue ↔ ads_Phase (ad_Status a) = phaseSynced) ∧
    c_ObservedGeneration c = m_Generation (ad_Meta a).

Definition status_ok (h : list event) (a : OdooAddon) : Prop :=
  ∃ addon, current h addon ∧ live h ∧ ad_Meta a = ad_Meta addon ∧ ad_Spec a = ad_Spec addon ∧
    (ready_synced (ad_Status addon) → ready_synced (ad_Status a)) ∧ ready_condition a ∧
    (ads_Phase (ad_Status a) = phaseSynced →
       (ads_Phase (ad_Status addon) = phaseSynced ∧
        ads_ClonedCommit (ad_Status a) = ads_ClonedCommit (ad_Status addon) ∧
        ads_Modules (ad_Status a) = ads_Modules (ad_Status addon)) ∨
       sync_evidence h addon (ads_ClonedCommit (ad_Status a)) (ads_Modules (ad_Status a))).

(** A Job is deleted only if it was read in this pass, is controlled by the addon, and only the
    object that was read. *)
Definition delete_ok (h : list event) (j : Job) (opts : option DeleteOptions) : Prop :=
  ∃ addon k, current h addon ∧ k ∈ [syncJobKey addon; cleanupJobKey addon] ∧
    happened h (OpGet KJob k) (Ok j) ∧ IsControlledBy (job_Meta j) (ad_Meta addon) = true ∧
    opts = Some {| do_Background := true; do_UID := m_UID (job_Meta j) |}.

(** The get of a Job found nothing. *)
Definition job_absent (h : list event) (k : NamespacedName) : Prop :=
  ∃ e, happened h (OpGet KJob k) (Err e) ∧ IsNotFound e = true.

(** No sync Job of the addon was seen in this pass. *)
Definition no_own_sync (h : list event) (addon : OdooAddon) : Prop :=
  job_absent h (syncJobKey addon) ∨
  ∃ j, happened h (OpGet KJob (syncJobKey addon)) (Ok j) ∧
    IsControlledBy (job_Meta j) (ad_Meta addon) = false.

Definition create_sync_ok (h : list event) (j : Job) : Prop :=
  ∃ addon spec opts m, current h addon ∧ live h ∧ resolveSyncSpec addon = Ok spec ∧
    job_absent h (syncJobKey addon) ∧ canSkipResync addon = false ∧
    SetControllerReference (ad_Meta addon) (job_Meta (buildSyncJob addon spec opts)) = Ok m ∧
    j = job_with_meta m (buildSyncJob addon spec opts).

Definition create_cleanup_ok (h : list event) (j : Job) : Prop :=
  ∃ addon opts m, deleting h addon ∧ no_own_sync h addon ∧ job_absent h (cleanupJobKey addon) ∧
    SetControllerReference (ad_Meta addon) (job_Meta (buildCleanupJob addon opts)) = Ok m ∧
    j = job_with_meta m (buildCleanupJob addon opts).

(** The volume of the addon is out of reach: no valid reference, or the instance or its claim gone. *)
Definition volume_gone (h : list event) (addon : OdooAddon) : Prop :=
  let ref := ad_InstanceRef (ad_Spec addon) in
  let ns := m_Namespace (ad_Meta addon) in
  ref_Name ref = "" ∨ (ref_Namespace ref ≠ "" ∧ ref_Namespace ref ≠ ns) ∨
  (∃ e, happened h (OpGet KInstance {| nn_Namespace := ns; nn_Name := ref_Name ref |}) (Err e) ∧
     IsNotFound e = true) ∨
  (∃ (instance : OdooInstance) e,
     happened h (OpGet KInstance {| nn_Namespace := ns; nn_Name := ref_Name ref |}) (Ok instance) ∧
     happened h (OpGet KPVC {| nn_Namespace := ns; nn_Name := addonsPVCName (m_Name (in_Meta instance)) |}) (Err e) ∧
     IsNotFound e = true).

(** The cleanup is over: its Job belongs to someone else, succeeded, failed or overran. *)
Definition cleanup_over (h : list event) (addon : OdooAddon) : Prop :=
  no_own_sync h addon ∧
  ∃ j, happened h (OpGet KJob (cleanupJobKey addon)) (Ok j) ∧
    (IsControlledBy (job_Meta j) (ad_Meta addon) = false ∨ upgradeJobSucceeded j = true ∨
     upgradeHasCondition j JobFailed = true ∨
     ∃ now, happened h OpNow now ∧ cleanupTimeout < time_Sub now (m_CreationTimestamp (job_Meta j))).

Definition update_ok (h : list event) (a : OdooAddon) : Prop :=
  (∃ a0, happened h (OpGet KAddon key) (Ok a0) ∧ m_DeletionTimestamp (ad_Meta a0) = None ∧
     ContainsFinalizer (ad_Meta a0) finalizerOdooAddon = false ∧ a = finalized a0) ∨
  (∃ a0, deleting h a0 ∧
     a = ad_with_meta (RemoveFinalizer (ad_Meta a0) finalizerOdooAddon) a0 ∧
     (volume_gone h a0 ∨ cleanup_over h a0)).

Definition addon_may (h : list event) (o : op) : Prop :=
  match o with
  | OpStatusUpdate KAddon a => status_ok h a
  | OpCreate KJob j => create_sync_ok h j ∨ create_cleanup_ok h j
  | OpDelete KJob j opts => delete_ok h j opts
  | OpUpdate KAddon a => update_ok h a
  | o => reads o
  end.

Abbreviation any := (λ _ _, True).

(** *** The facts only grow with the history *)
Lemma current_mono h h' a : h ⊆ h' → current h a → current h' a.
Proof. unfold current. pose proof happened_mono. naive_solver. Qed.
Lemma live_mono h h' : h ⊆ h' → live h → live h'.
Proof. unfold live. pose proof happened_mono. naive_solver. Qed.
Lemma deleting_mono h h' a : h ⊆ h' → deleting h a → deleting h' a.
Proof. unfold deleting. pose proof happened_mono. naive_solver. Qed.
Lemma job_absent_mono h h' k : h ⊆ h' → job_absent h k → job_absent h' k.
Proof. unfold job_absent. pose proof happened_mono. naive_solver. Qed.
Lemma no_own_sync_mono h h' a : h ⊆ h' → no_own_sync h a → no_own_sync h' a.
Proof. unfold no_own_sync. pose proof happened_mono. pose proof job_absent_mono. naive_solver. Qed.
Lemma volume_gone_mono h h' a : h ⊆ h' → volume_gone h a → volume_gone h' a.
Proof. unfold volume_gone. pose proof happened_mono. naive_solver. Qed.
Lemma cleanup_over_mono h h' a : h ⊆ h' → cleanup_over h a → cleanup_over h' a.
Proof.
  unfold cleanup_over. intros Hsub [Hs (j & Hj & Hc)]. split; [by eapply no_own_sync_mono|].
  exists j. split; [by eapply happened_mono|]. pose proof happened_mono. naive_solver.
Qed.
Lemma sync_evidence_mono h h' a commit modules :
  h ⊆ h' → sync_evidence h a commit modules → sync_evidence h' a commit modules.
Proof.
  intros Hsub (spec & job & pods & pod & logs & Hr & Hj & Hc & Ha & Hs & Hp & Hin & Hl & Hparse & Hne).
  exists spec, job, pods, pod, logs. split_and!; try done; by eapply happened_mono.
Qed.

#[local] Hint Resolve current_mono live_mono deleting_mono job_absent_mono no_own_sync_mono
  volume_gone_mono cleanup_over_mono sync_evidence_mono happened_mono : operator.

Lemma sub_cons (e : event) (h : list event) : h ⊆ e :: h.
Proof. by apply list_subseteq_cons. Qed.

Lemma addon_may_reads h o : reads o → addon_may h o.
Proof. by destruct o as [| |[]|[]| | |[]| | | |]. Qed.

Context `{!ConditionLaws}.

Lemma conds_ready addon now st reason msg :
  ready_condition (ad_with_status (ads_conds (setConditions now (ads_Conditions st)
    (m_Generation (ad_Meta addon)) (addonConditions st reason msg)) st) addon).
Proof.
  destruct (addonConditions_mean st reason msg) as [Hm Hr].
  destruct (conditions_mean_ready _ _ _ Hm Hr) as (a & Ha & Ht & Hs).
  destruct (setConditions_wanted now (ads_Conditions st) (m_Generation (ad_Meta addon))
    (addonConditions st reason msg) a) as (c & Hc & Hcs & _ & _ & Hg & _); [apply Hm|done|].
  exists c. cbn. rewrite <-Ht, Hcs. by split_and!.
Qed.

Lemma wp_writeAddonStatus h addon reason msg mutate :
  current h addon → live h →
  (ready_synced (ad_Status addon) → ready_synced (mutate (ad_Status addon))) →
  (ads_Phase (mutate (ad_Status addon)) = phaseSynced →
     (ads_Phase (ad_Status addon) = phaseSynced ∧
      ads_ClonedCommit (mutate (ad_Status addon)) = ads_ClonedCommit (ad_Status addon) ∧
      ads_Modules (mutate (ad_Status addon)) = ads_Modules (ad_Status addon)) ∨
     sync_evidence h addon (ads_ClonedCommit (mutate (ad_Status addon)))
       (ads_Modules (mutate (ad_Status addon)))) →
  wp addon_may h (writeAddonStatus r addon reason msg mutate) (λ h' _, h ⊆ h').
Proof.
  intros Hcur Hlive Hready Hsync. unfold writeAddonStatus. wp_calls. split; [done|]. intros now.
  destruct (SemanticDeepEqual _ _); [by apply list_subseteq_cons|]. split.
  - assert (h ⊆ did OpNow now :: h) as Hsub by by apply list_subseteq_cons.
    exists addon. split; [by eauto with operator|]. split; [by eauto with operator|].
    split; [done|]. split; [done|]. split; [exact Hready|]. split; [apply conds_ready|].
    intros Hp. destruct (Hsync Hp); eauto with operator.
  - intros [a|e]; [|by do 2 apply list_subseteq_cons].
    apply wp_bind, wp_emitEvents; [done|]. intros h' Hsub. cbn. intros x Hx. apply Hsub. by do 2 right.
Qed.

(** Continues after a status write, whatever it answered. *)
Lemma wp_write_then {A} h addon reason msg mutate (f : res unit → prog A) :
  wp addon_may h (writeAddonStatus r addon reason msg mutate) (λ h' _, h ⊆ h') →
  (∀ h' x, h ⊆ h' → wp addon_may h' (f x) any) →
  wp addon_may h (prog_bind (writeAddonStatus r addon reason msg mutate) f) any.
Proof. intros Hw Hf. apply wp_bind. eapply wp_mono; [exact Hw|]. intros h' x Hsub. by apply Hf. Qed.

Lemma wp_markFailed h addon reason msg :
  current h addon → live h → wp addon_may h (markFailed r addon reason msg) any.
Proof.
  intros Hcur Hlive. unfold markFailed. wp_calls. split; [done|]. intros now.
  assert (h ⊆ did OpNow now :: h) by by apply list_subseteq_cons.
  apply wp_write_then; [|by intros ? [] ?].
  apply wp_writeAddonStatus; eauto with operator; by intros ?.
Qed.

Lemma wp_pending h addon reason msg :
  current h addon → live h → wp addon_may h (pending r addon reason msg) any.
Proof.
  intros Hcur Hlive. unfold pending, with_result, try_bind. apply wp_write_then; [|by intros ? [] ?].
  by apply wp_writeAddonStatus.
Qed.

Lemma wp_setPhase h addon phase :
  current h addon → live h → phase ∈ [""; phaseSyncing] →
  (phase = phaseSyncing → ads_Phase (ad_Status addon) ≠ phaseSynced) →
  wp addon_may h (setPhase r addon phase) any.
Proof.
  intros Hcur Hlive Hin Hne. unfold setPhase.
  destruct (if String.eqb phase "" then _ else _) as [reason msg].
  eapply wp_mono; [apply wp_writeAddonStatus|done]; [done|done|..];
    unfold ads_set_phase; destruct (String.eqb_spec phase "") as [->|He]; [done| |by left|];
    assert (phase = phaseSyncing) as -> by set_solver.
  - unfold ready_synced. cbn. intros Hr. split; [|done]. intros Ht. by apply Hr, Hne in Ht.
  - done.
Qed.

Lemma wp_deleteJob {A} h addon k job (f : res unit → prog A) :
  current h addon → k ∈ [syncJobKey addon; cleanupJobKey addon] →
  happened h (OpGet KJob k) (Ok job) → IsControlledBy (job_Meta job) (ad_Meta addon) = true →
  (∀ h' x, h ⊆ h' → wp addon_may h' (f x) any) →
  wp addon_may h (prog_bind (deleteJob job) f) any.
Proof.
  intros Hcur Hk Hget Hctl Hf. unfold deleteJob. wp_calls. split; [by exists addon, k|].
  intros x. apply Hf. by apply list_subseteq_cons.
Qed.

Lemma wp_deleteIf {A} h addon k del job (f : res unit → prog A) :
  current h addon → k ∈ [syncJobKey addon; cleanupJobKey addon] →
  (∀ j, job = Some j → del = true →
     happened h (OpGet KJob k) (Ok j) ∧ IsControlledBy (job_Meta j) (ad_Meta addon) = true) →
  (∀ h' x, h ⊆ h' → wp addon_may h' (f x) any) →
  wp addon_may h (prog_bind (deleteIf del job) f) any.
Proof.
  intros Hcur Hk Hjob Hf. unfold deleteIf. destruct job as [j|]; [|by apply Hf].
  destruct del; [|by apply Hf]. destruct (Hjob j eq_refl eq_refl). by eapply wp_deleteJob.
Qed.

Lemma reads_readJobLogs h job : wp (λ _ o, reads o) h (readJobLogs r job) any.
Proof.
  unfold readJobLogs. destruct (rec_Clientset r); [|done]. cbn. split; [done|].
  intros [[|p pods]|e]; [done| |done]. cbn. split; [done|]. by intros [|].
Qed.

Lemma newest_pod_elem p pods l : p ∈ l → pods ⊆ l → newest_pod p pods ∈ l.
Proof.
  revert p. induction pods as [|q pods IH]; intros p Hp Hl; [done|]. cbn.
  apply IH; [|set_solver]. destruct (_ <? _); [apply Hl; by left|done].
Qed.

(** What a read log proves. *)
Definition log_of (h : list event) (job : Job) (logs : string) : Prop :=
  ∃ (pods : list Pod) (pod : Pod) (data : string),
    happened h (OpList KPod (m_Namespace (job_Meta job))
      {[batchControllerUIDLabel := m_UID (job_Meta job)]}) (Ok pods) ∧ pod ∈ pods ∧
    happened h (OpPodLogs (m_Namespace (job_Meta job)) (m_Name (pod_Meta pod)) "" None) (Ok data) ∧
    logs = LimitRead addonLogReadLimit data.

Lemma wp_readJobLogs {A} h job (f : res string → prog A) :
  (∀ h' x, h ⊆ h' → (∀ logs, x = Ok logs → log_of h' job logs) → wp addon_may h' (f x) any) →
  wp addon_may h (prog_bind (readJobLogs r job) f) any.
Proof.
  intros Hf. unfold readJobLogs, jobPod. destruct (rec_Clientset r); cbn [negb]; [|by apply Hf].
  wp_calls. split; [done|]. intros [[|p pods]|e]; cbn [prog_bind]; [by apply Hf; [apply list_subseteq_cons|]| |by apply Hf; [apply list_subseteq_cons|]].
  split; [done|]. intros [data|e]; cbn [prog_bind]; apply Hf; [set_solver| |set_solver|done].
  intros logs [= <-]. exists (p :: pods), (newest_pod p (p :: pods)), data. split_and!; [|by apply newest_pod_elem; [left|]|by left|done].
  right. by left.
Qed.

Lemma wp_finishFailedSyncJob h addon job reason msg :
  current h addon → live h → happened h (OpGet KJob (syncJobKey addon)) (Ok job) →
  IsControlledBy (job_Meta job) (ad_Meta addon) = true →
  wp addon_may h (finishFailedSyncJob r addon job reason msg) any.
Proof.
  intros Hcur Hlive Hget Hctl. unfold finishFailedSyncJob. wp_calls. split; [done|]. intros now.
  assert (h ⊆ did OpNow now :: h) by by apply list_subseteq_cons.
  apply wp_write_then.
  - apply wp_writeAddonStatus; eauto with operator; by intros ?.
  - intros h' [[]|e] Hsub; [|done]. eapply wp_deleteJob; [| by left|..]; eauto with operator.
    by intros ? [].
Qed.

Lemma wp_recordSyncFailure h addon job :
  current h addon → live h → happened h (OpGet KJob (syncJobKey addon)) (Ok job) →
  IsControlledBy (job_Meta job) (ad_Meta addon) = true →
  wp addon_may h (recordSyncFailure r addon job) any.
Proof.
  intros. unfold recordSyncFailure. apply wp_readJobLogs. intros h' x Hsub _.
  apply wp_finishFailedSyncJob; eauto with operator.
Qed.

Lemma wp_recordSyncSuccess h addon job spec :
  current h addon → live h → happened h (OpGet KJob (syncJobKey addon)) (Ok job) →
  IsControlledBy (job_Meta job) (ad_Meta addon) = true →
  resolveSyncSpec addon = Ok spec →
  map_get (m_Annotations (job_Meta job)) annotationSyncSpecHash = syncSpecHash spec →
  upgradeJobSucceeded job = true →
  wp addon_may h (recordSyncSuccess r addon job) any.
Proof.
  intros Hcur Hlive Hget Hctl Hspec Hhash Hsucc. unfold recordSyncSuccess, readSyncOutput, try_bind.
  apply wp_bind. eapply wp_mono with (Q := λ h' x, h ⊆ h' ∧ match x with
    | Ok (commit, modules) => sync_evidence h' addon commit modules | Err _ => True end).
  - unfold readJobLogs, jobPod. destruct (rec_Clientset r); cbn [negb]; [|done].
    wp_calls. split; [done|]. intros [[|p pods]|e]; cbn [prog_bind wp];
      [by split; [apply list_subseteq_cons|]| |by split; [apply list_subseteq_cons|]].
    split; [done|]. intros [data|e]; cbn [prog_bind wp]; [|by split; [set_solver|]].
    destruct (parseSyncOutput _) as [commit modules] eqn:Hparse.
    destruct (String.eqb_spec commit ""); cbn [wp]; (split; [set_solver|]); [done|].
    exists spec, job, (p :: pods), (newest_pod p (p :: pods)), data.
    split_and!; try done; [by do 2 right|right; by left|by apply newest_pod_elem; [left|]|by left].
  - intros h' [[commit modules]|e] [Hsub Hev]; [|apply wp_finishFailedSyncJob; eauto with operator].
    wp_calls. split; [done|]. intros now.
    assert (h' ⊆ did OpNow now :: h') by by apply list_subseteq_cons.
    assert (h ⊆ did OpNow now :: h') by set_solver.
    apply wp_write_then.
    + apply wp_writeAddonStatus; [eauto with operator..|done|]. intros _. right. cbn. eauto with operator.
    + intros h2 [[]|e] Hsub2; [|done]. eapply wp_deleteJob; [| by left|..]; eauto with operator.
      by intros ? [].
Qed.

Lemma wp_createAddonJob {A} h addon job what (f : res unit → prog A) :
  (∀ m, SetControllerReference (ad_Meta addon) (job_Meta job) = Ok m →
     create_sync_ok h (job_with_meta m job) ∨ create_cleanup_ok h (job_with_meta m job)) →
  (∀ h' x, h ⊆ h' → wp addon_may h' (f x) any) →
  wp addon_may h (prog_bind (createAddonJob addon job what) f) any.
Proof.
  intros Hok Hf. unfold createAddonJob. destruct (SetControllerReference _ _) as [m|e] eqn:Hm; [|by apply Hf].
  wp_calls. split; [by apply Hok|]. intros x. destruct (IgnoreAlreadyExists x); apply Hf; by apply list_subseteq_cons.
Qed.

(** Every refusal has a text, so an empty text means that the spec is valid. *)
Definition says_why {A} (x : res A) : Prop := ∀ e, x = Err e → error_text e ≠ "".

Lemma says_why_bind {A B} (m : res A) (f : A → res B) :
  says_why m → (∀ a, says_why (f a)) → says_why (m ≫= f).
Proof. intros Hm Hf e. destruct m as [a|e']; cbn; [apply Hf|]. intros [= <-]. by apply Hm. Qed.

Lemma says_why_wrap {A} prefix (x : res A) : prefix ≠ "" → says_why (wrapErr prefix x).
Proof. intros Hp e. destruct x; cbn; [done|]. intros [= <-]. cbn. by destruct prefix. Qed.

Lemma says_why_if {A} (b : bool) (x y : res A) :
  (b = true → says_why x) → (b = false → says_why y) → says_why (if b then x else y).
Proof. destruct b; auto. Qed.

Lemma resolve_says_why addon : says_why (resolveSyncSpec addon).
Proof.
  unfold resolveSyncSpec. repeat (apply says_why_bind; [|intros ?]).
  - unfold validateGitUrl. repeat (apply says_why_if; intros _); [by intros ? [= <-]|done|].
    destruct (ParseURL _) as [[b|]|]; [|done|by intros ? [= <-]].
    apply says_why_if; intros _; by intros ? [= <-].
  - unfold validateGitRef. repeat (apply says_why_if; intros _); by intros ? [= <-].
  - by apply says_why_wrap.
  - by apply says_why_wrap.
  - apply says_why_if; intros _; [by apply says_why_wrap|done].
  - unfold resolveGitAuth. destruct (ad_GitSecretRef _); [|done].
    repeat (apply says_why_if; intros _); by intros ? [= <-].
  - done.
Qed.

(** The answer of [getJobIfAny] is what the server said. *)
Definition job_answer (h : list event) (k : NamespacedName) (job : option Job) : Prop :=
  match job with Some j => happened h (OpGet KJob k) (Ok j) | None => job_absent h k end.

Lemma wp_getJobIfAny {A} h k (f : res (option Job) → prog A) :
  (∀ h' x, h ⊆ h' → (∀ job, x = Ok job → job_answer h' k job) → wp addon_may h' (f x) any) →
  wp addon_may h (prog_bind (getJobIfAny k) f) any.
Proof.
  intros Hf. unfold getJobIfAny. wp_calls. split; [done|]. intros got.
  apply Hf; [by apply list_subseteq_cons|]. intros job.
  destruct got as [j|e]; [intros [= <-]; by left|].
  destruct (IsNotFound e) eqn:He; [|done]. intros [= <-]. exists e. split; [by left|done].
Qed.

(** Creating the sync Job of a spec that resolves. *)
Lemma wp_createSyncJob {A} h addon instance pvcName s (f : res unit → prog A) :
  current h addon → live h → job_absent h (syncJobKey addon) → canSkipResync addon = false → resolveSyncSpec addon = Ok s →
  (∀ h' x, h ⊆ h' → wp addon_may h' (f x) any) →
  wp addon_may h (prog_bind (createSyncJob Getenv addon instance pvcName s) f) any.
Proof.
  intros Hcur Hlive Habs Hskip Hr Hf. unfold createSyncJob, odooPodNode. wp_calls. split; [done|]. intros pods.
  cbn [prog_bind].
  assert (h ⊆ did (OpList KPod _ _) pods :: h) as Hsub by by apply list_subseteq_cons.
  apply wp_createAddonJob.
  - intros m Hm. left. eexists addon, s, _, m. split_and!; eauto with operator.
  - intros h' x Hsub'. apply Hf. set_solver.
Qed.

(** Every branch of the switch, for a decision that keeps the contract. *)
Lemma wp_actOnDecision h addon instance pvcName job now :
  current h addon → live h → job_answer h (syncJobKey addon) job →
  let inp := syncInputOf addon now job in
  wp addon_may h (actOnDecision r Getenv addon instance pvcName job (decideAddonSync inp)) any.
Proof.
  intros Hcur Hlive Hjob inp.
  pose proof (decideAddonSync_contract inp) as (Hok & Hfail & Hnew & Hdel & _ & Hsyn & _).
  pose proof (decideAddonSync_phase inp) as Hphase. cbn zeta in Hphase.
  set (d := decideAddonSync inp) in *.
  assert (ai_SpecErr inp = "" → ∃ s, resolveSyncSpec addon = Ok s ∧ ai_SpecHash inp = syncSpecHash s)
    as Hspec.
  { cbn. destruct (resolveSyncSpec addon) eqn:Hr; [by eauto|]. by intros ?%(resolve_says_why _ _ Hr). }
  assert (∀ j, job = Some j → ao_ControlledByAddon (ai_Job inp) = true →
    happened h (OpGet KJob (syncJobKey addon)) (Ok j) ∧ IsControlledBy (job_Meta j) (ad_Meta addon) = true)
    as Hown by (intros j ->; done).
  assert (∀ job', job = Some job' → ao_SpecHash (ai_Job inp) =
    map_get (m_Annotations (job_Meta job')) annotationSyncSpecHash ∧
    ao_Succeeded (ai_Job inp) = upgradeJobSucceeded job') as Hobs by (intros j ->; done).
  assert (job = None ↔ ao_Exists (ai_Job inp) = false) as Hex by (by subst inp; destruct job).
  assert (syncJobKey addon ∈ [syncJobKey addon; cleanupJobKey addon]) as Hin by by left.
  assert (∀ h' phase, h ⊆ h' → de_Phase d = phase → phase ∈ [""; phaseSyncing] →
    wp addon_may h' (with_result (requeue (de_Requeue d)) (setPhase r addon phase)) any) as Hset.
  { intros h' phase Hsub <- Hp. unfold with_result, try_bind. apply wp_bind.
    eapply wp_mono; [apply wp_setPhase; eauto with operator|by intros ? []]. }
  assert (ai_SkipResync inp = canSkipResync addon) as Hskipped by done.
  assert (ai_Phase inp = ads_Phase (ad_Status addon)) as Hph by done.
  clearbody inp. unfold actOnDecision. destruct (de_Action d) eqn:Hact.
  - unfold try_bind. eapply wp_deleteIf; [done|done|intros j Hj Hd; by apply Hown, Hdel|].
    intros h' [[]|e] Hsub; [|done]. apply wp_markFailed; eauto with operator.
  - unfold try_bind. eapply wp_deleteIf; [done|done|intros j Hj Hd; by apply Hown, Hdel|].
    intros h' [[]|e] Hsub; [|done]. apply wp_markFailed; eauto with operator.
  - unfold with_result, try_bind. eapply wp_deleteIf; [done|done| |by intros ? []].
    intros j Hj _. by apply Hown, Hdel, decideAddonSync_stale.
  - destruct (proj1 Hok eq_refl) as (He & (Hx & Hc & Hh) & Hs). destruct (Hspec He) as (s & Hr & Hsh).
    unfold record_on. destruct job as [j|]; [|done]. destruct (Hown j eq_refl Hc).
    destruct (Hobs j eq_refl) as [Ho1 Ho2]. eapply wp_recordSyncSuccess; try done; congruence.
  - destruct (proj1 Hfail eq_refl) as (He & (Hx & Hc & Hh) & _).
    unfold record_on. destruct job as [j|]; [|done]. destruct (Hown j eq_refl Hc).
    by apply wp_recordSyncFailure.
  - apply Hset; [done|done|]. apply Hphase. set_solver.
  - apply Hset; [done|done|]. apply Hphase. set_solver.
  - apply Hset; [done|done|]. apply Hphase. set_solver.
  - destruct (proj1 Hnew eq_refl) as (He & Hx & _ & Hskip). rewrite Hskipped in Hskip. destruct (Hspec He) as (s & Hr & _).
    apply Hex in Hx as ->. unfold try_bind. rewrite Hr. apply wp_createSyncJob; [done..|].
    intros h' [[]|e] Hsub; [|done]. apply Hset; [done|done|]. apply Hphase. set_solver.
Qed.

Lemma wp_syncAddon h addon instance pvcName :
  current h addon → live h → wp addon_may h (syncAddon r Getenv addon instance pvcName) any.
Proof.
  intros Hcur Hlive. unfold syncAddon, getSyncJob, try_bind. wp_calls. split; [done|]. intros now.
  apply wp_getJobIfAny. intros h' [job|e] Hsub Hjob; [|done].
  assert (h ⊆ h') by set_solver.
  apply wp_actOnDecision; eauto with operator.
Qed.

Lemma wp_reconcileOdooAddon h addon :
  current h addon → live h → wp addon_may h (reconcileOdooAddon r Getenv addon) any.
Proof.
  intros Hcur Hlive. unfold reconcileOdooAddon.
  destruct (_ && _); [by apply wp_markFailed|].
  destruct (String.eqb _ ""); [by apply wp_pending|]. wp_calls. split; [done|]. intros [instance|e].
  2: { destruct (IsNotFound e); [apply wp_pending; eauto using sub_cons with operator|done]. }
  unfold ensureVolumeMounted. wp_calls. split; [done|]. intros got.
  match goal with |- wp _ ?h' _ _ => assert (h ⊆ h') as Hsub by by do 2 apply list_subseteq_cons end.
  destruct got as [pvc|e].
  - destruct (String.eqb _ _); cbn [negb]; [apply wp_syncAddon|apply wp_pending]; eauto with operator.
  - destruct (IsNotFound e); [|done]. apply wp_pending; eauto with operator.
Qed.

Lemma deleting_current h addon : deleting h addon → current h addon.
Proof. intros [Hget _]. by left. Qed.

(** The Jobs [finishDeletion] retires are the addon's, and the finalizer may go. *)
Lemma wp_finishDeletion h addon sync owned cleanup :
  deleting h addon → volume_gone h addon ∨ cleanup_over h addon →
  (∀ j, sync = Some j → owned = true →
     happened h (OpGet KJob (syncJobKey addon)) (Ok j) ∧
     IsControlledBy (job_Meta j) (ad_Meta addon) = true) →
  (∀ j, cleanup = Some j →
     happened h (OpGet KJob (cleanupJobKey addon)) (Ok j) ∧
     IsControlledBy (job_Meta j) (ad_Meta addon) = true) →
  wp addon_may h (finishDeletion addon sync owned cleanup) any.
Proof.
  intros Hdel Hover Hsync Hcl. unfold finishDeletion, try_bind.
  pose proof (deleting_current _ _ Hdel) as Hcur.
  eapply wp_deleteIf; [done|by left|done|]. intros h1 [[]|e] Hsub1; [|done].
  eapply (wp_deleteIf h1 addon (cleanupJobKey addon)); [eauto with operator|right; by left| |].
  { intros j Hj _. destruct (Hcl j Hj). eauto with operator. }
  intros h2 [[]|e] Hsub2; [|done]. wp_calls. assert (h ⊆ h2) by set_solver.
  split; [|by intros []]. right. exists addon. split_and!; [eauto with operator|done|].
  destruct Hover; [left|right]; eauto with operator.
Qed.

Lemma wp_addonVolume {A} h addon (f : res (option (OdooInstance * string)) → prog A) :
  (∀ h' x, h ⊆ h' → (x = Ok None → volume_gone h' addon) → wp addon_may h' (f x) any) →
  wp addon_may h (prog_bind (addonVolume addon) f) any.
Proof.
  intros Hf. unfold addonVolume. destruct (_ || _) eqn:Href.
  { apply Hf; [done|]. intros _. apply orb_true_iff in Href as [?%String.eqb_eq|[Hr1 Hr2]%andb_true_iff]; [by left|].
    right; left. split; intros Heq; by rewrite Heq, ?String.eqb_refl in *. }
  wp_calls. split; [done|]. intros [instance|e]; cbn [prog_bind].
  - split; [done|]. intros [pvc|e]; [by apply Hf; [set_solver|]|].
    destruct (IsNotFound e) eqn:He; (apply Hf; [set_solver|]); [|done].
    intros _. right; right; right. exists instance, e. split_and!; [right; by left|by left|done].
  - destruct (IsNotFound e) eqn:He; (apply Hf; [by apply list_subseteq_cons|]); [|done].
    intros _. right; right; left. exists e. split; [by left|done].
Qed.

Lemma wp_judgeCleanup h addon job :
  deleting h addon → no_own_sync h addon →
  happened h (OpGet KJob (cleanupJobKey addon)) (Ok job) →
  IsControlledBy (job_Meta job) (ad_Meta addon) = true →
  wp addon_may h (judgeCleanup r addon job) any.
Proof.
  intros Hdel Hno Hget Hctl. unfold judgeCleanup. cbn [observeSyncJob ao_Succeeded ao_Failed].
  assert (∀ h', h ⊆ h' → cleanup_over h' addon →
    wp addon_may h' (finishDeletion addon None false (Some job)) any) as Hfinish.
  { intros h' Hsub Hover. apply wp_finishDeletion; [eauto with operator|by right|done|].
    intros j [= <-]. eauto with operator. }
  assert (∀ h' e, h ⊆ h' → cleanup_over h' addon → wp addon_may h'
    (let* _ := emitEvents (rec_Recorder r) (ad_Meta addon) [e] in
     finishDeletion addon None false (Some job)) any) as Hevent.
  { intros h' e Hsub Hover. apply wp_bind, wp_emitEvents; [done|]. intros h2 Hsub2.
    assert (h' ⊆ h2) by exact Hsub2. apply Hfinish; [set_solver|eauto with operator]. }
  change ((0 <? jst_Succeeded (job_Status job)) || upgradeHasCondition job JobComplete)
    with (upgradeJobSucceeded job).
  destruct (upgradeJobSucceeded job) eqn:Hs; [apply Hfinish; [done|]; split; [done|]; by eauto 10|].
  destruct (upgradeHasCondition job JobFailed) eqn:Hf; [apply Hevent; [done|]; split; [done|]; by eauto 10|].
  wp_calls. split; [done|]. intros now. assert (h ⊆ did OpNow now :: h) by by apply list_subseteq_cons.
  destruct (Z.ltb_spec cleanupTimeout (time_Sub now (m_CreationTimestamp (job_Meta job)))); [|done].
  apply Hevent; [done|]. split; [eauto with operator|]. exists job. split; [eauto with operator|].
  right; right; right. exists now. split; [by left|done].
Qed.

Lemma wp_addonHandleFinalizer h addon :
  happened h (OpGet KAddon key) (Ok addon) → m_DeletionTimestamp (ad_Meta addon) ≠ None →
  wp addon_may h (addonHandleFinalizer r Getenv addon) any.
Proof.
  intros Hget Hdt. unfold addonHandleFinalizer, getSyncJob, getCleanupJob.
  destruct (ContainsFinalizer _ _) eqn:Hfin; cbn [negb]; [|done].
  assert (deleting h addon) as Hdel by done.
  unfold try_bind. apply wp_getJobIfAny. intros h1 [sync|e] Hsub1 Hsync; [|done].
  specialize (Hsync sync eq_refl). apply wp_addonVolume.
  intros h2 [volume|e] Hsub2 Hvol; [|done]. assert (h ⊆ h2) by set_solver.
  set (owned := match sync with Some j => _ | None => _ end).
  assert (∀ j, sync = Some j → owned = true → happened h2 (OpGet KJob (syncJobKey addon)) (Ok j) ∧
    IsControlledBy (job_Meta j) (ad_Meta addon) = true) as Hown by (intros j -> ?; eauto with operator).
  assert (owned = false → no_own_sync h2 addon) as Hno.
  { subst owned. destruct sync as [j|]; intros Hj; [right; exists j; eauto with operator|left; eauto with operator]. }
  destruct volume as [[instance pvcName]|].
  2: { apply wp_finishDeletion; [eauto with operator|left; by apply Hvol|exact Hown|done]. }
  destruct owned.
  { unfold with_result, try_bind. eapply wp_deleteIf; [by apply deleting_current; eauto with operator|by left|done|].
    by intros ? []. }
  specialize (Hno eq_refl). apply wp_getJobIfAny. intros h3 [cleanup|e] Hsub3 Hcl; [|done].
  specialize (Hcl cleanup eq_refl). assert (h ⊆ h3) by set_solver. destruct cleanup as [job|].
  - destruct (IsControlledBy _ _) eqn:Hctl; cbn [negb]; [apply wp_judgeCleanup; eauto with operator|].
    apply wp_finishDeletion; [eauto with operator| |done|done]. right. split; [eauto with operator|].
    exists job. split; [done|by left].
  - unfold with_result, try_bind, createCleanupJob, odooPodNode. wp_calls. split; [done|]. intros pods.
    cbn [prog_bind].
    match goal with |- wp _ ?h' _ _ => assert (h3 ⊆ h') as Hsub4 by by apply list_subseteq_cons end.
    apply wp_createAddonJob; [|by intros ? []].
    intros m Hm. right. eexists addon, _, m. split.
    { eapply deleting_mono, Hdel. by etrans. }
    split; [eapply no_own_sync_mono, Hno; by etrans|]. split; [by eapply job_absent_mono|]. by split.
Qed.

Lemma wp_addonReconcile : wp addon_may [] (addonReconcile r Getenv key) any.
Proof.
  unfold addonReconcile. wp_calls. split; [done|]. intros [addon|e]; [|by destruct (IsNotFound e)].
  destruct (m_DeletionTimestamp (ad_Meta addon)) eqn:Hdt.
  - apply wp_addonHandleFinalizer; [by left|by rewrite Hdt].
  - destruct (ContainsFinalizer _ _) eqn:Hfin; cbn [prog_bind].
    + apply wp_reconcileOdooAddon; [by left; left|]. exists addon. by split; [left|].
    + split; [by left; exists addon; split_and!; [left|..]|]. intros [a|e]; [|done].
      apply wp_reconcileOdooAddon.
      * right. exists addon. by split_and!; [right; left| |left].
      * exists addon. by split; [right; left|].
Qed.
End Safety.

(** ** Properties *)
Definition addon_status_write (o : op) : option OdooAddon :=
  match o with OpStatusUpdate KAddon a => Some a | _ => None end.
Definition addon_update (o : op) : option OdooAddon :=
  match o with OpUpdate KAddon a => Some a | _ => None end.
Definition job_delete (o : op) : option (Job * option DeleteOptions) :=
  match o with OpDelete KJob j opts => Some (j, opts) | _ => None end.
Definition addon_other_write (o : op) : option op :=
  match o with
  | OpStatusUpdate KAddon _ | OpCreate KJob _ | OpDelete KJob _ _ | OpUpdate KAddon _ => None
  | OpGet _ _ | OpList _ _ _ | OpNow | OpPodLogs _ _ _ _ | OpEvent _ _ _ => None
  | o => Some o
  end.

(** C14: the status of an addon never claims a sync that did not happen. Whatever the API server
    answers, every status a pass writes is for the addon as it was read (metadata and spec
    unchanged), keeps Ready equal to the phase being Synced, and has a Ready condition that agrees
    with the phase for the object's generation. A Synced phase is either kept, with the same commit
    and modules, or comes with the evidence, all of it read in this pass: the sync Job controlled
    by the addon, built from the current spec, succeeded, and the commit and modules are what the
    log of a pod of exactly that Job (selected by its UID) says. *)
Theorem addonReconcile_status `{Unicode} `{KubeLib} `{UrlLib} `{!ConditionLaws} r Getenv key tr a :
  execs (addonReconcile r Getenv key) [] tr a →
  Forall (λ c, status_ok key c.2 c.1) (calls_of addon_status_write tr).
Proof.
  intros He. apply (calls_allowed _ _ tr a addon_status_write (status_ok key)
    (wp_addonReconcile r Getenv key) He).
  intros h o b. by destruct o as [| | | | [] | | | | | |]; intros [= ->].
Qed.

(** C15: the Jobs of an addon. Whatever the API server answers, a pass deletes a Job only after
    reading it under the addon's own Job names and finding it controlled by the addon, and with the
    UID of what it read as a precondition, so a foreign or newer Job of that name is never deleted.
    It creates a sync Job only for an addon that is not being deleted, from its validated spec,
    when no such Job exists and the commit is not already synced; and a cleanup Job only while the
    addon is being deleted, after seeing that no sync Job of its own is left to write to the
    volume. Every Job created is controlled by the addon. *)
Theorem addonReconcile_jobs `{Unicode} `{KubeLib} `{UrlLib} `{!ConditionLaws} r Getenv key tr a :
  execs (addonReconcile r Getenv key) [] tr a →
  Forall (λ c, delete_ok key c.2 c.1.1 c.1.2) (calls_of job_delete tr) ∧
  Forall (λ c, create_sync_ok key c.2 c.1 ∨ create_cleanup_ok key c.2 c.1) (calls_of job_create tr).
Proof.
  intros He. split.
  - apply (calls_allowed _ _ tr a job_delete (λ h d, delete_ok key h d.1 d.2)
      (wp_addonReconcile r Getenv key) He).
    intros h o b. by destruct o as [| | | | | |[] | | | |]; intros [= <-].
  - apply (calls_allowed _ _ tr a job_create (λ h j, create_sync_ok key h j ∨ create_cleanup_ok key h j)
      (wp_addonReconcile r Getenv key) He).
    intros h o b. by destruct o as [| |[] | | | | | | | |]; intros [= ->].
Qed.

(** C24: the finalizer of an addon. Whatever the API server answers, the only updates of a pass are
    the finalizer's: it is added to an addon that is not being deleted, and removed from one that
    is only when its volume is gone (it names no instance of its namespace, a read in this pass did
    not find that instance, or found it and not its addons claim), or when no sync Job of its own
    remains and the cleanup Job succeeded, failed, overran its time limit or belongs to someone else.
    Nothing else of the addon's metadata or spec changes, and beyond the addon, its status and the
    Jobs of C15 a pass writes nothing. *)
Theorem addonReconcile_finalizer `{Unicode} `{KubeLib} `{UrlLib} `{!ConditionLaws} r Getenv key tr a :
  execs (addonReconcile r Getenv key) [] tr a →
  Forall (λ c, update_ok key c.2 c.1) (calls_of addon_update tr) ∧ calls_of addon_other_write tr = [].
Proof.
  intros He. split.
  - apply (calls_allowed _ _ tr a addon_update (update_ok key) (wp_addonReconcile r Getenv key) He).
    intros h o b. by destruct o as [| | |[] | | | | | | |]; intros [= ->].
  - assert (Forall (λ c, False) (calls_of addon_other_write tr)) as Hnone.
    { apply (calls_allowed _ _ tr a addon_other_write (λ _ _, False) (wp_addonReconcile r Getenv key) He).
      intros h o b. by destruct o as [| |[]|[]|[]| |[]| | | |]. }
    by destruct Hnone.
Qed.

(** *** Witnesses: a pass that records a finished sync, and one that ends a deletion *)
Definition git_addon : OdooAddon := sync_addon "sale-x" "https://host/repo" "" "".

(** A Job of the addon (whose UID is empty) that succeeded, for the current spec. *)
Definition finished_job : Job :=
  {| job_Meta := with_owners [ {| owner_UID := ""; owner_Controller := true |} ]
       (with_labels ∅ {[annotationSyncSpecHash :=
          match @resolveSyncSpec unicode_ref url_ref git_addon with
          | Ok s => syncSpecHash s | Err _ => "" end]} (newMeta "sale-x-sync" "shop"));
     job_Spec := job_Spec (buildSyncJob git_addon noSyncSpec
       {| jo_Image := ""; jo_PVCName := ""; jo_NodeName := ""; jo_AddonsAccessMode := "" |});
     job_Status := {| jst_Succeeded := 1; jst_Failed := 0; jst_Conditions := [];
                      jst_CompletionTime := None |} |}.

Definition deleted_addon : OdooAddon :=
  ad_with_meta {| m_Name := "sale-x"; m_Namespace := "shop"; m_UID := "a"; m_ResourceVersion := "7";
    m_Generation := 1; m_CreationTimestamp := 0; m_DeletionTimestamp := Some 5; m_Labels := ∅;
    m_Annotations := ∅; m_OwnerReferences := []; m_Finalizers := [finalizerOdooAddon] |} git_addon.

(** The server of a namespace with the addon [u] and the Jobs [job] gives. *)
Definition addon_server (u : OdooAddon) (job : NamespacedName → res Job) (s : unit) (o : op)
    : answer o * unit :=
  (match o return answer o with
   | OpGet KAddon _ => Ok u
   | OpGet KInstance _ => Ok {| in_Meta := newMeta "shop" "shop"; in_Spec := conf_example;
       in_Status := {| ist_Ready := true; ist_Phase := "Running"; ist_AddonPaths := [];
         ist_ObservedGeneration := 1; ist_Conditions := []; ist_Message := "";
         ist_Initialized := true; ist_InitUpgrade := ""; ist_AppliedAddonsHash := "";
         ist_ActiveUpgrade := "" |} |}
   | OpGet KPVC _ => Ok {| pvc_Meta := newMeta "shop-addons" "shop"; pvc_AccessModes := [];
       pvc_StorageRequest := ""; pvc_StorageClassName := None; pvc_Phase := ClaimBound |}
   | OpGet KJob k => job k
   | OpList KPod _ _ => Ok [ {| pod_Meta := newMeta "p" "shop"; pod_Phase := ""; pod_NodeName := "" |} ]
   | OpPodLogs _ _ _ _ => Ok ("modules: sale_x" +:+ nl +:+ example_sha +:+ nl)
   | OpUpdate KAddon a => Ok a
   | OpStatusUpdate KAddon a => Ok a
   | OpCreate KJob j => Ok j
   | OpDelete _ _ _ => Ok tt
   | o => refuse o
   end, s).

Definition addon_key : NamespacedName := {| nn_Namespace := "shop"; nn_Name := "sale-x" |}.
Definition addon_pass : prog (res Result) :=
  @addonReconcile unicode_ref kube_ref url_ref {| rec_Recorder := true; rec_Clientset := true |}
    (λ _, "") addon_key.
Definition addon_trace (u : OdooAddon) (job : NamespacedName → res Job) : list event :=
  (run (addon_server u job) tt addon_pass []).2.

Lemma addonReconcile_status_witness :
  (λ c, (ads_Phase (ad_Status c.1), ads_Modules (ad_Status c.1))) <$>
    calls_of addon_status_write (addon_trace git_addon (λ _, Ok finished_job)) = [("Synced", ["sale_x"])] ∧
  Forall (λ c, status_ok addon_key c.2 c.1)
    (calls_of addon_status_write (addon_trace git_addon (λ _, Ok finished_job))).
Proof.
  split; [by vm_compute|]. unfold addon_trace, addon_pass.
  exact (addonReconcile_status _ _ _ _ _
    (run_execs (addon_server git_addon (λ _, Ok finished_job)) tt _ [])).
Defined.

Definition no_job (k : NamespacedName) : res Job := Err (StatusError CodeNotFound "not found").

Lemma addonReconcile_jobs_witness :
  (λ c, m_Name (job_Meta c.1)) <$> calls_of job_create (addon_trace deleted_addon no_job) =
    ["sale-x-cleanup"] ∧
  Forall (λ c, create_sync_ok addon_key c.2 c.1 ∨ create_cleanup_ok addon_key c.2 c.1)
    (calls_of job_create (addon_trace deleted_addon no_job)).
Proof.
  split; [by vm_compute|]. unfold addon_trace, addon_pass.
  exact (proj2 (addonReconcile_jobs _ _ _ _ _
    (run_execs (addon_server deleted_addon no_job) tt _ []))).
Defined.

Lemma addonReconcile_finalizer_witness :
  (λ c, m_Finalizers (ad_Meta c.1)) <$>
    calls_of addon_update (addon_trace git_addon (λ _, Ok finished_job)) = [[finalizerOdooAddon]] ∧
  Forall (λ c, update_ok addon_key c.2 c.1)
    (calls_of addon_update (addon_trace git_addon (λ _, Ok finished_job))).
Proof.
  split; [by vm_compute|]. unfold addon_trace, addon_pass.
  exact (proj1 (addonReconcile_finalizer _ _ _ _ _
    (run_execs (addon_server git_addon (λ _, Ok finished_job)) tt _ []))).
Defined.

Close Scope Z_scope.
