(* ===== verification/AddonProgress.v ===== *)
(** * An addon gets synced

    Passes of [addonReconcile] on a [Cluster] in which the Jobs of the addon run to success and time
    goes by. A pass is one move of a small state machine ([pass_moves]); from any state of the status
    and of the sync Job (stale, failed, finished, running, or none), the third pass at the latest
    brings the addon to the phase Synced with the commit and the modules of the log, and there it
    stays. *)
From S2P Require Export Cluster AddonController.

Open Scope Z_scope.

Section Progress.
Context `{Unicode} `{KubeLib} `{UrlLib} `{!OwnerLaws} `{!ErrorLaws} `{!EqualityLaws}.
(** The environment of the operator, and what the log of a pod says. *)
Context (r : Reconciler) (Getenv : string → string) (logs commit : string) (modules : list string).
(** The addon: its status is what changes. *)
Context (meta : ObjectMeta) (spec : OdooAddonSpec) (s : syncSpec).

Abbreviation effect := (effect (api logs)).
Definition addon (st : OdooAddonStatus) : OdooAddon := {| ad_Meta := meta; ad_Spec := spec; ad_Status := st |}.
Definition key : NamespacedName := objectKey meta.
Definition pass (w : cluster) : cluster := (effect w (addonReconcile r Getenv key)).2.

Abbreviation name := (m_Name meta).
Abbreviation job_name := (syncJobName name).
Abbreviation instance_name := (ref_Name (ad_InstanceRef spec)).

Definition addon_at (w : cluster) : option OdooAddon := objects w KAddon !! name.
Definition sync_job (w : cluster) : option Job := objects w KJob !! job_name.

(** *** The addon can be synced

    It is not being deleted, has its finalizer, a valid spec and an instance in its namespace. *)
Context (Hdeletion : m_DeletionTimestamp meta = None).
Context (Hfinalizer : ContainsFinalizer meta finalizerOdooAddon = true).
Context (Hinstance : instance_name ≠ "").
Context (Hnamespace : ref_Namespace (ad_InstanceRef spec) ∈ [""; m_Namespace meta]).
Context (Hspec : ∀ st, resolveSyncSpec (addon st) = Ok s).
Context (Hclientset : rec_Clientset r = true).
Context (Hlogs : parseSyncOutput (LimitRead addonLogReadLimit logs) = (commit, modules)) (Hcommit : commit ≠ "").

(** The instance is there, and its addons claim is bound. *)
Definition instance_at (w : cluster) : option OdooInstance := objects w KInstance !! instance_name.
Definition claim_at (w : cluster) : option PersistentVolumeClaim := objects w KPVC !! addonsPVCName instance_name.
Definition volume (w : cluster) : Prop :=
  (∃ i, instance_at w = Some i ∧ m_Name (in_Meta i) = instance_name) ∧
  (∃ p, claim_at w = Some p ∧ pvc_Phase p = ClaimBound).

(** No foreign Job has the name of the sync Job, and the last sync is not in the future. *)
Definition ours (j : Job) : Prop := m_Name (job_Meta j) = job_name ∧ IsControlledBy (job_Meta j) meta = true.
Record operable (w : cluster) (st : OdooAddonStatus) : Prop := {
  op_addon : addon_at w = Some (addon st);
  op_volume : volume w;
  op_job j : sync_job w = Some j → ours j;
  op_past last : ads_LastSyncTime st = Some last → last ≤ clock w
}.

(** What the controller sees of the Job. *)
Definition for_spec (j : Job) : Prop := map_get (m_Annotations (job_Meta j)) annotationSyncSpecHash = syncSpecHash s.
Definition failed (j : Job) : Prop := upgradeHasCondition j JobFailed = true.
Definition succeeded (j : Job) : Prop := (0 <? jst_Succeeded (job_Status j)) || upgradeHasCondition j JobComplete = true.
(** ... and the pods of the Job, whose log it reads. *)
Definition pods_of (w : cluster) (j : Job) : list Pod := labelled KPod {[batchControllerUIDLabel := m_UID (job_Meta j)]} w.

(** The status says what the log said. *)
Definition says_synced (st : OdooAddonStatus) : Prop :=
  ads_Phase st = phaseSynced ∧ ads_Ready st = true ∧ ads_ClonedCommit st = commit ∧ ads_Modules st = modules.
Definition synced (w : cluster) : Prop := ∃ st, addon_at w = Some (addon st) ∧ says_synced st.

(** ** Moves *)

(** Nothing but the status of the addon and its sync Job changed. *)
Definition became (st : OdooAddonStatus) (job : option Job) (w w' : cluster) : Prop :=
  objects w' KAddon = <[name := addon st]> (objects w KAddon) ∧
  objects w' KJob = partial_alter (λ _, job) job_name (objects w KJob) ∧
  frame [KAddon; KJob] w w' ∧ clock w' = clock w.

Definition due (w : cluster) (st : OdooAddonStatus) : Prop := sync_due (syncInputOf (addon st) (clock w) None).

(** One pass, as a move from the status [st] and the Job in [w]. *)
Inductive sync_move (w : cluster) (st : OdooAddonStatus) : OdooAddonStatus → option Job → Prop :=
  | MoveStale j :
      sync_job w = Some j → ¬ for_spec j → sync_move w st st None
  | MoveRecord j conds :
      sync_job w = Some j → for_spec j → succeeded j → pods_of w j ≠ [] →
      sync_move w st (ads_conds conds (ads_synced commit modules (clock w) st)) None
  | MoveFail j msg conds :
      sync_job w = Some j → for_spec j → (succeeded j → pods_of w j = []) → succeeded j ∨ failed j →
      sync_move w st (ads_conds conds (ads_failed msg (Some (clock w)) st)) None
  | MoveAwait j conds :
      sync_job w = Some j → for_spec j → ¬ succeeded j → ¬ failed j →
      sync_move w st (ads_conds conds (ads_set_phase (syncingPhaseFor (ads_Phase st)) st)) (Some j)
  | MoveIdle conds :
      sync_job w = None → ¬ due w st ∨ canSkipResync (addon st) = true →
      sync_move w st (ads_conds conds st) None
  | MoveCreate j conds :
      sync_job w = None → due w st → canSkipResync (addon st) = false →
      ours j → for_spec j → job_Status j = noJobStatus →
      sync_move w st (ads_conds conds (ads_set_phase (syncingPhaseFor (ads_Phase st)) st)) (Some j).

(** ** The parts of a pass *)
Lemma became_refl st w : addon_at w = Some (addon st) → became st (sync_job w) w w.
Proof.
  intros Ha. split_and!; [symmetry; by apply insert_id|symmetry; apply partial_alter_self|done|done].
Qed.

Lemma became_trans st st' job job' w w' w'' : became st job w w' → became st' job' w' w'' → became st' job' w w''.
Proof.
  intros (Ha & Hj & Hf & Hc) (Ha' & Hj' & Hf' & Hc'). split_and!.
  - by rewrite Ha', Ha, insert_insert_eq.
  - by rewrite Hj', Hj, partial_alter_partial_alter_eq.
  - by transitivity w'.
  - by rewrite Hc'.
Qed.

Lemma became_addon st job w w' : became st job w w' → addon_at w' = Some (addon st).
Proof. intros (Ha & _). unfold addon_at. rewrite Ha. apply lookup_insert_eq. Qed.
Lemma became_job st job w w' : became st job w w' → sync_job w' = job.
Proof. intros (_ & Hj & _). unfold sync_job. rewrite Hj. apply lookup_partial_alter_eq. Qed.

(** A status write stores the changed status, whatever its conditions become. *)
Lemma effect_writeAddonStatus w st reason msg f :
  addon_at w = Some (addon st) →
  ∃ conds w', effect w (writeAddonStatus r (addon st) reason msg f) = (Ok tt, w') ∧
    became (ads_conds conds (f st)) (sync_job w) w w'.
Proof.
  intros Ha. unfold writeAddonStatus. rewrite effect_now. cbn [ad_Status addon ad_Meta].
  match goal with |- context [SemanticDeepEqual _ (ads_conds ?cs _)] => exists cs end.
  rewrite deep_equal. case_bool_decide as Heq.
  - exists w. split; [done|]. rewrite <-Heq. by apply became_refl.
  - unfold try_bind. erewrite effect_updateStatus by exact Ha. rewrite effect_bind, effect_events.
    eexists. split; [done|]. split_and!; [apply put_objects_eq| |by eapply frame_sub; [|apply frame_put]|done].
    cbn [snd]. unfold put. rewrite put_objects_ne by done. apply (became_refl st w Ha).
Qed.

Lemma effect_deleteJob w st j :
  addon_at w = Some (addon st) → sync_job w = Some j → ours j →
  ∃ w', effect w (deleteJob j) = (Ok tt, w') ∧ became st None w w'.
Proof.
  intros Ha Hj [Hn _]. unfold deleteJob.
  rewrite (effect_delete logs w KJob j _ j) by (cbn; rewrite Hn; exact Hj). cbn [obj_meta]. rewrite Hn.
  eexists. split; [done|]. split_and!; [|apply put_objects_eq|by eapply frame_sub; [|apply frame_erase]|done].
  unfold erase. rewrite put_objects_ne by done. symmetry. by apply insert_id.
Qed.

Lemma effect_readSyncOutput w j :
  effect w (readSyncOutput r j) =
    (match pods_of w j with [] => (effect w (readSyncOutput r j)).1 | _ => Ok (commit, modules) end, w) ∧
  (pods_of w j = [] → ∃ e, (effect w (readSyncOutput r j)).1 = Err e).
Proof.
  unfold readSyncOutput, readJobLogs, jobPod. rewrite Hclientset. cbn [negb].
  change (labelled KPod _ w) with (pods_of w j). wp_calls. rewrite effect_do. cbn [fst snd api].
  change (labelled KPod _ w) with (pods_of w j). destruct (pods_of w j) as [|p pods]; [by split; [|eexists]|].
  split; [|done]. wp_calls. rewrite effect_do. cbn [fst snd api prog_bind]. rewrite Hlogs.
  by destruct (String.eqb_spec commit "").
Qed.

(** A write of the phase, while the Job is [job]. *)
Lemma effect_setPhase w st phase :
  addon_at w = Some (addon st) →
  ∃ conds w', effect w (setPhase r (addon st) phase) = (Ok tt, w') ∧
    became (ads_conds conds (ads_set_phase phase st)) (sync_job w) w w'.
Proof.
  intros Ha. unfold setPhase. destruct (if String.eqb phase "" then _ else _) as [reason msg].
  by apply effect_writeAddonStatus.
Qed.

Lemma effect_finishFailedSyncJob w st j reason msg :
  addon_at w = Some (addon st) → sync_job w = Some j → ours j →
  ∃ conds, became (ads_conds conds (ads_failed msg (Some (clock w)) st)) None w
    (effect w (finishFailedSyncJob r (addon st) j reason msg)).2.
Proof.
  intros Ha Hj Hours. unfold finishFailedSyncJob. rewrite effect_now.
  destruct (effect_writeAddonStatus w st reason msg (ads_failed msg (Some (clock w))) Ha) as (conds & w1 & Hw & Hb).
  rewrite (effect_try _ _ _ _ _ _ Hw). exists conds.
  destruct (effect_deleteJob w1 _ j (became_addon _ _ _ _ Hb)) as (w2 & Hd & Hb2);
    [by rewrite (became_job _ _ _ _ Hb)|done|].
  unfold with_result. rewrite (effect_try _ _ _ _ _ _ Hd). by eapply became_trans.
Qed.

(** The created Job: the addon's, for the current spec, and with nothing in its status. *)
Lemma effect_createSyncJob w st (i : OdooInstance) pvcName :
  addon_at w = Some (addon st) → sync_job w = None →
  ∃ j w', effect w (createSyncJob Getenv (addon st) i pvcName s) = (Ok tt, w') ∧ became st (Some j) w w' ∧
    ours j ∧ for_spec j ∧ job_Status j = noJobStatus.
Proof.
  intros Ha Hj. unfold createSyncJob. rewrite effect_bind. unfold odooPodNode. rewrite effect_list.
  set (node := running_node _). change (effect w (Ret node)) with (node, w). cbn [fst snd].
  set (job := buildSyncJob _ _ _).
  pose proof (set_controller_new meta (job_Meta job) eq_refl eq_refl) as Hok. unfold createAddonJob. cbn [ad_Meta addon].
  destruct (SetControllerReference meta (job_Meta job)) as [m|] eqn:Hm; [|done].
  destruct (set_controller_ref _ _ _ Hm) as (Howned & Hmeta & _).
  assert (m_Name (obj_meta KJob (job_with_meta m job)) = job_name) as Hname by (cbn; by rewrite Hmeta).
  rewrite (effect_create logs w KJob (job_with_meta m job)) by (rewrite Hname; exact Hj). rewrite Hname.
  exists (job_with_meta m job). eexists. split; [reflexivity|]. split_and!.
  - split_and!; [|apply put_objects_eq|by eapply frame_sub; [|apply frame_put]|done].
    unfold put. rewrite put_objects_ne by done. symmetry. by apply insert_id.
  - split; [exact Hname|exact Howned].
  - unfold for_spec. cbn [job_with_meta job_Meta]. rewrite Hmeta.
    change (map_get {[annotationSyncSpecHash := syncSpecHash s]} annotationSyncSpecHash = syncSpecHash s).
    unfold map_get. by rewrite lookup_singleton_eq.
  - done.
Qed.

Lemma effect_recordSyncSuccess w st j :
  addon_at w = Some (addon st) → sync_job w = Some j → ours j → for_spec j → succeeded j →
  ∃ st', became st' None w (effect w (recordSyncSuccess r (addon st) j)).2 ∧ sync_move w st st' None.
Proof.
  intros Ha Hj Hours Hs Hsucc. unfold recordSyncSuccess.
  destruct (effect_readSyncOutput w j) as [He Hlost]. rewrite effect_bind, He. cbn [fst snd].
  destruct (pods_of w j) as [|p pods] eqn:Hpods.
  - destruct (Hlost eq_refl) as [e ->].
    destruct (effect_finishFailedSyncJob w st j ReasonSyncFailed (error_text e) Ha Hj Hours) as [conds Hb].
    eexists. split; [exact Hb|]. apply (MoveFail w st j); auto.
  - rewrite effect_now.
    destruct (effect_writeAddonStatus w st "" "" (ads_synced commit modules (clock w)) Ha) as (conds & w1 & Hw & Hb).
    rewrite (effect_try _ _ _ _ _ _ Hw).
    destruct (effect_deleteJob w1 _ j (became_addon _ _ _ _ Hb)) as (w2 & Hd & Hb2);
      [by rewrite (became_job _ _ _ _ Hb)|done|].
    unfold with_result. rewrite (effect_try _ _ _ _ _ _ Hd). eexists. split; [by eapply became_trans|].
    apply (MoveRecord w st j); [done..|by rewrite Hpods].
Qed.

Lemma effect_recordSyncFailure w st j :
  addon_at w = Some (addon st) → sync_job w = Some j → ours j → for_spec j → ¬ succeeded j → failed j →
  ∃ st', became st' None w (effect w (recordSyncFailure r (addon st) j)).2 ∧ sync_move w st st' None.
Proof.
  intros Ha Hj Hours Hs Hno Hfail. unfold recordSyncFailure. rewrite effect_bind.
  rewrite (effect_reading logs (readJobLogs r j) w).
  2: { unfold readJobLogs, jobPod. rewrite Hclientset. cbn. split; [done|]. intros [[|p pods]|e]; cbn; try done.
       split; [done|]. by intros [data|e]. }
  cbv zeta. match goal with |- context [finishFailedSyncJob _ _ _ ?reason ?msg] =>
    destruct (effect_finishFailedSyncJob w st j reason msg Ha Hj Hours) as [conds Hb] end.
  eexists. split; [exact Hb|]. apply (MoveFail w st j); auto. by intros ?.
Qed.

(** ** A pass is a move *)
Lemma pass_acts w st :
  operable w st → ∃ i pvcName,
  pass w = (effect w (actOnDecision r Getenv (addon st) i pvcName (sync_job w)
    (decideAddonSync (syncInputOf (addon st) (clock w) (sync_job w))))).2.
Proof.
  intros [Ha [(i & Hi & Hname) (p & Hp & Hb)] _ _]. exists i, (addonsPVCName instance_name).
  unfold pass, addonReconcile. rewrite effect_get. change (objects w KAddon !! nn_Name key) with (addon_at w).
  rewrite Ha. cbn [found ad_Meta addon]. rewrite Hdeletion, Hfinalizer. unfold reconcileOdooAddon, try_bind, ok. cbn [prog_bind ad_Meta ad_Spec addon].
  assert (negb (String.eqb (ref_Namespace (ad_InstanceRef spec)) "") &&
    negb (String.eqb (ref_Namespace (ad_InstanceRef spec)) (m_Namespace meta)) = false) as ->.
  { apply elem_of_cons in Hnamespace as [->| ->%list_elem_of_singleton]; [done|].
    by rewrite String.eqb_refl, andb_false_r. }
  destruct (String.eqb_spec instance_name ""); [done|]. rewrite effect_get.
  change (objects w KInstance !! _) with (instance_at w). rewrite Hi. cbn [found]. rewrite Hname. unfold ensureVolumeMounted. wp_calls. rewrite effect_do. cbn [api fst snd].
  change (objects w KPVC !! _) with (claim_at w). rewrite Hp.
  cbn [found prog_bind]. rewrite Hb, String.eqb_refl. cbn [negb]. unfold syncAddon, getSyncJob, getJobIfAny. wp_calls.
  rewrite effect_do. cbn [fst snd api]. rewrite effect_do. cbn [fst snd api].
  change (objects w KJob !! nn_Name (syncJobKey (addon st))) with (sync_job w).
  destruct (sync_job w) as [j|]; cbn [found prog_bind]; [done|]. by rewrite missing_not_found.
Qed.

(** The decision on an addon whose Job is its own. *)
Lemma decision_job w st j :
  operable w st → sync_job w = Some j →
  decideAddonSync (syncInputOf (addon st) (clock w) (Some j)) =
    if negb (String.eqb (map_get (m_Annotations (job_Meta j)) annotationSyncSpecHash) (syncSpecHash s)) then
      decision addonActionDeleteStaleJob "" "" true addonStaleJobRequeue
    else if (0 <? jst_Succeeded (job_Status j)) || upgradeHasCondition j JobComplete then
      decision addonActionRecordSuccess phaseSynced "" true resyncInterval
    else if upgradeHasCondition j JobFailed then
      decision addonActionRecordFailure phaseFailed "" true failureBackoff
    else decision addonActionAwaitJob (syncingPhaseFor (ads_Phase st)) "" false addonAwaitRequeue.
Proof.
  intros Hop Hj. unfold decideAddonSync, syncInputOf. cbn [ai_SpecErr ai_SpecHash ai_Job ai_Phase].
  rewrite Hspec. cbn [String.eqb negb observeSyncJob ao_Exists ao_ControlledByAddon ad_Meta addon].
  by rewrite (proj2 (op_job _ _ Hop j Hj)).
Qed.

(** ... and on one without a Job. *)
Lemma decision_idle w st :
  due w st ∧ canSkipResync (addon st) = false ∧
    decideAddonSync (syncInputOf (addon st) (clock w) None) =
      decision addonActionCreateJob (syncingPhaseFor (ads_Phase st)) "" false addonCreateRequeue ∨
  (¬ due w st ∨ canSkipResync (addon st) = true) ∧ ∃ a after, a ∈ [addonActionCooldown; addonActionSkipResync] ∧
    decideAddonSync (syncInputOf (addon st) (clock w) None) = decision a "" "" false after.
Proof.
  unfold decideAddonSync, decideIdle, due, sync_due, syncInputOf.
  cbn [ai_SpecErr ai_Job ai_Phase ai_LastSyncTime ai_SkipResync ai_Now ad_Status addon observeSyncJob ao_Exists].
  rewrite Hspec. cbn [String.eqb negb]. destruct (ads_LastSyncTime st) as [last|].
  - destruct (Z.ltb_spec (time_Sub (clock w) last) (syncInterval (ads_Phase st))) as [Hlt|Hge].
    + right. split; [left; intros Hdue; specialize (Hdue last eq_refl); lia|]. eexists addonActionCooldown, _. split; [set_solver|done].
    + destruct (canSkipResync (addon st)) eqn:Hskip; [right|left].
      * split; [by right|]. eexists addonActionSkipResync, _. split; [set_solver|done].
      * split_and!; [by intros ? [= <-]|done|done].
  - destruct (canSkipResync (addon st)) eqn:Hskip; [right|left].
    + split; [by right|]. eexists addonActionSkipResync, _. split; [set_solver|done].
    + by split_and!.
Qed.

Lemma pass_moves w st :
  operable w st → ∃ st' job', became st' job' w (pass w) ∧ sync_move w st st' job'.
Proof.
  intros Hop. pose proof (op_addon _ _ Hop) as Ha. destruct (pass_acts w st Hop) as (i & pvcName & ->).
  destruct (sync_job w) as [j|] eqn:Hj.
  - pose proof (op_job _ _ Hop j Hj) as Hours. rewrite (decision_job w st j Hop Hj).
    destruct (String.eqb_spec (map_get (m_Annotations (job_Meta j)) annotationSyncSpecHash) (syncSpecHash s)) as [Hs|Hs]; cbn [negb].
    2: { cbn [decision actOnDecision de_Action deleteIf]. unfold with_result.
         destruct (effect_deleteJob w st j Ha Hj Hours) as (w' & He & Hb). rewrite (effect_try _ _ _ _ _ _ He).
         eexists _, _. split; [exact Hb|]. by eapply MoveStale. }
    destruct (_ || _) eqn:Hsucc.
    { cbn [decision actOnDecision de_Action record_on].
      destruct (effect_recordSyncSuccess w st j Ha Hj Hours Hs Hsucc) as (st' & Hb & Hm). by eexists _, _. }
    assert (¬ succeeded j) as Hno by (unfold succeeded; congruence).
    destruct (upgradeHasCondition j JobFailed) eqn:Hfail; cbn [decision actOnDecision de_Action de_Phase record_on].
    { destruct (effect_recordSyncFailure w st j Ha Hj Hours Hs Hno Hfail) as (st' & Hb & Hm). by eexists _, _. }
    unfold with_result. destruct (effect_setPhase w st (syncingPhaseFor (ads_Phase st)) Ha) as (conds & w' & He & Hb).
    rewrite (effect_try _ _ _ _ _ _ He). rewrite Hj in Hb. eexists _, _. split; [exact Hb|].
    apply (MoveAwait w st j); [done..|]. unfold failed. congruence.
  - destruct (decision_idle w st) as [(Hdue & Hskip & ->)|(Hidle & a & after & Hact & ->)].
    + cbn [decision actOnDecision de_Action de_Phase de_Requeue]. rewrite Hspec.
      destruct (effect_createSyncJob w st i pvcName Ha Hj) as (j & w1 & Hc & Hb & Hours & Hs & Hno).
      rewrite (effect_try _ _ _ _ _ _ Hc).
      destruct (effect_setPhase w1 st (syncingPhaseFor (ads_Phase st)) (became_addon _ _ _ _ Hb)) as (conds & w2 & He & Hb2).
      unfold with_result. rewrite (effect_try _ _ _ _ _ _ He). rewrite (became_job _ _ _ _ Hb) in Hb2.
      eexists _, _. split; [by eapply became_trans|]. by apply (MoveCreate w st j).
    + destruct (effect_setPhase w st "" Ha) as (conds & w' & He & Hb). rewrite Hj in Hb. change (ads_set_phase "" st) with st in Hb.
      exists (ads_conds conds st), None. split; [|by apply MoveIdle].
      assert (∀ d, d = decision a "" "" false after → (effect w (actOnDecision r Getenv (addon st) i pvcName None d)).2 = w') as Hend.
      { intros d ->. unfold actOnDecision. cbn [decision de_Action de_Phase de_Requeue].
        apply elem_of_cons in Hact as [-> | ->%list_elem_of_singleton]; unfold with_result; by rewrite (effect_try _ _ _ _ _ _ He). }
      by rewrite (Hend _ eq_refl).
Qed.

(** ** From pass to pass *)

(** A Job runs: it succeeds and its pods are there to be asked, unless it had failed already. *)
Definition ran (w' : cluster) (j j' : Job) : Prop :=
  ours j' ∧ (for_spec j' ↔ for_spec j) ∧ (succeeded j' → pods_of w' j' ≠ []) ∧ (succeeded j' ∨ failed j ∧ failed j').

(** What others do between two passes: the Job runs, and a resync interval goes by; the addon and its
    Job are left to the operator, and the instance keeps its claim. *)
Record interlude (w w' : cluster) : Prop := {
  il_addon : addon_at w' = addon_at w;
  il_volume : volume w → volume w';
  il_none : sync_job w = None → sync_job w' = None;
  il_job j : sync_job w = Some j → ours j → ∃ j', sync_job w' = Some j' ∧ ran w' j j';
  il_clock : clock w + resyncInterval <= clock w'
}.

(** The next pass records the result; or it starts a sync; or the addon is synced already. *)
Definition records (w : cluster) : Prop := ∃ st j,
  operable w st ∧ sync_job w = Some j ∧ for_spec j ∧ succeeded j ∧ pods_of w j ≠ [].
Definition starts (w : cluster) : Prop := ∃ st,
  operable w st ∧ sync_job w = None ∧ due w st ∧ canSkipResync (addon st) = false.
Definition settled (w : cluster) : Prop := ∃ st,
  operable w st ∧ says_synced st ∧ ∀ j, sync_job w = Some j → succeeded j ∧ pods_of w j ≠ [].

(** After a pass that left the status [st] and the Job [job], and an interlude. *)
Section Next.
Context (w : cluster) (st0 st : OdooAddonStatus) (job : option Job) (w1 w' : cluster).
Context (Hop : operable w st0) (Hb : became st job w w1) (Hi : interlude w1 w').
Context (Hours : ∀ j, job = Some j → ours j) (Hpast : ∀ last, ads_LastSyncTime st = Some last → last <= clock w).

Lemma became_volume : volume w1.
Proof.
  destruct Hb as (_ & _ & Hf & _). pose proof (op_volume _ _ Hop) as Hv. unfold volume, instance_at, claim_at in *.
  by rewrite (frame_at _ _ _ KInstance Hf eq_refl), (frame_at _ _ _ KPVC Hf eq_refl).
Qed.

Lemma next_operable : operable w' st.
Proof.
  split.
  - rewrite (il_addon _ _ Hi). by eapply became_addon.
  - apply (il_volume _ _ Hi), became_volume.
  - intros j' Hj'. destruct job as [j|] eqn:Hjob.
    + destruct (il_job _ _ Hi j) as (j'' & Hj'' & Hr & _); [by eapply became_job|by apply Hours|]. by rewrite Hj' in Hj''; injection Hj'' as ->.
    + rewrite (il_none _ _ Hi) in Hj'; [done|by eapply became_job].
  - intros last Hlast. specialize (Hpast last Hlast). destruct Hb as (_ & _ & _ & Hc). pose proof (il_clock _ _ Hi).
    unfold resyncInterval, Minute, Second in *. lia.
Qed.

(** After an interlude, a sync is due. *)
Lemma next_due : due w' st.
Proof.
  intros last Hlast. cbn in Hlast |- *. specialize (Hpast last Hlast).
  pose proof (syncInterval_range (ads_Phase st)) as Hr. revert Hr.
  destruct Hb as (_ & _ & _ & Hc). pose proof (il_clock _ _ Hi) as Hl. rewrite Hc in Hl. revert Hl.
  unfold time_Sub, failureBackoff, resyncInterval, Minute, Second, int64_min, int64_max. lia.
Qed.

Lemma next_starts : job = None → canSkipResync (addon st) = false → starts w'.
Proof.
  intros Hj Hskip. exists st. split_and!; [exact next_operable| |exact next_due|done].
  apply (il_none _ _ Hi). rewrite (became_job _ _ _ _ Hb). exact Hj.
Qed.

(** A Job that had not failed has succeeded. *)
Lemma next_job j : job = Some j → ¬ failed j →
  ∃ j', sync_job w' = Some j' ∧ (for_spec j → for_spec j') ∧ succeeded j' ∧ pods_of w' j' ≠ [].
Proof.
  intros Hj Hno. destruct (il_job _ _ Hi j) as (j' & Hj' & _ & Hs & Hpods & Hend);
    [by rewrite (became_job _ _ _ _ Hb)|by apply Hours|].
  assert (succeeded j') as Hsucc by (destruct Hend as [|[]]; done).
  exists j'. split_and!; [done|by apply Hs|done|by apply Hpods].
Qed.

Lemma next_records j : job = Some j → ¬ failed j → for_spec j → records w'.
Proof.
  intros Hj Hno Hs. destruct (next_job j Hj Hno) as (j' & Hj' & Hs' & ? & ?).
  exists st, j'. split_and!; [exact next_operable|done|by apply Hs'|done|done].
Qed.

Lemma next_settled : says_synced st → (∀ j, job = Some j → ¬ failed j) → settled w'.
Proof.
  intros Hsynced Hno. exists st. split_and!; [exact next_operable|done|]. intros j' Hj'.
  pose proof next_job as Hnext. destruct job as [j|] eqn:Hjob.
  - destruct (Hnext j eq_refl (Hno j eq_refl)) as (j'' & Hj'' & _ & ?). rewrite Hj' in Hj''. by injection Hj'' as ->.
  - rewrite (il_none _ _ Hi) in Hj'; [done|by eapply became_job].
Qed.
End Next.

(** A status with another phase than Synced never skips a resync. *)
Lemma canSkip_phase st : ads_Phase st ≠ phaseSynced → canSkipResync (addon st) = false.
Proof. intros Hp. unfold canSkipResync. cbn. apply String.eqb_neq in Hp. by rewrite Hp, andb_false_r. Qed.
(** A Job that was just created has not failed. *)
Lemma new_not_failed j : job_Status j = noJobStatus → ¬ failed j.
Proof. unfold failed, upgradeHasCondition. by intros ->. Qed.
Lemma set_phase_past phase conds st : ads_LastSyncTime (ads_conds conds (ads_set_phase phase st)) = ads_LastSyncTime st.
Proof. cbn. unfold ads_set_phase. by destruct (String.eqb phase ""). Qed.

Lemma any_step w st w' :
  operable w st → canSkipResync (addon st) = false → interlude (pass w) w' → settled w' ∧ synced (pass w) ∨ records w' ∨ starts w'.
Proof.
  intros Hop Hskip Hi. destruct (pass_moves w st Hop) as (st' & job & Hb & Hm). pose proof (op_past _ _ Hop) as Hpast.
  inversion Hm as [j|j conds|j msg conds|j conds|conds|j conds]; subst st' job.
  - right. right. by eapply (next_starts w st).
  - left. split; [|eexists; split; [by eapply became_addon|by split_and!]].
    eapply (next_settled w st); [done..| |by split_and!|done]. intros last. cbn. by intros [= <-].
  - right. right. eapply (next_starts w st); [done..| |done|by apply canSkip_phase]. intros last. cbn. by intros [= <-].
  - right. left. eapply (next_records w st); try done; [|intros last; rewrite set_phase_past; apply Hpast].
    intros j' [= <-]. by apply (op_job _ _ Hop).
  - right. right. by eapply (next_starts w st).
  - right. left. eapply (next_records w st); try done;
    [by intros j' [= <-]|intros last; rewrite set_phase_past; apply Hpast|by apply new_not_failed].
Qed.

Lemma starts_step w w' : starts w → interlude (pass w) w' → records w'.
Proof.
  intros (st & Hop & Hj & Hdue & Hskip) Hi. destruct (pass_moves w st Hop) as (st' & job & Hb & Hm).
  pose proof (op_past _ _ Hop) as Hpast.
  inversion Hm as [j|j conds|j msg conds|j conds|conds Hno [|]|j conds]; subst st' job; try congruence; try done.
  eapply (next_records w st); try done;
    [by intros j' [= <-]|intros last; rewrite set_phase_past; apply Hpast|by apply new_not_failed].
Qed.

Lemma records_step w : records w → synced (pass w) ∧ ∀ w', interlude (pass w) w' → settled w'.
Proof.
  intros (st & j0 & Hop & Hj & Hs & Hsucc & Hpods). destruct (pass_moves w st Hop) as (st' & job & Hb & Hm).
  inversion Hm as [j|j conds|j msg conds Hj'|j conds|conds|j conds]; subst st' job;
    try (assert (j = j0) as -> by congruence); try congruence; try done; [|by exfalso; auto].
  split; [eexists; split; [by eapply became_addon|by split_and!]|]. intros w' Hi.
  eapply (next_settled w st); [done..| |by split_and!|done]. intros last. cbn. by intros [= <-].
Qed.

Lemma settled_step w : settled w → synced (pass w) ∧ ∀ w', interlude (pass w) w' → settled w'.
Proof.
  intros (st & Hop & Hsynced & Hjob). destruct (pass_moves w st Hop) as (st' & job & Hb & Hm).
  pose proof (op_past _ _ Hop) as Hpast.
  assert (∀ conds, says_synced (ads_conds conds (ads_set_phase (syncingPhaseFor (ads_Phase st)) st))) as Hkeep.
  { intros conds. destruct Hsynced as (Hp & ?). unfold syncingPhaseFor. by rewrite Hp, String.eqb_refl. }
  assert (says_synced st' ∧ (∀ j, job = Some j → ours j ∧ ¬ failed j) ∧
    ∀ last, ads_LastSyncTime st' = Some last → last <= clock w) as (Hst & Hj & Hlast).
  { inversion Hm as [j|j conds|j msg conds Hj'|j conds Hj'|conds|j conds]; subst st' job.
    - done.
    - split_and!; try done. intros last. cbn. by intros [= <-].
    - exfalso. destruct (Hjob j Hj'). auto.
    - exfalso. by destruct (Hjob j Hj').
    - done.
    - split_and!; [apply Hkeep|intros j' [= <-]; split; [done|by apply new_not_failed]|intros last; rewrite set_phase_past; apply Hpast]. }
  split; [eexists; split; [by eapply became_addon|exact Hst]|]. intros w' Hi.
  eapply (next_settled w st); [done..| |done|done|]; by intros j []%Hj.
Qed.

(** How far the sync is before a pass. *)
Definition stage (n : nat) (w : cluster) : Prop :=
  match n with
  | O => ∃ st, operable w st ∧ canSkipResync (addon st) = false
  | S O => settled w ∨ records w ∨ starts w
  | _ => settled w ∨ records w
  end.

Lemma stage_operable n w : stage n w → ∃ st, operable w st.
Proof.
  destruct n as [|[|n]]; cbn; [intros (st & ? & _)|intros [(st & ? & _)|[(st & j & ? & _)|(st & ? & _)]]|
    intros [(st & ? & _)|(st & j & ? & _)]]; by exists st.
Qed.

Lemma stage_synced n w : (2 ≤ n)%nat → stage n w → synced (pass w).
Proof.
  intros Hn. destruct n as [|[|n]]; [lia..|]. intros [Hs|Hr]; [by apply settled_step|by apply records_step].
Qed.

Lemma sync_stage_next n w w' : stage n w → interlude (pass w) w' → stage (S n) w'.
Proof.
  intros Hst Hi. destruct n as [|n]; cbn in Hst |- *.
  - destruct Hst as (st & Hop & Hskip). destruct (any_step w st w' Hop Hskip Hi) as [[? _]|?]; auto.
  - destruct n as [|n].
    + destruct Hst as [Hs|[Hr|Hs]]; [left; by apply (settled_step w)|left; by apply (records_step w)|right; by apply (starts_step w)].
    + left. destruct Hst as [Hs|Hr]; [by apply (settled_step w)|by apply (records_step w)].
Qed.

(** ** Properties *)

(** C20: an addon gets synced, and stays so. Take any state of an addon that can be synced (valid spec,
    instance present with a bound claim, finalizer in place, not being deleted, not skipping resyncs),
    with any status whose last sync is not in the future and any sync Job of its own, or none: stale,
    running, failed, or finished with its log lost. When each Job that has not failed runs to success
    with a log that reports a commit, and a resync interval goes by between two passes, then from the
    third pass on the status says Synced and Ready, with the commit and the modules of the log: no
    state of the status or the Job is a dead end, and the resyncs that follow never take the addon back. *)
Theorem addon_gets_synced (f : nat → cluster) st n :
  operable (f 0%nat) st → canSkipResync (addon st) = false → (∀ i, interlude (pass (f i)) (f (S i))) → (2 ≤ n)%nat →
  ∃ st', addon_at (pass (f n)) = Some (addon st') ∧
    ads_Phase st' = phaseSynced ∧ ads_Ready st' = true ∧ ads_ClonedCommit st' = commit ∧ ads_Modules st' = modules.
Proof.
  intros Hop Hskip Hi Hn. apply (stage_synced n); [done|]. clear Hn.
  induction n as [|n IH]; [by exists st|by apply (sync_stage_next n (f n))].
Qed.
End Progress.

(** *** Witness: an addon whose last sync failed and whose failed Job is still there *)
Section Example.
#[local] Existing Instances unicode_ref kube_ref url_ref.

Definition waiting_meta : ObjectMeta :=
  {| m_Name := "sale-x"; m_Namespace := "shop"; m_UID := ""; m_ResourceVersion := "7";
     m_Generation := 1; m_CreationTimestamp := 0; m_DeletionTimestamp := None; m_Labels := ∅;
     m_Annotations := ∅; m_OwnerReferences := []; m_Finalizers := [finalizerOdooAddon] |}.
Definition waiting_status : OdooAddonStatus := ad_Status git_addon.
Definition waiting_addon : OdooAddon := addon waiting_meta (ad_Spec git_addon) waiting_status.

Definition failed_job : Job :=
  {| job_Meta := job_Meta finished_job; job_Spec := job_Spec finished_job;
     job_Status := {| jst_Succeeded := 0; jst_Failed := 1;
       jst_Conditions := [ {| jc_Type := JobFailed; jc_Status := ConditionTrue;
                              jc_Reason := "DeadlineExceeded"; jc_Message := "" |} ];
       jst_CompletionTime := None |} |}.
Definition example_logs : string := "modules: sale_x" +:+ nl +:+ example_sha +:+ nl.

Definition waiting_spec : syncSpec :=
  match resolveSyncSpec waiting_addon with Ok s => s | Err _ => noSyncSpec end.
Definition example_shop : OdooInstance :=
  {| in_Meta := newMeta "shop" "shop"; in_Spec := conf_example;
     in_Status := {| ist_Ready := true; ist_Phase := "Running"; ist_AddonPaths := [];
       ist_ObservedGeneration := 1; ist_Conditions := []; ist_Message := "";
       ist_Initialized := true; ist_InitUpgrade := ""; ist_AppliedAddonsHash := "";
       ist_ActiveUpgrade := "" |} |}.
Definition example_claim : PersistentVolumeClaim :=
  {| pvc_Meta := newMeta "shop-addons" "shop"; pvc_AccessModes := []; pvc_StorageRequest := "";
     pvc_StorageClassName := None; pvc_Phase := ClaimBound |}.
Definition failed_cluster : cluster :=
  put KAddon "sale-x" waiting_addon (put KJob "sale-x-sync" failed_job
    (put KPVC "shop-addons" example_claim (put KInstance "shop" example_shop
      {| objects := λ _, ∅; clock := 1000 * Second |}))).

(** Between two passes, the Jobs that have not failed succeed, in a pod, and a resync interval goes by. *)
Definition job_succeeds (j : Job) : Job :=
  if upgradeHasCondition j JobFailed then j
  else {| job_Meta := job_Meta j; job_Spec := job_Spec j;
          job_Status := {| jst_Succeeded := 1; jst_Failed := jst_Failed (job_Status j);
                           jst_Conditions := jst_Conditions (job_Status j);
                           jst_CompletionTime := jst_CompletionTime (job_Status j) |} |}.
Definition job_pod (j : Job) : Pod :=
  {| pod_Meta := with_labels {[batchControllerUIDLabel := m_UID (job_Meta j)]} ∅ (newMeta "p" "shop");
     pod_Phase := "Succeeded"; pod_NodeName := "" |}.
Definition rest (w : cluster) : cluster :=
  let pods := match sync_job waiting_meta w with Some j => {["p" := job_pod j]} | None => ∅ end in
  {| objects := objects (put_objects KJob (job_succeeds <$> objects w KJob) (put_objects KPod pods w));
     clock := clock w + resyncInterval |}.

Definition example_recorder : Reconciler := {| rec_Recorder := true; rec_Clientset := true |}.
Definition example_pass : cluster → cluster := pass example_recorder (λ _, "") example_logs waiting_meta.
Fixpoint example_history (n : nat) : cluster :=
  match n with O => failed_cluster | S n => rest (example_pass (example_history n)) end.

Lemma job_rest_interlude w : interlude waiting_meta (ad_Spec git_addon) waiting_spec w (rest w).
Proof.
  assert (objects (rest w) KJob = job_succeeds <$> objects w KJob) as Hjobs by (cbn [rest objects]; apply put_objects_eq).
  assert (sync_job waiting_meta (rest w) = job_succeeds <$> sync_job waiting_meta w) as Hjob
    by (etrans; [exact (f_equal (lookup _) Hjobs)|apply lookup_fmap]).
  assert (frame [KJob; KPod] w (rest w)) as Hf.
  { intros k Hk. cbn [rest objects]. rewrite !put_objects_ne by set_solver. done. }
  split.
  - unfold addon_at. by rewrite (frame_at _ _ _ KAddon Hf eq_refl).
  - unfold volume, instance_at, claim_at. by rewrite (frame_at _ _ _ KInstance Hf eq_refl), (frame_at _ _ _ KPVC Hf eq_refl).
  - rewrite Hjob. by intros ->.
  - intros j Hj Hours. exists (job_succeeds j).
    assert (job_Meta (job_succeeds j) = job_Meta j) as Hmeta by (unfold job_succeeds; by destruct (upgradeHasCondition j JobFailed)).
    split; [by rewrite Hjob, Hj|].
    split_and!.
    + unfold ours. by rewrite Hmeta.
    + unfold for_spec. by rewrite Hmeta.
    + intros _. unfold pods_of. rewrite Hmeta. unfold labelled, listing.
      assert (objects (rest w) KPod = {["p" := job_pod j]}) as ->.
      { cbn [rest objects]. rewrite put_objects_ne, put_objects_eq by done. by rewrite Hj. }
      rewrite map_to_list_singleton. cbn. by rewrite bool_decide_true.
    + unfold job_succeeds, succeeded, failed. destruct (upgradeHasCondition j JobFailed) eqn:Hno; [by right|by left].
  - cbn. lia.
Qed.

(** The failure is reported, a new Job is created, its result is recorded. *)
Lemma addon_gets_synced_witness :
  (λ n, (λ a, ads_Phase (ad_Status a)) <$> addon_at waiting_meta (example_pass (example_history n))) <$> [0; 1; 2; 3]%nat =
    [Some "Failed"; Some "Syncing"; Some "Synced"; Some "Synced"] ∧
  ∃ st, addon_at waiting_meta (example_pass (example_history 2)) = Some (addon waiting_meta (ad_Spec git_addon) st) ∧
    ads_Phase st = phaseSynced ∧ ads_Ready st = true ∧ ads_ClonedCommit st = example_sha ∧ ads_Modules st = ["sale_x"].
Proof.
  split; [by vm_compute|].
  apply (addon_gets_synced example_recorder (λ _, "") example_logs example_sha ["sale_x"] waiting_meta (ad_Spec git_addon)
    waiting_spec) with (f := example_history) (st := waiting_status); try done; [by left|..].
  - split; [by vm_compute| | |done].
    + split; eexists; (split; [by vm_compute|done]).
    + intros j Hj. change (Some failed_job = Some j) in Hj. apply (inj Some) in Hj as <-. by vm_compute.
  - intros i. apply job_rest_interlude.
Defined.
End Example.

Close Scope Z_scope.
