(* ===== verification/AddonRollout.v ===== *)
(** * From a git commit to the pods

    [AddonProgress] gets an addon synced, [SystemProgress] gets an instance up on the addons it finds.
    Here the controllers of addons, instances and upgrades work on one cluster: the commit that the
    addon controller records is what the instance controller rolls out, after the upgrade that the
    upgrade controller runs for it. *)
From S2P Require Export SystemProgress AddonProgress.

(** Two names that end in different bytes differ. *)
Lemma last_bytes_differ a b c d : a +:+ str1 c = b +:+ str1 d → c = d.
Proof.
  intros Heq. assert (len a = len b) as Hl.
  { apply (f_equal len) in Heq. rewrite !len_app in Heq. cbn in Heq. lia. }
  destruct (app_inj_len a (str1 c) b (str1 d) Hl Heq) as [_ [= ->]]. done.
Qed.

(** The Job of an upgrade is never the sync Job of an addon. *)
Lemma upgrade_job_name n a : upgradeJobName n ≠ syncJobName a.
Proof.
  unfold upgradeJobName, syncJobName.
  destruct (bounded_name_spec upgradeFallbackName n upgradeJobSuffix upgradeMaxNameLen ltac:(apply Nat.leb_le; reflexivity) ltac:(apply Nat.leb_le; reflexivity))
    as (_ & (p & Hp & _) & _).
  change (upgradeBoundedName n upgradeJobSuffix upgradeMaxNameLen) with (bounded_name upgradeFallbackName n upgradeJobSuffix upgradeMaxNameLen).
  rewrite Hp. change (p +:+ upgradeJobSuffix) with (p +:+ "-ru" +:+ str1 "n"). change (a +:+ syncJobSuffix) with (a +:+ "-syn" +:+ str1 "c").
  rewrite <-!app_assoc_str. by intros ?%last_bytes_differ.
Qed.

Section Rollout.
Context `{Unicode} `{KubeLib} `{RetryLib} `{UrlLib} `{!OwnerLaws} `{!ErrorLaws} `{!EqualityLaws} `{!RetryLaws}.
Context (r : Reconciler) (Getenv : string → string) (logs : string) (finish : Job → Job).
(** The instance, and an addon for it with what the log of its syncs says. *)
Context (meta : ObjectMeta) (spec : OdooInstanceSpec) (conf : string).
Context (ameta : ObjectMeta) (aspec : OdooAddonSpec) (s : syncSpec) (commit : string) (modules : list string).

Abbreviation name := (m_Name meta).
Abbreviation ns := (m_Namespace meta).
Abbreviation job_name := (syncJobName (m_Name ameta)).
Abbreviation inst := (InstanceProgress.inst meta spec).
Abbreviation self := (InstanceProgress.self meta).
Abbreviation addon := (AddonProgress.addon ameta aspec).
Abbreviation addon_at := (AddonProgress.addon_at ameta).
Abbreviation sync_job := (AddonProgress.sync_job ameta).
Abbreviation operable := (AddonProgress.operable ameta aspec).
Abbreviation instance_pass := (InstanceProgress.pass r logs meta).
Abbreviation addon_pass := (AddonProgress.pass r Getenv logs ameta).
Abbreviation upgrade_pass := (UpgradeProgress.pass r ns logs).
Abbreviation meanwhile := (SystemProgress.meanwhile r logs finish meta).

(** What the theorems about the parts ask for. *)
Context (Hconf : renderOdooConf spec = Ok conf).
Context (Hsizes : ∀ req, req ∈ claims meta spec → is_Ok (ParseQuantity (claim_size req)) = true).
Context (Hdeletion : m_DeletionTimestamp meta = None).
Context (Hfinalizer : ContainsFinalizer meta finalizerOdooInstance = true).
Context (Hinitsecret : ∀ s, is_Initialize spec = Some s → ini_AdminUserPasswordSecret s ≠ "").
Context (Hname : name ≠ "") (Hdatabase : pg_Database (is_Postgres spec) ≠ "").
Context (Hinitmodules : ∀ s, is_Initialize spec = Some s → ini_Modules s ≠ []).
Context (Hmodules : ∀ s, is_Upgrade spec = Some s → upgradeAllModules ∈ usp_Modules s → usp_Modules s = [upgradeAllModules]).
Context (Hends : ∀ j, job_ended (finish j)) (Hfine : ∀ j, job_fine (finish j)) (Hmeta : ∀ j, job_Meta (finish j) = job_Meta j).
Context (Hadeletion : m_DeletionTimestamp ameta = None).
Context (Hafinalizer : ContainsFinalizer ameta finalizerOdooAddon = true).
Context (Hainstance : ref_Name (ad_InstanceRef aspec) = name).
Context (Hanamespace : ref_Namespace (ad_InstanceRef aspec) ∈ [""; m_Namespace ameta]).
Context (Haspec : ∀ st, resolveSyncSpec (addon st) = Ok s).
Context (Hclientset : rec_Clientset r = true).
Context (Hlogs : parseSyncOutput (LimitRead addonLogReadLimit logs) = (commit, modules)) (Hcommit : commit ≠ "").

(** ** The parts on one cluster *)

(** The revision of the addons there are, and the paths of their modules. *)
Definition ready (w : cluster) : list OdooAddon := ready_addons meta (objects w KAddon).
Abbreviation good w := (sound meta spec (addonsHash (ready w)) (addonMountPaths (ready w)) w).

Lemma sound_good current paths w :
  sound meta spec current paths w → addonsHash (ready w) = current ∧ addonMountPaths (ready w) = paths.
Proof. intros [Hfit _ _ _]. apply (Hfit KAddon). Qed.

(** No upgrade runs on the sync Job. *)
Definition clear (w : cluster) : Prop := ∀ n u, upgrades w !! n = Some u → running u → ust_JobName (up_Status u) ≠ job_name.

(** Addons, Jobs and pods are not what the instance and its upgrades are made of, as long as the
    upgrades keep their Jobs. *)
Lemma good_transfer w w' :
  good w → frame [KAddon; KJob; KPod] w w' → jobs_fine KUpgrade w' →
  (∀ n u, upgrades w !! n = Some u → has_job KUpgrade w u → has_job KUpgrade w' u) → good w'.
Proof.
  intros [Hfit Hok Hj Hown] Hf Hj' Hjobs.
  assert (upgrades w' = upgrades w) as Hups by exact (frame_at _ _ _ KUpgrade Hf eq_refl).
  assert (∀ n, spec_at w' n = spec_at w n) as Hs by (intros n; exact (spec_at_frame _ _ _ n Hf eq_refl)).
  split; [|..|].
  - intros k. specialize (Hfit k). destruct k; try first [exact I|by split|
      match goal with |- kind_fit _ _ _ _ ?k _ => rewrite (frame_at _ _ _ k Hf eq_refl) end; exact Hfit].
    intros n u Hn. change (objects w' KUpgrade) with (upgrades w'). rewrite Hups. intros Hu.
    by destruct (Hown n u (own_current _ _ n Hn) Hu).
  - apply upgrades_ok_spec. intros n u. rewrite Hups. intros Hu. eapply upgrade_ok_specs; [by eapply Hjobs|by apply Hok].
  - done.
  - intros n u Hn. rewrite Hups. intros Hu. eapply own_fine_specs; [done|by apply (Hown n)].
Qed.

(** *** A pass of the addon controller *)
Lemma became_good w w' st job :
  good w → clear w → became ameta aspec st job w w' → (∀ j, job = Some j → job_fine j) → good w'.
Proof.
  intros Hw Hclear (_ & Hjobs & Hf & _) Hjob. apply (good_transfer w); [done|by eapply frame_sub; [|exact Hf]|..].
  - intros n j. unfold jobs. rewrite Hjobs. destruct (decide (n = job_name)) as [->|Hn].
    + rewrite lookup_partial_alter_eq. apply Hjob.
    + rewrite lookup_partial_alter_ne by done. apply (so_jobs _ _ _ _ _ Hw n j).
  - intros n u Hu Hhas Hi Hr. destruct (Hhas Hi Hr) as [Hne Hex]. split; [done|]. unfold jobs. rewrite Hjobs.
    rewrite lookup_partial_alter_ne; [done|]. intros Heq. by apply (Hclear n u Hu Hr).
Qed.

Lemma sync_job_fine w st st' job j :
  jobs_fine KUpgrade w → sync_move commit modules ameta aspec s w st st' job → job = Some j → job_fine j.
Proof.
  intros Hj Hm ->. inversion Hm as [| | |j0 conds Hj0| |j0 conds Hj0 ?? Hours Hs Hst]; subst.
  - exact (Hj _ _ Hj0).
  - right. unfold upgradeJobFailure. by rewrite Hst.
Qed.

(** *** After it, the Jobs run

    Every Job ends, the pods of the sync Job are there to be asked, and a resync interval goes by. *)
Record lull (w w' : cluster) : Prop := {
  lu_frame : frame [KJob; KPod] w w';
  lu_jobs : jobs w' = finish <$> jobs w;
  lu_pods j : sync_job w' = Some j → pods_of w' j ≠ [];
  lu_clock : (clock w + resyncInterval <= clock w')%Z
}.

Lemma finish_succeeds j : upgradeJobSucceeded (finish j) = true.
Proof. destruct (Hends j) as [He|[m He]]; [done|]. destruct (Hfine j) as [Hs|Hs]; [done|congruence]. Qed.

Lemma lull_good w w' : good w → lull w w' → good w'.
Proof.
  intros Hw [Hf Hj _ _]. apply (good_transfer w); [done|by eapply frame_sub; [|exact Hf]|..].
  - intros n j. rewrite Hj. intros (j0 & <- & _)%lookup_fmap_Some. apply Hfine.
  - intros n u _ Hhas Hi Hr. destruct (Hhas Hi Hr) as [Hne [j Hex]]. split; [done|]. exists (finish j).
    rewrite Hj, lookup_fmap. by rewrite Hex.
Qed.

Lemma lull_ready w w' : lull w w' → ready w' = ready w.
Proof. intros [Hf _ _ _]. unfold ready. by rewrite (frame_at _ _ _ KAddon Hf eq_refl). Qed.

(** *** The passes of the other controllers leave the sync Job alone *)
Lemma upgrade_pass_sync n w : sync_job (upgrade_pass n w) = sync_job w ∧ clock (upgrade_pass n w) = clock w.
Proof.
  split; [|apply effect_clock].
  eapply (effect_invariant logs (λ w', sync_job w' = sync_job w)); [apply (wp_upgradeReconcile r (upgrade_key ns n))| |done].
  intros h o w' Hmay <-. destruct o as [k x|k ns' l|k j|k o|k o|k o o'|k o opts|k x mutate| | |]; try done; try by destruct k.
  - destruct k; try done. destruct Hmay as (u & i & siblings & node & m & _ & _ & _ & _ & _ & Hm & ->).
    destruct (set_controller_ref _ _ _ Hm) as (_ & Hmeq & _). cbn [api]. destruct (objects w' KJob !! _); [done|]. cbn [snd].
    unfold sync_job, put. rewrite put_objects_eq. apply lookup_insert_ne. cbn [obj_meta job_with_meta job_Meta]. rewrite Hmeq.
    cbn. unfold buildUpgradeJob. destruct (upgradeCommand _ _). apply upgrade_job_name.
  - destruct k; try done. cbn [api]. unfold overwrite. by destruct (objects w' KUpgrade !! _).
Qed.

(** The Jobs of others end, some of them more than once as far as the model goes. *)
Definition ended (k : nat) (job : option Job) : option Job := Nat.iter k (fmap finish) job.

Lemma ended_cases k j : ended k (Some j) = Some j ∨ ∃ j', ended k (Some j) = Some (finish j') ∧ job_Meta j' = job_Meta j.
Proof.
  assert (∀ k, ∃ j', ended k (Some j) = Some j' ∧ job_Meta j' = job_Meta j) as Hall.
  { clear k. intros k. induction k as [|k (j' & IH & Hm)]; [by exists j|]. exists (finish j').
    split; [exact (f_equal (fmap finish) IH)|by rewrite Hmeta]. }
  destruct k as [|k]; [by left|]. right. destruct (Hall k) as (j' & Hj' & Hm). exists j'.
  split; [exact (f_equal (fmap finish) Hj')|done].
Qed.

Lemma upgrade_rounds_sync w :
  upgrades_ok ns w → let w' := upgrade_rounds r logs finish meta w in
  (clock w <= clock w')%Z ∧ ∃ k, sync_job w' = ended k (sync_job w).
Proof.
  intros Hok w'. apply (rounds_invariant r ns logs finish Hends (λ w', (clock w <= clock w')%Z ∧ ∃ k, sync_job w' = ended k (sync_job w))).
  - intros m w1 _ [Hc [k Hk]]. destruct (upgrade_pass_sync m w1) as [Hs Hcl]. rewrite Hcl. split; [done|]. exists k. by rewrite Hs.
  - intros w1 _ [Hc [k Hk]]. split; [cbn; unfold upgradeRequeueRunning, Second; lia|]. exists (S k).
    etrans; [exact (f_equal (lookup job_name) (rest_jobs finish upgradeRequeueRunning w1))|]. rewrite lookup_fmap.
    exact (f_equal (fmap finish) Hk).
  - done.
  - split; [lia|by exists 0].
Qed.

(** A pass of the instance controller, and the work of the upgrade controller after it. *)
Section Meanwhile.
Context (w : cluster) (Hw : good w).

Lemma instance_good : sound meta spec (addonsHash (ready w)) (addonMountPaths (ready w)) (instance_pass w).
Proof. by apply (instance_pass_sound r logs finish meta spec conf). Qed.

Lemma meanwhile_frame : frame [KUpgrade; KJob; KCronJob; KDeployment] (instance_pass w) (meanwhile (instance_pass w)).
Proof.
  pose proof (upgrade_rounds_outcome r logs finish meta spec (addonsHash (ready w)) (addonMountPaths (ready w)) Hends Hfine
    (instance_pass w) instance_good) as ([Hf _] & _).
  etrans; [by eapply frame_sub; [|exact Hf]|]. intros k Hk. apply put_objects_ne. set_solver.
Qed.

Lemma instance_passed : passed w (instance_pass w).
Proof.
  destruct Hw as [Hfit _ _ _]. destruct (Hfit KInstance) as [st Hst].
  by apply (pass_outcome r logs meta spec conf (addonsHash (ready w)) (addonMountPaths (ready w)) Hconf Hsizes Hdeletion Hfinalizer Hinitsecret w st).
Qed.

(** The kinds that none of the two writes. *)
Lemma round_at k :
  bool_decide (k ∈ pass_kinds) = false → bool_decide (k ∈ [KUpgrade; KJob; KCronJob; KDeployment]) = false →
  objects (meanwhile (instance_pass w)) k = objects w k.
Proof. intros Hp Hm. by rewrite (frame_at _ _ _ k meanwhile_frame Hm), (frame_at _ _ _ k (proj1 instance_passed) Hp). Qed.

Lemma instance_ready : ready (instance_pass w) = ready w.
Proof. unfold ready. by rewrite (frame_at _ _ _ KAddon (proj1 instance_passed) eq_refl). Qed.
Lemma round_ready : ready (meanwhile (instance_pass w)) = ready w.
Proof. unfold ready. by rewrite round_at. Qed.

Lemma round_good : good (meanwhile (instance_pass w)).
Proof. rewrite round_ready. apply (meanwhile_sound r logs finish meta spec conf); try done. apply instance_good. Qed.

Lemma round_clear : clear (meanwhile (instance_pass w)).
Proof.
  intros n u Hu Hr. exfalso.
  assert (QueueDrain.settled upgrades QueueWork.live (upgrade_rounds r logs finish meta (instance_pass w))) as Hset.
  { apply (rounds_settle r ns logs finish Hends); [apply instance_good|apply names_cover|done]. }
  assert (upgrades (upgrade_rounds r logs finish meta (instance_pass w)) !! n = Some u) as Hu'.
  { rewrite <-Hu. unfold upgrades, SystemProgress.meanwhile, rolled_out. by rewrite put_objects_ne by done. }
  destruct (Hset n u Hu' eq_refl (or_intror Hr)) as [Hp|Hp]; unfold running in Hr; cbn in Hr, Hp; congruence.
Qed.

Lemma round_sync : (clock w <= clock (meanwhile (instance_pass w)))%Z ∧
  ∃ k, sync_job (meanwhile (instance_pass w)) = ended k (sync_job w).
Proof.
  destruct (upgrade_rounds_sync (instance_pass w) (so_upgrades _ _ _ _ _ instance_good)) as [Hc [k Hk]].
  assert (clock (instance_pass w) = clock w) as Hclock by apply effect_clock. split; [rewrite <-Hclock; exact Hc|].
  exists k. unfold sync_job in Hk |- *. unfold SystemProgress.meanwhile, rolled_out. rewrite put_objects_ne by done. rewrite Hk.
  by rewrite (frame_at _ _ _ KJob (proj1 instance_passed) eq_refl).
Qed.

(** The instance keeps its claim. *)
Lemma round_volume : volume aspec w → volume aspec (meanwhile (instance_pass w)).
Proof.
  intros [_ (p & Hp & Hb)]. unfold volume. split.
  - destruct (so_fit _ _ _ _ _ round_good KInstance) as [st Hst]. exists (inst st).
    split; [unfold instance_at; rewrite Hainstance; exact Hst|by rewrite Hainstance].
  - destruct (proj2 instance_passed _ _ Hp) as (p' & Hp' & Hph). exists p'. split; [|by rewrite Hph].
    unfold claim_at. by rewrite (frame_at _ _ _ KPVC meanwhile_frame eq_refl).
Qed.
End Meanwhile.

(** For the addon, all this is an interlude between two of its passes. *)
Lemma round_interlude w0 w :
  good w → lull w0 w → AddonProgress.interlude ameta aspec s w0 (meanwhile (instance_pass w)).
Proof.
  intros Hw Hl. pose proof (lu_frame _ _ Hl) as Hf. destruct (round_sync w Hw) as [Hc [k Hk]].
  assert (sync_job w = finish <$> sync_job w0) as Hj
    by (etrans; [exact (f_equal (lookup job_name) (lu_jobs _ _ Hl))|apply lookup_fmap]).
  split.
  - unfold addon_at. by rewrite (round_at w Hw), (frame_at _ _ _ KAddon Hf eq_refl).
  - intros Hv. apply round_volume; [done|]. unfold volume, instance_at, claim_at in *.
    by rewrite (frame_at _ _ _ KInstance Hf eq_refl), (frame_at _ _ _ KPVC Hf eq_refl).
  - intros Hno. rewrite Hk, Hj, Hno. clear. induction k as [|k IH]; [done|]. exact (f_equal (fmap finish) IH).
  - intros j Hjob Hours. rewrite Hjob in Hj. cbn in Hj.
    assert (∃ j', sync_job (meanwhile (instance_pass w)) = Some (finish j') ∧ job_Meta j' = job_Meta j) as (j' & Hj' & Hm).
    { rewrite Hk, Hj. destruct (ended_cases k (finish j)) as [->|(j' & -> & Hm)]; [by exists j|exists j'; by rewrite Hm, Hmeta]. }
    exists (finish j'). split; [done|]. split_and!.
    + unfold AddonProgress.ours. by rewrite Hmeta, Hm.
    + unfold for_spec. by rewrite Hmeta, Hm.
    + intros _. pose proof (lu_pods _ _ Hl _ Hj) as Hp. unfold pods_of, labelled, listing in *.
      rewrite Hmeta, Hm. rewrite Hmeta in Hp. by rewrite (round_at w Hw).
    + left. apply finish_succeeds.
  - pose proof (lu_clock _ _ Hl). lia.
Qed.

(** ** From round to round *)
Abbreviation stage := (AddonProgress.stage commit modules ameta aspec s).
Abbreviation says_synced := (AddonProgress.says_synced commit modules).
Abbreviation synced := (AddonProgress.synced commit modules ameta aspec).

Lemma addon_moves w st : operable w st → ∃ st' job', became ameta aspec st' job' w (addon_pass w) ∧
  sync_move commit modules ameta aspec s w st st' job'.
Proof. apply pass_moves; try done. by rewrite Hainstance. Qed.

Lemma addon_pass_good w st : good w → clear w → operable w st → good (addon_pass w).
Proof.
  intros Hw Hclear Hop. destruct (addon_moves w st Hop) as (st' & job' & Hb & Hm).
  eapply became_good; [exact Hw|exact Hclear|exact Hb|]. intros j Hj. by eapply sync_job_fine; [apply (so_jobs _ _ _ _ _ Hw)|exact Hm|].
Qed.

(** Before the round [i]. *)
Definition underway (i : nat) (w : cluster) : Prop := good w ∧ clear w ∧ stage i w.

Lemma underway_good i w w1 : underway i w → lull (addon_pass w) w1 → good w1.
Proof.
  intros (Hw & Hclear & Hst) Hl. apply stage_operable in Hst as [st Hop]. eapply lull_good; [|exact Hl]. by eapply addon_pass_good.
Qed.

Lemma underway_next i w w1 : underway i w → lull (addon_pass w) w1 → underway (S i) (meanwhile (instance_pass w1)).
Proof.
  intros Hu Hl. pose proof (underway_good i w w1 Hu Hl) as Hw1. split_and!; [by apply round_good|by apply round_clear|].
  eapply (sync_stage_next r Getenv logs); try done; [by rewrite Hainstance|apply Hu|]. by apply round_interlude.
Qed.

(** A pass over an addon that is synced and stays so keeps the revision. *)
Lemma addon_pass_revision w st :
  operable w st → says_synced st → synced (addon_pass w) →
  addonsHash (ready (addon_pass w)) = addonsHash (ready w) ∧ addonMountPaths (ready (addon_pass w)) = addonMountPaths (ready w).
Proof.
  intros Hop (_ & Hr & Hc & Hm) (st1 & Hst1 & (_ & Hr1 & Hc1 & Hm1)). destruct (addon_moves w st Hop) as (st' & job' & Hb & _).
  pose proof (became_addon _ _ _ _ _ _ Hb) as Ha. rewrite Hst1 in Ha. injection Ha as ->. destruct Hb as (Haddons & _).
  unfold ready, ready_addons. rewrite Haddons. apply (revision_kept _ _ (addon st)); [apply (op_addon _ _ _ _ Hop)|].
  unfold same_revision, addonRevision, addonModules. cbn. by rewrite Hr, Hr1, Hc, Hc1, Hm, Hm1.
Qed.

Section History.
(** [f i] is the cluster before a pass of the addon controller, [g i] the one before the pass of the
    instance controller that follows. *)
Context (f g : nat → cluster).
Context (Hlull : ∀ i, lull (addon_pass (f i)) (g i)) (Hround : ∀ i, f (S i) = meanwhile (instance_pass (g i))).
Context (Hstart : underway 0 (f 0)).

Lemma underway_all i : underway i (f i).
Proof. induction i as [|i IH]; [done|]. rewrite Hround. by eapply underway_next. Qed.
Lemma good_all i : good (g i).
Proof. eapply underway_good; [apply underway_all|done]. Qed.

Lemma synced_all i : 2 ≤ i → synced (addon_pass (f i)) ∧ synced (f (S i)).
Proof.
  intros Hi. assert (synced (addon_pass (f i))) as Hs.
  { eapply (stage_synced r Getenv logs); try done; [by rewrite Hainstance|apply underway_all]. }
  split; [done|]. destruct Hs as (st & Hst & ?). exists st. split; [|done]. rewrite Hround. unfold addon_at in *.
  by rewrite (round_at (g i) (good_all i)), (frame_at _ _ _ KAddon (lu_frame _ _ (Hlull i)) eq_refl).
Qed.

Lemma revision_next i : 2 ≤ i →
  addonsHash (ready (g (S i))) = addonsHash (ready (g i)) ∧ addonMountPaths (ready (g (S i))) = addonMountPaths (ready (g i)).
Proof.
  intros Hi. rewrite (lull_ready _ _ (Hlull (S i))).
  destruct (underway_all (S i)) as (_ & _ & [st Hop]%stage_operable).
  destruct (synced_all i Hi) as [_ (st1 & Hst1 & Hsynced)].
  assert (st1 = st) as -> by (pose proof (op_addon _ _ _ _ Hop) as Ha; rewrite Hst1 in Ha; by injection Ha).
  destruct (addon_pass_revision (f (S i)) st Hop Hsynced) as [-> ->]; [apply synced_all; lia|].
  by rewrite Hround, (round_ready (g i) (good_all i)).
Qed.

Lemma revision_all i :
  addonsHash (ready (g (2 + i))) = addonsHash (ready (g 2)) ∧ addonMountPaths (ready (g (2 + i))) = addonMountPaths (ready (g 2)).
Proof.
  induction i as [|i [IH1 IH2]]; [done|]. rewrite <-IH1, <-IH2. apply (revision_next (2 + i)). lia.
Qed.

Abbreviation current := (addonsHash (ready (g 2))).
Abbreviation paths := (addonMountPaths (ready (g 2))).

Lemma instance_interlude i :
  InstanceProgress.interlude meta spec current paths (instance_pass (g (2 + i))) (g (2 + S i)).
Proof.
  destruct (revision_all i) as [Hh Hp], (revision_all (S i)) as [Hh' Hp'].
  pose proof (instance_good (g (2 + i)) (good_all (2 + i))) as Hs. rewrite Hh, Hp in Hs.
  assert (InstanceProgress.interlude meta spec current paths (instance_pass (g (2 + i))) (f (S (2 + i)))) as [_ Hself Hups Hpods].
  { rewrite Hround. by apply (meanwhile_interlude r logs finish meta spec conf). }
  assert (frame [KAddon; KJob; KPod] (f (S (2 + i))) (g (2 + S i))) as Hf.
  { destruct (underway_all (S (2 + i))) as (_ & _ & [st Hop]%stage_operable). destruct (addon_moves _ st Hop) as (st' & job' & (_ & _ & Hf & _) & _).
    etrans; [by eapply frame_sub; [|exact Hf]|]. by eapply frame_sub; [|apply (lu_frame _ _ (Hlull (S (2 + i))))]. }
  split.
  - rewrite <-Hh', <-Hp'. apply (good_all (2 + S i)).
  - rewrite <-Hself. unfold InstanceProgress.self. by rewrite (frame_at _ _ _ KInstance Hf eq_refl).
  - intros n Hn Hex. destruct (Hups n Hn Hex) as (u & Hu & Hd). exists u. split; [|done]. unfold upgrade_at in *.
    by rewrite (frame_at _ _ _ KUpgrade Hf eq_refl).
  - intros d replicas Hd Hrep. specialize (Hpods d replicas Hd Hrep). unfold pods_ready, web in *.
    by rewrite (frame_at _ _ _ KDeployment Hf eq_refl).
Qed.
End History.

(** The modules of an addon in use are mounted. *)
Lemma module_paths w st m :
  addon_at w = Some (addon st) → says_synced st → m ∈ modules →
  addon st ∈ ready w ∧ JoinRooted addonsMountPath m ∈ addonMountPaths (ready w).
Proof.
  intros Ha (_ & Hr & _ & Hms) Hm.
  assert (addon st ∈ ready w) as Hin.
  { apply filterReadyAddons_elem. split_and!; [|exact Hainstance|exact Hr]. apply list_elem_of_fmap.
    exists (m_Name ameta, addon st). split; [done|]. by apply elem_of_map_to_list. }
  split; [done|]. apply addonMountPaths_elem. exists (addon st), m. split_and!; [done| |done].
  unfold addonModules. cbn. rewrite Hms. by destruct modules; [apply elem_of_nil in Hm|].
Qed.

(** ** Properties *)

(** C1: a commit reaches the pods. The controllers of addons, instances and upgrades work on the objects of one
    namespace, in rounds: a pass on the addon, a pass on the instance, then passes on the upgrades until
    their queue is empty; in between Jobs succeed, a resync interval goes by, and Deployments get their
    replicas. Take an instance that can run, in any state of its status, and a valid addon of it, in any
    state of its sync (but for a pinned commit that is synced already), among other addons and upgrades
    none of which has failed. Then after the fifth round, and after every later one, the addon says
    Synced with the commit and the modules of the log; the instance is Ready and Running, with no upgrade
    under way; its web Deployment runs, with all replicas ready, on the revision of the addons that are
    ready, this one among them, and the status lists the path of every module of the addon. *)
Theorem addon_gets_rolled_out (f g : nat → cluster) n :
  (∀ i, lull (addon_pass (f i)) (g i)) → (∀ i, f (S i) = meanwhile (instance_pass (g i))) →
  good (f 0) → clear (f 0) → (∃ st, operable (f 0) st ∧ canSkipResync (addon st) = false) → 5 ≤ n →
  ∃ ast st d, addon_at (f n) = Some (addon ast) ∧ ads_Phase ast = phaseSynced ∧ ads_ClonedCommit ast = commit ∧
    ads_Modules ast = modules ∧
    self (f n) = Some (inst st) ∧ ist_Ready st = true ∧ ist_Phase st = phaseRunning ∧ ist_ActiveUpgrade st = "" ∧
    (∀ m, m ∈ modules → addon ast ∈ ready (f n) ∧ JoinRooted addonsMountPath m ∈ ist_AddonPaths st) ∧
    web meta (f n) = Some d ∧ dep_Replicas d = Some (desiredReplicas spec) ∧
    dep_StatusReadyReplicas d = desiredReplicas spec ∧
    pt_Annotations (dep_Template d) !! annotationAddonsHash = Some (addonsHash (ready (f n))).
Proof.
  intros Hlull Hround Hw Hclear Hop Hn. assert (underway 0 (f 0)) as Hstart by done.
  destruct n as [|[|[|k]]]; [lia..|]. change (S (S (S k))) with (S (2 + k)) in *.
  destruct (synced_all f g Hlull Hround Hstart (2 + k) ltac:(lia)) as [_ (ast & Hast & Hsynced)].
  destruct (revision_all f g Hlull Hround Hstart k) as [Hh Hp]. pose proof (good_all f g Hlull Hround Hstart (2 + k)) as Hgood.
  pose proof (round_ready (g (2 + k)) Hgood) as Hready. rewrite <-Hround in Hready.
  destruct (third_pass_serves r logs meta spec conf (addonsHash (ready (g 2))) (addonMountPaths (ready (g 2))) Hconf Hsizes Hdeletion
    Hfinalizer Hinitsecret (λ i, g (2 + i)) k) as (st & Hst & Hrd & Hph & _ & _ & Hpaths & Hact & d & Hd & Hrep & Hann).
  { exists (g 2). split; [apply (so_fit _ _ _ _ _ (good_all f g Hlull Hround Hstart 2))|done]. }
  { intros i. by apply (instance_interlude f g Hlull Hround Hstart). }
  { lia. }
  pose proof (meanwhile_frame (g (2 + k)) Hgood) as Hf. rewrite <-Hround in Hf.
  exists ast, st, (roll_out d). split_and!; try done; try by apply Hsynced.
  - rewrite <-Hst. unfold InstanceProgress.self. by rewrite (frame_at _ _ _ KInstance Hf eq_refl).
  - intros m Hm. destruct (module_paths _ _ _ Hast Hsynced Hm) as [Hin Hpath]. split; [done|].
    by rewrite Hpaths, <-Hp, <-Hready.
  - rewrite Hround. unfold SystemProgress.meanwhile. etrans; [exact (f_equal (lookup name) (put_objects_eq KDeployment _ _))|].
    etrans; [apply lookup_fmap|].
    destruct (upgrade_rounds_outcome r logs finish meta spec (addonsHash (ready (g (2 + k)))) (addonMountPaths (ready (g (2 + k))))
      Hends Hfine (instance_pass (g (2 + k))) (instance_good (g (2 + k)) Hgood)) as ([Hfu _] & _).
    rewrite (frame_at _ _ _ KDeployment Hfu eq_refl). exact (f_equal (fmap roll_out) Hd).
  - cbn. by rewrite Hrep.
  - by rewrite Hready, Hh.
Qed.
End Rollout.

(** *** Witness: a shop that gets another addon, with an upgrade in the queue *)
Section Example.
#[local] Existing Instances unicode_ref kube_ref url_ref retry_ref.

Definition rollout_start : cluster :=
  put KAddon "sale-x" waiting_addon (put KPVC "shop-addons" example_claim settled_cluster).

(** Between the passes every Job succeeds, the sync Job in a pod, and a resync interval goes by. *)
Definition run_jobs (w : cluster) : cluster :=
  let pods := match sync_job waiting_meta w with Some j => {["p" := job_pod j]} | None => ∅ end in
  {| objects := objects (put_objects KJob (succeed_job <$> jobs w) (put_objects KPod pods w)); clock := clock w + resyncInterval |}.

Definition shop_addon_pass : cluster → cluster := AddonProgress.pass shop_recorder (λ _, "") example_logs waiting_meta.
Definition shop_instance_pass : cluster → cluster := InstanceProgress.pass shop_recorder example_logs shop_meta.
Fixpoint rollout_history (n : nat) : cluster :=
  match n with
  | O => rollout_start
  | S n => SystemProgress.meanwhile shop_recorder example_logs succeed_job shop_meta
             (shop_instance_pass (run_jobs (shop_addon_pass (rollout_history n))))
  end.

Lemma run_jobs_lull w : lull succeed_job waiting_meta w (run_jobs w).
Proof.
  assert (jobs (run_jobs w) = succeed_job <$> jobs w) as Hjobs by exact (put_objects_eq KJob _ _).
  split; [|done| |by cbn].
  - intros k Hk. cbn [run_jobs objects]. rewrite !put_objects_ne by set_solver. done.
  - intros j Hj. assert (succeed_job <$> sync_job waiting_meta w = Some j) as Hj'.
    { rewrite <-Hj. symmetry. etrans; [exact (f_equal (lookup _) Hjobs)|apply lookup_fmap]. }
    apply fmap_Some in Hj' as (j0 & Hj0 & ->). unfold pods_of, labelled, listing.
    assert (objects (run_jobs w) KPod = {["p" := job_pod j0]}) as ->.
    { cbn [run_jobs objects]. rewrite put_objects_ne, put_objects_eq by done. by rewrite Hj0. }
    rewrite map_to_list_singleton. cbn. by rewrite bool_decide_true.
Qed.

Lemma rollout_sound hash paths :
  revision shop_meta hash paths (objects rollout_start KAddon) → sound shop_meta shop_spec hash paths rollout_start.
Proof.
  intros Hrev. assert (upgrades rollout_start = {["manual" := manual_upgrade]}) as Hups by done.
  assert (∀ n u, own shop_meta n → upgrades rollout_start !! n = Some u → False) as Hno.
  { intros n u Hn. rewrite Hups. intros [<- _]%lookup_singleton_Some. by destruct manual_not_own. }
  split.
  - intros k. destruct k; cbn [kind_fit]; try done; try (intros n o _ Ho; done).
    + intros req p Hreq. change (objects rollout_start KPVC) with ({["shop-addons" := example_claim]} : gmap string PersistentVolumeClaim).
      intros [Hn <-]%lookup_singleton_Some. split; [by rewrite <-Hn|]. intros _. split; [done|by left].
    + intros n Hne [Hn|(s & [= <-] & ->)]; [|by eexists]. destruct Hn as [-> | ->]; [by eexists|done].
    + by eexists.
    + intros n u Hn Hu. by destruct (Hno n u (own_current _ _ _ Hn)).
  - intros n u. change (queued KUpgrade rollout_start) with (upgrades rollout_start). rewrite Hups.
    intros [<- <-]%lookup_singleton_Some. split; try done. by right; right; left.
  - done.
  - intros n u Hn Hu. by destruct (Hno n u Hn).
Qed.

(** The shop is initialised while the addon syncs; then the new modules wait for their upgrade. *)
Lemma addon_gets_rolled_out_witness :
  (λ n, ((λ a, ads_Phase (ad_Status a)) <$> addon_at waiting_meta (rollout_history n),
         (λ i, (ist_Phase (in_Status i), bool_decide ("/mnt/odoo/addons/sale_x" ∈ ist_AddonPaths (in_Status i))))
           <$> self shop_meta (rollout_history n))) <$> [1; 2; 3] =
    [(Some "Syncing", Some ("Initializing", false)); (Some "Synced", Some ("Upgrading", true));
     (Some "Synced", Some ("Running", true))] ∧
  ∃ ast st d, addon_at waiting_meta (rollout_history 5) = Some (addon waiting_meta (ad_Spec git_addon) ast) ∧
    ads_Phase ast = phaseSynced ∧ ads_ClonedCommit ast = example_sha ∧ ads_Modules ast = ["sale_x"] ∧
    self shop_meta (rollout_history 5) = Some (inst shop_meta shop_spec st) ∧ ist_Ready st = true ∧ ist_Phase st = phaseRunning ∧
    ist_ActiveUpgrade st = "" ∧
    (∀ m, m ∈ ["sale_x"] → addon waiting_meta (ad_Spec git_addon) ast ∈ ready shop_meta (rollout_history 5) ∧
      JoinRooted addonsMountPath m ∈ ist_AddonPaths st) ∧
    web shop_meta (rollout_history 5) = Some d ∧ dep_Replicas d = Some (desiredReplicas shop_spec) ∧
    dep_StatusReadyReplicas d = desiredReplicas shop_spec ∧
    pt_Annotations (dep_Template d) !! annotationAddonsHash = Some (addonsHash (ready shop_meta (rollout_history 5))).
Proof.
  split; [by vm_compute|].
  apply (addon_gets_rolled_out shop_recorder (λ _, "") example_logs succeed_job shop_meta shop_spec shop_conf waiting_meta
    (ad_Spec git_addon) waiting_spec) with (f := rollout_history) (g := λ i, run_jobs (shop_addon_pass (rollout_history i)));
    try done; [exact shop_sizes|by intros s [= <-]|by intros s [= <-]| |exact (example_ends None)|by left|by left|..].
  - intros s [= <-] _. done.
  - intros i. apply run_jobs_lull.
  - apply rollout_sound. by split.
  - intros n u Hu. change (({["manual" := manual_upgrade]} : gmap string OdooUpgrade) !! n = Some u) in Hu.
    by apply lookup_singleton_Some in Hu as [_ <-].
  - exists waiting_status. split; [|by vm_compute]. split; [by vm_compute| |done|done].
    split; eexists; (split; [by vm_compute|done]).
Defined.
End Example.
