(* ===== verification/AddonDeletion.v ===== *)
(** * An addon that is deleted goes away

    Passes of [addonReconcile] on an addon with a deletion time, on a [Cluster] in which its Jobs may
    end in any way or not at all. The third pass at the latest takes the finalizer away, so the deletion
    of an addon does not hang on its volume, its instance or its Jobs. Here the server refuses a Job
    whose name is too long, as Kubernetes does, so the name of the addon has to leave room for the
    suffix of the cleanup Job; [long_name_held] shows what happens to an addon whose name does not. *)
From S2P Require Export Cluster AddonController.

Open Scope Z_scope.

(** ** A server that limits the names of Jobs

    Kubernetes refuses a Job whose name has more than 63 characters: its pods carry the name in a
    label. *)
Definition jobNameLimit : nat := 63.
Definition oversized (o : op) : bool :=
  match o with
  | OpCreate k j => bool_decide (k = KJob) && (jobNameLimit <? len (m_Name (obj_meta k j)))%nat
  | _ => false
  end.
Definition refusal : error := StatusError CodeInvalid "must be no more than 63 characters".
Definition limiting (logs : string) (w : cluster) (o : op) : answer o * cluster :=
  if oversized o
  then match o return answer o * cluster with OpCreate _ _ => (Err refusal, w) | o => api logs w o end
  else api logs w o.

(** A program whose Jobs have short names is not refused anything. *)
Lemma effect_limiting {A} logs h w (p : prog A) :
  wp (λ _ o, oversized o = false) h p (λ _ _, True) → effect (limiting logs) w p = effect (api logs) w p.
Proof.
  induction p as [a|o k IH] in h, w |- *; [done|]. intros [Ho Hk]. rewrite !effect_do. unfold limiting at 2 3. rewrite Ho.
  by eapply IH.
Qed.

Lemma effect_refused {B} logs w k (j : obj k) (f : res (obj k) → prog B) :
  oversized (OpCreate k j) = true → effect (limiting logs) w (prog_bind (create k j) f) = effect (limiting logs) w (f (Err refusal)).
Proof.
  intros Ho. unfold create, call. cbn [prog_bind]. rewrite effect_do.
  assert (limiting logs w (OpCreate k j) = (Err refusal, w)) as -> by (unfold limiting; by rewrite Ho). done.
Qed.

Section Deletion.
Context `{Unicode} `{KubeLib} `{!OwnerLaws} `{!ErrorLaws} `{!FinalizerLaws}.
Context (r : Reconciler) (Getenv : string → string) (logs : string).
(** The addon; its object stays as it is until the finalizer goes. *)
Context (addon : OdooAddon).

Abbreviation effect := (effect (api logs)).
Abbreviation meta := (ad_Meta addon).
Definition key : NamespacedName := objectKey meta.
Definition pass (w : cluster) : cluster := (Effects.effect (limiting logs) w (addonReconcile r Getenv key)).2.

Definition addon_at (w : cluster) : option OdooAddon := objects w KAddon !! m_Name meta.
Definition job_at (w : cluster) (n : string) : option Job := objects w KJob !! n.
Definition sync_job (w : cluster) : option Job := job_at w (nn_Name (syncJobKey addon)).
Definition cleanup_job (w : cluster) : option Job := job_at w (nn_Name (cleanupJobKey addon)).

(** The finalizer of the operator holds the addon no longer. *)
Definition released (w : cluster) : Prop :=
  ∀ a, addon_at w = Some a → m_DeletionTimestamp (ad_Meta a) ≠ None ∧ ContainsFinalizer (ad_Meta a) finalizerOdooAddon = false.
Definition owned_sync (w : cluster) : Prop := ∃ j, sync_job w = Some j ∧ IsControlledBy (job_Meta j) meta = true.

(** Objects are stored under their names. *)
Definition jobs_stored (w : cluster) : Prop :=
  ∀ n j, n ∈ [nn_Name (syncJobKey addon); nn_Name (cleanupJobKey addon)] → job_at w n = Some j → m_Name (job_Meta j) = n.
Definition waits (w : cluster) : Prop := addon_at w = Some addon ∧ jobs_stored w.

(** The cleanup Job has ended, or it has run for longer than [cleanupTimeout]. *)
Definition judged (w : cluster) (j : Job) : Prop :=
  ao_Succeeded (observeSyncJob (Some j) addon) = true ∨ ao_Failed (observeSyncJob (Some j) addon) = true ∨
  cleanupTimeout < time_Sub (clock w) (m_CreationTimestamp (job_Meta j)).

(** What others do between two passes: time passes and Jobs run or fail, but the Jobs are left to the
    operator, and the object of the addon only goes when nothing holds it. *)
Record interlude (w w' : cluster) : Prop := {
  il_addon : addon_at w' = addon_at w ∨ released w ∧ addon_at w' = None;
  il_stored : jobs_stored w → jobs_stored w';
  il_sync : owned_sync w' → owned_sync w;
  il_cleanup : is_Some (cleanup_job w) → ∃ j, cleanup_job w' = Some j ∧ judged w' j
}.

Context (Hdeletion : m_DeletionTimestamp meta ≠ None).
Context (Hfinalizer : ContainsFinalizer meta finalizerOdooAddon = true).

(** ** The steps of a pass *)
Lemma reads_volume w : ∃ v, effect w (addonVolume addon) = (Ok v, w).
Proof.
  unfold addonVolume. destruct (_ || _); [by eexists|]. rewrite effect_get.
  destruct (objects w KInstance !! _) as [i|]; cbn [found]; [|rewrite missing_not_found; by eexists].
  rewrite effect_get. destruct (objects w KPVC !! _) as [p|]; cbn [found]; [by eexists|].
  rewrite missing_not_found. by eexists.
Qed.

Lemma reads_job w x : effect w (getJobIfAny x) = (Ok (job_at w (nn_Name x)), w).
Proof.
  unfold getJobIfAny. rewrite effect_get. change (objects w KJob !! nn_Name x) with (job_at w (nn_Name x)).
  destruct (job_at w (nn_Name x)); cbn; [done|]. by rewrite missing_not_found.
Qed.

(** A Job that is read is deleted. *)
Lemma deletes_job w n j :
  job_at w n = Some j → m_Name (job_Meta j) = n → effect w (deleteJob j) = (Ok tt, erase KJob n w).
Proof. intros Hj Hn. unfold deleteJob. rewrite (effect_delete logs w KJob j _ j); cbn; by rewrite Hn. Qed.

Lemma erase_stored n w : jobs_stored w → jobs_stored (erase KJob n w).
Proof.
  intros Hs m j Hm. unfold job_at, erase. rewrite put_objects_eq. intros [_ Hj]%lookup_delete_Some. by apply Hs.
Qed.
Lemma erase_addon n w : addon_at (erase KJob n w) = addon_at w.
Proof. reflexivity. Qed.

Lemma deletes_if w del n job :
  jobs_stored w → n ∈ [nn_Name (syncJobKey addon); nn_Name (cleanupJobKey addon)] → (∀ j, job = Some j → job_at w n = Some j) →
  ∃ w', effect w (deleteIf del job) = (Ok tt, w') ∧ addon_at w' = addon_at w ∧ (w' = w ∨ w' = erase KJob n w).
Proof.
  intros Hs Hn Hj. unfold deleteIf. destruct job as [j|]; [destruct del|]; [|exists w; by auto..].
  specialize (Hj j eq_refl). exists (erase KJob n w). split; [|by auto]. apply deletes_job; [done|]. by apply Hs.
Qed.

(** The finalizer goes. *)
Lemma removes_finalizer w : 
  addon_at w = Some addon →
  released (effect w (let? _ := update KAddon (ad_with_meta (RemoveFinalizer meta finalizerOdooAddon) addon) in ok noResult)).2.
Proof.
  intros Ha. set (a := ad_with_meta _ _). assert (m_Name (obj_meta KAddon a) = m_Name meta) as Hname.
  { unfold a. cbn. by rewrite remove_finalizer_keeps. }
  unfold try_bind. rewrite (effect_update logs w KAddon a addon) by (rewrite Hname; exact Ha). rewrite Hname. cbn.
  intros a'. unfold addon_at, put. rewrite put_objects_eq, lookup_insert_eq. intros [= <-].
  split; [|apply remove_finalizer]. cbn. by rewrite remove_finalizer_keeps.
Qed.

Lemma finishes w sync owned cleanup :
  waits w → (∀ j, sync = Some j → sync_job w = Some j) → (∀ j, cleanup = Some j → cleanup_job w = Some j) →
  sync = None ∨ cleanup = None → released (effect w (finishDeletion addon sync owned cleanup)).2.
Proof.
  intros [Ha Hs] Hsync Hclean Hone. unfold finishDeletion.
  destruct (deletes_if w owned (nn_Name (syncJobKey addon)) sync) as (w1 & He1 & Ha1 & Hw1); [done|by left|done|].
  rewrite (effect_try _ _ _ _ _ _ He1).
  destruct (deletes_if w1 true (nn_Name (cleanupJobKey addon)) cleanup) as (w2 & He2 & Ha2 & _).
  - destruct Hw1 as [-> | ->]; [done|by apply erase_stored].
  - by right; left.
  - intros j Hj. destruct Hone as [-> | ->]; [|done]. unfold deleteIf in He1. injection He1 as <-. by apply Hclean.
  - rewrite (effect_try _ _ _ _ _ _ He2). apply removes_finalizer. by rewrite Ha2, Ha1.
Qed.

Lemma pass_reads w :
  pass w = (Effects.effect (limiting logs) w match found (addon_at w) with
    | Err e => if IsNotFound e then ok noResult else fail e
    | Ok a => match m_DeletionTimestamp (ad_Meta a) with
              | Some _ => addonHandleFinalizer r Getenv a
              | None => let? a := if ContainsFinalizer (ad_Meta a) finalizerOdooAddon then ok a
                          else update KAddon (ad_with_meta (AddFinalizer (ad_Meta a) finalizerOdooAddon) a) in
                        reconcileOdooAddon r Getenv a
              end
    end).2.
Proof. unfold pass, addonReconcile, get, call. cbn [prog_bind]. by rewrite effect_do. Qed.

(** *** The cleanup Job has a name the server accepts *)
Definition fits {A} (p : prog A) : Prop := ∀ h, wp (λ _ o, oversized o = false) h p (λ _ _, True).
Lemma fits_bind {A B} (p : prog A) (f : A → prog B) : fits p → (∀ a, fits (f a)) → fits (prog_bind p f).
Proof. intros Hp Hf h. apply wp_bind. eapply wp_mono; [apply Hp|]. intros h' a _. apply Hf. Qed.
Lemma fits_try {A B} (p : prog (res A)) (f : A → prog (res B)) : fits p → (∀ a, fits (f a)) → fits (try_bind p f).
Proof. intros Hp Hf. apply fits_bind; [done|]. intros [a|e]; [apply Hf|by intros h]. Qed.
Lemma fits_call o : oversized o = false → fits (call o).
Proof. intros Ho h. by split. Qed.
Lemma fits_events rec m evs : fits (emitEvents rec m evs).
Proof. intros h. by apply wp_emitEvents. Qed.
Ltac fits_with leaf := repeat first [ progress intros | leaf | progress cbv zeta | by apply fits_call | apply fits_events | apply fits_try | apply fits_bind
  | match goal with |- fits (match ?x with _ => _ end) => destruct x end | match goal with |- fits _ => by intros ? end ].
Ltac fits := fits_with fail.

Context (Hshort : (len (cleanupJobName (m_Name meta)) ≤ jobNameLimit)%nat).

Lemma fits_create instance pvcName : fits (createCleanupJob Getenv addon instance pvcName).
Proof.
  unfold createCleanupJob, odooPodNode, createAddonJob. apply fits_bind; [fits|]. intros node.
  destruct (SetControllerReference _ _) as [m|] eqn:Hm; [|by intros h].
  destruct (set_controller_ref _ _ _ Hm) as (_ & Hmeta & _). apply fits_bind; [|fits]. apply fits_call.
  cbn [oversized obj_meta job_with_meta job_Meta]. rewrite Hmeta. apply andb_false_intro2, Nat.ltb_ge. exact Hshort.
Qed.
Lemma fits_delete del job : fits (deleteIf del job).
Proof. unfold deleteIf, deleteJob. fits. Qed.
Lemma fits_finish sync owned cleanup : fits (finishDeletion addon sync owned cleanup).
Proof. unfold finishDeletion. fits_with ltac:(apply fits_delete). Qed.
Lemma fits_handle : fits (addonHandleFinalizer r Getenv addon).
Proof.
  unfold addonHandleFinalizer, getSyncJob, getCleanupJob, getJobIfAny, addonVolume, with_result, judgeCleanup.
  fits_with ltac:(first [apply fits_create | apply fits_finish | apply fits_delete]).
Qed.

Lemma pass_handles w : addon_at w = Some addon → pass w = (effect w (addonHandleFinalizer r Getenv addon)).2.
Proof.
  intros Ha. rewrite pass_reads, Ha. cbn [found]. destruct (m_DeletionTimestamp meta); [|done].
  f_equal. by apply effect_limiting with [], fits_handle.
Qed.
Lemma job_names : nn_Name (syncJobKey addon) ≠ nn_Name (cleanupJobKey addon).
Proof. cbn. unfold syncJobName, cleanupJobName. intros Heq%(inj (String.append (m_Name meta))). done. Qed.

Lemma creates_cleanup w instance pvcName :
  waits w → cleanup_job w = None →
  ∃ w', effect w (createCleanupJob Getenv addon instance pvcName) = (Ok tt, w') ∧ waits w' ∧ sync_job w' = sync_job w ∧
    is_Some (cleanup_job w').
Proof.
  intros [Ha Hs] Hc. unfold createCleanupJob, odooPodNode. rewrite effect_bind, effect_list. cbn [Effects.effect run fst snd].
  set (node := running_node _). set (job := buildCleanupJob _ _).
  pose proof (set_controller_new meta (job_Meta job) eq_refl eq_refl) as Hok. unfold createAddonJob.
  change (effect w (Ret node)) with (node, w). cbn [fst snd].
  destruct (SetControllerReference meta (job_Meta job)) as [m|] eqn:Hm; [|done].
  destruct (set_controller_ref _ _ _ Hm) as (_ & Hmeta & _). set (n := nn_Name (cleanupJobKey addon)).
  assert (m_Name (obj_meta KJob (job_with_meta m job)) = n) as Hname by (cbn; by rewrite Hmeta).
  rewrite (effect_create logs w KJob (job_with_meta m job)) by (rewrite Hname; exact Hc). rewrite Hname.
  eexists. split; [reflexivity|]. assert (objects (put KJob n (job_with_meta m job) w) KJob = <[n := job_with_meta m job]> (objects w KJob)) as Hput
    by (unfold put; apply put_objects_eq). split_and!.
  - split; [exact Ha|]. intros n' j Hn'. unfold job_at. rewrite Hput. intros [[<- <-]|[_ Hj]]%lookup_insert_Some; [exact Hname|].
    by apply Hs.
  - unfold sync_job, job_at. rewrite Hput. apply lookup_insert_ne. intros Heq. by destruct job_names.
  - unfold cleanup_job, job_at. rewrite Hput. fold n. by rewrite lookup_insert_eq.
Qed.

(** A pass takes the finalizer away, or it is one step closer: no sync Job of the addon is left, and
    then there is a cleanup Job. *)
Lemma deletion_step w :
  waits w → released (pass w) ∨
    waits (pass w) ∧ ¬ owned_sync (pass w) ∧ (¬ owned_sync w → is_Some (cleanup_job (pass w))).
Proof.
  intros Hw. pose proof Hw as [Ha Hs]. rewrite pass_handles by done. unfold addonHandleFinalizer. rewrite Hfinalizer. cbn [negb].
  unfold getSyncJob. rewrite (effect_try _ _ _ _ _ _ (reads_job w (syncJobKey addon))). fold (sync_job w).
  set (owned := match sync_job w with Some j => IsControlledBy (job_Meta j) meta | None => false end).
  destruct (reads_volume w) as [v Hv]. rewrite (effect_try _ _ _ _ _ _ Hv).
  destruct v as [[instance pvcName]|]; [|left; by apply finishes; auto]. destruct owned eqn:Howned.
  - right. unfold owned in Howned. destruct (sync_job w) as [j|] eqn:Hj; [|done]. unfold with_result. cbn [deleteIf].
    rewrite (effect_try _ _ _ _ _ _ (deletes_job w _ j Hj (Hs _ j ltac:(by left) Hj))).
    match goal with |- context [erase KJob ?n w] => set (w1 := erase KJob n w) end. rewrite (eq_refl : (effect w1 (ok (requeue addonStaleJobRequeue))).2 = w1).
    split_and!.
    + split; [exact Ha|by apply erase_stored].
    + intros (j' & Hj' & _). revert Hj'. unfold w1, sync_job, job_at, erase.
      rewrite put_objects_eq. by rewrite lookup_delete_eq.
    + intros Hno. destruct Hno. by exists j.
  - assert (¬ owned_sync w) as Hno by (intros (j & Hj & Hc); unfold owned in Howned; by rewrite Hj, Hc in Howned).
    unfold getCleanupJob. rewrite (effect_try _ _ _ _ _ _ (reads_job w (cleanupJobKey addon))). fold (cleanup_job w).
    destruct (cleanup_job w) as [j|] eqn:Hj.
    + destruct (negb _); [left; by apply finishes; auto|]. unfold judgeCleanup.
      assert (∀ ev, released (effect w (let* _ := emitEvents (rec_Recorder r) meta [ev] in
        finishDeletion addon None false (Some j))).2) as Hfinish.
      { intros ev. rewrite effect_bind, effect_events. cbn [fst snd]. apply finishes; [done|done|by intros ? [= <-]|by left]. }
      destruct (ao_Succeeded _); [left; apply finishes; [done|done|by intros ? [= <-]|by left]|].
      destruct (ao_Failed _); [left; apply Hfinish|]. rewrite effect_now. destruct (_ <? _); [left; apply Hfinish|].
      right. split_and!; [done|done|]. intros _. by exists j.
    + right. destruct (creates_cleanup w instance pvcName Hw Hj) as (w' & He & Hw' & Hsync & Hex).
      unfold with_result. rewrite (effect_try _ _ _ _ _ _ He). split_and!; [exact Hw'| |done].
      intros (j & Hj' & Hc). apply Hno. exists j. by rewrite <-Hsync.
Qed.

Lemma deletion_done w j :
  waits w → ¬ owned_sync w → cleanup_job w = Some j → judged w j → released (pass w).
Proof.
  intros Hw Hno Hj Hjudged. pose proof Hw as [Ha Hs]. rewrite pass_handles by done. unfold addonHandleFinalizer. rewrite Hfinalizer. cbn [negb].
  unfold getSyncJob. rewrite (effect_try _ _ _ _ _ _ (reads_job w (syncJobKey addon))). fold (sync_job w).
  destruct (reads_volume w) as [v Hv]. rewrite (effect_try _ _ _ _ _ _ Hv).
  destruct v as [[instance pvcName]|]; [|by apply finishes; auto].
  assert (match sync_job w with Some j => IsControlledBy (job_Meta j) meta | None => false end = false) as ->.
  { destruct (sync_job w) as [j'|] eqn:Hj'; [|done]. apply not_true_iff_false. intros Hc. apply Hno. by exists j'. }
  unfold getCleanupJob. rewrite (effect_try _ _ _ _ _ _ (reads_job w (cleanupJobKey addon))). fold (cleanup_job w). rewrite Hj.
  destruct (negb _); [by apply finishes; auto|]. unfold judgeCleanup.
  assert (released (effect w (finishDeletion addon None false (Some j))).2) as Hfinish
    by (apply finishes; [done|done|by intros ? [= <-]|by left]).
  destruct (ao_Succeeded _) eqn:Hsu; [done|].
  destruct (ao_Failed _) eqn:Hfa; [by rewrite effect_bind, effect_events|]. rewrite effect_now.
  destruct Hjudged as [Hx|[Hx|Hx]]; [by rewrite Hx in Hsu|by rewrite Hx in Hfa|].
  apply Z.ltb_lt in Hx. rewrite Hx. by rewrite effect_bind, effect_events.
Qed.

(** Once released, the passes leave the addon alone. *)
Lemma pass_released w : released w → pass w = w.
Proof.
  intros Hr. rewrite pass_reads. unfold released in Hr. destruct (addon_at w) as [a|]; cbn [found].
  - destruct (Hr a eq_refl) as [Hd Hf]. destruct (m_DeletionTimestamp (ad_Meta a)) as [t|]; [|done].
    unfold addonHandleFinalizer. by rewrite Hf.
  - by rewrite missing_not_found.
Qed.

(** ** From pass to pass *)
Lemma interlude_waits w w' : interlude w w' → waits w → waits w' ∨ released w'.
Proof.
  intros [Ha Hst _ _] [Hw Hs]. destruct Ha as [Ha|[_ Ha]]; [left; split; [by rewrite Ha|by apply Hst]|].
  right. intros a. by rewrite Ha.
Qed.
Lemma interlude_released w w' : interlude w w' → released w → released w'.
Proof.
  intros [Ha _ _ _] Hr a. destruct Ha as [Ha|[_ Ha]]; rewrite Ha; [apply Hr|done].
Qed.

(** How far the deletion is before a pass. *)
Definition stage (n : nat) (w : cluster) : Prop :=
  released w ∨ waits w ∧
    match n with
    | O => True
    | S O => ¬ owned_sync w
    | _ => ¬ owned_sync w ∧ ∃ j, cleanup_job w = Some j ∧ judged w j
    end.

Lemma stage_next n w w' : (n < 2)%nat → stage n w → interlude (pass w) w' → stage (S n) w'.
Proof.
  intros Hn Hst Hb. destruct Hst as [Hr|[Hw Hst]].
  { left. apply (interlude_released _ _ Hb). by rewrite pass_released. }
  destruct (deletion_step w Hw) as [Hr|(Hw' & Hno & Hex)]; [left; by apply (interlude_released _ _ Hb)|].
  destruct (interlude_waits _ _ Hb Hw') as [Hw2|Hr]; [|by left]. right. split; [done|].
  assert (¬ owned_sync w') as Hno' by (intros Ho%(il_sync _ _ Hb); done).
  destruct n as [|[|n]]; [done| |lia]. split; [done|]. by apply (il_cleanup _ _ Hb), Hex.
Qed.

Lemma last_stage w : stage 2 w → released (pass w).
Proof.
  intros [Hr|(Hw & Hno & j & Hj & Hjudged)]; [by rewrite pass_released|]. by apply (deletion_done w j).
Qed.

(** An addon with a longer name is held: while its volume is there and no Job is, a pass changes
    nothing, since the cleanup Job is refused. *)
Lemma long_name_held w instance pvcName :
  (jobNameLimit < len (cleanupJobName (m_Name meta)))%nat → addon_at w = Some addon →
  sync_job w = None → cleanup_job w = None → (effect w (addonVolume addon)).1 = Ok (Some (instance, pvcName)) →
  pass w = w.
Proof.
  intros Hlong Ha Hsync Hclean Hvol. rewrite pass_reads, Ha. cbn [found].
  destruct (m_DeletionTimestamp meta); [|done]. unfold addonHandleFinalizer. rewrite Hfinalizer. cbn [negb].
  assert (∀ x, Effects.effect (limiting logs) w (getJobIfAny x) = (Ok (job_at w (nn_Name x)), w)) as Hread.
  { intros x. rewrite (effect_limiting logs []); [apply reads_job|]. assert (fits (getJobIfAny x)) as Hf; [unfold getJobIfAny; fits|apply Hf]. }
  unfold getSyncJob. rewrite (effect_try _ _ _ _ _ _ (Hread (syncJobKey addon))). fold (sync_job w). rewrite Hsync.
  assert (Effects.effect (limiting logs) w (addonVolume addon) = (Ok (Some (instance, pvcName)), w)) as Hv.
  { destruct (reads_volume w) as [v Hv]. rewrite Hv in Hvol. cbn [fst] in Hvol. rewrite <-Hvol. rewrite (effect_limiting logs []); [exact Hv|]. assert (fits (addonVolume addon)) as Hf; [unfold addonVolume; fits|apply Hf]. }
  rewrite (effect_try _ _ _ _ _ _ Hv). unfold getCleanupJob.
  rewrite (effect_try _ _ _ _ _ _ (Hread (cleanupJobKey addon))). fold (cleanup_job w). rewrite Hclean.
  unfold with_result, try_bind. rewrite !effect_bind. unfold createCleanupJob. rewrite effect_bind.
  assert (∃ node, Effects.effect (limiting logs) w (odooPodNode instance) = (node, w)) as [node ->].
  { unfold odooPodNode. rewrite effect_bind. unfold list_objects, call. rewrite effect_do. by eexists. }
  cbn [fst snd]. unfold createAddonJob. destruct (SetControllerReference _ _) as [m|] eqn:Hm; [|done].
  destruct (set_controller_ref _ _ _ Hm) as (_ & Hmeta & _). rewrite effect_refused.
  - cbn. by destruct (IsAlreadyExists _).
  - cbn [oversized obj_meta job_with_meta job_Meta]. rewrite Hmeta. by apply Nat.ltb_lt.
Qed.

(** ** Properties *)

(** C21: an addon that is deleted goes away. Take an addon with a deletion time, the operator's
    finalizer and a name that leaves its cleanup Job a name of at most 63 bytes, on a server that
    refuses Jobs with longer names and no other call. It may have any sync and cleanup Jobs under its
    names, its own or another's, finished, failed or running, and its instance and volume may be there
    or not. Between two passes anything may happen to the Jobs, the instance and the volume, as long as
    no new sync Job of the addon appears and the cleanup Job, once there, stays and has ended or run for
    more than three minutes; the object of the addon is left alone. Then from the third pass on the
    finalizer is gone: neither a cleanup that fails or hangs, nor a foreign Job of that name, nor a
    missing volume holds the addon for ever. *)
Theorem addon_gets_deleted (f : nat → cluster) n :
  waits (f 0%nat) → (∀ i, interlude (pass (f i)) (f (S i))) → (2 ≤ n)%nat → released (pass (f n)).
Proof.
  intros Hstart Hb Hn. assert (stage 2 (f 2%nat)) as Hstage.
  { apply (stage_next 1 (f 1%nat)); [lia| |apply Hb]. apply (stage_next 0 (f 0%nat)); [lia|by right|apply Hb]. }
  destruct n as [|[|n]]; [lia..|]. clear Hn. induction n as [|n IH]; [by apply last_stage|].
  assert (released (f (S (S (S n))))) as Hr by by apply (interlude_released _ _ (Hb _)). by rewrite pass_released.
Qed.

(** *** Jobs that fail *)
Definition fails (j : Job) : Job :=
  {| job_Meta := job_Meta j; job_Spec := job_Spec j;
     job_Status := {| jst_Succeeded := 0; jst_Failed := 1;
       jst_Conditions := [ {| jc_Type := JobFailed; jc_Status := ConditionTrue; jc_Reason := "BackoffLimitExceeded"; jc_Message := "" |} ];
       jst_CompletionTime := None |} |}.
Definition fail_jobs (w : cluster) : cluster := put_objects KJob (fails <$> objects w KJob) w.
Fixpoint failing (w : cluster) (n : nat) : cluster :=
  match n with O => w | S n => fail_jobs (pass (failing w n)) end.

Lemma fail_job_at w n : job_at (fail_jobs w) n = fails <$> job_at w n.
Proof. unfold job_at, fail_jobs. rewrite put_objects_eq. apply lookup_fmap. Qed.

Lemma fail_interlude w : interlude w (fail_jobs w).
Proof.
  split; [by left| | |].
  - intros Hs n j Hn. rewrite fail_job_at. intros (j' & Hj & ->)%fmap_Some. by apply (Hs n j').
  - intros (j & Hj & Hc). unfold sync_job in Hj. rewrite fail_job_at in Hj. apply fmap_Some in Hj as (j' & Hj' & ->). by exists j'.
  - intros [j Hj]. exists (fails j). unfold cleanup_job in *. rewrite fail_job_at, Hj. split; [done|]. right. by left.
Qed.
End Deletion.

(** *** Witness: an addon with its instance, its volume and a sync Job that runs *)
Section Example.
#[local] Existing Instances unicode_ref kube_ref url_ref.

Definition leaving_addon : OdooAddon := deleted_addon.
Definition leaving_shop : OdooInstance :=
  {| in_Meta := newMeta "shop" "shop"; in_Spec := conf_example;
     in_Status := {| ist_Ready := true; ist_Phase := "Running"; ist_AddonPaths := [];
       ist_ObservedGeneration := 1; ist_Conditions := []; ist_Message := "";
       ist_Initialized := true; ist_InitUpgrade := ""; ist_AppliedAddonsHash := "";
       ist_ActiveUpgrade := "" |} |}.
Definition leaving_pvc : PersistentVolumeClaim :=
  {| pvc_Meta := newMeta "shop-addons" "shop"; pvc_AccessModes := []; pvc_StorageRequest := "";
     pvc_StorageClassName := None; pvc_Phase := ClaimBound |}.
Definition leaving_job : Job :=
  job_with_meta (with_owners [ {| owner_UID := m_UID (ad_Meta leaving_addon); owner_Controller := true |} ]
    (newMeta "sale-x-sync" "shop")) finished_job.
Definition leaving_cluster : cluster :=
  put_objects KAddon {["sale-x" := leaving_addon]}
    (put_objects KInstance {["shop" := leaving_shop]}
       (put_objects KPVC {["shop-addons" := leaving_pvc]}
          (put_objects KJob {["sale-x-sync" := leaving_job]} {| objects := λ _, ∅; clock := 100 * Second |}))).
Definition leaving_pass (n : nat) : cluster :=
  pass {| rec_Recorder := true; rec_Clientset := true |} (λ _, "") "" leaving_addon
    (failing {| rec_Recorder := true; rec_Clientset := true |} (λ _, "") "" leaving_addon leaving_cluster n).

(** The sync Job goes, the cleanup Job comes, fails, and goes with the finalizer. *)
Lemma addon_gets_deleted_witness :
  (λ n, ((λ a, m_Finalizers (ad_Meta a)) <$> objects (leaving_pass n) KAddon !! "sale-x",
         (map_to_list (objects (leaving_pass n) KJob)).*1)) <$> [0; 1; 2]%nat =
    [(Some [finalizerOdooAddon], []); (Some [finalizerOdooAddon], ["sale-x-cleanup"]); (Some [], [])] ∧
  released leaving_addon (leaving_pass 2).
Proof.
  split; [by vm_compute|].
  apply (addon_gets_deleted {| rec_Recorder := true; rec_Clientset := true |} (λ _, "") "" leaving_addon ltac:(done) ltac:(by vm_compute) ltac:(apply Nat.leb_le; by vm_compute)
    (failing {| rec_Recorder := true; rec_Clientset := true |} (λ _, "") "" leaving_addon leaving_cluster) 2); [|intros i; apply fail_interlude|lia].
  split; [by vm_compute|]. intros n j Hn Hj.
  assert (({["sale-x-sync" := leaving_job]} : gmap string Job) !! n = Some j) as [<- <-]%lookup_singleton_Some by exact Hj. by vm_compute.
Defined.

(** With a name of 56 bytes a pass leaves the addon, its finalizer and its volume as they are. *)
Definition long_name : string := "an-addon-with-a-name-that-is-a-little-too-long-for-a-job".
Definition long_addon : OdooAddon := ad_with_meta
  {| m_Name := long_name; m_Namespace := "shop"; m_UID := m_UID (ad_Meta leaving_addon); m_ResourceVersion := "7";
     m_Generation := 1; m_CreationTimestamp := 0; m_DeletionTimestamp := m_DeletionTimestamp (ad_Meta leaving_addon);
     m_Labels := ∅; m_Annotations := ∅; m_Finalizers := [finalizerOdooAddon]; m_OwnerReferences := [] |} leaving_addon.
Definition long_cluster : cluster := put_objects KAddon {[long_name := long_addon]} (put_objects KJob ∅ leaving_cluster).

Lemma long_name_example :
  len long_name = 56%nat ∧
  pass {| rec_Recorder := true; rec_Clientset := true |} (λ _, "") "" long_addon long_cluster = long_cluster.
Proof.
  split; [done|]. apply (long_name_held {| rec_Recorder := true; rec_Clientset := true |} (λ _, "") "" long_addon ltac:(done) ltac:(by vm_compute) long_cluster leaving_shop "shop-addons");
    [apply Nat.ltb_lt; by vm_compute|by vm_compute..].
Qed.
End Example.

Close Scope Z_scope.
