(* ===== verification/Schema.v ===== *)
(** * The CRD validation rules (the kubebuilder markers of api/v1)

    controller-gen turns the markers on the Go types into the schemas under config/crd/bases, which
    the API server checks when an object is created or its spec changes. Here each type has the
    predicate of its markers. An optional field the object does not have is the zero value of the
    record, and a marker is not checked on an absent field.

    The rules connect the controllers: what one creates, the server must admit and the other must
    accept; what the queues assume of users' changes is what the rules enforce. *)
From S2P Require Export BackupSpec BackupQueue QueueSystem UpgradeController InstanceController.

Open Scope Z_scope.

(** ** Markers *)
Definition in_range (lo hi v : Z) : bool := (lo <=? v) && (v <=? hi).
(** [Minimum] and [Maximum] on a pointer field, and on a number that is left out when it is 0. *)
Definition opt_range (lo hi : Z) (v : option Z) : bool := from_option (in_range lo hi) true v.
Definition zero_or_range (lo hi v : Z) : bool := (v =? 0) || in_range lo hi v.
(** [Pattern] on a string that is left out when it is empty. *)
Definition opt_pattern (pattern : string → bool) (s : string) : bool := String.eqb s "" || pattern s.
(** [Enum=ReadWriteOnce;ReadWriteMany]. *)
Definition access_mode_enum (s : string) : bool :=
  opt_pattern (λ s, String.eqb s ReadWriteOnce || String.eqb s ReadWriteMany) s.

Definition timeout_rule (t : option Z) : bool := opt_range 60 86400 t.
Definition module_pattern (s : string) : bool := matches_plus (λ c, is_alnum c || has_byte c "_") s.
Definition module_items (least : nat) (l : list string) : bool :=
  (least <=? length l)%nat && (length l <=? 100)%nat && forallb module_pattern l.
Definition database_pattern (s : string) : bool := matches_plus (λ c, is_alnum c || has_byte c "_.-") s.
Definition path_pattern (s : string) : bool := matches_plus (λ c, is_alnum c || has_byte c "._/-") s.

(** ** CEL: a rule holds, fails, or is an error, as on a field the object does not have *)
Definition cel := option bool.
Definition cel_or (a b : cel) : cel :=
  match a, b with
  | Some true, _ | _, Some true => Some true
  | Some false, Some false => Some false
  | _, _ => None
  end.
Definition cel_holds (c : cel) : bool := match c with Some b => b | None => false end.
(** [size(self.f) > 0], where the Go client leaves an empty list out. *)
Definition cel_nonempty {A} (l : list A) : cel := match l with [] => None | _ => Some true end.

(** ** OdooInstance *)
Definition CronSpec_admitted (c : CronSpec) : bool := opt_range 1 16 (cr_MaxCronThreads c).
Definition InitializeSpec_admitted (i : InitializeSpec) : bool :=
  module_items 1 (ini_Modules i) && (1 <=? len (ini_AdminUserPasswordSecret i))%nat &&
  timeout_rule (ini_TimeoutSeconds i).
Definition UpgradeSpec_admitted (u : UpgradeSpec) : bool :=
  module_items 1 (usp_Modules u) && timeout_rule (usp_TimeoutSeconds u).
Definition PostgresSpec_admitted (p : PostgresSpec) : bool := zero_or_range 1 65535 (pg_Port p).

(** The two rules on the spec: more than one replica needs shared volumes. *)
Definition shared_data_rule (s : OdooInstanceSpec) : bool :=
  (is_Replicas s =? 0) || (is_Replicas s <=? 1) || String.eqb (dv_AccessMode (is_Data s)) ReadWriteMany.
Definition shared_addons_rule (s : OdooInstanceSpec) : bool :=
  (is_Replicas s =? 0) || (is_Replicas s <=? 1) || String.eqb (av_AccessMode (is_Addons s)) ReadWriteMany.

Definition OdooInstanceSpec_admitted (s : OdooInstanceSpec) : bool :=
  zero_or_range 1 100 (is_Replicas s) &&
  access_mode_enum (av_AccessMode (is_Addons s)) && access_mode_enum (dv_AccessMode (is_Data s)) &&
  PostgresSpec_admitted (is_Postgres s) &&
  from_option UpgradeSpec_admitted true (is_Upgrade s) &&
  from_option InitializeSpec_admitted true (is_Initialize s) &&
  from_option CronSpec_admitted true (is_Cron s) &&
  shared_data_rule s && shared_addons_rule s.

(** The transition rule: [spec.initialize] is set at creation only. *)
Definition initialize_rule (old new : OdooInstanceSpec) : bool :=
  match is_Initialize new, is_Initialize old with Some _, None => false | _, _ => true end.

(** ** OdooUpgrade *)
Definition OdooUpgradeSpec_admitted (s : OdooUpgradeSpec) : bool :=
  module_items 0 (us_Modules s) && module_items 0 (us_InstallModules s) &&
  opt_pattern database_pattern (us_Database s) && timeout_rule (us_TimeoutSeconds s).

Definition upgrade_modules_rule (s : OdooUpgradeSpec) : bool :=
  cel_holds (cel_or (cel_nonempty (us_Modules s)) (cel_nonempty (us_InstallModules s))).

Definition OdooUpgrade_admitted (u : OdooUpgrade) : bool :=
  OdooUpgradeSpec_admitted (up_Spec u) && upgrade_modules_rule (up_Spec u).

#[export] Instance OdooInstanceRef_eq_dec : EqDecision OdooInstanceRef.
Proof. solve_decision. Defined.
#[export] Instance OdooUpgradeSpec_eq_dec : EqDecision OdooUpgradeSpec.
Proof. solve_decision. Defined.
#[export] Instance BackupPVCDestination_eq_dec : EqDecision BackupPVCDestination.
Proof. solve_decision. Defined.
#[export] Instance BackupS3Destination_eq_dec : EqDecision BackupS3Destination.
Proof. solve_decision. Defined.
#[export] Instance BackupDestination_eq_dec : EqDecision BackupDestination.
Proof. solve_decision. Defined.
#[export] Instance OdooBackupSpec_eq_dec : EqDecision OdooBackupSpec.
Proof. solve_decision. Defined.

(** The transition rule: the spec is immutable. *)
Definition upgrade_immutable_rule (old new : OdooUpgradeSpec) : bool := bool_decide (new = old).

(** ** OdooBackup *)

(** [\s] of a pattern, and one or more bytes of a class at the front of a text. *)
Definition re_space (c : ascii) : bool :=
  existsb (Ascii.eqb c) ["009"; "010"; "012"; "013"; "032"]%char.
Definition take_plus (class : ascii → bool) (l : list ascii) : option (list ascii) :=
  match l with
  | c :: l => if class c then Some (drop_while class l) else None
  | [] => None
  end.
Definition take_field (l : list ascii) : option (list ascii) := take_plus (λ c, negb (re_space c)) l.
Definition take_next_field (l : list ascii) : option (list ascii) := take_plus re_space l ≫= take_field.

(** [(\s+[^\s]+){n}] at the front of a text. *)
Fixpoint take_fields (n : nat) (l : list ascii) : option (list ascii) :=
  match n with
  | O => Some l
  | S n => match take_next_field l with Some l => take_fields n l | None => None end
  end.

(** Five fields with blanks between them and nothing else. *)
Definition schedule_pattern (s : string) : bool :=
  match take_field (bytes s) ≫= take_fields 4 with Some [] => true | _ => false end.

(** The suffixes of the pattern of [scratchSize], and the digits before them. *)
Definition quantity_suffixes : list string :=
  [""; "Ki"; "Mi"; "Gi"; "Ti"; "Pi"; "Ei"; "k"; "M"; "G"; "T"; "P"; "E"; "m"].
Definition quantity_suffix (l : list ascii) : bool := bool_decide (of_bytes l ∈ quantity_suffixes).
Definition quantity_pattern (s : string) : bool :=
  match take_plus is_digit (bytes s) with
  | Some (c :: l) =>
      if Ascii.eqb c "." then from_option quantity_suffix false (take_plus is_digit l)
      else quantity_suffix (c :: l)
  | Some [] => true
  | None => false
  end.

Definition BackupPVCDestination_admitted (p : BackupPVCDestination) : bool :=
  (1 <=? len (bp_ClaimName p))%nat && opt_pattern path_pattern (bp_SubPath p).
Definition BackupS3Destination_admitted (d : BackupS3Destination) : bool :=
  (1 <=? len (s3_Bucket d))%nat && opt_pattern path_pattern (s3_Prefix d) &&
  (1 <=? len (s3_CredentialsSecret d))%nat.

(** The rule on the destination: [has(self.pvc) != has(self.s3)]. *)
Definition one_destination_rule (d : BackupDestination) : bool :=
  xorb (bool_decide (is_Some (bd_PVC d))) (bool_decide (is_Some (bd_S3 d))).
Definition BackupDestination_admitted (d : BackupDestination) : bool :=
  from_option BackupPVCDestination_admitted true (bd_PVC d) &&
  from_option BackupS3Destination_admitted true (bd_S3 d) && one_destination_rule d.

Definition OdooBackupSpec_admitted (s : OdooBackupSpec) : bool :=
  opt_pattern database_pattern (bs_Database s) && BackupDestination_admitted (bs_Destination s) &&
  from_option (Z.leb 1) true (bs_Retention s) && opt_pattern quantity_pattern (bs_ScratchSize s) &&
  timeout_rule (bs_TimeoutSeconds s) && opt_pattern schedule_pattern (bs_Schedule s).

(** The transition rule: unchanged, or scheduled before and after. *)
Definition backup_immutable_rule (old new : OdooBackupSpec) : bool :=
  bool_decide (new = old) || (negb (String.eqb (bs_Schedule old) "") && negb (String.eqb (bs_Schedule new) "")).

Example schedule_pattern_example :
  schedule_pattern "0 3 * * *" = true ∧ schedule_pattern "0 3 * *" = false ∧
  schedule_pattern " 0 3 * * *" = false ∧ schedule_pattern "0 3 * * * " = false.
Proof. by vm_compute. Qed.

Example quantity_pattern_example :
  quantity_pattern "10Gi" = true ∧ quantity_pattern "1.5Gi" = true ∧ quantity_pattern "100" = true ∧
  quantity_pattern "1.Gi" = false ∧ quantity_pattern "-1Gi" = false ∧ quantity_pattern "1e3" = false.
Proof. by vm_compute. Qed.

(** ** What the rules give *)
Lemma module_items_weaken l : module_items 1 l = true → module_items 0 l = true ∧ l ≠ [].
Proof.
  unfold module_items. rewrite !andb_true_iff, !Nat.leb_le. intros [[Hl ?] ?].
  split; [by split_and!; [lia|..]|]. by destruct l; cbn in Hl; [lia|].
Qed.

(** The modules rule holds as soon as one list is not empty, the other absent or not. *)
Lemma upgrade_modules_rule_spec s :
  upgrade_modules_rule s = true ↔ us_Modules s ≠ [] ∨ us_InstallModules s ≠ [].
Proof. unfold upgrade_modules_rule. destruct (us_Modules s), (us_InstallModules s); cbn; naive_solver. Qed.

Lemma gateUpgrade_admitted inst spec name :
  UpgradeSpec_admitted spec = true → OdooUpgrade_admitted (gateUpgrade inst spec name) = true.
Proof.
  unfold UpgradeSpec_admitted, OdooUpgrade_admitted. rewrite !andb_true_iff, upgrade_modules_rule_spec.
  intros [[Hm Hne]%module_items_weaken Ht]. unfold OdooUpgradeSpec_admitted. cbn -[module_items timeout_rule].
  rewrite Hm, Ht. auto.
Qed.

Lemma initUpgrade_admitted inst spec name :
  InitializeSpec_admitted spec = true → OdooUpgrade_admitted (initUpgrade inst spec name) = true.
Proof.
  unfold InitializeSpec_admitted, OdooUpgrade_admitted. rewrite !andb_true_iff, upgrade_modules_rule_spec.
  intros [[[Hm Hne]%module_items_weaken _] Ht]. unfold OdooUpgradeSpec_admitted. cbn -[module_items timeout_rule].
  rewrite Hm, Ht. auto.
Qed.

(** ** OdooUpgrades the instance controller creates *)
Section Created.
Context `{Unicode} `{KubeLib}.

(** [upgradeValidateSpec] on an object of the instance controller: only the use of "all" is left. *)
Lemma upgradeValidateSpec_owned u :
  ref_Name (us_InstanceRef (up_Spec u)) ≠ "" → ref_Namespace (us_InstanceRef (up_Spec u)) = "" →
  us_AdminUserPasswordSecret (up_Spec u) = "" ∨ us_InstallModules (up_Spec u) ≠ [] →
  is_Ok (upgradeValidateSpec u) = true ↔
  ("all" ∈ us_Modules (up_Spec u) → us_Modules (up_Spec u) = ["all"]).
Proof.
  intros Hn Hns Hsec. unfold upgradeValidateSpec. rewrite Hns. cbn [String.eqb negb andb].
  destruct (String.eqb_spec (ref_Name (us_InstanceRef (up_Spec u))) ""); [done|].
  assert (negb (String.eqb (us_AdminUserPasswordSecret (up_Spec u)) "") &&
    (length (us_InstallModules (up_Spec u)) =? 0)%nat = false) as ->.
  { destruct Hsec as [->|Hne]; [done|]. destruct (us_InstallModules _); [done|]. by rewrite andb_false_r. }
  unfold upgradeAllModules.
  destruct (us_Modules (up_Spec u)) as [|x [|y l]]; cbn [length Nat.ltb Nat.leb].
  - rewrite andb_false_r. split; [by intros _ ?%elem_of_nil|done].
  - rewrite andb_false_r. split; [by intros _ ->%list_elem_of_singleton|done].
  - destruct (bool_decide_reflect ("all" ∈ x :: y :: l)) as [Hin|Hin]; cbn; [|naive_solver].
    split; [done|]. by intros Heq; specialize (Heq Hin).
Qed.

Lemma wanted_upgrade_spec inst u :
  m_Name (in_Meta inst) ≠ "" → OdooInstanceSpec_admitted (in_Spec inst) = true → wanted_upgrade inst u →
  OdooUpgrade_admitted u = true ∧
  ref_Name (us_InstanceRef (up_Spec u)) ≠ "" ∧ ref_Namespace (us_InstanceRef (up_Spec u)) = "" ∧
  (us_AdminUserPasswordSecret (up_Spec u) = "" ∨ us_InstallModules (up_Spec u) ≠ []).
Proof.
  intros Hn Hs Hu. unfold OdooInstanceSpec_admitted in Hs. to_prop.
  destruct Hu as [(spec & Hi & ->)|(spec & hash & Hi & ->)]; rewrite Hi in *; cbn [from_option] in *.
  - split_and!; [by apply initUpgrade_admitted|done|done|]. right.
    unfold InitializeSpec_admitted in *. to_prop. by edestruct module_items_weaken.
  - split_and!; [by apply gateUpgrade_admitted|done|done|by left].
Qed.

(** C17: the instance controller creates OdooUpgrades the API server admits and the upgrade
    controller accepts. For an instance with a name whose spec passes the schema of OdooInstance,
    whatever the API server answers in a pass, every OdooUpgrade the pass creates passes the schema
    of OdooUpgrade (module names, item counts, timeout, the rule on modules); and the validation of
    the upgrade controller accepts it exactly when its list of modules does not mix "all" with
    other names, the one thing the schema of OdooInstance does not exclude. *)
Theorem created_upgrades_admitted (r : Reconciler) inst tr a :
  m_Name (in_Meta inst) ≠ "" → OdooInstanceSpec_admitted (in_Spec inst) = true →
  execs (reconcileOdooInstance r inst) [] tr a →
  Forall (λ c, OdooUpgrade_admitted c.1 = true ∧
               (is_Ok (upgradeValidateSpec c.1) = true ↔
                ("all" ∈ us_Modules (up_Spec c.1) → us_Modules (up_Spec c.1) = ["all"])))
    (calls_of upgrade_create tr).
Proof.
  intros Hn Hs He. eapply Forall_impl; [exact (created_upgrades_wanted r inst tr a He)|].
  intros [u h] (want & _ & m & Hw & _ & _ & _ & ->). cbn [fst].
  destruct (wanted_upgrade_spec inst want Hn Hs Hw) as (Hadm & ? & ? & ?).
  split; [exact Hadm|by apply upgradeValidateSpec_owned].
Qed.
End Created.

(** ** Backups: what the schema leaves to the controller

    [backupValidateSpec] repeats some of the rules of the schema; on a spec the server admitted it
    decides exactly on the rest. *)

(** A relative path whose segments go down only ([backupValidatePath]). *)
Definition relative_path (p : string) : bool :=
  String.eqb p "" ||
  negb (HasPrefix p "/") &&
  forallb (λ seg, negb (String.eqb seg "" || String.eqb seg "..")) (Split (TrimSuffix p "/") "/").

Section Residual.
Context `{Unicode} `{KubeLib}.

Definition destination_residual (d : BackupDestination) : bool :=
  from_option (λ p, relative_path (bp_SubPath p)) true (bd_PVC d) &&
  from_option (λ s3, backupBucketRe (s3_Bucket s3) && relative_path (s3_Prefix s3) &&
    (String.eqb (s3_Endpoint s3) "" || HasPrefix (s3_Endpoint s3) "http://" ||
     HasPrefix (s3_Endpoint s3) "https://")) true (bd_S3 d).

Definition scratch_residual (raw : string) : bool :=
  String.eqb raw "" ||
  match ParseQuantity raw with Ok q => 0 <? QuantitySign q | Err _ => false end.

Definition backup_residual (bk : OdooBackup) : bool :=
  let spec := bk_Spec bk in
  let ns := ref_Namespace (bs_InstanceRef spec) in
  negb (String.eqb (ref_Name (bs_InstanceRef spec)) "") &&
  (String.eqb ns "" || String.eqb ns (m_Namespace (bk_Meta bk))) &&
  destination_residual (bs_Destination spec) && scratch_residual (bs_ScratchSize spec).

Lemma checkSegments_residual segs :
  checkSegments segs = None ↔
  forallb (λ seg, negb (String.eqb seg "" || String.eqb seg "..")) segs = true.
Proof.
  induction segs as [|seg segs IH]; [done|]. cbn.
  by destruct (String.eqb seg ""), (String.eqb seg "..").
Qed.

Lemma backupValidatePath_admitted field p :
  opt_pattern path_pattern p = true → is_Ok (backupValidatePath field p) = relative_path p.
Proof.
  unfold opt_pattern, relative_path, backupValidatePath. destruct (String.eqb p ""); [done|].
  change path_pattern with backupPathRe. cbn [orb]. intros ->. cbn [negb].
  destruct (HasPrefix p "/"); [done|]. cbn [negb andb].
  pose proof (checkSegments_residual (Split (TrimSuffix p "/") "/")) as Hc.
  destruct (checkSegments _), (forallb _ _); naive_solver.
Qed.

Lemma is_Ok_bind {A B} (m : res A) (f : A → res B) (b : bool) :
  (∀ a, is_Ok (f a) = b) → is_Ok (m ≫= f) = is_Ok m && b.
Proof. intros Hf. destruct m; cbn; [by rewrite Hf|done]. Qed.

Lemma positive_len s : (1 <=? len s)%nat = negb (String.eqb s "").
Proof. by destruct s. Qed.

Lemma backupValidateDestination_admitted d :
  BackupDestination_admitted d = true →
  is_Ok (backupValidateDestination d) = destination_residual d.
Proof.
  unfold BackupDestination_admitted, one_destination_rule, destination_residual, backupValidateDestination.
  destruct (bd_PVC d) as [p|], (bd_S3 d) as [s3|]; cbn; rewrite ?andb_false_r, ?andb_true_r; try done.
  - unfold BackupPVCDestination_admitted. rewrite positive_len. intros [Hc Hp]%andb_true_iff.
    apply negb_true_iff in Hc as ->. by apply backupValidatePath_admitted.
  - unfold BackupS3Destination_admitted. rewrite !positive_len, !andb_true_iff.
    intros [[_ Hp] Hc]. apply negb_true_iff in Hc as Hc.
    destruct (backupBucketRe (s3_Bucket s3)); cbn [negb andb]; [|done]. rewrite Hc.
    erewrite is_Ok_bind; [by rewrite backupValidatePath_admitted|]. intros _.
    unfold backupURLHTTP, backupURLHTTPS.
    by destruct (String.eqb (s3_Endpoint s3) ""), (HasPrefix _ "http://"), (HasPrefix _ "https://").
Qed.

Lemma checkScratchSize_residual raw : is_Ok (checkScratchSize raw) = scratch_residual raw.
Proof.
  unfold checkScratchSize, scratch_residual. destruct (String.eqb raw ""); [done|].
  destruct (ParseQuantity raw) as [q|]; [|done]. cbn [orb].
  destruct (Z.leb_spec (QuantitySign q) 0), (Z.ltb_spec 0 (QuantitySign q)); done || lia.
Qed.

Lemma checkRetention_admitted r : from_option (Z.leb 1) true r = true → is_Ok (checkRetention r) = true.
Proof. destruct r as [r|]; [|done]. cbn. intros ?%Z.leb_le. by destruct (Z.ltb_spec r 1); [lia|]. Qed.

Lemma checkTimeout_admitted t : timeout_rule t = true → is_Ok (checkTimeout t) = true.
Proof.
  destruct t as [t|]; [|done]. unfold timeout_rule, opt_range, in_range. cbn.
  rewrite andb_true_iff, !Z.leb_le. unfold backupMinTimeout, backupMaxTimeout.
  by destruct (Z.ltb_spec t 60), (Z.ltb_spec 86400 t); intros; try lia.
Qed.
End Residual.

(** ** Schedules: the fields of an admitted schedule *)

(** Blanks of the pattern and of [strings.Fields] agree on ASCII without the vertical tab. *)
Definition schedule_byte (c : ascii) : bool := ascii_byte c && negb (Ascii.eqb c "011"%char).

Lemma re_space_byte c : schedule_byte c = true → space_byte c = re_space c.
Proof. destruct c as [[] [] [] [] [] [] [] []]; by vm_compute. Qed.

Lemma fields_go_word l w cur :
  Forall (λ c, space_byte c = false) w →
  fields_go cur (ascii_piece <$> w ++ l) = fields_go (cur +:+ of_bytes w) (ascii_piece <$> l).
Proof.
  intros Hw. revert cur. induction Hw as [|c w Hc _ IH]; intros cur.
  - by rewrite app_nil_r_str.
  - change (fields_go cur (ascii_piece <$> (c :: w) ++ l)) with
      (if space_byte c
       then if String.eqb cur "" then fields_go "" (ascii_piece <$> w ++ l)
            else cur :: fields_go "" (ascii_piece <$> w ++ l)
       else fields_go (cur +:+ str1 c) (ascii_piece <$> w ++ l)).
    rewrite Hc, IH. by rewrite app_assoc_str.
Qed.

Lemma fields_go_blanks l w :
  Forall (λ c, space_byte c = true) w →
  fields_go "" (ascii_piece <$> w ++ l) = fields_go "" (ascii_piece <$> l).
Proof.
  induction 1 as [|c w Hc _ IH]; [done|].
  change (fields_go "" (ascii_piece <$> (c :: w) ++ l)) with
    (if space_byte c then fields_go "" (ascii_piece <$> w ++ l)
     else fields_go (str1 c) (ascii_piece <$> w ++ l)).
  by rewrite Hc.
Qed.

Lemma take_plus_Some class l rest :
  take_plus class l = Some rest → ∃ c w, l = (c :: w) ++ rest ∧ Forall (λ c, class c = true) (c :: w).
Proof.
  destruct l as [|c l]; cbn; [done|]. destruct (class c) eqn:Hc; [|done]. intros [= <-]. exists c.
  assert (∃ w, l = w ++ drop_while class l ∧ Forall (λ c, class c = true) w) as (w & Hl & Hw).
  { clear Hc. induction l as [|d l (w & Hl & Hw)]; [by exists []|]. cbn. destruct (class d) eqn:Hd.
    - exists (d :: w). split; [by cbn; f_equal|by constructor].
    - by exists []. }
  exists w. split; [by cbn; f_equal|by constructor].
Qed.

(** A byte of a plain text is a blank of [strings.Fields] or not as the pattern says. *)
Lemma plain_class (b : bool) l :
  Forall (λ c, schedule_byte c = true) l → Forall (λ c, re_space c = b) l →
  Forall (λ c, space_byte c = b) l.
Proof.
  rewrite !Forall_forall. intros Hp Hc c Hin. rewrite re_space_byte by auto. auto.
Qed.

Lemma take_field_Some l rest :
  Forall (λ c, schedule_byte c = true) l → take_field l = Some rest →
  ∃ w, l = w ++ rest ∧ of_bytes w ≠ "" ∧ Forall (λ c, space_byte c = false) w.
Proof.
  intros Hp (c & w & -> & Hw)%take_plus_Some. exists (c :: w). split_and!; [done..|].
  apply Forall_app in Hp as [Hp _]. apply plain_class; [done|].
  eapply Forall_impl; [exact Hw|]. intros ?. apply negb_true_iff.
Qed.

Lemma take_fields_count n cur l :
  Forall (λ c, schedule_byte c = true) l → take_fields n l = Some [] → cur ≠ "" →
  length (fields_go cur (ascii_piece <$> l)) = S n.
Proof.
  revert cur l. induction n as [|n IH]; intros cur l Hp Ht Hcur; cbn in Ht.
  { injection Ht as ->. cbn. by destruct (String.eqb_spec cur ""). }
  unfold take_next_field in Ht.
  destruct (take_plus re_space l) as [l1|] eqn:Hb; cbn in Ht; [|done].
  apply take_plus_Some in Hb as (c & w & -> & Hw). apply Forall_app in Hp as [Hpw Hp].
  pose proof (plain_class true _ Hpw Hw) as Hsp.
  destruct (take_field l1) as [l2|] eqn:Hf; cbn in Ht; [|done].
  apply take_field_Some in Hf as (w' & -> & Hne & Hw'); [|done].
  apply Forall_cons in Hsp as [Hc Hsp].
  change (fields_go cur (ascii_piece <$> (c :: w) ++ w' ++ l2)) with
    (if space_byte c
     then if String.eqb cur "" then fields_go "" (ascii_piece <$> w ++ w' ++ l2)
          else cur :: fields_go "" (ascii_piece <$> w ++ w' ++ l2)
     else fields_go (cur +:+ str1 c) (ascii_piece <$> w ++ w' ++ l2)).
  rewrite Hc. destruct (String.eqb_spec cur ""); [done|].
  rewrite fields_go_blanks, fields_go_word by done. cbn [length]. f_equal.
  apply Forall_app in Hp as [_ Hp]. by apply IH.
Qed.

Lemma schedule_pattern_fields s :
  all_bytes schedule_byte s = true → schedule_pattern s = true → length (Fields s) = 5%nat.
Proof.
  intros Hp Hs. unfold Fields. rewrite runes_ascii.
  2: { eapply all_bytes_impl; [|exact Hp]. intros c. unfold schedule_byte. by intros [? _]%andb_true_iff. }
  apply all_bytes_Forall in Hp. unfold schedule_pattern in Hs.
  destruct (take_field (bytes s)) as [l|] eqn:Hf; cbn [mbind option_bind] in Hs; [|done].
  destruct (take_fields 4 l) as [[|]|] eqn:Ht; try done.
  apply take_field_Some in Hf as (w & Hb & Hne & Hw); [|done]. rewrite Hb in *.
  rewrite fields_go_word by done. apply Forall_app in Hp as [_ Hp].
  by apply take_fields_count.
Qed.

Lemma checkSchedule_admitted `{Unicode} s :
  opt_pattern schedule_pattern s = true → all_bytes schedule_byte s = true →
  is_Ok (checkSchedule s) = true.
Proof.
  unfold opt_pattern, checkSchedule. destruct (String.eqb s ""); [done|]. cbn [orb negb andb].
  intros Hs Hp. by rewrite (schedule_pattern_fields s Hp Hs).
Qed.

(** C30: the schema and the validation of the controller divide the rules of a backup between them.
    On a spec the API server admitted (with a schedule in ASCII without a vertical tab),
    [backupValidateSpec] accepts exactly the backups that name an instance in their own namespace,
    whose sub path or prefix is relative and goes down only, whose bucket and endpoint are well
    formed, and whose scratch size is a positive quantity: the checks of the database, the
    destination, the retention, the timeout and the number of fields of the schedule never refuse
    what the schema admits. *)
Theorem backupValidateSpec_admitted `{Unicode} `{KubeLib} bk :
  OdooBackupSpec_admitted (bk_Spec bk) = true → all_bytes schedule_byte (bs_Schedule (bk_Spec bk)) = true →
  is_Ok (backupValidateSpec bk) = backup_residual bk.
Proof.
  unfold OdooBackupSpec_admitted. rewrite !andb_true_iff.
  intros [[[[[Hdb Hd] Hr] _] Ht] Hs] Hp. unfold backupValidateSpec, backup_residual.
  destruct (String.eqb (ref_Name _) ""); [done|]. cbn [negb andb].
  destruct (String.eqb (ref_Namespace _) ""), (String.eqb (ref_Namespace _) (m_Namespace _));
    cbn [negb andb orb]; try done.
  all: assert (negb (String.eqb (bs_Database (bk_Spec bk)) "") &&
         negb (backupDatabaseRe (bs_Database (bk_Spec bk))) = false) as ->
    by (unfold opt_pattern in Hdb; change database_pattern with backupDatabaseRe in Hdb;
        destruct (String.eqb _ ""), (backupDatabaseRe _); done).
  all: erewrite is_Ok_bind; [by rewrite backupValidateDestination_admitted|]; intros _.
  all: rewrite <-checkScratchSize_residual.
  all: pose proof (checkRetention_admitted _ Hr) as Hr'; pose proof (checkTimeout_admitted _ Ht) as Ht'.
  all: pose proof (checkSchedule_admitted _ Hs Hp) as Hs'.
  all: destruct (checkRetention _); [|done]; cbn [mbind res_bind].
  all: destruct (checkScratchSize _); [|done]; cbn [mbind res_bind is_Ok].
  all: destruct (checkTimeout _); [|done]; exact Hs'.
Qed.

(** ** Changes of users

    What the queues assume of a user's change to an object ([QueueSystem.outside]) follows from the
    transition rules, from what the server keeps of the metadata, and from the status being a
    subresource, which a change of the spec leaves alone. *)
Record kept_identity (old new : ObjectMeta) : Prop := {
  kept_name : m_Name new = m_Name old;
  kept_namespace : m_Namespace new = m_Namespace old;
  kept_uid : m_UID new = m_UID old;
  kept_created : m_CreationTimestamp new = m_CreationTimestamp old
}.

Section Users.
Context (ns : string).

Lemma upgrade_update_outside log (old new : OdooUpgrade) :
  log_ok (uid_of KUpgrade) (version_of KUpgrade) log →
  replay log !! m_Name (up_Meta old) = Some old → m_Namespace (up_Meta old) = ns →
  (∀ b, Put b ∈ log → m_ResourceVersion (up_Meta b) ≠ m_ResourceVersion (up_Meta new)) →
  kept_identity (up_Meta old) (up_Meta new) → up_Status new = up_Status old →
  upgrade_immutable_rule (up_Spec old) (up_Spec new) = true →
  outside KUpgrade ns log (Put new).
Proof.
  intros Hlog Hold Hns Hv [Hn Hns' Hu Hc] Hst Hspec%bool_decide_eq_true.
  apply (outside_update KUpgrade ns log old new); cbn; [done|by rewrite Hn| |by rewrite Hst| |exact Hv].
  - unfold QueueLog.same, uid_of. cbn. by rewrite Hn, Hu, Hc, Hspec.
  - by rewrite Hns'.
Qed.

Lemma backup_update_outside log (old new : OdooBackup) :
  log_ok (uid_of KBackup) (version_of KBackup) log →
  replay log !! m_Name (bk_Meta old) = Some old → m_Namespace (bk_Meta old) = ns →
  (∀ b, Put b ∈ log → m_ResourceVersion (bk_Meta b) ≠ m_ResourceVersion (bk_Meta new)) →
  kept_identity (bk_Meta old) (bk_Meta new) → bk_Status new = bk_Status old →
  backup_immutable_rule (bk_Spec old) (bk_Spec new) = true →
  outside KBackup ns log (Put new).
Proof.
  intros Hlog Hold Hns Hv [Hn Hns' Hu Hc] Hst Hspec.
  apply (outside_update KBackup ns log old new); cbn; [done|by rewrite Hn| |by rewrite Hst| |exact Hv].
  - unfold QueueLog.same, uid_of. cbn. rewrite Hn, Hu, Hc. split_and!; [done..| |].
    all: apply orb_true_iff in Hspec as [->%bool_decide_eq_true|[Ho%negb_true_iff Hne%negb_true_iff]%andb_true_iff];
      [done|by rewrite ?Ho, ?Hne].
  - by rewrite Hns'.
Qed.
End Users.

(** *** Witnesses *)
Section Example.
#[local] Existing Instances unicode_ref kube_ref.

(** [example_instance] with one replica: it has volumes of one node. *)
Definition admitted_instance : OdooInstance :=
  let s := in_Spec example_instance in
  {| in_Meta := in_Meta example_instance;
     in_Spec := {| is_Image := is_Image s; is_Replicas := 1; is_Version := is_Version s;
       is_Edition := is_Edition s; is_Addons := is_Addons s; is_Data := is_Data s;
       is_Postgres := is_Postgres s; is_Config := is_Config s; is_Resources := is_Resources s;
       is_AdminPasswordSecret := is_AdminPasswordSecret s; is_Upgrade := is_Upgrade s;
       is_Initialize := is_Initialize s; is_Cron := is_Cron s |};
     in_Status := in_Status example_instance |}.

Definition admitted_trace : list event :=
  (run instance_server tt (reconcileOdooInstance {| rec_Recorder := true; rec_Clientset := true |}
     admitted_instance) []).2.

Lemma created_upgrades_admitted_witness :
  OdooInstanceSpec_admitted (in_Spec example_instance) = false ∧
  (λ c, us_Modules (up_Spec c.1)) <$> calls_of upgrade_create admitted_trace = [["all"]] ∧
  Forall (λ c, OdooUpgrade_admitted c.1 = true ∧
               (is_Ok (upgradeValidateSpec c.1) = true ↔
                ("all" ∈ us_Modules (up_Spec c.1) → us_Modules (up_Spec c.1) = ["all"])))
    (calls_of upgrade_create admitted_trace).
Proof.
  split; [by vm_compute|]. split; [by vm_compute|].
  exact (created_upgrades_admitted _ admitted_instance _ _ ltac:(done) ltac:(by vm_compute)
    (run_execs instance_server tt _ [])).
Defined.

Lemma backupValidateSpec_admitted_witness :
  OdooBackupSpec_admitted (bk_Spec (pvc_backup "../etc")) = true ∧
  backup_residual (pvc_backup "../etc") = false ∧
  is_Ok (backupValidateSpec (pvc_backup "shop/daily/")) = backup_residual (pvc_backup "shop/daily/").
Proof.
  split; [by vm_compute|]. split; [by vm_compute|].
  apply (backupValidateSpec_admitted (pvc_backup "shop/daily/")); by vm_compute.
Defined.
End Example.

Close Scope Z_scope.
