(* ===== verification/Access.v ===== *)
(** * The four controllers and what they may touch

    The controllers as [main] registers them: the kinds each one watches ([SetupWithManager]) and
    its pass. The operator runs under the role of config/rbac/role.yaml; a call outside it would be
    refused on every pass. *)
From S2P Require Export BackupController InstanceController UpgradeController AddonController.

(** ** Watches: [For], [Owns] and [Watches] of [SetupWithManager] *)
Record Wiring := { w_For : kind; w_Owns : list kind; w_Watches : list kind; w_Named : string }.

Definition instanceWiring : Wiring :=
  {| w_For := KInstance; w_Owns := [KDeployment; KService; KPVC; KConfigMap; KPDB; KUpgrade];
     w_Watches := [KAddon; KSecret]; w_Named := "odooinstance" |}.
Definition addonWiring : Wiring :=
  {| w_For := KAddon; w_Owns := [KJob]; w_Watches := []; w_Named := "odooaddon" |}.
Definition upgradeWiring : Wiring :=
  {| w_For := KUpgrade; w_Owns := [KJob]; w_Watches := []; w_Named := "odooupgrade" |}.
Definition backupWiring : Wiring :=
  {| w_For := KBackup; w_Owns := [KJob; KCronJob]; w_Watches := []; w_Named := "odoobackup" |}.

Definition watched (w : Wiring) : list kind := w_For w :: w_Owns w ++ w_Watches w.

#[export] Instance kind_eq_dec : EqDecision kind.
Proof. solve_decision. Defined.

(** ** The role *)
Record PolicyRule := { pr_APIGroups : list string; pr_Resources : list string; pr_Verbs : list string }.

Definition readVerbs : list string := ["get"; "list"; "watch"].
Definition allVerbs : list string := readVerbs ++ ["create"; "update"; "patch"; "delete"].

(** The rules of config/rbac/role.yaml. *)
Definition manager_role : list PolicyRule := [
  {| pr_APIGroups := [""]; pr_Resources := ["pods"; "services"; "configmaps"; "persistentvolumeclaims"];
     pr_Verbs := allVerbs |};
  {| pr_APIGroups := [""]; pr_Resources := ["pods/log"]; pr_Verbs := ["get"] |};
  {| pr_APIGroups := ["events.k8s.io"]; pr_Resources := ["events"]; pr_Verbs := ["create"; "patch"] |};
  {| pr_APIGroups := [""]; pr_Resources := ["secrets"]; pr_Verbs := readVerbs |};
  {| pr_APIGroups := ["apps"]; pr_Resources := ["deployments"]; pr_Verbs := allVerbs |};
  {| pr_APIGroups := ["policy"]; pr_Resources := ["poddisruptionbudgets"]; pr_Verbs := allVerbs |};
  {| pr_APIGroups := ["batch"]; pr_Resources := ["jobs"; "cronjobs"]; pr_Verbs := allVerbs |};
  {| pr_APIGroups := ["odoo.operator.io"];
     pr_Resources := ["odooinstances"; "odooinstances/status"; "odooinstances/finalizers"];
     pr_Verbs := allVerbs |};
  {| pr_APIGroups := ["odoo.operator.io"];
     pr_Resources := ["odooaddons"; "odooaddons/status"; "odooaddons/finalizers"];
     pr_Verbs := allVerbs |};
  {| pr_APIGroups := ["odoo.operator.io"];
     pr_Resources := ["odooupgrades"; "odooupgrades/status"; "odooupgrades/finalizers"];
     pr_Verbs := allVerbs |};
  {| pr_APIGroups := ["odoo.operator.io"];
     pr_Resources := ["odoobackups"; "odoobackups/status"; "odoobackups/finalizers"];
     pr_Verbs := allVerbs |} ].

(** A request is allowed when one rule has its group, its resource and its verb. *)
Definition allows (role : list PolicyRule) (group resource verb : string) : bool :=
  existsb (λ r, bool_decide (group ∈ pr_APIGroups r) && bool_decide (resource ∈ pr_Resources r) &&
                bool_decide (verb ∈ pr_Verbs r)) role.

(** The API group and the resource of a kind. *)
Definition kind_resource (k : kind) : string * string :=
  match k with
  | KDeployment => ("apps", "deployments")
  | KJob => ("batch", "jobs")
  | KCronJob => ("batch", "cronjobs")
  | KPod => ("", "pods")
  | KPVC => ("", "persistentvolumeclaims")
  | KSecret => ("", "secrets")
  | KConfigMap => ("", "configmaps")
  | KService => ("", "services")
  | KPDB => ("policy", "poddisruptionbudgets")
  | KAddon => ("odoo.operator.io", "odooaddons")
  | KBackup => ("odoo.operator.io", "odoobackups")
  | KInstance => ("odoo.operator.io", "odooinstances")
  | KUpgrade => ("odoo.operator.io", "odooupgrades")
  end.

(** The verbs a call needs on the resource of its kind. The client reads through a cache, which
    lists and watches a kind from its first read on; [CreateOrUpdate] reads, then creates or
    updates. *)
Definition on_kind (k : kind) (subresource : string) (verbs : list string) : list (string * string * string) :=
  let '(group, resource) := kind_resource k in (λ verb, (group, resource +:+ subresource, verb)) <$> verbs.

Definition needed (o : op) : list (string * string * string) :=
  match o with
  | OpGet k _ | OpList k _ _ => on_kind k "" readVerbs
  | OpCreate k _ => on_kind k "" ["create"]
  | OpUpdate k _ => on_kind k "" ["update"]
  | OpStatusUpdate k _ => on_kind k "/status" ["update"]
  | OpPatch k _ _ => on_kind k "" ["patch"]
  | OpDelete k _ _ => on_kind k "" ["delete"]
  | OpCreateOrUpdate k _ _ => on_kind k "" (readVerbs ++ ["create"; "update"])
  | OpNow => []
  | OpPodLogs _ _ _ _ => on_kind KPod "/log" ["get"]
  | OpEvent _ _ _ => [("events.k8s.io", "events", "create"); ("events.k8s.io", "events", "patch")]
  end.

Definition permitted (role : list PolicyRule) (o : op) : bool :=
  forallb (λ '(group, resource, verb), allows role group resource verb) (needed o).

(** The kind of the object a call changes; its status is not counted. *)
Definition changes (o : op) : option kind :=
  match o with
  | OpCreate k _ | OpUpdate k _ | OpPatch k _ _ | OpDelete k _ _ | OpCreateOrUpdate k _ _ => Some k
  | _ => None
  end.

(** The kind of the object whose status a call writes. *)
Definition reports (o : op) : option kind := match o with OpStatusUpdate k _ => Some k | _ => None end.

(** The kind a call reads for a decision. *)
Definition consults (o : op) : option kind :=
  match o with OpGet k _ | OpList k _ _ => Some k | _ => None end.

(** What every call of a controller keeps to. *)
Record within (role : list PolicyRule) (w : Wiring) (o : op) : Prop := {
  within_role : permitted role o = true;
  within_changes k : changes o = Some k → k ∈ w_For w :: w_Owns w;
  within_reports k : reports o = Some k → k = w_For w
}.

(** Reads are within the role for every kind. *)
Lemma reads_within w o : reads o → within manager_role w o.
Proof. destruct o as [[]|[]| | | | | | | | |]; cbn; try done; intros _; by split. Qed.

(** ** The controllers *)
Section Controllers.
Context `{Unicode} `{KubeLib} (r : Reconciler).

Ltac by_kind o :=
  destruct o as [| |[]|[]|[]|[]|[]|[]| | |]; try (intros; apply reads_within; done);
  cbn; try done; intros _; split; try done; cbn; intros k [= <-]; set_solver.

Lemma instance_within inst h o : instance_may inst h o → within manager_role instanceWiring o.
Proof. by_kind o. Qed.

(** What the instance controller reads, a change of it starts a pass. *)
Definition consults_watched (o : op) : Prop := ∀ k, consults o = Some k → k ∈ watched instanceWiring.
Definition instance_call (o : op) : Prop := within manager_role instanceWiring o ∧ consults_watched o.

Lemma instance_may_call inst h o : instance_may inst h o → instance_call o.
Proof.
  intros Hm. split; [by eapply instance_within|]. destruct o as [k ?|k ? ?| | | | | | | | |]; try done;
    intros k' [= <-]; destruct k; cbn in Hm; done || set_solver.
Qed.

Lemma status_call (o : op) : reports o = Some KInstance → instance_call o.
Proof.
  destruct o as [| | | |[]| | | | | |]; try done. intros _. by repeat split; intros ? [=].
Qed.
Lemma own_update_call i : instance_call (OpUpdate KInstance i).
Proof. repeat split; intros ? [=]; subst; set_solver. Qed.

(** The calls around [reconcileOdooInstance]: the finalizer, the status and the events. *)
Lemma wp_instancePass h inst : wp (λ _, instance_call) h (instancePass r inst) (λ _ _, True).
Proof.
  unfold instancePass. apply wp_bind. eapply wp_mono.
  { eapply wp_forget; [by apply instance_may_call|apply wp_reconcileOdooInstance]. }
  intros h' [i [res|e]] _; [done|]. destruct (isConflict e); [done|].
  unfold failPass. wp_calls. split; [by repeat split; intros ? [=]|]. intros now. wp_calls.
  split; [by apply status_call|]. intros [u|e']; [|done].
  apply wp_bind, wp_emitEvents; [|done]. by repeat split; intros ? [=].
Qed.

Lemma wp_instanceReconcile key : wp (λ _, instance_call) [] (instanceReconcile r key) (λ _ _, True).
Proof.
  unfold instanceReconcile. wp_calls.
  split; [by split; [apply reads_within|intros k [= <-]; left]|].
  intros [inst|e]; [|by destruct (IsNotFound e)].
  destruct (m_DeletionTimestamp _).
  - unfold instanceHandleFinalizer. destruct (ContainsFinalizer _ _); [|done]. wp_calls.
    split; [by apply own_update_call|]. by intros [|].
  - destruct (ContainsFinalizer _ _); cbn [negb]; [apply wp_instancePass|]. wp_calls.
    split; [by apply own_update_call|]. intros [|]; [apply wp_instancePass|done].
Qed.

(** The Secret a pass reads. *)
Definition secret_read (o : op) : option NamespacedName :=
  match o with OpGet KSecret x => Some x | _ => None end.

(** A change of the Secret [x] starts a pass for [inst], when the cache lists it. *)
Definition secret_wakes (inst : OdooInstance) (x : NamespacedName) : Prop :=
  ∀ (server : ∀ o, answer o) sec all,
    objectKey sec = x → inst ∈ all → server (OpList KInstance (nn_Namespace x) ∅) = Ok all →
    objectKey (in_Meta inst) ∈ (run (λ s o, (server o, s)) tt (instancesUsingSecret sec) []).1.1.

(** The instance controller hears of everything it reads. Every object a pass of the instance
    controller reads or lists, whatever the API server answers, is of a kind that controller
    watches. *)
Theorem instance_reads_watched key tr a :
  execs (instanceReconcile r key) [] tr a →
  Forall (λ c, c.1 ∈ watched instanceWiring) (calls_of consults tr).
Proof.
  intros He. apply (calls_allowed _ _ tr a consults (λ _ k, k ∈ watched instanceWiring)
    (wp_instanceReconcile key) He).
  intros _ o k Hk [_ Hw]. by apply Hw.
Qed.

(** The Secrets the pods use wake the instance; that of the initialisation does not
    ([Findings.init_secret_wakes_nobody]). *)
Lemma pod_secret_wakes inst name :
  pod_secret inst name →
  secret_wakes inst {| nn_Namespace := m_Namespace (in_Meta inst); nn_Name := name |}.
Proof.
  intros Hp server sec all [= Hns Hn] Hin Hall. cbn in Hall |- *. rewrite Hns, Hall.
  apply list_elem_of_fmap.
  exists inst. split; [done|]. apply list_elem_of_In, filter_In. split; [by apply list_elem_of_In|].
  rewrite Hn. apply orb_true_iff. destruct Hp as [-> | ->]; rewrite String.eqb_refl; auto.
Qed.

Lemma secret_reads_wake inst tr a :
  execs (reconcileOdooInstance r inst) [] tr a →
  Forall (λ c, secret_wakes inst c.1 ∨ init_secret inst (nn_Name c.1)) (calls_of secret_read tr).
Proof.
  intros He. apply (calls_allowed _ _ tr a secret_read
    (λ _ x, secret_wakes inst x ∨ init_secret inst (nn_Name x)) (wp_reconcileOdooInstance r inst) He).
  intros h o x. destruct o as [[]| | | | | | | | | |]; try done. intros [= <-] [Hns [Hp|Hi]]; [left|by right].
  destruct key as [ns n]. cbn in *. subst. by apply pod_secret_wakes.
Qed.

Context `{!ConditionLaws} `{RetryLib} `{!RetryLaws} `{UrlLib} (Getenv : string → string).

Record Controller := { c_Wiring : Wiring; c_Reconcile : NamespacedName → prog (res Result) }.

(** The controllers [main] sets up with the manager. *)
Definition controllers : list Controller := [
  {| c_Wiring := instanceWiring; c_Reconcile := instanceReconcile r |};
  {| c_Wiring := addonWiring; c_Reconcile := addonReconcile r Getenv |};
  {| c_Wiring := upgradeWiring; c_Reconcile := upgradeReconcile r |};
  {| c_Wiring := backupWiring; c_Reconcile := backupReconcile r Getenv |} ].

Lemma upgrade_within key h o : upgrade_may key h o → within manager_role upgradeWiring o.
Proof. by_kind o. Qed.
Lemma backup_within key h o : backup_may Getenv key h o → within manager_role backupWiring o.
Proof. by_kind o. Qed.
Lemma addon_within key h o : addon_may key h o → within manager_role addonWiring o.
Proof. by_kind o. Qed.
(** C18: the operator stays within its role and its wiring. Every call of every pass of the four
    controllers [main] sets up, whatever the API server answers, is allowed by the rules of
    config/rbac/role.yaml (with the list and watch of the cache behind a read, the status
    subresource, the pod logs and the events); it creates, changes or deletes only objects of the
    controller's own kind or of a kind whose events wake the controller ([Owns]), and reports
    only on its own kind. *)
Theorem passes_permitted c key tr a :
  c ∈ controllers → execs (c_Reconcile c key) [] tr a →
  Forall (λ e, within manager_role (c_Wiring c) (projT1 e)) tr.
Proof.
  intros Hc He. assert (wp (λ _, within manager_role (c_Wiring c)) [] (c_Reconcile c key) (λ _ _, True)) as Hwp.
  { unfold controllers in Hc. rewrite !elem_of_cons in Hc. destruct Hc as [->|[->|[->|[->|[]%elem_of_nil]]]]; cbn [c_Wiring c_Reconcile].
    - eapply wp_forget; [|apply wp_instanceReconcile]. by intros _ o [? _].
    - eapply wp_forget; [apply (addon_within key)|apply wp_addonReconcile; exact _].
    - eapply wp_forget; [apply upgrade_within|by apply wp_upgradeReconcile].
    - eapply wp_forget; [apply backup_within|by apply wp_backupReconcile]. }
  apply Forall_forall. intros [o x] Hin.
  apply list_elem_of_split in Hin as (l1 & l2 & ->). cbn.
  exact (trace_allowed _ _ _ _ l1 l2 o x Hwp He eq_refl).
Qed.

End Controllers.

(** *** Witnesses *)
Section Example.
#[local] Existing Instances unicode_ref kube_ref retry_ref url_ref.

(** The server of [instance_server], which holds the instance itself as well. *)
Definition whole_server (s : unit) (o : op) : answer o * unit :=
  match o return answer o * unit with
  | OpGet KInstance _ => (Ok example_instance, s)
  | OpUpdate KInstance i => (Ok i, s)
  | o => instance_server s o
  end.
Definition whole_pass : prog (res Result) :=
  instanceReconcile {| rec_Recorder := true; rec_Clientset := true |}
    {| nn_Namespace := "shop"; nn_Name := "shop" |}.
Definition whole_trace : list event := (run whole_server tt whole_pass []).2.

Lemma passes_permitted_witness :
  length (calls_of changes whole_trace) = 8%nat ∧
  permitted manager_role (OpDelete KSecret {| sec_Meta := newMeta "pgpw" "shop"; sec_Data := ∅ |} None) = false ∧
  Forall (λ e, within manager_role instanceWiring (projT1 e)) whole_trace.
Proof.
  split; [by vm_compute|]. split; [by vm_compute|].
  exact (passes_permitted {| rec_Recorder := true; rec_Clientset := true |} (λ _, "")
    {| c_Wiring := instanceWiring; c_Reconcile := instanceReconcile {| rec_Recorder := true; rec_Clientset := true |} |}
    _ _ _ ltac:(by left) (run_execs whole_server tt whole_pass [])).
Defined.

Lemma instance_reads_watched_witness :
  length (calls_of consults whole_trace) = 8%nat ∧
  Forall (λ c, c.1 ∈ watched instanceWiring) (calls_of consults whole_trace).
Proof.
  split; [by vm_compute|].
  exact (instance_reads_watched _ _ _ _ (run_execs whole_server tt whole_pass [])).
Defined.
End Example.
