(* ===== verification/Security.v ===== *)
(** * The security posture of every pod the operator builds

    Web, cron, upgrade, backup and addon pods together: what they may do, who gets the secrets, and
    which of them the Service of an instance can send traffic to. *)
From S2P Require Export UpgradeController BackupController AddonController InstanceController.

Open Scope Z_scope.

(** The containers of a pod, the init containers included. *)
Definition all_containers (ps : PodSpec) : list Container := ps_InitContainers ps ++ ps_Containers ps.

(** The Secrets a container reads into its environment, under the names of the variables. *)
Definition secret_env (c : Container) : list (string * string) :=
  omap (λ e, (λ s, (ev_Name e, sk_Name s)) <$> ev_ValueFrom e) (ct_Env c).

(** The Secrets a pod mounts. *)
Definition secret_volumes (ps : PodSpec) : list string :=
  omap (λ v, match vol_Source v with VSecret name _ => Some name | _ => None end) (ps_Volumes ps).

(** The database Secret in the two variables that hold its password, if there is one. *)
Definition database_refs (spec : OdooInstanceSpec) : list (string * string) :=
  let secret := pg_PasswordSecret (is_Postgres spec) in
  if String.eqb secret "" then [] else [(envPGPassword, secret); (envDBPassword, secret)].

(** The Secret with the password of Odoo's admin user, if the upgrade names one. *)
Definition admin_user_refs (up : OdooUpgrade) : list (string * string) :=
  let secret := us_AdminUserPasswordSecret (up_Spec up) in
  if String.eqb secret "" then [] else [(envAdminUserPassword, secret)].

Lemma buildOdooEnv_secrets c spec : ct_Env c = buildOdooEnv spec → secret_env c = database_refs spec.
Proof.
  unfold secret_env, database_refs, buildOdooEnv. intros ->.
  destruct (String.eqb (pg_PasswordSecret _) ""), (String.eqb (pg_Database _) ""); reflexivity.
Qed.
Lemma upgradeEnvFor_secrets c up spec :
  ct_Env c = upgradeEnvFor up spec → secret_env c = database_refs spec ++ admin_user_refs up.
Proof.
  unfold secret_env, database_refs, admin_user_refs, upgradeEnvFor, upgradeEnv. intros ->.
  destruct (String.eqb (pg_PasswordSecret _) ""), (String.eqb (us_AdminUserPasswordSecret _) ""); reflexivity.
Qed.

(** C27: every workload pod is hardened and reads exactly the Secrets it needs. Whatever the instance
    and the upgrade, no container of the web, cron and upgrade pods can gain privileges, write its root
    filesystem or keep a capability, no pod runs as root, mounts a service account token or mounts a
    Secret, and every mount names a volume of the pod. The containers of the cron pod and the main
    container of the web pod read the database Secret alone; the init container of the web pod, which
    renders the configuration, reads the Secret with the master password alone; the upgrade pod reads
    the database Secret and, when the upgrade names one, the Secret with the password of the admin
    user, each into its own variables. So no other container of these pods reads the Secret with
    the master password, unless the instance or the upgrade names it for one of the other passwords
    too. *)
Theorem workload_pods_hardened `{KubeLib} instance hashes up database node :
  let web := pt_Spec (buildPodTemplate instance hashes) in
  let cron := pt_Spec (buildCronPodTemplate instance hashes) in
  let upgrade := pt_Spec (js_Template (job_Spec (buildUpgradeJob up instance database node))) in
  pod_hardened web = true ∧ pod_hardened cron = true ∧ pod_hardened upgrade = true ∧
  secret_volumes web = [] ∧ secret_volumes cron = [] ∧ secret_volumes upgrade = [] ∧
  (∀ c, c ∈ ps_Containers web ++ all_containers cron → secret_env c = database_refs (in_Spec instance)) ∧
  (∀ c, c ∈ ps_InitContainers web → secret_env c = [(envAdminPasswd, is_AdminPasswordSecret (in_Spec instance))]) ∧
  (∀ c, c ∈ all_containers upgrade → secret_env c = database_refs (in_Spec instance) ++ admin_user_refs up).
Proof.
  intros web cron upgrade. split_and!.
  - subst web. unfold buildPodTemplate. cbn zeta. destruct odooProbes as [[??]?].
    destruct (adminPasswordRendered _); by vm_compute.
  - by vm_compute.
  - subst upgrade. unfold buildUpgradeJob. destruct (upgradeCommand up database). by vm_compute.
  - subst web. unfold buildPodTemplate. cbn zeta. destruct odooProbes as [[??]?].
    destruct (adminPasswordRendered _); reflexivity.
  - reflexivity.
  - subst upgrade. unfold buildUpgradeJob. destruct (upgradeCommand up database). reflexivity.
  - intros c Hc. apply buildOdooEnv_secrets. apply elem_of_app in Hc as [Hc|Hc].
    + subst web. unfold buildPodTemplate in Hc. destruct odooProbes as [[??]?]. cbn in Hc.
      destruct (adminPasswordRendered _); by apply list_elem_of_singleton in Hc as ->.
    + by apply list_elem_of_singleton in Hc as ->.
  - subst web. unfold buildPodTemplate. destruct odooProbes as [[??]?]. cbn [pt_Spec].
    intros c Hc. destruct (adminPasswordRendered _) eqn:Hr; [|by apply elem_of_nil in Hc].
    apply list_elem_of_singleton in Hc as ->. unfold secret_env. cbn [renderConfigContainer ct_Env].
    unfold adminPasswordEnv. by rewrite Hr.
  - subst upgrade. unfold buildUpgradeJob. destruct (upgradeCommand up database).
    intros c Hc%list_elem_of_singleton. apply upgradeEnvFor_secrets. by rewrite Hc.
Qed.

(** ** Who the Service of an instance selects *)
Lemma not_selects sel labels k v :
  sel !! k = Some v → labels !! k ≠ Some v → ¬ selects sel labels.
Proof. intros Hs Hl Hsub. apply Hl. by eapply lookup_weaken. Qed.

Lemma selectorLabels_app name : selectorLabels name !! labelApp = Some appOdoo.
Proof. apply lookup_insert_eq. Qed.

(** What the labels of the web and cron pods say to a selector. *)
Definition web_labels (name : string) : Prop :=
  podLabels name !! labelApp = Some appOdoo ∧ podLabels name !! labelInstance = Some name ∧
  cronPodLabels name !! labelApp = Some appOdooCron ∧ cronPodLabels name !! labelInstance = Some name.

Lemma web_labels_all name : web_labels name.
Proof.
  unfold web_labels, podLabels, cronPodLabels, selectorLabels, cronSelectorLabels.
  cbn [list_to_map foldr uncurry]. split_and!; simplify_map_eq; done.
Qed.

Lemma two_labels_subseteq k1 v1 k2 v2 (labels : gmap string string) :
  labels !! k1 = Some v1 → labels !! k2 = Some v2 →
  (list_to_map [(k1, v1); (k2, v2)] : gmap string string) ⊆ labels.
Proof.
  intros H1 H2. apply map_subseteq_spec. intros k v. cbn [list_to_map foldr uncurry].
  intros [[<- <-]|[_ [[<- <-]|[_ Hk]]%lookup_insert_Some]]%lookup_insert_Some; [done|done|].
  by rewrite lookup_empty in Hk.
Qed.

Lemma selects_web name : selects (selectorLabels name) (podLabels name).
Proof. apply two_labels_subseteq; apply (web_labels_all name). Qed.
Lemma selects_cron name : selects (cronSelectorLabels name) (cronPodLabels name).
Proof. apply two_labels_subseteq; apply (web_labels_all name). Qed.

(** The addon pods' labels, of the sync and the cleanup Job alike. *)
Definition addon_pod_labels (addon : OdooAddon) : gmap string string :=
  {[labelAddonOwner := m_Name (ad_Meta addon)]}.

(** The pods of Jobs have no [app] label at all. *)
Lemma job_labels_no_app name addon :
  upgradeLabels name !! labelApp = None ∧ backupLabels name !! labelApp = None ∧
  addon_pod_labels addon !! labelApp = None.
Proof.
  unfold upgradeLabels, backupLabels, addon_pod_labels. cbn [list_to_map foldr uncurry].
  split_and!; by simplify_map_eq.
Qed.

(** C28: only web pods get traffic. The selector that the Service and the web Deployment of an
    instance share selects the web pods of the same instance and of no
    other, and never a cron, upgrade, backup or addon pod, whatever these are called; the selector
    of the cron Deployment selects the cron pods of its instance and never a web pod. *)
Theorem selector_isolation `{Unicode} `{KubeLib} Getenv instance other hashes up bk database node js addon
    spec opts :
  let web := selectorLabels (m_Name (in_Meta instance)) in
  let cron := cronSelectorLabels (m_Name (in_Meta instance)) in
  buildBackupJobSpec Getenv bk instance database node = Some js →
  (selects web (pt_Labels (buildPodTemplate other hashes)) ↔
     m_Name (in_Meta other) = m_Name (in_Meta instance)) ∧
  (selects cron (pt_Labels (buildCronPodTemplate other hashes)) ↔
     m_Name (in_Meta other) = m_Name (in_Meta instance)) ∧
  ¬ selects web (pt_Labels (buildCronPodTemplate other hashes)) ∧
  ¬ selects cron (pt_Labels (buildPodTemplate other hashes)) ∧
  ¬ selects web (pt_Labels (js_Template (job_Spec (buildUpgradeJob up instance database node)))) ∧
  ¬ selects web (pt_Labels (js_Template js)) ∧
  ¬ selects web (pt_Labels (js_Template (job_Spec (buildSyncJob addon spec opts)))) ∧
  ¬ selects web (pt_Labels (js_Template (job_Spec (buildCleanupJob addon opts)))).
Proof.
  intros web cron Hjs.
  assert (web !! labelApp = Some appOdoo ∧ web !! labelInstance = Some (m_Name (in_Meta instance)) ∧
    cron !! labelApp = Some appOdooCron ∧ cron !! labelInstance = Some (m_Name (in_Meta instance)))
    as (Hwa & Hwi & Hca & Hci).
  { subst web cron. unfold selectorLabels, cronSelectorLabels. cbn [list_to_map foldr uncurry].
    split_and!; simplify_map_eq; done. }
  assert (∀ labels, labels !! labelApp = None → ¬ selects web labels) as Hnone.
  { intros labels Hl. eapply not_selects; [exact Hwa|by rewrite Hl]. }
  assert (pt_Labels (buildPodTemplate other hashes) = podLabels (m_Name (in_Meta other))) as ->.
  { unfold buildPodTemplate. by destruct odooProbes as [[??]?]. }
  change (pt_Labels (buildCronPodTemplate other hashes)) with (cronPodLabels (m_Name (in_Meta other))).
  assert (pt_Labels (js_Template (job_Spec (buildUpgradeJob up instance database node))) =
    upgradeLabels (m_Name (up_Meta up))) as ->.
  { unfold buildUpgradeJob. by destruct (upgradeCommand up database). }
  assert (pt_Labels (js_Template js) = backupLabels (m_Name (bk_Meta bk))) as ->.
  { unfold buildBackupJobSpec in Hjs. destruct (buildBackupPodSpec _ _ _ _ _); [|done]. by injection Hjs as <-. }
  change (pt_Labels (js_Template (job_Spec (buildSyncJob addon spec opts)))) with (addon_pod_labels addon).
  change (pt_Labels (js_Template (job_Spec (buildCleanupJob addon opts)))) with (addon_pod_labels addon).
  assert (∀ n, web_labels n) as Hweb by apply web_labels_all.
  destruct (Hweb (m_Name (in_Meta other))) as (Ha & Hi & Hca' & Hci').
  assert (∀ sel labels n m, sel !! labelInstance = Some n → labels !! labelInstance = Some m →
    selects sel labels → m = n) as Hinst.
  { intros sel labels n m Hs Hl Hsub. eapply lookup_weaken in Hs; [|exact Hsub]. congruence. }
  split_and!.
  - split; [by apply Hinst|]. intros ->. apply selects_web.
  - split; [by apply Hinst|]. intros ->. apply selects_cron.
  - eapply not_selects; [exact Hwa|by rewrite Hca'].
  - eapply not_selects; [exact Hca|by rewrite Ha].
  - apply Hnone. by apply (job_labels_no_app (m_Name (up_Meta up)) addon).
  - apply Hnone. by apply (job_labels_no_app (m_Name (bk_Meta bk)) addon).
  - apply Hnone. by apply (job_labels_no_app "" addon).
  - apply Hnone. by apply (job_labels_no_app "" addon).
Qed.

Lemma selector_isolation_witness :
  ∃ js, buildBackupJobSpec (λ _, "") scheduled backup_instance "shop" "" = Some js ∧
    ¬ selects (selectorLabels "shop") (pt_Labels (js_Template js)).
Proof.
  destruct (buildBackupJobSpec (λ _, "") scheduled backup_instance "shop" "") as [js|] eqn:Hjs;
    [|by vm_compute in Hjs].
  exists js. split; [done|].
  apply (selector_isolation (λ _, "") backup_instance backup_instance
    {| rh_config := ""; rh_secrets := ""; rh_addons := "" |} (queue_upgrade "a" "shop" "" 10) scheduled
    "shop" "" js git_addon noSyncSpec
    {| jo_Image := ""; jo_PVCName := ""; jo_NodeName := ""; jo_AddonsAccessMode := "" |} Hjs).
Defined.


Close Scope Z_scope.
