(* ===== verification/Findings.v ===== *)
(** * Behaviour of the code that its documentation does not promise

    Each lemma states what the code does in a corner the other files do not name; the comment says
    why a reader of the documentation would expect something else. *)
From S2P Require Export Security Access.

Open Scope Z_scope.

(** ** A pinned addon ignores changes of its spec

    [canSkipResync] (internal/controller/odooaddon_sync.go) reads the commit of the spec and the
    status only: once an addon pinned to a commit is synced, a change of its [gitUrl], [addonPath],
    [moduleName], [singleAddon] or secret leaves the decision to skip the resync as it is. *)
Lemma canSkipResync_reads addon addon' :
  ad_GitRef (ad_Spec addon') = ad_GitRef (ad_Spec addon) → ad_Status addon' = ad_Status addon →
  canSkipResync addon' = canSkipResync addon.
Proof. unfold canSkipResync. by intros -> ->. Qed.

(** So no pass, at any time and with any Job found, syncs the changed spec while the status stays. *)
Lemma pinned_addon_spec_change_ignored `{Unicode} `{KubeLib} `{UrlLib} addon addon' now job :
  canSkipResync addon = true →
  ad_GitRef (ad_Spec addon') = ad_GitRef (ad_Spec addon) → ad_Status addon' = ad_Status addon →
  de_Action (decideAddonSync (syncInputOf addon' now job)) ≠ addonActionCreateJob.
Proof.
  intros Hskip Hr Hs Hnew.
  destruct (decideAddonSync_contract (syncInputOf addon' now job)) as (_ & _ & Hc & _).
  apply Hc in Hnew as (_ & _ & _ & Hns). cbn [ai_SkipResync syncInputOf] in Hns.
  rewrite (canSkipResync_reads addon addon') in Hns by done. congruence.
Qed.

(** A commit id, as [commitSHA] accepts it. *)
Definition pinned_ref : string := "0123456789abcdef0123456789abcdef01234567".

(** The premise holds for an addon that was synced from one repository and now names another. *)
Definition pinned_addon (repo : string) : OdooAddon :=
  {| ad_Meta := newMeta "sale-x" "shop"; ad_Spec := ad_Spec (sync_addon "sale-x" repo pinned_ref "");
     ad_Status := {| ads_Ready := true; ads_Phase := phaseSynced; ads_ClonedCommit := pinned_ref;
       ads_LastSyncTime := Some 0; ads_Modules := ["sale_x"]; ads_Message := "";
       ads_Conditions := [] |} |}.

Definition resolved_hash (addon : OdooAddon) : res string :=
  @resolveSyncSpec unicode_ref url_ref addon ≫= λ s, Ok (syncSpecHash s).

Example pinned_addon_example :
  canSkipResync (pinned_addon "https://host/old") = true ∧
  is_Ok (resolved_hash (pinned_addon "https://host/new")) = true ∧
  resolved_hash (pinned_addon "https://host/old") ≠ resolved_hash (pinned_addon "https://host/new").
Proof. by vm_compute. Qed.

(** ** Operator-owned keys of odoo.conf under another spelling

    [blockedConfigKeys] is compared with the key as written, and odoo.conf is read by Python's
    ConfigParser, which trims and lowercases option names and also cuts them at a colon. *)
Definition config_with (key : string) : OdooInstanceSpec :=
  {| is_Image := is_Image conf_example; is_Replicas := 1; is_Version := "19.0";
     is_Edition := "community"; is_Addons := is_Addons conf_example; is_Data := is_Data conf_example;
     is_Postgres := is_Postgres conf_example; is_Config := {[key := ".*"]};
     is_Resources := is_Resources conf_example; is_AdminPasswordSecret := "admin";
     is_Upgrade := None; is_Initialize := None; is_Cron := None |}.

Lemma blockedConfigKeys_spellings :
  Forall (λ key, ∃ text, @renderOdooConf latin1 (config_with key) = Ok text ∧
            Contains text (nl +:+ key +:+ " = .*" +:+ nl) = true)
    ["dbfilter "; "DbFilter"; "dbfilter:x"].
Proof. repeat constructor; eexists; (split; [by vm_compute|by vm_compute]). Qed.

(** ** An upgrade takes over a Job of its name

    A Job that exists already under the name of an upgrade's Job is adopted without a look at its
    owner, and its result becomes the upgrade's. Here the Job belongs to another object. *)
Definition foreign_job : Job :=
  {| job_Meta := with_owners [ {| owner_UID := "deleted"; owner_Controller := true |} ] (newMeta "a-run" "shop");
     job_Spec := job_Spec finished_job; job_Status := job_Status finished_job |}.

(** The status subresource is stored, the instance and the rest are as in [queue_server]. *)
Definition stored_upgrade (u : OdooUpgrade) (o : op) : OdooUpgrade :=
  match upgrade_write o with Some v => v | None => u end.

Definition adopting_server (u : OdooUpgrade) (o : op) : answer o * OdooUpgrade :=
  (match o return answer o with
   | OpGet KJob _ => Ok foreign_job
   | OpList KUpgrade _ _ => Ok [u]
   | OpCreate k _ => Err (StatusError CodeAlreadyExists "exists")
   | o => (queue_server u tt o).1
   end, stored_upgrade u o).

Definition upgrade_pass : prog (res Result) :=
  @upgradeReconcile unicode_ref kube_ref retry_ref {| rec_Recorder := true; rec_Clientset := true |}
    {| nn_Namespace := "shop"; nn_Name := "a" |}.

(** Two passes: the second finds the upgrade Running and records the foreign Job's success. *)
Lemma upgrade_adopts_foreign_job :
  let u := queue_upgrade "a" "shop" "" 10 in
  let u1 := (run adopting_server u upgrade_pass []).1.2 in
  let u2 := (run adopting_server u1 upgrade_pass []).1.2 in
  ust_Phase (up_Status u1) = UpgradePhaseRunning ∧ ust_Phase (up_Status u2) = UpgradePhaseSucceeded ∧
  controlled_by (job_Meta foreign_job) (up_Meta u) = false.
Proof. by vm_compute. Qed.

(** ** A backup and an upgrade of one name share a Job

    Both controllers name the Job of an object [x] [x-run], and both take a Job of that name that
    exists for their own: an OdooBackup and an OdooUpgrade with the same name, created next to each
    other in a namespace, end as one Job. Whichever controller comes second reports the result of the
    other's Job as its own: a backup, or an upgrade, succeeds that never ran. *)
Lemma backup_and_upgrade_share_job name :
  (len name ≤ 59)%nat → backupJobName name = name +:+ "-run" ∧ upgradeJobName name = name +:+ "-run".
Proof.
  intros Hn. assert ((len (name +:+ "-run") <=? 63)%nat = true) as Hl.
  { apply Nat.leb_le. rewrite len_app. change (len "-run") with 4%nat. lia. }
  split; [unfold backupJobName, backupBoundedName|unfold upgradeJobName, upgradeBoundedName]; cbv zeta;
    unfold backupJobSuffix, backupMaxNameLen, upgradeJobSuffix, upgradeMaxNameLen; by rewrite Hl.
Qed.

(** ** Addon Jobs whose name is too long for a label

    Upgrade and backup Jobs have names of at most 63 bytes, the limit of the [job-name] label
    Kubernetes puts on the pods of a Job. The sync Job of an addon is its name with a suffix. *)
Lemma syncJobName_unbounded name : (58 < len name)%nat → (63 < len (syncJobName name))%nat.
Proof. unfold syncJobName. rewrite len_app. change (len syncJobSuffix) with 5%nat. lia. Qed.

(** ** The Secret of the initialisation wakes nobody

    [instancesUsingSecret] (internal/controller/odooinstance_controller.go) looks at the Secrets of
    the pods only. A pass that stops with MissingSecret because
    [spec.initialize.adminUserPasswordSecret] is missing ([checkInitSecret]) is not repeated when
    that Secret is created: the instance waits for the back-off of the failed pass. *)
Lemma init_secret_wakes_nobody (server : ∀ o, answer o) sec all :
  server (OpList KInstance (m_Namespace sec) ∅) = Ok all →
  (∀ inst, inst ∈ all → ¬ pod_secret inst (m_Name sec)) →
  (run (λ s o, (server o, s)) tt (instancesUsingSecret sec) []).1.1 = [].
Proof.
  intros Hall Hno. cbn in Hall |- *. rewrite Hall.
  assert (List.filter (λ inst, String.eqb (pg_PasswordSecret (is_Postgres (in_Spec inst))) (m_Name sec) ||
    String.eqb (is_AdminPasswordSecret (in_Spec inst)) (m_Name sec)) all = []) as ->; [|done].
  clear Hall. induction all as [|inst all IH]; [done|]. cbn [List.filter].
  destruct (String.eqb_spec (pg_PasswordSecret (is_Postgres (in_Spec inst))) (m_Name sec)) as [He|_];
    [by destruct (Hno inst); [left|left]|].
  destruct (String.eqb_spec (is_AdminPasswordSecret (in_Spec inst)) (m_Name sec)) as [He|_];
    [by destruct (Hno inst); [left|right]|].
  cbn [orb]. apply IH. intros i Hi. apply Hno. by right.
Qed.

Close Scope Z_scope.
