(* ===== verification/Manager.v ===== *)
(** * The manager (cmd/main.go)

    [main] turns the flags into the options of the manager and sets the parts of the operator up,
    one call of the controller runtime after the other; the first call that fails ends the process.
    [splitNamespaces] turns the value of [--watch-namespaces] into the namespaces the caches of the
    operator cover, and [maxConcurrent] is the number of addon workers. The parsing of the command
    line and what the runtime does with a part are not modelled. *)
From S2P Require Export Access.

(** The loop of [splitNamespaces]: [seen] and [out] hold the same names. *)
Fixpoint splitNamespacesLoop (parts out : list string) : list string :=
  match parts with
  | [] => out
  | ns :: parts =>
      let ns := TrimSpace ns in
      if String.eqb ns "" || bool_decide (ns ∈ out) then splitNamespacesLoop parts out
      else splitNamespacesLoop parts (out ++ [ns])
  end.

Definition splitNamespaces (v : string) : list string := splitNamespacesLoop (Split v ",") [].

(** [SetupWithManager] of the addon controller. *)
Definition maxConcurrent (configured : Z) : Z := if (configured <=? 0)%Z then 1%Z else configured.

Lemma splitNamespacesLoop_spec parts out :
  NoDup out → Forall (λ ns, ns ≠ "") out →
  let all := splitNamespacesLoop parts out in
  NoDup all ∧ Forall (λ ns, ns ≠ "") all ∧ out `prefix_of` all ∧
  ∀ ns, ns ∈ all ↔ ns ∈ out ∨ (ns ≠ "" ∧ ns ∈ TrimSpace <$> parts).
Proof.
  revert out. induction parts as [|p parts IH]; intros out Hnd Hne; cbn.
  { split_and!; [done|done|done|]. set_solver. }
  destruct (String.eqb_spec (TrimSpace p) "") as [He|He]; cbn.
  { destruct (IH out Hnd Hne) as (? & ? & ? & Hall). split_and!; [done|done|done|].
    intros ns. rewrite Hall, He. set_solver. }
  case_bool_decide as Hin.
  { destruct (IH out Hnd Hne) as (? & ? & ? & Hall). split_and!; [done|done|done|].
    intros ns. rewrite Hall. set_solver. }
  destruct (IH (out ++ [TrimSpace p])) as (? & ? & Hpre & Hall).
  { apply NoDup_app. split_and!; [done| |by repeat constructor; set_solver]. set_solver. }
  { apply Forall_app. by split; [|repeat constructor]. }
  split_and!; [done|done| |].
  - etrans; [|exact Hpre]. by exists [TrimSpace p].
  - intros ns. rewrite Hall. set_solver.
Qed.

(** The watched namespaces are the trimmed, non-empty parts of the value, once each: a value of
    blanks and commas gives none (all namespaces), and a repeated name is harmless. *)
Lemma splitNamespaces_spec v :
  NoDup (splitNamespaces v) ∧
  (∀ ns, ns ∈ splitNamespaces v ↔ ns ≠ "" ∧ ns ∈ TrimSpace <$> Split v ",") ∧
  (splitNamespaces v = [] ↔ ∀ part, part ∈ Split v "," → TrimSpace part = "").
Proof.
  destruct (splitNamespacesLoop_spec (Split v ",") []) as (Hnd & _ & _ & Hall); [constructor..|].
  assert (∀ ns, ns ∈ splitNamespaces v ↔ ns ≠ "" ∧ ns ∈ TrimSpace <$> Split v ",") as Helem
    by (intros ns; unfold splitNamespaces; rewrite Hall; set_solver).
  split_and!; [done|done|]. split.
  - intros Hnil part Hp. destruct (decide (TrimSpace part = "")) as [|Hne]; [done|].
    assert (TrimSpace part ∈ splitNamespaces v) as Hin
      by (apply Helem; split; [done|]; by apply list_elem_of_fmap_2).
    rewrite Hnil in Hin. by apply elem_of_nil in Hin.
  - intros Hblank. destruct (splitNamespaces v) as [|ns nss] eqn:E; [done|].
    destruct (proj1 (Helem ns)) as [Hne Hin]; [by left|].
    apply list_elem_of_fmap in Hin as (part & -> & Hp). by destruct (Hne (Hblank part Hp)).
Qed.

Lemma maxConcurrent_spec n : (1 ≤ maxConcurrent n)%Z ∧ (1 ≤ n → maxConcurrent n = n)%Z.
Proof. unfold maxConcurrent. destruct (Z.leb_spec n 0); lia. Qed.

Example splitNamespaces_example :
  splitNamespaces " shop, ,blog,shop," = ["shop"; "blog"].
Proof. by vm_compute. Qed.

(** An addon that counts for an instance wakes it: whenever the addons of the namespace list holds
    a ready addon of the instance, the watch on addons maps it to the key of the instance. *)
Lemma instancesOfAddon_complete a all instance :
  a ∈ filterReadyAddons all (m_Name (in_Meta instance)) → m_Name (in_Meta instance) ≠ "" →
  m_Namespace (ad_Meta a) = m_Namespace (in_Meta instance) →
  instancesOfAddon a = [objectKey (in_Meta instance)].
Proof.
  intros (_ & Hr & _)%filterReadyAddons_elem Hne Hns. unfold instancesOfAddon.
  rewrite Hr. apply String.eqb_neq in Hne. by rewrite Hne, Hns.
Qed.

(** ** [filepath.Join(dir, name)] on Unix *)
Fixpoint clean_segments (rooted : bool) (acc segs : list string) : list string :=
  match segs with
  | [] => reverse acc
  | seg :: segs =>
      if String.eqb seg "" || String.eqb seg "." then clean_segments rooted acc segs
      else if String.eqb seg ".." then
        match acc with
        | [] => clean_segments rooted (if rooted then [] else [".."]) segs
        | top :: below =>
            clean_segments rooted (if String.eqb top ".." then ".." :: acc else below) segs
        end
      else clean_segments rooted (seg :: acc) segs
  end.

Definition Clean (path : string) : string :=
  let rooted := HasPrefix path "/" in
  let body := Join (clean_segments rooted [] (Split path "/")) "/" in
  if rooted then "/" +:+ body else if String.eqb body "" then "." else body.

Definition JoinPath (dir name : string) : string :=
  match List.filter (λ s, negb (String.eqb s "")) [dir; name] with
  | [] => ""
  | parts => Clean (Join parts "/")
  end.

Example JoinPath_example :
  JoinPath "/certs/" "tls.crt" = "/certs/tls.crt" ∧ JoinPath "a/../../b" "./c" = "../b/c" ∧
  JoinPath "/.." "" = "/" ∧ JoinPath "." "" = ".".
Proof. by vm_compute. Qed.

(** ** The flags *)
Record Flags := {
  metricsAddr : string;
  metricsCertPath : string; metricsCertName : string; metricsCertKey : string;
  webhookCertPath : string; webhookCertName : string; webhookCertKey : string;
  enableLeaderElection : bool;
  probeAddr : string;
  secureMetrics : bool;
  enableHTTP2 : bool;
  watchNamespaces : string;
  enableWebhooks : bool;
  addonMaxConcurrentReconciles : Z
}.

(** The values when no flag is given. *)
Definition defaultFlags (Getenv : string → string) : Flags :=
  {| metricsAddr := "0";
     metricsCertPath := ""; metricsCertName := "tls.crt"; metricsCertKey := "tls.key";
     webhookCertPath := ""; webhookCertName := "tls.crt"; webhookCertKey := "tls.key";
     enableLeaderElection := false; probeAddr := ":8081"; secureMetrics := true;
     enableHTTP2 := false; watchNamespaces := Getenv "WATCH_NAMESPACES";
     enableWebhooks := false; addonMaxConcurrentReconciles := 4 |}.

(** ** The options of the manager *)

(** A TLS option of a server: HTTP/1.1 only, or the certificate of a watched pair of files. *)
Inductive TLSOption :=
  | DisableHTTP2
  | GetCertificate (certFile keyFile : string).

Record MetricsOptions := {
  BindAddress : string;
  SecureServing : bool;
  TLSOpts : list TLSOption;
  FilterProvider : bool
}.

Record ManagerOptions := {
  DefaultNamespaces : option (list string);
  Metrics : MetricsOptions;
  WebhookTLSOpts : list TLSOption;
  HealthProbeBindAddress : string;
  LeaderElection : bool;
  LeaderElectionID : string
}.

Definition tlsOpts (f : Flags) : list TLSOption := if enableHTTP2 f then [] else [DisableHTTP2].

(** The files of a certificate watcher, when a directory is given. *)
Definition certFiles (path name key : string) : option (string * string) :=
  if (0 <? len path)%nat then Some (JoinPath path name, JoinPath path key) else None.
Definition webhookCert (f : Flags) : option (string * string) :=
  certFiles (webhookCertPath f) (webhookCertName f) (webhookCertKey f).
Definition metricsCert (f : Flags) : option (string * string) :=
  certFiles (metricsCertPath f) (metricsCertName f) (metricsCertKey f).

(** [append(opts, GetCertificate)]: a slice of one element is full, so both appends copy and the
    two servers do not share options. *)
Definition with_certificate (opts : list TLSOption) (cert : option (string * string)) : list TLSOption :=
  match cert with Some (c, k) => opts ++ [GetCertificate c k] | None => opts end.

Definition metricsServerOptions (f : Flags) : MetricsOptions :=
  {| BindAddress := metricsAddr f; SecureServing := secureMetrics f;
     TLSOpts := with_certificate (tlsOpts f) (metricsCert f); FilterProvider := secureMetrics f |}.

Definition cacheNamespaces (f : Flags) : option (list string) :=
  match splitNamespaces (watchNamespaces f) with [] => None | l => Some l end.

Definition managerOptions (f : Flags) : ManagerOptions :=
  {| DefaultNamespaces := cacheNamespaces f; Metrics := metricsServerOptions f;
     WebhookTLSOpts := with_certificate (tlsOpts f) (webhookCert f);
     HealthProbeBindAddress := probeAddr f; LeaderElection := enableLeaderElection f;
     LeaderElectionID := "686a6249.odoo.io" |}.

(** ** The steps of [main] *)
Inductive setup :=
  | NewCertWatcher (certFile keyFile : string)
  | NewManager (opts : ManagerOptions)
  | SetupController (w : Wiring) (workers : option Z)
  | NewClientset
  | SetupWebhook
  | AddCertWatcher (certFile keyFile : string)
  | AddHealthzCheck
  | AddReadyzCheck
  | StartManager.

Definition watcher (step : string → string → setup) (cert : option (string * string)) : list setup :=
  match cert with Some (c, k) => [step c k] | None => [] end.

Definition before_start (f : Flags) : list setup :=
  watcher NewCertWatcher (webhookCert f) ++ watcher NewCertWatcher (metricsCert f) ++
  [ NewManager (managerOptions f); SetupController instanceWiring None; NewClientset;
    SetupController addonWiring (Some (maxConcurrent (addonMaxConcurrentReconciles f)));
    SetupController upgradeWiring None; SetupController backupWiring None ] ++
  (if enableWebhooks f then [SetupWebhook] else []) ++
  watcher AddCertWatcher (metricsCert f) ++ watcher AddCertWatcher (webhookCert f) ++
  [AddHealthzCheck; AddReadyzCheck].

Definition main_steps (f : Flags) : list setup := before_start f ++ [StartManager].

(** The steps that were taken, and the exit code: the first step that fails is the last one. *)
Fixpoint run_steps (attempt : setup → bool) (steps : list setup) : list setup * Z :=
  match steps with
  | [] => ([], 0%Z)
  | s :: steps =>
      if attempt s then let '(taken, code) := run_steps attempt steps in (s :: taken, code)
      else ([s], 1%Z)
  end.

Definition main (attempt : setup → bool) (f : Flags) : list setup * Z := run_steps attempt (main_steps f).

Lemma run_steps_spec attempt steps taken code :
  run_steps attempt steps = (taken, code) →
  (code = 0%Z ↔ ∀ s, s ∈ steps → attempt s = true) ∧
  ((taken = steps ∧ ∀ s, s ∈ steps → attempt s = true) ∨
   ∃ before s after, steps = before ++ s :: after ∧ taken = before ++ [s] ∧ attempt s = false ∧
     ∀ b, b ∈ before → attempt b = true).
Proof.
  revert taken code. induction steps as [|s steps IH]; intros taken code; cbn.
  { intros [= <- <-]. split; [split; [by intros _ ? ?%elem_of_nil|done]|].
    left. split; [done|by intros ? ?%elem_of_nil]. }
  destruct (attempt s) eqn:Hs.
  - destruct (run_steps attempt steps) as [t c]. intros [= <- <-].
    destruct (IH _ _ eq_refl) as [Hc Ht]. split; [rewrite Hc; set_solver|].
    destruct Ht as [[-> Hall]|(before & x & after & -> & -> & Hx & Hb)].
    + left. set_solver.
    + right. exists (s :: before), x, after. set_solver.
  - intros [= <- <-]. split; [split; [done|]; intros Hall; by rewrite Hall in Hs; [|left]|].
    right. exists [], s, steps. set_solver.
Qed.

Lemma before_start_elem f s :
  s ∈ before_start f ↔
  s ∈ watcher NewCertWatcher (webhookCert f) ∨ s ∈ watcher NewCertWatcher (metricsCert f) ∨
  s ∈ watcher AddCertWatcher (webhookCert f) ∨ s ∈ watcher AddCertWatcher (metricsCert f) ∨
  (s = SetupWebhook ∧ enableWebhooks f = true) ∨
  s ∈ [ NewManager (managerOptions f); NewClientset; AddHealthzCheck; AddReadyzCheck;
        SetupController instanceWiring None;
        SetupController addonWiring (Some (maxConcurrent (addonMaxConcurrentReconciles f)));
        SetupController upgradeWiring None; SetupController backupWiring None ].
Proof. unfold before_start. destruct (enableWebhooks f); set_solver. Qed.

Lemma watcher_elem step cert s : s ∈ watcher step cert ↔ ∃ c k, cert = Some (c, k) ∧ s = step c k.
Proof. destruct cert as [[c k]|]; cbn; set_solver. Qed.

Lemma main_started attempt f taken code :
  main attempt f = (taken, code) → StartManager ∈ taken →
  taken = before_start f ++ [StartManager] ∧ ∀ s, s ∈ before_start f → attempt s = true.
Proof.
  intros [_ Ht]%run_steps_spec Hin. unfold main_steps in Ht.
  assert (StartManager ∉ before_start f) as Hno.
  { rewrite before_start_elem, !watcher_elem, !elem_of_cons, elem_of_nil. naive_solver. }
  destruct Ht as [[-> Hall]|(before & s & after & Heq & -> & _ & Hb)].
  { split; [done|]. intros s Hs. apply Hall, elem_of_app. by left. }
  destruct after as [|x after _] using rev_ind.
  - apply app_inj_tail in Heq as [<- <-]. auto.
  - rewrite app_comm_cons, (assoc_L (++)) in Heq. apply app_inj_tail in Heq as [Heq _].
    destruct Hno. rewrite Heq. apply elem_of_app in Hin as [Hin| <-%list_elem_of_singleton]; apply elem_of_app;
      [by left|right; by left].
Qed.

(** The certificate watchers among the steps, and the webhook. *)
Lemma started_elem f s :
  s ∈ main_steps f →
  match s with
  | NewCertWatcher c k | AddCertWatcher c k => webhookCert f = Some (c, k) ∨ metricsCert f = Some (c, k)
  | SetupWebhook => enableWebhooks f = true
  | NewManager opts => opts = managerOptions f
  | _ => True
  end.
Proof.
  unfold main_steps. rewrite elem_of_app, before_start_elem, !watcher_elem, !elem_of_cons, !elem_of_nil.
  intros Hs. destruct_or? Hs; destruct_and? Hs; try (destruct Hs as (c & k & Hc & ->)); subst; auto; done.
Qed.

Lemma started_watchers f c k :
  webhookCert f = Some (c, k) ∨ metricsCert f = Some (c, k) →
  NewCertWatcher c k ∈ main_steps f ∧ AddCertWatcher c k ∈ main_steps f.
Proof.
  intros Hc. unfold main_steps.
  split; apply elem_of_app; left; apply before_start_elem; rewrite !watcher_elem; destruct Hc; eauto 12.
Qed.

Lemma with_certificate_head cert : hd_error (with_certificate [DisableHTTP2] cert) = Some DisableHTTP2.
Proof. by destruct cert as [[]|]. Qed.

(** C31: what [main] sets up. Whatever the flags and whichever calls of the runtime fail, the exit
    code is 0 exactly when every step succeeds, and the manager starts only after all of them: then
    the four controllers are registered (the addon controller with at least one worker), the
    webhook exactly when it is enabled, and every certificate watcher that was created runs with the
    manager. The manager it creates serves HTTP/1.1 only on both servers unless HTTP/2 is enabled,
    filters the metrics by authentication and authorisation exactly when they are served securely,
    and watches the named namespaces, each once, or all of them when the flag names none. *)
Theorem main_spec attempt f taken code :
  main attempt f = (taken, code) →
  (code = 0%Z ↔ ∀ s, s ∈ main_steps f → attempt s = true) ∧
  (StartManager ∈ taken →
     (∀ s, s ∈ main_steps f → s ≠ StartManager → s ∈ taken ∧ attempt s = true) ∧
     (∀ w, w ∈ [instanceWiring; addonWiring; upgradeWiring; backupWiring] →
        ∃ n, SetupController w n ∈ taken ∧ from_option (Z.le 1) True n) ∧
     (SetupWebhook ∈ taken ↔ enableWebhooks f = true) ∧
     (∀ c k, NewCertWatcher c k ∈ taken ↔ AddCertWatcher c k ∈ taken)) ∧
  (∀ opts, NewManager opts ∈ taken →
     (enableHTTP2 f = false → hd_error (TLSOpts (Metrics opts)) = Some DisableHTTP2 ∧
                              hd_error (WebhookTLSOpts opts) = Some DisableHTTP2) ∧
     FilterProvider (Metrics opts) = SecureServing (Metrics opts) ∧
     match DefaultNamespaces opts with
     | Some l => NoDup l ∧ ∀ ns, ns ∈ l ↔ ns ≠ "" ∧ ns ∈ TrimSpace <$> Split (watchNamespaces f) ","
     | None => ∀ part, part ∈ Split (watchNamespaces f) "," → TrimSpace part = ""
     end).
Proof.
  intros Hm. pose proof (run_steps_spec _ _ _ _ Hm) as [Hcode Htaken]. split; [done|]. split.
  - intros Hs. destruct (main_started _ _ _ _ Hm Hs) as [-> Hok].
    pose proof (proj1 (maxConcurrent_spec (addonMaxConcurrentReconciles f))) as Hworkers.
    fold (main_steps f). split_and!.
    + intros s [Hin| ->%list_elem_of_singleton]%elem_of_app Hne; [|done].
      split; [by apply elem_of_app; left|by apply Hok].
    + intros w Hw. rewrite !elem_of_cons in Hw. destruct_or! Hw; subst; [exists None|eexists (Some _)|exists None..|by apply elem_of_nil in Hw].
      all: (split; [apply elem_of_app; left; apply before_start_elem; do 5 right; rewrite !elem_of_cons; eauto 12|done]).
    + split; [by intros ?%(started_elem f)|]. intros Hw. apply elem_of_app. left. apply before_start_elem. auto 10.
    + intros c k. split; intros [? ?]%(started_elem f)%started_watchers; done.
  - intros opts Hin. assert (opts = managerOptions f) as ->.
    { assert (NewManager opts ∈ main_steps f) as Hin'.
      { destruct Htaken as [[-> _]|(before & s & after & -> & -> & _)]; set_solver. }
      exact (started_elem f _ Hin'). }
    cbn. split_and!; [|done|].
    + unfold tlsOpts. intros ->. split; apply with_certificate_head.
    + unfold cacheNamespaces. destruct (splitNamespaces_spec (watchNamespaces f)) as (Hnd & Hel & Hnil).
      destruct (splitNamespaces _) as [|n l]; [by apply Hnil|]. by split.
Qed.

(** *** Witness: everything succeeds with certificates for the webhook *)
Definition webhook_flags : Flags :=
  {| metricsAddr := ":8443";
     metricsCertPath := ""; metricsCertName := "tls.crt"; metricsCertKey := "tls.key";
     webhookCertPath := "/certs/"; webhookCertName := "tls.crt"; webhookCertKey := "tls.key";
     enableLeaderElection := true; probeAddr := ":8081"; secureMetrics := true;
     enableHTTP2 := false; watchNamespaces := " shop, ,blog,shop,";
     enableWebhooks := true; addonMaxConcurrentReconciles := 0 |}.

Lemma main_spec_witness :
  (main (λ _, true) webhook_flags).2 = 0%Z ∧
  DefaultNamespaces (managerOptions webhook_flags) = Some ["shop"; "blog"] ∧
  WebhookTLSOpts (managerOptions webhook_flags) =
    [DisableHTTP2; GetCertificate "/certs/tls.crt" "/certs/tls.key"] ∧
  AddCertWatcher "/certs/tls.crt" "/certs/tls.key" ∈ (main (λ _, true) webhook_flags).1.
Proof.
  split; [by vm_compute|]. split; [by vm_compute|]. split; [by vm_compute|].
  apply (proj1 (proj2 (main_spec (λ _, true) webhook_flags (main (λ _, true) webhook_flags).1 0%Z eq_refl)));
    [|by left].
  vm_compute. repeat (apply list_elem_of_here || apply list_elem_of_further).
Defined.
